(* ===== verification/_CoqProject ===== *)
-Q . S2P
Prelude.v
Memory.v
Bitmap.v
MemUtils.v
PageFrameAllocator.v
PfaInit.v
PageEntry.v
PageSource.v
Paging.v
PagingLive.v
Paged.v
PageMapper.v
Heap.v
HeapSpec.v
HeapRefine.v
HeapMalloc.v
HeapGrow.v
HeapClient.v
HeapRun.v
HeapFrame.v
BootPaging.v
BootMemory.v
MemorySamples.v
CString.v
KList.v
HeapList.v
PortIO.v
Pit.v
Layout.v
Descriptors.v
Framebuffer.v
Console.v
Kprintf.v
Screen.v
Output.v
Limine.v
Objects.v
StringBuilder.v
Logger.v
HeapTest.v
LogSeq.v
Panic.v
BootLog.v
Interrupts.v
Asm.v
ACPI.v
AcpiInit.v
Boot.v
BootRun.v
BootAcpi.v
Kernel.v
Responses.v
KernelSample.v
