(* ===== verification/Prelude.v ===== *)
(** * okeOS kernel: a verification development

    okeOS is a small x86-64 kernel in C++ (src/kernel).  After the Limine
    boot loader has handed over a memory map and a framebuffer, [_start]
    (kernel.cpp) sets up the terminal and the serial line, the descriptor
    tables, the page frame allocator, the page tables and the heap, on which
    the library code (strings, lists, logger) and the drivers build.

    ** The parts, and how they hang together

    - Prelude.v: machine integers with explicit conversions, the [outcome] of
      a call ([Done], [Panicked], [Undef], [NoFuel]) and its monad, counted
      loops with their invariant rules, bit-level automation, list lemmas.
    - Memory.v: byte-addressed memory, little-endian access, and lib/mem.cpp
      (memcpy, memset, memmove, memcmp, strlen).
    - Bitmap.v: lib/bitmap.cpp.  The allocator's bitmap; bit 7 of byte 0 is
      page 0.
    - MemUtils.v: mem/memutils.cpp and the memory map of limine.h.
    - PageFrameAllocator.v, PfaInit.v: mem/pageframeallocator.cpp.  The
      record [Pfa] holds the file's globals; there is one definition for each
      function.  PfaInit.v has [init], and the allocator as a state machine
      over all sequences of requests, returns of owned pages and locks of
      single pages.
    - PageEntry.v: the entry accessors and the address split of
      mem/paging.cpp, on 64-bit words.
    - PageSource.v: the interface between the allocator and the paging code,
      a class with its laws, and the allocator's instance.
    - Paging.v: [PageTable_MapMemory] on page tables in physical memory,
      against the processor's own walk [translate].
    - PagingLive.v: how many frames a sequence of mappings needs, that with so
      many every call returns, and where in memory the frames lie.
    - Paged.v: [PageTable_MapMemory] once the tables are loaded into CR3, with
      every load and store translated by the tables it works on; where low
      memory is mapped to itself and holds the tables it does what Paging.v
      says (a simulation).
    - PageMapper.v: the interface between paging and the heap, and its two
      instances: the [Machine] (memory, allocator, root table) with its tables
      reached physically, and [Paged], the same on its own tables.
    - Heap.v: mem/heap.cpp, on the bytes of the packed segment headers.
      HeapSpec.v is its specification, a list of segments with first-fit
      allocation and coalescing; HeapRefine.v, HeapMalloc.v and HeapGrow.v
      prove that the code refines it, over any page mapper; HeapClient.v has the contracts of the
      calls, HeapRun.v the heap over whole runs, HeapFrame.v what the code on
      top of the heap needs: which bytes a call leaves alone, sessions that
      allocate and give back, and that the blocks in use determine the
      segments.
    - BootPaging.v, BootMemory.v: the mapping loops of [_start] against the
      plan they carry out; allocator, page tables and heap set up one after
      the other, the heap on the tables just loaded; which memory that leaves
      alone, and that no table lies where the heap does.
    - MemorySamples.v: a booted machine and a heap on it, on which the
      theorems of paging and heap are applied.
    - CString.v: itoa, uitoa, strncmp of lib/string.cpp; lib/math.cpp.
    - KList.v: lib/list.h, on a list of cells; HeapList.v: the same list as an
      object and an array on the heap.
    - PortIO.v: lib/io.cpp, lib/serial.cpp, idt/pic.cpp, over the history of
      port accesses.
    - Pit.v: sched/pit.cpp and sched/timer.h.
    - Layout.v: the struct declarations as data and the ABI's layout rules;
      Limine.v: the structs and identifiers of limine.h as such declarations;
      Objects.v: objects of declared types in byte memory.
    - Descriptors.v: gdt/gdt.cpp, task/tss.h, and the table of idt/ints.cpp;
      the GDT is aligned to a page, so that its limit is 4095.
    - Framebuffer.v: graphics/framebuffer.cpp.
    - Console.v: terminal/terminal.cpp and debug.cpp, which call each other;
      Kprintf.v (formats, any target, the serial line), Screen.v (the
      cursor) and Output.v (the terminal as a target) have their theorems.
    - StringBuilder.v: FastStringBuilder of lib/string.cpp, an object in
      heap memory with its constructor, destructor, [new] and [delete].
    - Logger.v: lib/logger.h, which builds a format on the heap and prints it;
      heap and console share one memory.
    - HeapTest.v: the heap test of [_start].
    - LogSeq.v: log messages one after the other, on a heap that is one free
      segment.
    - Panic.v: panic.cpp with its stack traces.
    - Interrupts.v: the dispatcher, the page fault message and [loadIDT] of
      idt/ints.cpp.
    - Asm.v: idt/stubs.asm and gdt/gdtasm.asm, on a processor with the
      registers and instructions they use; a segment load checks the selector
      against the descriptor tables in memory and may fault.
    - ACPI.v: the table search and the handshake of acpi/acpi.cpp, with loads
      through the page tables; AcpiInit.v: [ACPI::init] as a whole.
    - BootLog.v: the boot log as a list of lines and targets;
      [PageTable_MapMemory] with the lines it prints, and [initHeap], which
      calls it with [debug] set: two lines on the serial port for each page.
    - Boot.v: [_start], a definition for each of its regions and their
      composition; BootRun.v, BootAcpi.v: a specification of each region;
      Kernel.v: the whole run; KernelSample.v: a machine that boots.
    - Responses.v: the requests and the loader's responses as objects in
      memory, and the kernel's reads of them.

    ** What the theorems show

    - Memory management, bottom up.  The bitmap is a set of pages; [init]
      leaves free exactly the usable pages it should; [requestPage] returns
      the lowest free page and never one that is held or not usable, over
      every run; mapping a page makes it translate to its frame and nothing
      else, and writes only to page tables and fresh frames, and so it does on
      tables that are loaded; the heap's
      headers always represent a tiled list of segments, [malloc] is first
      fit with at most two growths, [free] coalesces, freeing restores the
      list, blocks that are held never overlap, every heap page has a frame
      of its own, and a heap whose blocks are all freed is one segment again.
    - Boot.  The kernel reads exactly the responses the loader has put in
      memory.  The loops of [_start] build the planned address space (direct
      map, kernel, first 16 MiB), with enough memory they return, and the
      heap on top of it is one free segment on frames of its own, none of them
      a page table.  Run as a whole, [_start] reaches its last line on every
      machine that provides what it needs: a memory map that ends below 2 GiB,
      usable memory below 8 MiB for the bitmap, the tables and the heap, zeros
      in the heap's frames, and firmware tables in memory that is not usable.
      Exactly the expected log goes to the serial line, and the terminal's
      cursor moves over its lines for the terminal; a bad RSDP, a missing FADT, a missing memory map and a
      missing framebuffer stop it where they should.
    - Components together.  A string builder concatenates its parts and gives
      back all it took; a log message appears on its targets with the heap's
      segments as before, and so does a sequence of messages; a panic and a
      fault report what they should; the FADT is found through the page
      tables.
    - Assembly.  The gates lead to the handlers; the stack at the dispatcher's
      call is the structure of ints.h; the stub restores all registers but
      two; [loadGDT] loads the table of [gdt_init], whose segments pass the
      processor's checks, and returns.
    - Library: memmove for any overlap; numerals round-trip through itoa and
      uitoa; List is a sequence, its sort sorts, and on the heap it holds its
      object and one array, whatever was done to it.
    - Output: kprintf_serial sends exactly the text its format describes, and
      kprintf and kprintf_both move the terminal's cursor over it; a
      glyph is drawn pixel by pixel; the terminal's cursor stays on screen.
    - Tables and timer: gates and segments decode to what was put in; the
      divisor chosen is the best one; a sleep driven by ticks lasts as long
      as asked and less than a tick longer.
    - Defects, stated as theorems about the code as it is: the bitmap's
      off-by-one guard, the int overflow above 2 GiB, the free counter that
      knows one segment only, blocks that are not cleared, the store through
      a null pointer in [split], the TSS address cut in half, the dollar
      sign that hangs [__write], the sleep nobody wakes, pixels drawn behind
      the framebuffer, modules mapped over the kernel, log messages without
      a terminator, [buildAndDestroy]'s dangling pointer, the null pointer a
      silent logger frees, [lidt] on the wrong address, the FADT that is not
      packed, the ACPI handshake that does not wait, the dispatcher that is
      not given the frame, the 32-bit [iret] that resumes nothing, the memory map that is not read
      through its pointers.

    ** Modelling decisions

    - A [w]-bit integer is a [Z] in range; every conversion is written out.
      Signed overflow and accesses outside an array are [Undef]; [panic],
      which never returns, is [Panicked].
    - Loops that are not counted take fuel.  Numerals: 64 rounds, one per
      binary digit of a 64-bit value.  The allocator's search: one round per
      bit of the bitmap.  [malloc]: three calls of itself (two growths) and
      one round per segment, at most one for each 45 bytes of heap.  Strings:
      their length.  [build]: its number of parts.  In each case the theorem is that the fuel is enough.
    - Until CR3 is loaded, page tables are reached at their physical address,
      as under the loader's identity mapping; from then on ([Paged]) every
      access of [PageTable_MapMemory] goes through the kernel's own tables, and
      a page that is not mapped is a page fault.  The kernel reaches its
      tables where memory below the heap, at 8 MiB, is mapped to itself; the
      theorems ask for usable memory there, and show that every table lies
      below 8 MiB.  The ACPI code reads physical memory in the same way.
    - The virtual memory of the heap and the console, the physical memory of
      page tables and firmware, and the bytes of the frame bitmap are separate
      memories.  That they do not overlap is proved where it is not evident:
      no table lies on a frame of the heap, in page zero, which a store
      through a null header reaches, or in memory that is not usable
      ([apart_from_tables]), where the kernel's image, the screen and the
      firmware's tables are; and the heap's pages have distinct frames.  The
      heap's bytes before [initHeap] stand for what its frames hold.
    - String literals of variadic calls are objects of their own; where a
      pointer to a literal is stored (builder, logger), its address is a
      parameter and the theorem asks that the string is there.
    - The files on memory management leave out its log output, apart from
      the warnings of the page frame allocator, which mark failed calls;
      Boot.v and BootLog.v have the functions with the lines they print
      ([pfa_init_says], [MapMemory_says], [initHeap_says]), with the same
      effect on memory.
    - [panic] prints and then loops: where a run goes on to it, the result is
      [Halted] with the console it leaves; in the components below the
      console it is [Panicked].
    - What a device answers, what an interrupt does, the font's bytes, the
      content of fresh heap blocks and the addresses of globals are
      parameters.

    ** Not modelled

    The blocks of [_start] under the DBG_ macros, which are commented out, and
    [cpuid], which nothing calls; the parts of limine.h for other
    architectures and its callback codes.  Out of scope: the effect of
    processor instructions on the machine's own state (ltr, mov to cr3, hlt),
    the caches of the address translation, and interrupts during the run of
    [_start], which never enables them. *)

From stdpp Require Export base tactics numbers list gmap strings.
From Stdlib Require Export ZArith Lia Btauto.

#[global] Open Scope Z_scope.

(** ** Machine integers

    lib/num.h names the fixed-width integers.  A w-bit value is a [Z] in
    range; every conversion the compiler inserts is written out with one of
    the functions below. *)

Definition to_u8 (z : Z) : Z := z mod 2^8.
Definition to_u16 (z : Z) : Z := z mod 2^16.
Definition to_u32 (z : Z) : Z := z mod 2^32.
Definition to_u64 (z : Z) : Z := z mod 2^64.
Definition to_i64 (z : Z) : Z := (z + 2^63) mod 2^64 - 2^63.
Definition to_i32 (z : Z) : Z := (z + 2^31) mod 2^32 - 2^31.

Definition is_u8 (z : Z) : Prop := 0 <= z < 2^8.
Definition is_u16 (z : Z) : Prop := 0 <= z < 2^16.
Definition is_u32 (z : Z) : Prop := 0 <= z < 2^32.
Definition is_u64 (z : Z) : Prop := 0 <= z < 2^64.
Definition is_i32 (z : Z) : Prop := - 2^31 <= z < 2^31.
Definition is_i64 (z : Z) : Prop := - 2^63 <= z < 2^63.

(** The width and value lemmas below close the side conditions that every
    component produces; they are collected in the hint database [num]. *)
Create HintDb num.

Lemma to_u8_range z : is_u8 (to_u8 z).
Proof. apply Z.mod_pos_bound. lia. Qed.
Lemma to_u16_range z : is_u16 (to_u16 z).
Proof. apply Z.mod_pos_bound. lia. Qed.
Lemma to_u32_range z : is_u32 (to_u32 z).
Proof. apply Z.mod_pos_bound. lia. Qed.
Lemma to_u64_range z : is_u64 (to_u64 z).
Proof. apply Z.mod_pos_bound. lia. Qed.
Lemma to_u8_id z : is_u8 z → to_u8 z = z.
Proof. apply Z.mod_small. Qed.
Lemma to_u16_id z : is_u16 z → to_u16 z = z.
Proof. apply Z.mod_small. Qed.
Lemma to_u32_id z : is_u32 z → to_u32 z = z.
Proof. apply Z.mod_small. Qed.
Lemma to_u64_id z : is_u64 z → to_u64 z = z.
Proof. apply Z.mod_small. Qed.
Lemma to_i64_range z : is_i64 (to_i64 z).
Proof.
  unfold to_i64, is_i64. pose proof (Z.mod_pos_bound (z + 2^63) (2^64)). lia.
Qed.
Lemma to_i64_id z : is_i64 z → to_i64 z = z.
Proof. unfold to_i64, is_i64. intros. rewrite Z.mod_small; lia. Qed.

Lemma to_i32_id z : is_i32 z → to_i32 z = z.
Proof. unfold to_i32, is_i32. intros. rewrite Z.mod_small; lia. Qed.

(** A [u64] difference that went below zero, read back as a signed number. *)
Lemma to_i64_to_u64 z : is_i64 z → to_i64 (to_u64 z) = z.
Proof.
  unfold to_i64, to_u64, is_i64. intros.
  rewrite Z.add_mod_idemp_l by lia. rewrite Z.mod_small; lia.
Qed.

(** Reading a word as a signed number loses nothing. *)
Lemma to_u64_to_i64 z : is_u64 z → to_u64 (to_i64 z) = z.
Proof.
  unfold to_u64, to_i64, is_u64. intros. rewrite Zminus_mod_idemp_l.
  replace (z + 2^63 - 2^63) with z by lia. by apply Z.mod_small.
Qed.

Lemma to_u64_idem z : to_u64 (to_u64 z) = to_u64 z.
Proof. apply to_u64_id, to_u64_range. Qed.

#[export] Hint Resolve to_u8_range to_u16_range to_u32_range to_u64_range
  to_i64_range : num.

(** [znorm] unfolds the range predicates; [zlia] also knows division and
    remainder by constants; [u64_small] removes conversions that do nothing. *)
Ltac znorm := unfold is_u8, is_u16, is_u32, is_u64, is_i32, is_i64 in *.
Ltac zlia := znorm; Z.to_euclidean_division_equations; lia.
Ltac u64_small :=
  repeat (first [ rewrite to_u64_idem
                | rewrite to_u64_id by (znorm; lia)
                | rewrite to_u32_id by (znorm; lia)
                | rewrite to_u8_id by (znorm; lia) ]).

(** Splits a boolean comparison of the code into its two cases. *)
Ltac case_cmp :=
  match goal with
  | |- context [Z.ltb ?a ?b] => destruct (Z.ltb_spec a b)
  | |- context [Z.leb ?a ?b] => destruct (Z.leb_spec a b)
  | |- context [Z.eqb ?a ?b] => destruct (Z.eqb_spec a b)
  end.

(** ** Outcomes

    What a call of the kernel's code can end in.  [Panicked] is [panic] of
    panic.cpp, which never returns; [Undef] is a step C++ gives no meaning
    (a signed overflow, an access outside the array behind a pointer);
    [NoFuel] is a loop that was not given enough iterations. *)
Inductive outcome (A : Type) : Type :=
  | Done (a : A)
  | Panicked (msg : string)
  | Undef (why : string)
  | NoFuel.
Arguments Done {A} _.
Arguments Panicked {A} _.
Arguments Undef {A} _.
Arguments NoFuel {A}.

#[global] Instance outcome_ret : MRet outcome := @Done.
#[global] Instance outcome_bind : MBind outcome := λ A B f o,
  match o with
  | Done a => f a
  | Panicked msg => Panicked msg
  | Undef why => Undef why
  | NoFuel => NoFuel
  end.

Lemma bind_Done {A B} (f : A → outcome B) a : (Done a ≫= f) = f a.
Proof. done. Qed.

Lemma bind_Done_inv {A B} (o : outcome A) (f : A → outcome B) b :
  o ≫= f = Done b → ∃ a, o = Done a ∧ f a = Done b.
Proof. destruct o; simpl; try discriminate. eauto. Qed.

Lemma Done_inj {A} (a b : A) : Done a = Done b → a = b.
Proof. by intros [= ->]. Qed.

Lemma bind_assoc {A B C} (o : outcome A) (f : A → outcome B) (g : B → outcome C) :
  (o ≫= f) ≫= g = o ≫= (λ a, f a ≫= g).
Proof. by destruct o. Qed.

(** Did the call return?  Evaluates without its result. *)
Definition is_done {A} (o : outcome A) : bool :=
  match o with Done _ => true | _ => false end.

Lemma is_done_Done {A} (o : outcome A) : is_done o = true → { a | o = Done a }.
Proof. destruct o as [a| | |]; [by exists a|done..]. Qed.

(** Turns [x ← o; k = Done r] hypotheses into their parts. *)
Ltac inv_done :=
  repeat match goal with
  | H : (_ ≫= _) = Done _ |- _ =>
      let x := fresh "r" in let E := fresh "E" in
      apply bind_Done_inv in H as (x & E & H)
  | H : Done _ = Done _ |- _ => apply Done_inj in H
  | H : Panicked _ = Done _ |- _ => discriminate H
  | H : Undef _ = Done _ |- _ => discriminate H
  | H : NoFuel = Done _ |- _ => discriminate H
  end.

(** Reading a fallible value: [None] is an access the code may not make. *)
Definition or_undef {A} (why : string) (o : option A) : outcome A :=
  match o with Some a => Done a | None => Undef why end.

(** ** Counted loops

    [for (i = i0; i < i0 + n; i++) body], with the loop body a state
    transformer that may fail. *)
Fixpoint for_loop {St} (n : nat) (i : Z) (body : Z → St → outcome St) (s : St)
  : outcome St :=
  match n with
  | O => Done s
  | S n' => s' ← body i s; for_loop n' (i + 1) body s'
  end.

Lemma for_loop_inv {St} (I : Z → St → Prop) (n : nat) i body (s : St) :
  I i s →
  (∀ k s, i <= k < i + Z.of_nat n → I k s →
     ∃ s', body k s = Done s' ∧ I (k + 1) s') →
  ∃ s', for_loop n i body s = Done s' ∧ I (i + Z.of_nat n) s'.
Proof.
  revert i s. induction n as [|n IH]; intros i s Hi Hstep; cbn [for_loop].
  - exists s. split; [done|]. by replace (i + Z.of_nat 0) with i by lia.
  - destruct (Hstep i s) as (s1 & -> & H1); [lia|done|]. cbn.
    destruct (IH (i + 1) s1 H1) as (s2 & -> & H2).
    { intros k s' Hk. apply Hstep. lia. }
    exists s2. split; [done|].
    by replace (i + Z.of_nat (S n)) with (i + 1 + Z.of_nat n) by lia.
Qed.

Lemma for_loop_inv_partial {St} (I : Z → St → Prop) (n : nat) i body (s r : St) :
  I i s →
  (∀ k s s', i <= k < i + Z.of_nat n → I k s → body k s = Done s' →
     I (k + 1) s') →
  for_loop n i body s = Done r → I (i + Z.of_nat n) r.
Proof.
  revert i s. induction n as [|n IH]; intros i s Hi Hstep; cbn [for_loop].
  - intros [= <-]. by replace (i + Z.of_nat 0) with i by lia.
  - intros H. inv_done.
    replace (i + Z.of_nat (S n)) with (i + 1 + Z.of_nat n) by lia.
    eapply IH; [eapply (Hstep i s); eauto; lia| |done].
    intros k s1 s2 Hk. apply Hstep. lia.
Qed.

Lemma for_loop_app {St} (n m : nat) i body (s : St) :
  for_loop (n + m) i body s =
  (for_loop n i body s ≫= for_loop m (i + Z.of_nat n) body).
Proof.
  revert i s. induction n as [|n IH]; intros i s; cbn [for_loop plus].
  - cbn. by replace (i + Z.of_nat 0) with i by lia.
  - rewrite bind_assoc. destruct (body i s); cbn; try done.
    rewrite IH. by replace (i + Z.of_nat (S n)) with (i + 1 + Z.of_nat n) by lia.
Qed.

(** A loop over the elements of a list, and the counted loop that indexes an
    array of which the list holds the contents. *)
Fixpoint foldM {A St} (f : A → St → outcome St) (l : list A) (s : St) : outcome St :=
  match l with
  | [] => Done s
  | a :: l' => s' ← f a s; foldM f l' s'
  end.

Lemma for_loop_list {A St} why (f : A → St → outcome St) (l : list A) (s : St) :
  for_loop (length l) 0 (λ i s, a ← or_undef why (l !! Z.to_nat i); f a s) s
  = foldM f l s.
Proof.
  assert (∀ pre s, for_loop (length l) (Z.of_nat (length pre))
    (λ i s, a ← or_undef why ((pre ++ l) !! Z.to_nat i); f a s) s = foldM f l s) as H.
  { induction l as [|a l IH]; intros pre s'; cbn [length for_loop foldM]; [done|].
    rewrite Nat2Z.id, list_lookup_middle by done. cbn [or_undef]. rewrite bind_Done.
    destruct (f a s'); cbn; try done.
    replace (pre ++ a :: l) with ((pre ++ [a]) ++ l) by (by rewrite <- app_assoc).
    rewrite <- (IH (pre ++ [a])). f_equal. rewrite length_app. cbn. lia. }
  apply (H []).
Qed.

Lemma foldM_pure {A St} (f : A → St → outcome St) (g : A → St → St) l s :
  (∀ a s, a ∈ l → f a s = Done (g a s)) →
  foldM f l s = Done (fold_left (λ s a, g a s) l s).
Proof.
  revert s. induction l as [|a l IH]; intros s H; cbn; [done|].
  rewrite H by set_solver. cbn. apply IH. intros. apply H. set_solver.
Qed.

Lemma foldM_app {A St} (f : A → St → outcome St) l1 l2 s :
  foldM f (l1 ++ l2) s = (foldM f l1 s ≫= foldM f l2).
Proof.
  revert s. induction l1 as [|a l1 IH]; intros s; cbn; [done|].
  destruct (f a s); cbn; [apply IH|done..].
Qed.

(** Nested loops are one loop over all their rounds. *)
Lemma foldM_nested {A B St} (g : A → list B) (f : B → St → outcome St) l s :
  foldM (λ a, foldM f (g a)) l s = foldM f (concat (g <$> l)) s.
Proof.
  revert s. induction l as [|a l IH]; intros s; cbn; [done|].
  rewrite foldM_app. destruct (foldM f (g a) s); cbn; [apply IH|done..].
Qed.

Lemma foldM_fmap {A B St} (g : A → B) (f : B → St → outcome St) l s :
  foldM f (g <$> l) s = foldM (λ a, f (g a)) l s.
Proof.
  revert s. induction l as [|a l IH]; intros s; cbn; [done|].
  destruct (f (g a) s); cbn; [apply IH|done..].
Qed.

Lemma foldM_ext {A St} (f g : A → St → outcome St) l s :
  (∀ a s, f a s = g a s) → foldM f l s = foldM g l s.
Proof.
  intros H. revert s. induction l as [|a l IH]; intros s; cbn; [done|].
  rewrite H. destruct (g a s); cbn; [apply IH|done..].
Qed.

Lemma for_loop_foldM {St} (n : nat) i (body : Z → St → outcome St) s :
  for_loop n i body s = foldM body (seqZ i (Z.of_nat n)) s.
Proof.
  revert i s. induction n as [|n IH]; intros i s; [done|].
  rewrite seqZ_cons by lia. cbn [for_loop foldM].
  replace (Z.pred (Z.of_nat (S n))) with (Z.of_nat n) by lia.
  destruct (body i s); cbn; [apply IH|done..].
Qed.

(** The same loop over a body that cannot fail. *)
Fixpoint for_pure {St} (n : nat) (i : Z) (body : Z → St → St) (s : St) : St :=
  match n with
  | O => s
  | S n' => for_pure n' (i + 1) body (body i s)
  end.

Lemma for_pure_inv {St} (I : Z → St → Prop) (n : nat) i body (s : St) :
  I i s →
  (∀ k s, i <= k < i + Z.of_nat n → I k s → I (k + 1) (body k s)) →
  I (i + Z.of_nat n) (for_pure n i body s).
Proof.
  revert i s. induction n as [|n IH]; intros i s Hi Hstep; cbn [for_pure].
  - by replace (i + Z.of_nat 0) with i by lia.
  - replace (i + Z.of_nat (S n)) with (i + 1 + Z.of_nat n) by lia.
    apply IH; [apply Hstep; [lia|done]|]. intros k s' Hk. apply Hstep. lia.
Qed.

(** ** Bit-level reasoning

    [bitwise] proves an equation between words by comparing every bit; the
    database [bits] pushes [Z.testbit] through the operations of the code. *)
Create Rewrite HintDb bits.

Lemma testbit_mod_pow2 a n i :
  0 <= n → Z.testbit (a mod 2^n) i = bool_decide (i < n) && Z.testbit a i.
Proof.
  intros Hn. destruct (decide (i < n)) as [Hi|Hi].
  - rewrite bool_decide_true by done. by rewrite Z.mod_pow2_bits_low.
  - rewrite bool_decide_false by done. rewrite Z.mod_pow2_bits_high; [done|lia].
Qed.

Lemma testbit_range a n i : 0 <= a < 2^n → 0 <= n <= i → Z.testbit a i = false.
Proof.
  intros Ha Hi. rewrite <- (Z.mod_small a (2^n)) by done.
  apply Z.mod_pow2_bits_high. lia.
Qed.

Lemma testbit_ones n i :
  0 <= n → 0 <= i → Z.testbit (Z.ones n) i = bool_decide (i < n).
Proof.
  intros Hn Hi. destruct (decide (i < n)).
  - rewrite bool_decide_true by done. by rewrite Z.ones_spec_low by lia.
  - rewrite bool_decide_false by done. by rewrite Z.ones_spec_high by lia.
Qed.

Lemma testbit_pow2 n i : 0 <= n → Z.testbit (2^n) i = bool_decide (i = n).
Proof.
  intros Hn. destruct (decide (i = n)) as [->|].
  - rewrite bool_decide_true by done. by apply Z.pow2_bits_true.
  - rewrite bool_decide_false by done. apply Z.pow2_bits_false. lia.
Qed.

#[export] Hint Rewrite Z.land_spec Z.lor_spec Z.lxor_spec Z.ldiff_spec
  Z.testbit_0_l : bits.
#[export] Hint Rewrite Z.shiftl_spec Z.shiftr_spec Z.lnot_spec testbit_mod_pow2
  testbit_ones testbit_pow2 using lia : bits.

Ltac case_bools :=
  repeat match goal with
  | |- context [bool_decide ?P] =>
      destruct (decide P);
      [rewrite (bool_decide_true P) by assumption
      |rewrite (bool_decide_false P) by assumption]
  end.

Ltac bitwise :=
  apply Z.bits_inj'; intros ?i ?Hi; autorewrite with bits;
  case_bools; try lia; try btauto.

(** ** Lists *)

Lemma lookup_Z_Some {A} (l : list A) (i : Z) :
  0 <= i < Z.of_nat (length l) → is_Some (l !! Z.to_nat i).
Proof. intros. apply lookup_lt_is_Some. lia. Qed.

Lemma list_ne_cons {A} (x : A) (l : list A) : l ≠ x :: l.
Proof. intros E. apply (f_equal length) in E. cbn in E. lia. Qed.

Lemma list_snoc_inv {A} (l : list A) : l = [] ∨ ∃ l' x, l = l' ++ [x].
Proof.
  destruct (decide (l = [])) as [|Hne]; [by left|right].
  destruct (exists_last Hne) as (l' & x & ->). eauto.
Qed.

Lemma elem_of_middle {A} (x : A) l1 l2 : x ∈ l1 ++ x :: l2.
Proof. apply elem_of_app. right. apply elem_of_cons. by left. Qed.

Lemma elem_of_app_mid {A} (u x : A) l1 l2 : u ∈ l1 ++ l2 → u ∈ l1 ++ x :: l2.
Proof.
  intros [Hu|Hu]%elem_of_app; apply elem_of_app; [by left|right].
  apply elem_of_cons. by right.
Qed.

Lemma elem_of_other {A} (u s : A) pre post :
  u ∈ pre ++ s :: post → u ≠ s → u ∈ pre ++ post.
Proof.
  intros [Hu|[->|Hu]%elem_of_cons]%elem_of_app Hne; [|done|]; apply elem_of_app; auto.
Qed.

Lemma elem_of_concat {A} (x : A) (ls : list (list A)) :
  x ∈ concat ls ↔ ∃ l, x ∈ l ∧ l ∈ ls.
Proof.
  rewrite list_elem_of_In, in_concat. setoid_rewrite <- list_elem_of_In.
  split; intros (l & ? & ?); eauto.
Qed.

Lemma Z_to_nat_inj i j : 0 <= i → 0 <= j → Z.to_nat i = Z.to_nat j → i = j.
Proof. lia. Qed.

(** A property of all elements, decided by a test that implies it. *)
Lemma forallb_forall_list {A} (f : A → bool) (P : A → Prop) (l : list A) :
  (∀ a, f a = true → P a) → forallb f l = true → Forall P l.
Proof.
  intros HP H. apply Forall_forall. intros a Ha. rewrite forallb_forall in H.
  apply HP, H. by apply list_elem_of_In.
Qed.

(** The bytes of a C string literal. *)
Definition bytes_of_string (s : string) : list Z :=
  (λ a, Z.of_N (Ascii.N_of_ascii a)) <$> String.list_ascii_of_string s.
