(* ===== verification/Memory.v ===== *)
(** * Byte-addressed memory and lib/mem.cpp

    The store that the pointers of the kernel reach: a finite map from
    addresses to bytes, in which an address that was never written reads as
    zero.  On it, the little-endian loads and stores of the wider integer
    types and the five routines of lib/mem.cpp, with the theorems that they
    do what the C standard asks of them (mem.h, lines 5-9). *)

From S2P Require Import Prelude.

Abbreviation mem := (gmap Z Z).

Definition rd8 (m : mem) (a : Z) : Z := to_u8 (default 0 (m !! a)).
Definition wr8 (m : mem) (a v : Z) : mem := <[a := to_u8 v]> m.

(** Little-endian access to [n] consecutive bytes. *)
Fixpoint rdN (n : nat) (m : mem) (a : Z) : Z :=
  match n with
  | O => 0
  | S n' => rd8 m a + 2^8 * rdN n' m (a + 1)
  end.
Fixpoint wrN (n : nat) (m : mem) (a v : Z) : mem :=
  match n with
  | O => m
  | S n' => wrN n' (wr8 m a v) (a + 1) (v / 2^8)
  end.

Abbreviation rd32 := (rdN 4).
Abbreviation rd64 := (rdN 8).
Abbreviation wr32 := (wrN 4).
Abbreviation wr64 := (wrN 8).

#[global] Arguments rdN : simpl never.
#[global] Arguments wrN : simpl never.

(** Two stores are the same when every load agrees. *)
Definition mem_eq (m1 m2 : mem) : Prop := ∀ a, rd8 m1 a = rd8 m2 a.
Infix "≡ₘ" := mem_eq (at level 70, no associativity).

#[global] Instance mem_eq_equivalence : Equivalence mem_eq.
Proof.
  split; [by intros m a|by intros m1 m2 H a|].
  intros m1 m2 m3 H1 H2 a. by rewrite H1.
Qed.

(** ** Loads and stores *)

Lemma rd8_range m a : is_u8 (rd8 m a).
Proof. apply to_u8_range. Qed.

Lemma rd8_wr8 m a v b :
  rd8 (wr8 m a v) b = if decide (a = b) then to_u8 v else rd8 m b.
Proof.
  unfold rd8, wr8. rewrite lookup_insert. case_decide; [|done].
  simpl. apply to_u8_id, to_u8_range.
Qed.

Lemma rd8_wr8_eq m a v : rd8 (wr8 m a v) a = to_u8 v.
Proof. rewrite rd8_wr8. by case_decide. Qed.

Lemma rd8_wr8_ne m a v b : a ≠ b → rd8 (wr8 m a v) b = rd8 m b.
Proof. intros. rewrite rd8_wr8. by case_decide. Qed.

#[global] Instance rd8_proper : Proper (mem_eq ==> (=) ==> (=)) rd8.
Proof. intros m1 m2 H a ? <-. apply H. Qed.
#[global] Instance wr8_proper : Proper (mem_eq ==> (=) ==> (=) ==> mem_eq) wr8.
Proof. intros m1 m2 H a ? <- v ? <- b. rewrite !rd8_wr8. by rewrite H. Qed.

Lemma rdN_S n m a : rdN (S n) m a = rd8 m a + 2^8 * rdN n m (a + 1).
Proof. done. Qed.
Lemma wrN_S n m a v : wrN (S n) m a v = wrN n (wr8 m a v) (a + 1) (v / 2^8).
Proof. done. Qed.

Lemma rdN_ext n m1 m2 a :
  (∀ i, a <= i < a + Z.of_nat n → rd8 m1 i = rd8 m2 i) → rdN n m1 a = rdN n m2 a.
Proof.
  revert a. induction n as [|n IH]; intros a H; [done|].
  rewrite !rdN_S, (IH (a + 1)), (H a) by (try lia; intros; apply H; lia). done.
Qed.

#[global] Instance rdN_proper n : Proper (mem_eq ==> (=) ==> (=)) (rdN n).
Proof. intros m1 m2 H a ? <-. apply rdN_ext. intros. apply H. Qed.

Lemma rdN_range n m a : 0 <= rdN n m a < 2^(8 * Z.of_nat n).
Proof.
  revert a. induction n as [|n IH]; intros a; [done|].
  rewrite rdN_S. specialize (IH (a + 1)). pose proof (rd8_range m a). znorm.
  replace (8 * Z.of_nat (S n)) with (8 + 8 * Z.of_nat n) by lia.
  rewrite Z.pow_add_r by lia. lia.
Qed.

Lemma rd64_range m a : is_u64 (rd64 m a).
Proof. apply (rdN_range 8). Qed.

Lemma rd8_wrN_ne n m a v b :
  b < a ∨ a + Z.of_nat n <= b → rd8 (wrN n m a v) b = rd8 m b.
Proof.
  revert m a v. induction n as [|n IH]; intros m a v H; [done|].
  rewrite wrN_S, IH by lia. apply rd8_wr8_ne. lia.
Qed.

Lemma rd8_wrN n m a v x :
  a <= x < a + Z.of_nat n → rd8 (wrN n m a v) x = to_u8 (v / 2^(8 * (x - a))).
Proof.
  revert m a v. induction n as [|n IH]; intros m a v Hx; [lia|]. rewrite wrN_S.
  destruct (decide (x = a)) as [->|Hne].
  - rewrite rd8_wrN_ne, rd8_wr8_eq by lia. rewrite Z.sub_diag, Z.mul_0_r. by rewrite Z.div_1_r.
  - rewrite IH by lia. rewrite Z.div_div, <- Z.pow_add_r by lia. do 3 f_equal. lia.
Qed.

Lemma rdN_wrN_ne n k m a v b :
  b + Z.of_nat k <= a ∨ a + Z.of_nat n <= b → rdN k (wrN n m a v) b = rdN k m b.
Proof. intros. apply rdN_ext. intros. apply rd8_wrN_ne. lia. Qed.

Lemma rdN_wr8_ne k m a v b :
  b + Z.of_nat k <= a ∨ a < b → rdN k (wr8 m a v) b = rdN k m b.
Proof. intros. apply rdN_ext. intros. apply rd8_wr8_ne. lia. Qed.

Lemma rdN_wrN_eq n m a v : rdN n (wrN n m a v) a = v mod 2^(8 * Z.of_nat n).
Proof.
  revert m a v. induction n as [|n IH]; intros m a v.
  { rewrite Z.mod_1_r. done. }
  rewrite rdN_S, wrN_S, IH, rd8_wrN_ne, rd8_wr8_eq by lia. unfold to_u8.
  replace (8 * Z.of_nat (S n)) with (8 + 8 * Z.of_nat n) by lia.
  rewrite Z.pow_add_r by lia. rewrite Z.rem_mul_r; [lia|lia|].
  apply Z.pow_pos_nonneg; lia.
Qed.

Lemma rd64_wr64_eq m a v : rd64 (wr64 m a v) a = to_u64 v.
Proof. apply (rdN_wrN_eq 8). Qed.

Lemma rdN_app n k m a : rdN (n + k) m a = rdN n m a + 2^(8 * Z.of_nat n) * rdN k m (a + Z.of_nat n).
Proof.
  revert a. induction n as [|n IH]; intros a.
  - rewrite Z.add_0_r. cbn [plus]. change (rdN 0 m a) with 0. lia.
  - cbn [plus]. rewrite !rdN_S, IH.
    replace (8 * Z.of_nat (S n)) with (8 + 8 * Z.of_nat n) by lia. rewrite Z.pow_add_r by lia.
    replace (a + 1 + Z.of_nat n) with (a + Z.of_nat (S n)) by lia. lia.
Qed.

(** The bytes of [m1] at [lo .. hi] and those of [m2] elsewhere. *)
Definition splice (lo hi : Z) (m1 m2 : mem) : mem :=
  filter (λ p, lo <= p.1 < hi) m1 ∪ filter (λ p, ¬ (lo <= p.1 < hi)) m2.

Lemma rd8_splice lo hi m1 m2 a :
  rd8 (splice lo hi m1 m2) a = if decide (lo <= a < hi) then rd8 m1 a else rd8 m2 a.
Proof.
  unfold rd8, splice. rewrite lookup_union, !map_lookup_filter.
  destruct (m1 !! a), (m2 !! a); cbn; case_decide; repeat case_guard; try done; try (exfalso; tauto).
Qed.

(** [mem_simpl] resolves loads after stores whose distance [lia] can decide. *)
Ltac mem_simpl :=
  repeat first
    [ rewrite rd64_wr64_eq
    | rewrite rd8_wr8_eq
    | rewrite rd8_wr8_ne by lia
    | rewrite rd8_wrN_ne by lia
    | rewrite rdN_wr8_ne by lia
    | rewrite rdN_wrN_ne by lia ].

(** ** lib/mem.cpp *)

(** Every routine takes the memory and gives back its result and the memory
    after it; [p[i]] is the byte at [p + i]. *)

Definition memcpy (m : mem) (dest src n : Z) : Z * mem :=
  (dest,
   for_pure (Z.to_nat n) 0 (λ i m, wr8 m (dest + i) (rd8 m (src + i))) m).

Definition memset (m : mem) (s c n : Z) : Z * mem :=
  (s, for_pure (Z.to_nat n) 0 (λ i m, wr8 m (s + i) (to_u8 c)) m).

Definition memmove (m : mem) (dest src n : Z) : Z * mem :=
  (dest,
   if dest <? src then
     for_pure (Z.to_nat n) 0 (λ i m, wr8 m (dest + i) (rd8 m (src + i))) m
   else if src <? dest then
     (* for (i = n; i > 0; i--): step k runs with i = n - k *)
     for_pure (Z.to_nat n) 0
       (λ k m, let i := n - k in
               wr8 m (dest + (i - 1)) (rd8 m (src + (i - 1)))) m
   else m).

Fixpoint memcmp_loop (n : nat) (i : Z) (m : mem) (s1 s2 : Z) : Z :=
  match n with
  | O => 0
  | S n' =>
      if negb (rd8 m (s1 + i) =? rd8 m (s2 + i))
      then (if rd8 m (s1 + i) <? rd8 m (s2 + i) then -1 else 1)
      else memcmp_loop n' (i + 1) m s1 s2
  end.

Definition memcmp (m : mem) (s1 s2 n : Z) : Z := memcmp_loop (Z.to_nat n) 0 m s1 s2.

(** [strlen] runs until it meets a zero byte, counting in a [u32]. *)
Fixpoint strlen_loop (fuel : nat) (m : mem) (str i : Z) : outcome Z :=
  match fuel with
  | O => NoFuel
  | S f =>
      if rd8 m str =? 0 then Done i
      else strlen_loop f m (str + 1) (to_u32 (i + 1))
  end.

Definition strlen (fuel : nat) (m : mem) (str : Z) : outcome Z :=
  strlen_loop fuel m str 0.

#[global] Arguments memset : simpl never.
#[global] Arguments memcpy : simpl never.
#[global] Arguments memmove : simpl never.

(** ** What the routines do *)

(** The byte at [a] after [n] bytes were moved from [src] to [dest] at once. *)
Definition moved (m : mem) (dest src n a : Z) : Z :=
  if decide (dest <= a < dest + n) then rd8 m (src + (a - dest)) else rd8 m a.

Lemma forward_copy_spec m dest src n a :
  dest <= src ∨ src + n <= dest →
  rd8 (for_pure (Z.to_nat n) 0 (λ i m, wr8 m (dest + i) (rd8 m (src + i))) m) a
  = moved m dest src n a.
Proof.
  intros Hov. destruct (decide (n <= 0)) as [Hn|Hn].
  { replace (Z.to_nat n) with 0%nat by lia. unfold moved. case_decide; [lia|done]. }
  revert a.
  pose proof (for_pure_inv (λ i m', ∀ a, rd8 m' a = moved m dest src i a)
    (Z.to_nat n) 0 (λ i m, wr8 m (dest + i) (rd8 m (src + i))) m) as H.
  cbn beta in H. replace (0 + Z.of_nat (Z.to_nat n)) with n in H by lia.
  apply H; clear H.
  - intros a. unfold moved. case_decide; [lia|done].
  - intros k m' Hk IH a. rewrite rd8_wr8, !IH. unfold moved.
    repeat case_decide; subst; try lia; try done;
      rewrite ?to_u8_id by apply rd8_range; f_equal; lia.
Qed.

Lemma backward_copy_spec m dest src n a :
  src <= dest →
  rd8 (for_pure (Z.to_nat n) 0 (λ k m, let i := n - k in
         wr8 m (dest + (i - 1)) (rd8 m (src + (i - 1)))) m) a
  = moved m dest src n a.
Proof.
  intros Hov. destruct (decide (n <= 0)) as [Hn|Hn].
  { replace (Z.to_nat n) with 0%nat by lia. unfold moved. case_decide; [lia|done]. }
  pose proof (for_pure_inv
    (λ k m', ∀ a, rd8 m' a = moved m (dest + (n - k)) (src + (n - k)) k a)
    (Z.to_nat n) 0 (λ k m, let i := n - k in
       wr8 m (dest + (i - 1)) (rd8 m (src + (i - 1)))) m) as H.
  cbn beta in H. replace (0 + Z.of_nat (Z.to_nat n)) with n in H by lia.
  rewrite H; clear H.
  - by replace (n - n) with 0 by lia; rewrite !Z.add_0_r.
  - intros b. unfold moved. case_decide; [lia|done].
  - intros k m' Hk IH b. cbn zeta. rewrite rd8_wr8, !IH. unfold moved.
    repeat case_decide; subst; try lia; try done;
      rewrite ?to_u8_id by apply rd8_range; f_equal; lia.
Qed.

Lemma rd8_memmove m dest src n a :
  rd8 (memmove m dest src n).2 a = moved m dest src n a.
Proof.
  unfold memmove. cbn [snd]. case_cmp.
  { apply forward_copy_spec. lia. }
  case_cmp; [apply backward_copy_spec; lia|].
  unfold moved. case_decide; [|done]. f_equal. lia.
Qed.

(** [memmove] moves any block onto any other, overlapping or not: every
    byte of the destination holds what the source byte held before the call,
    every other byte of memory is unchanged, and it returns the destination. *)
Theorem memmove_correct m dest src n :
  (memmove m dest src n).1 = dest ∧
  ∀ a, rd8 (memmove m dest src n).2 a = moved m dest src n a.
Proof. split; [done|]. apply rd8_memmove. Qed.

Lemma memcpy_moved m dest src n a :
  dest <= src ∨ src + n <= dest → rd8 (memcpy m dest src n).2 a = moved m dest src n a.
Proof. apply forward_copy_spec. Qed.

(** [memcpy] agrees with [memmove] whenever the destination does not
    start inside the source block. *)
Theorem memcpy_correct m dest src n :
  dest <= src ∨ src + n <= dest → (memcpy m dest src n).2 ≡ₘ (memmove m dest src n).2.
Proof.
  intros H a. rewrite rd8_memmove. by apply forward_copy_spec.
Qed.

Lemma rd8_memset m s c n a :
  rd8 (memset m s c n).2 a = if decide (s <= a < s + n) then to_u8 c else rd8 m a.
Proof.
  unfold memset. cbn [snd]. destruct (decide (n <= 0)) as [Hn|Hn].
  { replace (Z.to_nat n) with 0%nat by lia. case_decide; [lia|done]. }
  revert a.
  pose proof (for_pure_inv (λ i m', ∀ a, rd8 m' a =
    if decide (s <= a < s + i) then to_u8 c else rd8 m a)
    (Z.to_nat n) 0 (λ i m, wr8 m (s + i) (to_u8 c)) m) as H.
  cbn beta in H. replace (0 + Z.of_nat (Z.to_nat n)) with n in H by lia.
  apply H; clear H.
  - intros a. case_decide; [lia|done].
  - intros k m' Hk IH a. rewrite rd8_wr8, IH.
    repeat case_decide; subst; try lia; try done; apply to_u8_id, to_u8_range.
Qed.

(** The first index from [i] on where the two blocks differ, within [n]. *)
Lemma memcmp_loop_spec n i m s1 s2 :
  (memcmp_loop n i m s1 s2 = 0 ∧
   ∀ k, i <= k < i + Z.of_nat n → rd8 m (s1 + k) = rd8 m (s2 + k)) ∨
  (∃ k, i <= k < i + Z.of_nat n ∧
    (∀ j, i <= j < k → rd8 m (s1 + j) = rd8 m (s2 + j)) ∧
    ((rd8 m (s1 + k) < rd8 m (s2 + k) ∧ memcmp_loop n i m s1 s2 = -1) ∨
     (rd8 m (s2 + k) < rd8 m (s1 + k) ∧ memcmp_loop n i m s1 s2 = 1))).
Proof.
  revert i. induction n as [|n IH]; intros i; cbn [memcmp_loop].
  { left. split; [done|lia]. }
  destruct (Z.eqb_spec (rd8 m (s1 + i)) (rd8 m (s2 + i))); cbn [negb].
  - destruct (IH (i + 1)) as [[H0 Hall]|(k & Hk & Hpre & Hres)].
    + left. split; [done|]. intros k Hk.
      destruct (decide (k = i)) as [->|]; [done|apply Hall; lia].
    + right. exists k. split; [lia|]. split; [|done]. intros j Hj.
      destruct (decide (j = i)) as [->|]; [done|apply Hpre; lia].
  - right. exists i. split; [lia|]. split; [lia|]. case_cmp; [by left|].
    right. split; [lia|done].
Qed.

(** [memcmp] returns 0 exactly when the two blocks are equal; otherwise
    its sign is the order of the first pair of bytes that differ. *)
Theorem memcmp_correct m s1 s2 n :
  (memcmp m s1 s2 n = 0 ↔ ∀ k, 0 <= k < n → rd8 m (s1 + k) = rd8 m (s2 + k)) ∧
  (∀ k, 0 <= k < n →
     (∀ j, 0 <= j < k → rd8 m (s1 + j) = rd8 m (s2 + j)) →
     rd8 m (s1 + k) ≠ rd8 m (s2 + k) →
     memcmp m s1 s2 n = if rd8 m (s1 + k) <? rd8 m (s2 + k) then -1 else 1).
Proof.
  unfold memcmp.
  destruct (memcmp_loop_spec (Z.to_nat n) 0 m s1 s2)
    as [[-> Hall]|(k & Hk & Hpre & Hres)].
  - split; [split; [|done]; intros _ k Hk; apply Hall; lia|].
    intros k Hk _ []. apply Hall. lia.
  - assert (rd8 m (s1 + k) ≠ rd8 m (s2 + k)) as Hne by lia. split.
    + split; [lia|]. intros Hall. destruct Hne. apply Hall. lia.
    + intros k' Hk' Hpre' Hne'.
      assert (k' = k) as ->.
      { destruct (Z.lt_trichotomy k k') as [?|[?|?]]; [|done|].
        - destruct Hne. apply Hpre'. lia.
        - destruct Hne'. apply Hpre. lia. }
      case_cmp; lia.
Qed.

(** The NUL-terminated string [s] lies at address [p]. *)
Definition cstr (m : mem) (p : Z) (s : list Z) : Prop :=
  (∀ i c, s !! i = Some c → rd8 m (p + Z.of_nat i) = c ∧ c ≠ 0) ∧
  rd8 m (p + Z.of_nat (length s)) = 0.

Lemma cstr_cons m p c s :
  cstr m p (c :: s) ↔ (rd8 m p = c ∧ c ≠ 0) ∧ cstr m (p + 1) s.
Proof.
  unfold cstr. cbn [length]. split.
  - intros [H1 H2]. split_and!.
    + rewrite <- (Z.add_0_r p). by apply (H1 0%nat).
    + by apply (H1 0%nat).
    + intros i c' Hi. replace (p + 1 + Z.of_nat i) with (p + Z.of_nat (S i)) by lia.
      by apply H1.
    + rewrite <- H2. f_equal. lia.
  - intros [[H1 H2] [H3 H4]]. split.
    + intros [|i] c' Hi.
      * injection Hi as <-. by rewrite Z.add_0_r.
      * replace (p + Z.of_nat (S i)) with (p + 1 + Z.of_nat i) by lia. by apply H3.
    + rewrite <- H4. f_equal. lia.
Qed.

(** Is there such a string? *)
Fixpoint cstrb (m : mem) (p : Z) (s : list Z) : bool :=
  match s with
  | [] => rd8 m p =? 0
  | c :: s' => (rd8 m p =? c) && negb (c =? 0) && cstrb m (p + 1) s'
  end.

Lemma cstrb_spec m p s : cstrb m p s = true ↔ cstr m p s.
Proof.
  revert p. induction s as [|c s IH]; intros p; cbn [cstrb].
  - rewrite Z.eqb_eq. split.
    + intros E. split; [intros i c Hi; by rewrite lookup_nil in Hi|]. cbn. by rewrite Z.add_0_r.
    + intros [_ E]. cbn in E. by rewrite Z.add_0_r in E.
  - rewrite cstr_cons, <- IH, !andb_true_iff, negb_true_iff, Z.eqb_eq, Z.eqb_neq. tauto.
Qed.

#[global] Instance cstr_decision m p s : Decision (cstr m p s).
Proof. refine (cast_if (decide (cstrb m p s = true))); by rewrite <- cstrb_spec. Defined.

Lemma strlen_loop_spec fuel m p s i :
  cstr m p s → (length s < fuel)%nat → is_u32 i →
  strlen_loop fuel m p i = Done (to_u32 (i + Z.of_nat (length s))).
Proof.
  revert p s i. induction fuel as [|f IH]; intros p s i Hs Hf Hi; [lia|].
  cbn [strlen_loop]. destruct s as [|c s].
  - destruct Hs as [_ H0]. cbn in H0. rewrite Z.add_0_r in H0. rewrite H0. cbn.
    by rewrite Z.add_0_r, to_u32_id.
  - apply cstr_cons in Hs as [[Hc Hc0] Hs]. cbn in Hf.
    destruct (Z.eqb_spec (rd8 m p) 0) as [E|E]; [lia|].
    rewrite (IH _ s) by (try done; try lia; apply to_u32_range).
    f_equal. unfold to_u32. rewrite Z.add_mod_idemp_l by lia. cbn [length].
    f_equal. lia.
Qed.

(** [strlen] terminates on every NUL-terminated string and returns its
    length, reduced to the 32 bits of its counter. *)
Theorem strlen_correct fuel m p s :
  cstr m p s → (length s < fuel)%nat →
  strlen fuel m p = Done (to_u32 (Z.of_nat (length s))).
Proof. intros. unfold strlen. by rewrite (strlen_loop_spec _ _ _ s). Qed.

(** A store for the witnesses: a string at 0x100 and two blocks at 0x200. *)
Definition sample_mem : mem :=
  list_to_map (zip (seqZ 256 6) (bytes_of_string "okeOS")) ∪
  list_to_map (zip (seqZ 512 8) [1; 2; 3; 4; 1; 2; 9; 4]).

Lemma memcpy_correct_witness :
  (512 <= 514 ∨ 514 + 4 <= 512) ∧
  (memcpy sample_mem 512 514 4).2 ≡ₘ (memmove sample_mem 512 514 4).2.
Proof. split; [left; lia|apply memcpy_correct; left; lia]. Defined.

Lemma sample_cstr : cstr sample_mem 256 (bytes_of_string "okeOS").
Proof. apply cstrb_spec. vm_compute. reflexivity. Qed.

Lemma strlen_correct_witness : strlen 6 sample_mem 256 = Done 5.
Proof.
  rewrite (strlen_correct 6 sample_mem 256 (bytes_of_string "okeOS")).
  - reflexivity.
  - exact sample_cstr.
  - vm_compute. lia.
Defined.
