(* ===== verification/Bitmap.v ===== *)
(** * lib/bitmap.cpp: the bitmap behind the page frame allocator

    A [Bitmap] has its [Size] in bytes, the address its [Buffer] pointer
    holds and the bytes that lie there.  Bit [i] is bit [7 - i mod 8] of byte [i / 8].  An access to a
    byte behind the end of the buffer is [Undef]. *)

From S2P Require Import Prelude.

Record Bitmap := mkBitmap { Size : Z; BufferAddr : Z; Buffer : list Z }.

Definition Bitmap_get (b : Bitmap) (offset : Z) : outcome bool :=
  if to_u64 (Size b * 8) <? offset then Done false
  else
    temp ← or_undef "Bitmap::get" (Buffer b !! Z.to_nat (offset / 8));
    let temp := to_u8 (Z.shiftl temp (offset mod 8)) in
    let temp := Z.shiftr temp 7 in
    Done (negb (temp =? 0)).

Definition Bitmap_set (b : Bitmap) (offset : Z) (value : bool)
  : outcome (bool * Bitmap) :=
  if to_u64 (Size b * 8) <? offset then Done (false, b)
  else
    let off2 := Z.to_nat (offset / 8) in
    let bitIndexer := Z.shiftr 128 (offset mod 8) in
    old ← or_undef "Bitmap::set" (Buffer b !! off2);
    let cleared := to_u8 (Z.land old (Z.lnot bitIndexer)) in
    let byte := if value then to_u8 (Z.lor cleared bitIndexer) else cleared in
    Done (true, mkBitmap (Size b) (BufferAddr b) (<[off2 := byte]> (Buffer b))).

(** ** The bits of a bitmap *)

Definition bm_bit (b : Bitmap) (i : Z) : bool :=
  Z.testbit (default 0 (Buffer b !! Z.to_nat (i / 8))) (7 - i mod 8).

(** A bitmap whose buffer has the size it says, and whose bit indices fit in
    the [u64] that [get] and [set] compare them in. *)
Record bitmap_ok (b : Bitmap) : Prop := {
  bm_size : 0 <= Size b < 2^60;
  bm_buffer : Size b <= Z.of_nat (length (Buffer b));
  bm_bytes : Forall is_u8 (Buffer b)
}.

Lemma bm_byte b i :
  bitmap_ok b → 0 <= i < Size b * 8 →
  ∃ x, Buffer b !! Z.to_nat (i / 8) = Some x ∧ is_u8 x.
Proof.
  intros [Hs Hb Hx] Hi.
  destruct (lookup_Z_Some (Buffer b) (i / 8)) as [x Hlook]; [zlia|].
  exists x. split; [done|]. by eapply Forall_lookup_1.
Qed.

Lemma bm_guard b i :
  bitmap_ok b → i <= Size b * 8 → (to_u64 (Size b * 8) <? i) = false.
Proof. intros [? ? ?] ?. u64_small. by apply Z.ltb_ge. Qed.

Lemma testbit_bool (b : bool) i : Z.testbit (Z.b2z b) i = bool_decide (i = 0) && b.
Proof.
  destruct b; [|by rewrite Z.testbit_0_l, andb_false_r].
  rewrite andb_true_r. apply (testbit_pow2 0). lia.
Qed.

Lemma shift_out_bit x k :
  0 <= k < 8 →
  negb (Z.shiftr (to_u8 (Z.shiftl x k)) 7 =? 0) = Z.testbit x (7 - k).
Proof.
  intros Hk. unfold to_u8.
  assert (Z.shiftr (Z.shiftl x k mod 2^8) 7 = Z.b2z (Z.testbit x (7 - k))) as ->.
  { apply Z.bits_inj'. intros i Hi. autorewrite with bits. rewrite testbit_bool.
    case_bools; try lia; subst; done. }
  by destruct (Z.testbit x (7 - k)).
Qed.

Lemma testbit_update x k j (v : bool) :
  0 <= k < 8 → 0 <= j < 8 →
  Z.testbit
    (if v then to_u8 (Z.lor (to_u8 (Z.land x (Z.lnot (Z.shiftr 128 k)))) (Z.shiftr 128 k))
     else to_u8 (Z.land x (Z.lnot (Z.shiftr 128 k)))) (7 - j)
  = if decide (j = k) then v else Z.testbit x (7 - j).
Proof.
  intros Hk Hj. change 128 with (2^7). unfold to_u8.
  case_decide; destruct v; autorewrite with bits; case_bools; try lia; btauto.
Qed.

Lemma Bitmap_get_in b i :
  bitmap_ok b → 0 <= i < Size b * 8 → Bitmap_get b i = Done (bm_bit b i).
Proof.
  intros Hok Hi. unfold Bitmap_get, bm_bit. rewrite bm_guard by (done || lia).
  destruct (bm_byte b i Hok Hi) as (x & -> & _). cbn [or_undef]. rewrite bind_Done.
  rewrite shift_out_bit by zlia. done.
Qed.

Lemma bm_guard_out b i :
  bitmap_ok b → Size b * 8 < i → (to_u64 (Size b * 8) <? i) = true.
Proof. intros [? ? ?] ?. u64_small. by apply Z.ltb_lt. Qed.

Lemma Bitmap_get_out b i :
  bitmap_ok b → Size b * 8 < i → Bitmap_get b i = Done false.
Proof. intros Hok Hi. unfold Bitmap_get. by rewrite bm_guard_out. Qed.

Lemma Bitmap_set_out b i v :
  bitmap_ok b → Size b * 8 < i → Bitmap_set b i v = Done (false, b).
Proof. intros Hok Hi. unfold Bitmap_set. by rewrite bm_guard_out. Qed.

Lemma Bitmap_set_in b i v :
  bitmap_ok b → 0 <= i < Size b * 8 →
  ∃ b', Bitmap_set b i v = Done (true, b') ∧ bitmap_ok b' ∧ Size b' = Size b ∧
        BufferAddr b' = BufferAddr b ∧
        ∀ j, 0 <= j → bm_bit b' j = if decide (j = i) then v else bm_bit b j.
Proof.
  intros Hok Hi. unfold Bitmap_set. rewrite bm_guard by (done || lia).
  destruct (bm_byte b i Hok Hi) as (x & Hx & Hx8). rewrite Hx. cbn [or_undef].
  rewrite bind_Done. eexists. split; [done|]. cbn [Size Buffer].
  split_and!; try done.
  - destruct Hok as [H1 H2 H3]. split; cbn [Size Buffer]; rewrite ?length_insert; try done.
    apply Forall_insert; [done|]. destruct v; apply to_u8_range.
  - intros j Hj. unfold bm_bit. cbn [Buffer].
    destruct (decide (j / 8 = i / 8)) as [E|E].
    + rewrite E, list_lookup_insert_eq by (by apply lookup_lt_Some in Hx).
      cbn [default from_option id]. rewrite testbit_update by zlia. rewrite Hx.
      cbn [default from_option id].
      repeat case_decide; try done; exfalso; zlia.
    + rewrite list_lookup_insert_ne by zlia.
      case_decide; [subst; done|done].
Qed.

(** Beyond the size, [get] reads [false] and [set] reports failure and
    changes nothing; inside it, [get] returns the bit and no access leaves the
    buffer. *)
Theorem Bitmap_bounds b i v :
  bitmap_ok b →
  (0 <= i < Size b * 8 → Bitmap_get b i = Done (bm_bit b i)) ∧
  (Size b * 8 < i → Bitmap_get b i = Done false ∧ Bitmap_set b i v = Done (false, b)).
Proof.
  intros Hok. split; [by apply Bitmap_get_in|].
  intros Hi. split; [by apply Bitmap_get_out|by apply Bitmap_set_out].
Qed.

(** [set] changes exactly the bit it is asked to change and keeps the
    bitmap well formed, so [get] after [set] reads the written value at that
    offset and the old one everywhere else. *)
Theorem Bitmap_get_set b i v :
  bitmap_ok b → 0 <= i < Size b * 8 →
  ∃ b', Bitmap_set b i v = Done (true, b') ∧ bitmap_ok b' ∧ Size b' = Size b ∧
        Bitmap_get b' i = Done v ∧
        ∀ j, 0 <= j < Size b * 8 → j ≠ i → Bitmap_get b' j = Bitmap_get b j.
Proof.
  intros Hok Hi. destruct (Bitmap_set_in b i v Hok Hi) as (b' & Hs & Hok' & Hsz & _ & Hbit).
  exists b'. split_and!; try done.
  - rewrite Bitmap_get_in, Hbit by (done || lia). by case_decide.
  - intros j Hj Hne. rewrite !Bitmap_get_in, Hbit by (done || lia). by case_decide.
Qed.

(** The size guard of [get] and [set] lets one offset too many through:
    at offset [Size * 8] of a buffer of exactly [Size] bytes, both access the
    byte behind its end. *)
Theorem Bitmap_guard_off_by_one b v :
  bitmap_ok b → Z.of_nat (length (Buffer b)) = Size b →
  Bitmap_get b (Size b * 8) = Undef "Bitmap::get" ∧
  Bitmap_set b (Size b * 8) v = Undef "Bitmap::set".
Proof.
  intros Hok Hlen. unfold Bitmap_get, Bitmap_set.
  rewrite bm_guard by (done || lia).
  replace (Size b * 8 / 8) with (Size b) by zlia.
  by rewrite lookup_ge_None_2 by lia.
Qed.

Definition sample_bitmap : Bitmap := mkBitmap 2 4096 [128; 1].

Lemma sample_bitmap_ok : bitmap_ok sample_bitmap.
Proof. split; cbn; [lia|lia|]. repeat constructor; znorm; lia. Qed.

Lemma Bitmap_bounds_witness :
  Bitmap_get sample_bitmap 0 = Done true ∧
  Bitmap_set sample_bitmap 17 true = Done (false, sample_bitmap).
Proof.
  split.
  - destruct (Bitmap_bounds sample_bitmap 0 true sample_bitmap_ok) as [-> _];
      [reflexivity|cbn; lia].
  - apply (Bitmap_bounds sample_bitmap 17 true sample_bitmap_ok). cbn. lia.
Defined.

Lemma Bitmap_get_set_witness :
  ∃ b', Bitmap_set sample_bitmap 3 true = Done (true, b') ∧
        Bitmap_get b' 3 = Done true ∧ Bitmap_get b' 15 = Done true.
Proof.
  destruct (Bitmap_get_set sample_bitmap 3 true sample_bitmap_ok)
    as (b' & H1 & _ & _ & H2 & H3); [cbn; lia|].
  exists b'. split; [exact H1|]. split; [exact H2|].
  rewrite H3; [reflexivity|cbn; lia|lia].
Defined.

Lemma Bitmap_guard_off_by_one_witness :
  Bitmap_get sample_bitmap 16 = Undef "Bitmap::get" ∧
  Bitmap_set sample_bitmap 16 true = Undef "Bitmap::set".
Proof. apply (Bitmap_guard_off_by_one sample_bitmap true sample_bitmap_ok). reflexivity. Defined.
