(* ===== verification/MemUtils.v ===== *)
(** * mem/memutils.cpp: the boot loader's memory map and the direct map

    The Limine memory map is the response record of limine.h with the array
    of entries that the code reads: [( *memmap.entries)[i]], that is the
    entries that lie one after the other from the first one on. *)

From S2P Require Import Prelude.

Record limine_memmap_entry := mkEntry { e_base : Z; e_length : Z; e_type : Z }.

Record limine_memmap_response := mkMemmap {
  mm_revision : Z;
  mm_entry_count : Z;
  mm_entries : list limine_memmap_entry
}.

Definition LIMINE_MEMMAP_USABLE := 0.
Definition LIMINE_MEMMAP_KERNEL_AND_MODULES := 6.

Definition entry_at (memmap : limine_memmap_response) (i : Z)
  : outcome limine_memmap_entry :=
  or_undef "memmap.entries" (mm_entries memmap !! Z.to_nat i).

(** [for (u64 i = 0; i < memmap.entry_count; i++)] over the entries. *)
Definition for_entries {St} (memmap : limine_memmap_response)
    (body : limine_memmap_entry → St → outcome St) (s : St) : outcome St :=
  for_loop (Z.to_nat (mm_entry_count memmap)) 0
    (λ i s, entry ← entry_at memmap i; body entry s) s.

Definition getMemoryMappingName (type : Z) : string :=
  if type =? 0 then "Usable Memory"
  else if type =? 1 then "Reserved Memory"
  else if type =? 2 then "ACPI Reclaimable"
  else if type =? 3 then "ACPI NVS"
  else if type =? 4 then "[!] Bad Memory"
  else if type =? 5 then "Bootloader Reclaimable"
  else if type =? 6 then "Kernel"
  else if type =? 7 then "Framebuffer"
  else "Unknown".

Definition entry_end (e : limine_memmap_entry) : Z := to_u64 (e_base e + e_length e).

Definition getMemorySize (memmap : limine_memmap_response) : outcome Z :=
  for_entries memmap (λ entry size, Done (to_u64 (size + e_length entry))) 0.

Definition getMemoryArealSize (memmap : limine_memmap_response) : outcome Z :=
  for_entries memmap
    (λ entry size, Done (if size <? entry_end entry then entry_end entry else size)) 0.

Definition toPhys (mem_hhdmOffset virt : Z) : Z := to_u64 (virt - mem_hhdmOffset).
Definition toVirt (mem_hhdmOffset phys : Z) : Z := to_u64 (phys + mem_hhdmOffset).

(** ** Properties *)

(** What the boot loader promises of its map: as many entries as it counts,
    each of them inside the 64-bit address space. *)
Definition entry_ok (e : limine_memmap_entry) : Prop :=
  0 <= e_base e ∧ 0 <= e_length e ∧ e_base e + e_length e < 2^64.

Record memmap_ok (mm : limine_memmap_response) : Prop := {
  mm_count : mm_entry_count mm = Z.of_nat (length (mm_entries mm));
  mm_each : Forall entry_ok (mm_entries mm)
}.

Lemma entry_end_ok e : entry_ok e → entry_end e = e_base e + e_length e.
Proof. intros (? & ? & ?). unfold entry_end. by u64_small. Qed.

Lemma for_entries_foldM {St} mm body (s : St) :
  memmap_ok mm → for_entries mm body s = foldM body (mm_entries mm) s.
Proof.
  intros [Hc _]. unfold for_entries, entry_at. rewrite Hc, Nat2Z.id.
  apply for_loop_list.
Qed.

(** The highest end address of the entries. *)
Fixpoint memory_top (l : list limine_memmap_entry) : Z :=
  match l with
  | [] => 0
  | e :: l' => Z.max (e_base e + e_length e) (memory_top l')
  end.

Lemma memory_top_nonneg l : 0 <= memory_top l.
Proof. induction l as [|e l IH]; cbn; lia. Qed.

Lemma memory_top_bound l e : e ∈ l → e_base e + e_length e <= memory_top l.
Proof.
  induction l as [|e' l IH]; [by intros ?%not_elem_of_nil|].
  cbn. intros [->|H]%elem_of_cons; [lia|]. specialize (IH H). lia.
Qed.

Lemma memory_top_attained l :
  memory_top l ≠ 0 → ∃ e, e ∈ l ∧ e_base e + e_length e = memory_top l.
Proof.
  induction l as [|e l IH]; cbn; [done|]. intros Hne.
  destruct (Z.max_spec (e_base e + e_length e) (memory_top l)) as [[Hlt E]|[Hge E]].
  - rewrite E in *. destruct (IH Hne) as (e' & He' & <-).
    exists e'. split; [by apply elem_of_cons; right|done].
  - exists e. split; [by apply elem_of_cons; left|done].
Qed.

Lemma memory_top_u64 l : Forall entry_ok l → memory_top l < 2^64.
Proof.
  intros H. destruct (decide (memory_top l = 0)) as [->|Hne]; [lia|].
  destruct (memory_top_attained l Hne) as (e & He & <-).
  rewrite Forall_forall in H. destruct (H e He). lia.
Qed.

Lemma areal_fold l size :
  Forall entry_ok l → 0 <= size →
  foldM (λ entry size, Done (if size <? entry_end entry then entry_end entry else size))
    l size = Done (Z.max size (memory_top l)).
Proof.
  revert size. induction l as [|e l IH]; intros size Hok Hs; cbn [foldM memory_top].
  { f_equal. lia. }
  apply Forall_cons in Hok as [He Hl]. rewrite bind_Done, entry_end_ok by done.
  destruct He as (? & ? & ?).
  rewrite IH by (done || (case_cmp; lia)). f_equal.
  case_cmp; lia.
Qed.

Lemma getMemoryArealSize_top mm :
  memmap_ok mm → getMemoryArealSize mm = Done (memory_top (mm_entries mm)).
Proof.
  intros Hok. unfold getMemoryArealSize. rewrite for_entries_foldM by done.
  rewrite areal_fold by (lia || apply Hok).
  f_equal. pose proof (memory_top_nonneg (mm_entries mm)). lia.
Qed.

(** [getMemoryArealSize] is the least upper bound of the entries' end
    addresses: it bounds every entry, and some entry ends there. *)
Theorem getMemoryArealSize_correct mm :
  memmap_ok mm →
  ∃ top, getMemoryArealSize mm = Done top ∧
    (∀ e, e ∈ mm_entries mm → e_base e + e_length e <= top) ∧
    (top ≠ 0 → ∃ e, e ∈ mm_entries mm ∧ e_base e + e_length e = top).
Proof.
  intros Hok. exists (memory_top (mm_entries mm)). split_and!.
  - by apply getMemoryArealSize_top.
  - apply memory_top_bound.
  - apply memory_top_attained.
Qed.

(** [toPhys] and [toVirt] are inverse bijections of the 64-bit address
    space, for every offset of the direct map. *)
Theorem toPhys_toVirt_inverse off a :
  is_u64 a → toPhys off (toVirt off a) = a ∧ toVirt off (toPhys off a) = a.
Proof.
  intros Ha. unfold toPhys, toVirt, to_u64.
  rewrite Zminus_mod_idemp_l, Z.add_mod_idemp_l by lia.
  replace (a + off - off) with a by lia. replace (a - off + off) with a by lia.
  by rewrite Z.mod_small.
Qed.

(** The memory map of a machine with 1 MiB, in the shape Limine gives it. *)
Definition sample_memmap : limine_memmap_response := mkMemmap 0 3
  [ mkEntry 4096 (155 * 4096) 0; mkEntry (160 * 4096) (96 * 4096) 1;
    mkEntry (256 * 4096) (64 * 4096) 0 ].

Lemma sample_memmap_ok : memmap_ok sample_memmap.
Proof. split; [done|]. repeat constructor; cbn; lia. Qed.

Lemma getMemoryArealSize_correct_witness :
  ∃ top, getMemoryArealSize sample_memmap = Done top ∧ top = 320 * 4096.
Proof.
  destruct (getMemoryArealSize_correct sample_memmap sample_memmap_ok)
    as (top & Htop & _). exists top. split; [exact Htop|].
  vm_compute in Htop. by injection Htop as <-.
Defined.

Lemma toPhys_toVirt_inverse_witness :
  toPhys 18446603336221196288 (toVirt 18446603336221196288 4096) = 4096.
Proof. apply toPhys_toVirt_inverse. znorm. lia. Defined.
