(* ===== verification/PageFrameAllocator.v ===== *)
(** * mem/pageframeallocator.cpp: the physical page frame allocator

    The globals of the file are the record [Pfa]; every function of the file
    is a function on it.  A page is named by its physical address; its index
    in the bitmap is that address divided by 4096, and a set bit means the
    page is locked.  The lines the code prints on the serial port are kept
    where they report a failure ([pfa_warnings]). *)

From S2P Require Import Prelude Bitmap MemUtils.

Inductive pfa_warning :=
  | WarnLock (addr idx size : Z)
  | WarnFree (addr idx size : Z).

Record Pfa := mkPfa {
  mem_freeMemory : Z;
  mem_usedMemory : Z;
  bitmapIdx : Z;
  pfa_end : Z;
  mem_pfaBitmap : Bitmap;
  pfa_memmap : limine_memmap_response;
  oomPanics : bool;
  pfa_warnings : list pfa_warning
}.

(** ** Field updates *)

Definition set_counters (p : Pfa) (free used : Z) : Pfa :=
  mkPfa free used (bitmapIdx p) (pfa_end p) (mem_pfaBitmap p) (pfa_memmap p)
    (oomPanics p) (pfa_warnings p).
Definition set_idx (p : Pfa) (idx : Z) : Pfa :=
  mkPfa (mem_freeMemory p) (mem_usedMemory p) idx (pfa_end p) (mem_pfaBitmap p)
    (pfa_memmap p) (oomPanics p) (pfa_warnings p).
Definition set_bitmap (p : Pfa) (b : Bitmap) : Pfa :=
  mkPfa (mem_freeMemory p) (mem_usedMemory p) (bitmapIdx p) (pfa_end p) b
    (pfa_memmap p) (oomPanics p) (pfa_warnings p).
Definition set_end (p : Pfa) (e : Z) : Pfa :=
  mkPfa (mem_freeMemory p) (mem_usedMemory p) (bitmapIdx p) e (mem_pfaBitmap p)
    (pfa_memmap p) (oomPanics p) (pfa_warnings p).
Definition set_memmap (p : Pfa) (mm : limine_memmap_response) : Pfa :=
  mkPfa (mem_freeMemory p) (mem_usedMemory p) (bitmapIdx p) (pfa_end p)
    (mem_pfaBitmap p) mm (oomPanics p) (pfa_warnings p).
Definition set_oomPanics (p : Pfa) (b : bool) : Pfa :=
  mkPfa (mem_freeMemory p) (mem_usedMemory p) (bitmapIdx p) (pfa_end p)
    (mem_pfaBitmap p) (pfa_memmap p) b (pfa_warnings p).
Definition warn (p : Pfa) (w : pfa_warning) : Pfa :=
  mkPfa (mem_freeMemory p) (mem_usedMemory p) (bitmapIdx p) (pfa_end p)
    (mem_pfaBitmap p) (pfa_memmap p) (oomPanics p) (pfa_warnings p ++ [w]).

(** The globals before [mem_pageframeallocator_init] ran. *)
Definition pfa_boot : Pfa :=
  mkPfa 0 0 0 0 (mkBitmap 0 0 []) (mkMemmap 0 0 []) false [].

Definition INT_MAX : Z := 2^31 - 1.

(** ** The operations *)

(** [region] is what lies in memory from [addr] on. *)
Definition mem_pageframeallocator_initBitmap (p : Pfa) (bitmapSize addr : Z)
    (region : list Z) : outcome Pfa :=
  buf ← for_loop (Z.to_nat bitmapSize) 0
          (λ i buf,
             if negb (i <? Z.of_nat (length buf)) then Undef "bitmap buffer"
             else if i =? INT_MAX then Undef "int overflow in initBitmap"
             else Done (<[Z.to_nat i := 0]> buf)) region;
  Done (set_idx (set_bitmap p (mkBitmap bitmapSize addr buf)) 0).

Definition mem_pageframeallocator_lockPage (p : Pfa) (addr : Z) : outcome Pfa :=
  let index := addr / 4096 in
  locked ← Bitmap_get (mem_pfaBitmap p) index;
  if (locked : bool) then Done p
  else
    '(ok, b) ← Bitmap_set (mem_pfaBitmap p) index true;
    if (ok : bool) then
      Done (set_counters (set_bitmap p b)
              (to_u64 (mem_freeMemory p - 4096)) (to_u64 (mem_usedMemory p + 4096)))
    else Done (warn p (WarnLock addr index (Size (mem_pfaBitmap p)))).

Definition mem_pageframeallocator_lockPageNonAvailable (p : Pfa) (addr : Z)
  : outcome Pfa :=
  let index := addr / 4096 in
  locked ← Bitmap_get (mem_pfaBitmap p) index;
  if (locked : bool) then Done p
  else
    '(ok, b) ← Bitmap_set (mem_pfaBitmap p) index true;
    if (ok : bool) then Done (set_bitmap p b)
    else Done (warn p (WarnLock addr index (Size (mem_pfaBitmap p)))).

Definition mem_pageframeallocator_freePage (p : Pfa) (addr : Z) : outcome Pfa :=
  let index := addr / 4096 in
  locked ← Bitmap_get (mem_pfaBitmap p) index;
  if negb locked then Done p
  else
    '(ok, b) ← Bitmap_set (mem_pfaBitmap p) index false;
    if (ok : bool) then
      let p := set_counters (set_bitmap p b)
                 (to_u64 (mem_freeMemory p + 4096)) (to_u64 (mem_usedMemory p - 4096)) in
      Done (if index <? bitmapIdx p then set_idx p index else p)
    else Done (warn p (WarnFree addr index (Size (mem_pfaBitmap p)))).

(** The loop counter of the free routine is a [u64] ... *)
Definition mem_pageframeallocator_freePages (p : Pfa) (addr pageCount : Z) : outcome Pfa :=
  for_loop (Z.to_nat pageCount) 0
    (λ i p, mem_pageframeallocator_freePage p (to_u64 (addr + to_u64 (i * 4096)))) p.

(** ... and of the lock routines an [int], so that [i * 4096] is computed in
    [int], where an overflow has no defined meaning. *)
Definition mem_pageframeallocator_lockPages (p : Pfa) (addr pageCount : Z) : outcome Pfa :=
  for_loop (Z.to_nat pageCount) 0
    (λ i p, if INT_MAX <? i * 4096 then Undef "int overflow in lockPages"
            else mem_pageframeallocator_lockPage p (to_u64 (addr + i * 4096))) p.

Definition mem_pageframeallocator_lockPagesNonAvailable (p : Pfa) (addr pageCount : Z)
  : outcome Pfa :=
  for_loop (Z.to_nat pageCount) 0
    (λ i p, if INT_MAX <? i * 4096 then Undef "int overflow in lockPagesNonAvailable"
            else mem_pageframeallocator_lockPageNonAvailable p (to_u64 (addr + i * 4096))) p.

(** The search of [requestPage]; [fuel] bounds the iterations of its [for]. *)
Fixpoint requestPage_loop (fuel : nat) (p : Pfa) : outcome (Z * Pfa) :=
  match fuel with
  | O => NoFuel
  | S f =>
      if bitmapIdx p <? to_u64 (Size (mem_pfaBitmap p) * 8) then
        locked ← Bitmap_get (mem_pfaBitmap p) (bitmapIdx p);
        if (locked : bool) then requestPage_loop f (set_idx p (to_u64 (bitmapIdx p + 1)))
        else
          p' ← mem_pageframeallocator_lockPage p (to_u64 (bitmapIdx p * 4096));
          Done (to_u64 (bitmapIdx p' * 4096), p')
      else Panicked "Out of memory"
  end.

Definition mem_pageframeallocator_requestPage (p : Pfa) : outcome (Z * Pfa) :=
  if oomPanics p && (mem_freeMemory p <? 16384) then Panicked "Out of memory"
  else
    requestPage_loop (S (Z.to_nat (Size (mem_pfaBitmap p) * 8 - bitmapIdx p))) p.

(** The scan of the memory map at the start of [init]: base and size of the
    largest usable entry, and the end of the address space. *)
Definition init_scan (memmap : limine_memmap_response) (end0 : Z)
  : outcome (Z * Z * Z) :=
  for_entries memmap
    (λ entry '(seg, size, e),
       let '(seg, size) :=
         if (e_type entry =? 0) && (size <? e_length entry)
         then (e_base entry, e_length entry) else (seg, size) in
       Done (seg, size, if e <? entry_end entry then entry_end entry else e))
    (0, 0, end0).

(** [init]; [region] is what lies in memory from the direct-map address of
    the largest free segment on, where the bitmap is put. *)
Definition mem_pageframeallocator_init (p : Pfa) (memmap : limine_memmap_response)
    (mem_hhdmOffset : Z) (region : list Z) : outcome Pfa :=
  let p := set_memmap p memmap in
  '(largestFreeSegment, largestFreeSegmentSize, e) ← init_scan memmap (pfa_end p);
  let p := set_end p e in
  if largestFreeSegment =? 0 then Panicked "No free memory found!"
  else
    totalMemorySize ← getMemoryArealSize memmap;
    let totalMemorySizeInPages := totalMemorySize / 4096 in
    let bitmapSize := totalMemorySize / 4096 / 8 + 1 in
    let bitmapSizeInPages := bitmapSize / 4096 + 1 in
    p ← mem_pageframeallocator_initBitmap p bitmapSize
          (to_u64 (mem_hhdmOffset + largestFreeSegment)) region;
    p ← mem_pageframeallocator_lockPages p 0 totalMemorySizeInPages;
    p ← for_entries memmap
          (λ entry p,
             if e_type entry =? 0 then
               mem_pageframeallocator_freePages p (e_base entry) (e_length entry / 4096)
             else Done p) p;
    let p := set_oomPanics (set_counters p largestFreeSegmentSize 0) true in
    mem_pageframeallocator_lockPages p largestFreeSegment bitmapSizeInPages.

Definition mem_getFreeRAM (p : Pfa) : Z := mem_freeMemory p.
Definition mem_getUsedRAM (p : Pfa) : Z := mem_usedMemory p.
Definition mem_getTotalRAM (p : Pfa) : Z := to_u64 (mem_freeMemory p + mem_usedMemory p).
Definition mem_getMemoryMapSize (p : Pfa) : Z := pfa_end p.

Fixpoint memoryMap_lookup (n : nat) (i : Z) (mm : limine_memmap_response) (addr : Z)
  : outcome string :=
  match n with
  | O => Done "No mapping found"%string
  | S n' =>
      entry ← entry_at mm i;
      if (e_base entry <? addr) && (addr <? entry_end entry)
      then Done (getMemoryMappingName (e_type entry))
      else memoryMap_lookup n' (i + 1) mm addr
  end.

Definition mem_getMemoryMapForAddress (p : Pfa) (addr : Z) : outcome string :=
  memoryMap_lookup (Z.to_nat (mm_entry_count (pfa_memmap p))) 0 (pfa_memmap p) addr.

(** ** The state invariant *)

Definition locked (p : Pfa) (i : Z) : bool := bm_bit (mem_pfaBitmap p) i.
Definition pages (p : Pfa) : Z := Size (mem_pfaBitmap p) * 8.

(** The search position never moves past a free page: everything below it is
    locked.  This is what lets [requestPage] resume where it stopped. *)
Record pfa_ok (p : Pfa) : Prop := {
  pfa_bitmap : bitmap_ok (mem_pfaBitmap p);
  pfa_size : Size (mem_pfaBitmap p) <= 2^37;
  pfa_free : is_u64 (mem_freeMemory p);
  pfa_used : is_u64 (mem_usedMemory p);
  pfa_idx : 0 <= bitmapIdx p <= pages p;
  pfa_low : ∀ i, 0 <= i < bitmapIdx p → locked p i = true
}.

(** What no operation after [init] changes. *)
Record pfa_same (p p' : Pfa) : Prop := {
  same_pages : pages p' = pages p;
  same_buffer : BufferAddr (mem_pfaBitmap p') = BufferAddr (mem_pfaBitmap p);
  same_end : pfa_end p' = pfa_end p;
  same_memmap : pfa_memmap p' = pfa_memmap p;
  same_oom : oomPanics p' = oomPanics p;
  same_warnings : pfa_warnings p' = pfa_warnings p
}.

#[global] Instance pfa_same_preorder : PreOrder pfa_same.
Proof.
  split; [by intros p|]. intros p1 p2 p3 [] []. split; congruence.
Qed.

(** Page [i] was locked: exactly its bit changes, and the two counters move
    by one page when it was free before. *)
Record lock_post (p : Pfa) (i : Z) (p' : Pfa) : Prop := {
  lp_ok : pfa_ok p';
  lp_same : pfa_same p p';
  lp_idx : bitmapIdx p' = bitmapIdx p;
  lp_locked : ∀ j, 0 <= j → locked p' j = bool_decide (j = i) || locked p j;
  lp_free : mem_freeMemory p' =
    if locked p i then mem_freeMemory p else to_u64 (mem_freeMemory p - 4096);
  lp_used : mem_usedMemory p' =
    if locked p i then mem_usedMemory p else to_u64 (mem_usedMemory p + 4096)
}.

Record free_post (p : Pfa) (i : Z) (p' : Pfa) : Prop := {
  fp_ok : pfa_ok p';
  fp_same : pfa_same p p';
  fp_idx : bitmapIdx p' = if locked p i then Z.min (bitmapIdx p) i else bitmapIdx p;
  fp_locked : ∀ j, 0 <= j → locked p' j = negb (bool_decide (j = i)) && locked p j;
  fp_free : mem_freeMemory p' =
    if locked p i then to_u64 (mem_freeMemory p + 4096) else mem_freeMemory p;
  fp_used : mem_usedMemory p' =
    if locked p i then to_u64 (mem_usedMemory p - 4096) else mem_usedMemory p
}.

Lemma decide_orb (j i : Z) (v w : bool) :
  w = v → (if decide (j = i) then true else w) = bool_decide (j = i) || v.
Proof. intros ->. by destruct (decide (j = i)); case_bool_decide. Qed.

Lemma lockPage_in p addr i :
  pfa_ok p → addr / 4096 = i → 0 <= i < pages p →
  ∃ p', mem_pageframeallocator_lockPage p addr = Done p' ∧ lock_post p i p'.
Proof.
  intros Hok <- Hi. unfold mem_pageframeallocator_lockPage.
  rewrite Bitmap_get_in by (done || apply Hok). rewrite bind_Done.
  fold (locked p (addr / 4096)). destruct (locked p (addr / 4096)) eqn:El.
  - exists p. split; [done|]. split; rewrite ?El; try done.
    intros j Hj. by case_bool_decide; subst.
  - destruct (Bitmap_set_in (mem_pfaBitmap p) (addr / 4096) true)
      as (b & -> & Hb & Hsz & Hba & Hbit); [apply Hok|done|]. rewrite bind_Done.
    eexists. split; [done|].
    assert (∀ j, 0 <= j → bm_bit b j = bool_decide (j = addr / 4096) || locked p j) as Hl.
    { intros j Hj. rewrite Hbit by done. by apply decide_orb. }
    split; rewrite ?El; try done.
    + split; unfold pages in *; cbn; rewrite ?Hsz; try apply Hok; auto with num.
      intros j Hj. unfold locked. cbn. rewrite Hl by lia. rewrite (pfa_low p) by done.
      by rewrite orb_true_r.
    + split; try done. unfold pages. cbn. by rewrite Hsz.
Qed.

Lemma freePage_in p addr i :
  pfa_ok p → addr / 4096 = i → 0 <= i < pages p →
  ∃ p', mem_pageframeallocator_freePage p addr = Done p' ∧ free_post p i p'.
Proof.
  intros Hok <- Hi. unfold mem_pageframeallocator_freePage.
  rewrite Bitmap_get_in by (done || apply Hok). rewrite bind_Done.
  fold (locked p (addr / 4096)). destruct (locked p (addr / 4096)) eqn:El; cbn [negb].
  2: { exists p. split; [done|]. split; rewrite ?El; try done.
       intros j Hj. by case_bool_decide; subst. }
  destruct (Bitmap_set_in (mem_pfaBitmap p) (addr / 4096) false)
    as (b & -> & Hb & Hsz & Hba & Hbit); [apply Hok|done|]. rewrite bind_Done. cbn.
  assert (∀ j, 0 <= j → bm_bit b j = negb (bool_decide (j = addr / 4096)) && locked p j) as Hl.
  { intros j Hj. rewrite Hbit by done. by case_decide; case_bool_decide. }
  eexists. split; [done|]. destruct Hok as [H1 H2 H3 H4 H5 H6]. unfold pages in *.
  split; rewrite ?El.
  - case_cmp; split; unfold pages; cbn; rewrite ?Hsz; auto with num; try lia.
    all: intros j Hj; unfold locked; cbn; rewrite Hl, H6 by lia.
    all: case_bool_decide; [lia|done].
  - case_cmp; split; unfold pages; cbn; by rewrite ?Hsz.
  - case_cmp; cbn; lia.
  - intros j Hj. unfold locked. case_cmp; by apply Hl.
  - by case_cmp.
  - by case_cmp.
Qed.

(** ** requestPage: first fit *)

Definition first_free (p : Pfa) (i : Z) : Prop :=
  0 <= i < pages p ∧ locked p i = false ∧ ∀ j, 0 <= j < i → locked p j = true.

Lemma first_free_idx p i : pfa_ok p → first_free p i → bitmapIdx p <= i.
Proof.
  intros Hok (Hi & Hf & _). destruct (decide (bitmapIdx p <= i)); [done|].
  rewrite (pfa_low p Hok) in Hf by lia. done.
Qed.

Lemma set_idx_ok p i :
  pfa_ok p → 0 <= i <= pages p → (∀ j, 0 <= j < i → locked p j = true) →
  pfa_ok (set_idx p i).
Proof. intros [] Hi Hlow. by split. Qed.

Lemma addr_of_index i : 0 <= i < 2^40 → to_u64 (i * 4096) = i * 4096 ∧ i * 4096 / 4096 = i.
Proof. intros. u64_small. split; [done|]. by rewrite Z.div_mul. Qed.

Lemma requestPage_loop_spec fuel p :
  pfa_ok p → pages p - bitmapIdx p < Z.of_nat fuel →
  ((∀ i, 0 <= i < pages p → locked p i = true) ∧
   requestPage_loop fuel p = Panicked "Out of memory") ∨
  (∃ i p', first_free p i ∧ requestPage_loop fuel p = Done (i * 4096, p') ∧
           lock_post (set_idx p i) i p').
Proof.
  revert p. induction fuel as [|f IH]; intros p Hok Hf; [pose proof (pfa_idx p Hok); lia|].
  cbn [requestPage_loop]. pose proof (pfa_idx p Hok) as Hidx.
  pose proof (bm_size _ (pfa_bitmap p Hok)). pose proof (pfa_size p Hok).
  fold (pages p). rewrite (to_u64_id (pages p)) by (unfold pages; znorm; lia).
  destruct (Z.ltb_spec (bitmapIdx p) (pages p)) as [Hlt|Hge].
  2: { left. split; [|done]. intros i Hi. apply (pfa_low p Hok). lia. }
  rewrite Bitmap_get_in by (apply Hok || (fold (pages p); lia)). rewrite bind_Done.
  fold (locked p (bitmapIdx p)). destruct (locked p (bitmapIdx p)) eqn:El.
  - rewrite to_u64_id by (unfold pages in *; znorm; lia).
    assert (∀ j, 0 <= j < bitmapIdx p + 1 → locked p j = true) as Hlow.
    { intros j Hj. destruct (decide (j = bitmapIdx p)) as [->|]; [done|].
      apply (pfa_low p Hok). lia. }
    destruct (IH (set_idx p (bitmapIdx p + 1))) as [[Hall ->]|(i & p' & Hff & -> & Hl)].
    + apply set_idx_ok; [done|lia|done].
    + unfold pages in *; cbn; lia.
    + by left.
    + right. exists i, p'. by split_and!.
  - right. destruct (addr_of_index (bitmapIdx p)) as [-> Ha]; [unfold pages in *; lia|].
    destruct (lockPage_in p (bitmapIdx p * 4096) (bitmapIdx p)) as (p' & -> & Hl);
      [done|done|unfold pages in *; lia|]. rewrite bind_Done, (lp_idx _ _ _ Hl).
    destruct (addr_of_index (bitmapIdx p)) as [-> _]; [unfold pages in *; lia|].
    exists (bitmapIdx p), p'. split; [|split; [done|by destruct p]].
    split; [lia|]. split; [done|apply (pfa_low p Hok)].
Qed.

Lemma requestPage_cases p :
  pfa_ok p →
  (mem_pageframeallocator_requestPage p = Panicked "Out of memory" ∧
   ((oomPanics p = true ∧ mem_freeMemory p < 16384) ∨
    ∀ i, 0 <= i < pages p → locked p i = true)) ∨
  (∃ i p', first_free p i ∧ (oomPanics p = true → 16384 <= mem_freeMemory p) ∧
     mem_pageframeallocator_requestPage p = Done (i * 4096, p') ∧
     lock_post (set_idx p i) i p').
Proof.
  intros Hok. unfold mem_pageframeallocator_requestPage.
  destruct (oomPanics p && (mem_freeMemory p <? 16384)) eqn:Eo.
  { left. split; [done|]. left. apply andb_true_iff in Eo as [-> Hlt].
    by apply Z.ltb_lt in Hlt. }
  destruct (requestPage_loop_spec (S (Z.to_nat (Size (mem_pfaBitmap p) * 8 - bitmapIdx p))) p)
    as [[Hall ->]|(i & p' & Hff & -> & Hl)]; [done|unfold pages; lia|by left; auto|].
  right. exists i, p'. split_and!; try done. intros Hoom.
  rewrite Hoom in Eo. cbn in Eo. by apply Z.ltb_ge in Eo.
Qed.

Lemma requestPage_Done p a p' :
  pfa_ok p → mem_pageframeallocator_requestPage p = Done (a, p') →
  ∃ i, a = i * 4096 ∧ first_free p i ∧ lock_post (set_idx p i) i p' ∧
       (oomPanics p = true → 16384 <= mem_freeMemory p).
Proof.
  intros Hok Hr. destruct (requestPage_cases p Hok) as [[E _]|(i & q & Hff & Hoom & E & Hl)].
  - congruence.
  - rewrite E in Hr. injection Hr as <- <-. by exists i.
Qed.

(** C14: [requestPage] is a first-fit allocator.  It panics exactly when the
    free counter is below four pages (once [init] has run) or no page is
    free; otherwise it returns the address of the free page with the lowest
    address, locks that page and no other, and moves one page from the free
    to the used counter.  It always ends. *)
Theorem requestPage_first_fit p :
  pfa_ok p →
  (mem_pageframeallocator_requestPage p = Panicked "Out of memory" ↔
   (oomPanics p = true ∧ mem_freeMemory p < 16384) ∨
   ∀ i, 0 <= i < pages p → locked p i = true) ∧
  (∀ i, first_free p i → (oomPanics p = true → 16384 <= mem_freeMemory p) →
   ∃ p', mem_pageframeallocator_requestPage p = Done (i * 4096, p') ∧ pfa_ok p' ∧
     (∀ j, 0 <= j → locked p' j = bool_decide (j = i) || locked p j) ∧
     mem_freeMemory p' = to_u64 (mem_freeMemory p - 4096) ∧
     mem_usedMemory p' = to_u64 (mem_usedMemory p + 4096)).
Proof.
  intros Hok. destruct (requestPage_cases p Hok) as [[E Hwhy]|(i & p' & Hff & Hoom & E & Hl)].
  - rewrite E. split; [done|]. intros i (Hi & Hf & _) Hge. exfalso.
    destruct Hwhy as [[H1 H2]|Hall]; [specialize (Hge H1); lia|].
    rewrite Hall in Hf by lia. done.
  - rewrite E. destruct Hff as (Hi & Hf & Hlow). split.
    + split; [discriminate|]. intros [[H1 H2]|Hall]; [specialize (Hoom H1); lia|].
      rewrite Hall in Hf by lia. done.
    + intros i' (Hi' & Hf' & Hlow') _.
      assert (i' = i) as ->.
      { destruct (Z.lt_trichotomy i i') as [?|[?|?]]; [|done|].
        - rewrite Hlow' in Hf by lia. done.
        - rewrite Hlow in Hf' by lia. done. }
      destruct Hl as [L1 _ _ L4 L5 L6].
      change (locked (set_idx p i)) with (locked p) in *. rewrite Hf in L5, L6.
      by exists p'.
Qed.

(** The two counters always add up to the same total, whatever pages are
    requested, locked or freed. *)
Theorem counters_conserved p addr p' :
  pfa_ok p → 0 <= addr < pages p * 4096 →
  mem_pageframeallocator_lockPage p addr = Done p' ∨
  mem_pageframeallocator_freePage p addr = Done p' ∨
  (∃ a, mem_pageframeallocator_requestPage p = Done (a, p')) →
  mem_getTotalRAM p' = mem_getTotalRAM p.
Proof.
  assert (∀ x y d, to_u64 (to_u64 (x - d) + to_u64 (y + d)) = to_u64 (x + y)) as Hsum.
  { intros x y d. unfold to_u64. rewrite <- Z.add_mod by lia. f_equal. lia. }
  intros Hok Ha H. unfold mem_getTotalRAM.
  assert (0 <= addr / 4096 < pages p) as Hi by zlia.
  destruct H as [H|[H|(a & H)]].
  - destruct (lockPage_in p addr _ Hok eq_refl Hi) as (q & E & Hq).
    assert (p' = q) as -> by congruence.
    rewrite (lp_free _ _ _ Hq), (lp_used _ _ _ Hq).
    destruct (locked p (addr / 4096)); [done|apply Hsum].
  - destruct (freePage_in p addr _ Hok eq_refl Hi) as (q & E & Hq).
    assert (p' = q) as -> by congruence.
    rewrite (fp_free _ _ _ Hq), (fp_used _ _ _ Hq).
    destruct (locked p (addr / 4096)); [|done]. rewrite Z.add_comm, Hsum. f_equal. lia.
  - apply requestPage_Done in H as (i & _ & _ & [_ _ _ _ -> ->] & _); [|done].
    destruct (locked _ i); [done|apply Hsum].
Qed.
