(* ===== verification/PfaInit.v ===== *)
(** * The page frame allocator from boot on

    What [mem_pageframeallocator_init] leaves behind, and the allocator as a
    state machine over it: pages are requested and given back, and no page is
    ever handed out that is not usable memory, that holds the bitmap, or that
    somebody still owns. *)

From S2P Require Import Prelude Bitmap MemUtils PageFrameAllocator.

(** ** Ranges of pages *)

Definition in_range (lo n j : Z) : bool := bool_decide (lo <= j < lo + n).

Lemma in_range_succ lo n j :
  0 <= n → in_range lo (n + 1) j = bool_decide (j = lo + n) || in_range lo n j.
Proof. intros. unfold in_range. repeat case_bool_decide; try done; lia. Qed.

Lemma in_range_0 lo j : in_range lo 0 j = false.
Proof. unfold in_range. case_bool_decide; [lia|done]. Qed.

Lemma page_addr p base k :
  pfa_ok p → 0 <= base → base mod 4096 = 0 → 0 <= k → base / 4096 + k < pages p →
  to_u64 (base + k * 4096) = base + k * 4096 ∧
  to_u64 (k * 4096) = k * 4096 ∧
  (base + k * 4096) / 4096 = base / 4096 + k.
Proof.
  intros Hok Hb Hm Hk Hp. pose proof (pfa_size p Hok). unfold pages in Hp.
  rewrite !to_u64_id by zlia. split_and!; try done. by rewrite Z.div_add.
Qed.

Record lock_range_post (p : Pfa) (lo n : Z) (p' : Pfa) : Prop := {
  lr_ok : pfa_ok p';
  lr_same : pfa_same p p';
  lr_locked : ∀ j, 0 <= j → locked p' j = in_range lo n j || locked p j;
  lr_free : (∀ j, lo <= j < lo + n → locked p j = false) → 4096 * n <= mem_freeMemory p →
            mem_freeMemory p' = mem_freeMemory p - 4096 * n
}.

Lemma lockPages_in p base n :
  pfa_ok p → 0 <= base → base mod 4096 = 0 → 0 <= n <= 2^19 →
  base / 4096 + n <= pages p →
  ∃ p', mem_pageframeallocator_lockPages p base n = Done p' ∧
        lock_range_post p (base / 4096) n p'.
Proof.
  intros Hok Hb Hm Hn Hp. unfold mem_pageframeallocator_lockPages.
  destruct (for_loop_inv (λ k q, lock_range_post p (base / 4096) k q)
    (Z.to_nat n) 0 (λ i p, if INT_MAX <? i * 4096 then Undef "int overflow in lockPages"
       else mem_pageframeallocator_lockPage p (to_u64 (base + i * 4096))) p)
    as (p' & -> & Hp').
  - split; try done; [|lia]. intros j Hj. by rewrite in_range_0.
  - intros k q Hk [Q1 Q2 Q3 Q4]. unfold INT_MAX.
    destruct (Z.ltb_spec (2^31 - 1) (k * 4096)); [lia|].
    destruct (page_addr q base k) as (-> & _ & Ha); try done; try lia.
    { rewrite (same_pages _ _ Q2). lia. }
    destruct (lockPage_in q (base + k * 4096) (base / 4096 + k)) as (q' & -> & Hl);
      [done|done|rewrite (same_pages _ _ Q2); zlia|].
    exists q'. split; [done|]. destruct Hl as [L1 L2 _ L4 L5 _].
    split; [done|by etransitivity| |].
    + intros j Hj. rewrite L4, Q3, in_range_succ by lia. by rewrite orb_assoc.
    + intros Hfree Hge.
      rewrite L5, Q3, Hfree by zlia. rewrite Q4 by (intros; try apply Hfree; lia).
      pose proof (pfa_free p Hok). unfold in_range. case_bool_decide; [lia|]. cbn.
      u64_small. lia.
  - exists p'. split; [done|]. by replace (0 + Z.of_nat (Z.to_nat n)) with n in Hp' by lia.
Qed.

Record free_range_post (p : Pfa) (lo n : Z) (p' : Pfa) : Prop := {
  fr_ok : pfa_ok p';
  fr_same : pfa_same p p';
  fr_locked : ∀ j, 0 <= j → locked p' j = negb (in_range lo n j) && locked p j
}.

Lemma freePages_in p base n :
  pfa_ok p → 0 <= base → base mod 4096 = 0 → 0 <= n → base / 4096 + n <= pages p →
  ∃ p', mem_pageframeallocator_freePages p base n = Done p' ∧
        free_range_post p (base / 4096) n p'.
Proof.
  intros Hok Hb Hm Hn Hp. unfold mem_pageframeallocator_freePages.
  destruct (for_loop_inv (λ k q, free_range_post p (base / 4096) k q)
    (Z.to_nat n) 0 (λ i p, mem_pageframeallocator_freePage p
       (to_u64 (base + to_u64 (i * 4096)))) p) as (p' & -> & Hp').
  - split; try done. intros j Hj. by rewrite in_range_0.
  - intros k q Hk [Q1 Q2 Q3].
    destruct (page_addr q base k) as (E1 & -> & Ha); try done; try lia.
    { rewrite (same_pages _ _ Q2). lia. }
    rewrite E1.
    destruct (freePage_in q (base + k * 4096) (base / 4096 + k)) as (q' & -> & Hl);
      [done|done|rewrite (same_pages _ _ Q2); zlia|].
    exists q'. split; [done|]. destruct Hl as [L1 L2 _ L4 _ _].
    split; [done|by etransitivity|].
    intros j Hj. rewrite L4, Q3, in_range_succ by lia. btauto.
  - exists p'. split; [done|]. by replace (0 + Z.of_nat (Z.to_nat n)) with n in Hp' by lia.
Qed.

(** ** Clearing the bitmap *)

Lemma zero_prefix (l : list Z) n :
  (n <= length l)%nat → Z.of_nat n <= INT_MAX →
  ∃ l', for_loop n 0 (λ i buf,
      if negb (i <? Z.of_nat (length buf)) then Undef "bitmap buffer"
      else if i =? INT_MAX then Undef "int overflow in initBitmap"
      else Done (<[Z.to_nat i := 0]> buf)) l = Done l' ∧
    length l' = length l ∧ (∀ k, (k < n)%nat → l' !! k = Some 0) ∧
    (Forall is_u8 l → Forall is_u8 l').
Proof.
  intros Hn Hmax.
  destruct (for_loop_inv (λ i l', length l' = length l ∧
      (∀ k, Z.of_nat k < i → l' !! k = Some 0) ∧ (Forall is_u8 l → Forall is_u8 l'))
    n 0 (λ i buf, if negb (i <? Z.of_nat (length buf)) then Undef "bitmap buffer"
      else if i =? INT_MAX then Undef "int overflow in initBitmap"
      else Done (<[Z.to_nat i := 0]> buf)) l) as (l' & -> & H1 & H2 & H3).
  - split_and!; try done. lia.
  - intros i l' Hi (H1 & H2 & H3).
    destruct (Z.ltb_spec i (Z.of_nat (length l'))); [|lia]. cbn [negb].
    destruct (Z.eqb_spec i INT_MAX); [lia|].
    eexists. split; [done|]. rewrite length_insert. split_and!; [done| |].
    + intros k Hk. destruct (decide (k = Z.to_nat i)) as [->|].
      * apply list_lookup_insert_eq. lia.
      * rewrite list_lookup_insert_ne by done. apply H2. lia.
    + intros Hl. apply Forall_insert; [auto|]. znorm. lia.
  - exists l'. split_and!; try done. intros k Hk. apply H2. lia.
Qed.

Lemma initBitmap_in p n addr region :
  0 <= n <= 2^31 - 1 → n <= Z.of_nat (length region) → Forall is_u8 region →
  is_u64 (mem_freeMemory p) → is_u64 (mem_usedMemory p) →
  ∃ p', mem_pageframeallocator_initBitmap p n addr region = Done p' ∧ pfa_ok p' ∧
    BufferAddr (mem_pfaBitmap p') = addr ∧
    pages p' = n * 8 ∧ (∀ j, 0 <= j < n * 8 → locked p' j = false) ∧
    pfa_end p' = pfa_end p ∧ pfa_memmap p' = pfa_memmap p ∧ oomPanics p' = oomPanics p ∧
    pfa_warnings p' = pfa_warnings p.
Proof.
  intros Hn Hlen Hby Hf Hu. unfold mem_pageframeallocator_initBitmap.
  destruct (zero_prefix region (Z.to_nat n)) as (l' & -> & H1 & H2 & H3);
    [lia|unfold INT_MAX; lia|]. rewrite bind_Done. eexists. split; [done|].
  split_and!; try done.
  - split; unfold pages; cbn; try done; try lia.
    split; cbn; [lia|rewrite H1; lia|by apply H3].
  - intros j Hj. unfold locked, bm_bit. cbn. rewrite H2 by zlia. apply Z.testbit_0_l.
Qed.

(** ** The scan for the largest free segment *)

Definition usable (e : limine_memmap_entry) : Prop := e_type e = 0.

Definition largest_free (l : list limine_memmap_entry) (seg size : Z) : Prop :=
  (∀ e, e ∈ l → usable e → e_length e <= size) ∧
  ((seg = 0 ∧ size = 0) ∨
   ∃ e, e ∈ l ∧ usable e ∧ 0 < e_length e ∧ e_base e = seg ∧ e_length e = size).

Lemma largest_free_snoc l e seg size :
  largest_free l seg size → 0 <= size →
  largest_free (l ++ [e])
    (if (e_type e =? 0) && (size <? e_length e) then e_base e else seg)
    (if (e_type e =? 0) && (size <? e_length e) then e_length e else size).
Proof.
  intros [Hall Hex] Hs.
  destruct ((e_type e =? 0) && (size <? e_length e)) eqn:E.
  - apply andb_true_iff in E as [E1%Z.eqb_eq E2%Z.ltb_lt]. split.
    + intros e' [He'|He'%list_elem_of_singleton]%elem_of_app Hu; [|by subst].
      specialize (Hall e' He' Hu). lia.
    + right. exists e. split; [apply elem_of_app; right; by apply list_elem_of_singleton|].
      split_and!; try done. lia.
  - split.
    + intros e' [He'|He'%list_elem_of_singleton]%elem_of_app Hu; [by apply Hall|].
      subst e'. apply andb_false_iff in E as [E%Z.eqb_neq|E%Z.ltb_ge]; [done|lia].
    + destruct Hex as [?|(e' & He' & ?)]; [by left|right].
      exists e'. split; [apply elem_of_app; by left|done].
Qed.

Lemma init_scan_fold l pre seg size e0 :
  Forall entry_ok l → largest_free pre seg size → 0 <= size → 0 <= e0 →
  ∃ seg' size', foldM (λ entry '(seg, size, e),
       let '(seg, size) :=
         if (e_type entry =? 0) && (size <? e_length entry)
         then (e_base entry, e_length entry) else (seg, size) in
       Done (seg, size, if e <? entry_end entry then entry_end entry else e))
     l (seg, size, e0) = Done (seg', size', Z.max e0 (memory_top l)) ∧
    largest_free (pre ++ l) seg' size'.
Proof.
  revert pre seg size e0. induction l as [|e l IH]; intros pre seg size e0 Hl Hp Hs He;
    cbn [foldM memory_top].
  { exists seg, size. rewrite app_nil_r, Z.max_l by lia. done. }
  apply Forall_cons in Hl as [Hok Hl]. pose proof (entry_end_ok e Hok) as Hend.
  pose proof (largest_free_snoc pre e seg size Hp Hs) as Hp'. destruct Hok as (? & ? & ?).
  rewrite cons_middle, (app_assoc pre).
  replace (Z.max e0 (Z.max (e_base e + e_length e) (memory_top l)))
    with (Z.max (if e0 <? entry_end e then entry_end e else e0) (memory_top l))
    by (rewrite Hend; case_cmp; lia).
  destruct ((e_type e =? 0) && (size <? e_length e)) eqn:E; cbn [mbind outcome_bind];
    apply IH; try done; try lia; case_cmp; lia.
Qed.

Lemma init_scan_spec mm :
  memmap_ok mm →
  ∃ seg size, init_scan mm 0 = Done (seg, size, memory_top (mm_entries mm)) ∧
    largest_free (mm_entries mm) seg size.
Proof.
  intros Hok. unfold init_scan. rewrite for_entries_foldM by done.
  destruct (init_scan_fold (mm_entries mm) [] 0 0 0) as (seg & size & -> & Hlf);
    [apply Hok| |lia|lia|].
  - split; [by intros e ?%not_elem_of_nil|by left].
  - exists seg, size. pose proof (memory_top_nonneg (mm_entries mm)).
    by rewrite Z.max_r by lia.
Qed.

(** ** init *)

Definition total_pages (mm : limine_memmap_response) : Z := memory_top (mm_entries mm) / 4096.
Definition bitmap_bytes (mm : limine_memmap_response) : Z := total_pages mm / 8 + 1.
Definition bitmap_pages (mm : limine_memmap_response) : Z := bitmap_bytes mm / 4096 + 1.

Definition entry_has_page (j : Z) (e : limine_memmap_entry) : bool :=
  (e_type e =? 0) && in_range (e_base e / 4096) (e_length e / 4096) j.
Definition usable_page (mm : limine_memmap_response) (j : Z) : bool :=
  existsb (entry_has_page j) (mm_entries mm).

(** Pages that may be handed out: usable and not part of the bitmap. *)
Definition available (mm : limine_memmap_response) (seg : limine_memmap_entry) (j : Z) : bool :=
  usable_page mm j && negb (in_range (e_base seg / 4096) (bitmap_pages mm) j).

(** The machines [init] works on.  The Limine protocol promises page-aligned
    usable entries; the rest is what the code needs: less than 2 GiB of
    address space, page zero not usable, and one usable entry in which the
    bitmap fits. *)
Record boot_ok (mm : limine_memmap_response) (region : list Z) : Prop := {
  bo_memmap : memmap_ok mm;
  bo_aligned : ∀ e, e ∈ mm_entries mm → usable e →
    e_base e mod 4096 = 0 ∧ e_length e mod 4096 = 0 ∧ e_base e ≠ 0;
  bo_top : memory_top (mm_entries mm) <= 2^31;
  bo_room : ∃ e, e ∈ mm_entries mm ∧ usable e ∧ bitmap_pages mm * 4096 <= e_length e;
  bo_region : bitmap_bytes mm <= Z.of_nat (length region) ∧ Forall is_u8 region
}.

Lemma total_pages_bounds mm region :
  boot_ok mm region →
  0 <= total_pages mm <= 2^19 ∧ total_pages mm < bitmap_bytes mm * 8 ∧
  1 <= bitmap_bytes mm <= 2^16 + 1 ∧ 1 <= bitmap_pages mm <= 17.
Proof.
  intros Hb. pose proof (bo_top _ _ Hb). pose proof (memory_top_nonneg (mm_entries mm)).
  unfold bitmap_pages, bitmap_bytes, total_pages. zlia.
Qed.

Lemma entry_pages_bound mm region e :
  boot_ok mm region → e ∈ mm_entries mm →
  0 <= e_base e / 4096 ∧ 0 <= e_length e / 4096 ∧
  e_base e / 4096 + e_length e / 4096 <= total_pages mm.
Proof.
  intros Hb He. pose proof (memory_top_bound _ _ He).
  pose proof (mm_each _ (bo_memmap _ _ Hb)) as Hall. rewrite Forall_forall in Hall.
  destruct (Hall e He) as (? & ? & ?). unfold total_pages. zlia.
Qed.

Lemma free_entries mm region l p :
  boot_ok mm region → (∀ e, e ∈ l → e ∈ mm_entries mm) → pfa_ok p →
  pages p = bitmap_bytes mm * 8 →
  ∃ p', foldM (λ entry p, if e_type entry =? 0 then
          mem_pageframeallocator_freePages p (e_base entry) (e_length entry / 4096)
          else Done p) l p = Done p' ∧ pfa_ok p' ∧ pfa_same p p' ∧
    ∀ j, 0 <= j → locked p' j = negb (existsb (entry_has_page j) l) && locked p j.
Proof.
  intros Hb. revert p. induction l as [|e l IH]; intros p Hl Hok Hp; cbn [foldM existsb].
  { exists p. split; [done|]. split; [done|]. split; [done|]. done. }
  assert (e ∈ mm_entries mm) as He by (apply Hl; set_solver).
  destruct (entry_pages_bound mm region e Hb He) as (H1 & H2 & H3).
  destruct (total_pages_bounds mm region Hb) as (H4 & H5 & _).
  unfold entry_has_page at 1. destruct (Z.eqb_spec (e_type e) 0) as [Hu|Hu].
  - destruct (bo_aligned _ _ Hb e He Hu) as (Hal & _ & _).
    destruct (freePages_in p (e_base e) (e_length e / 4096)) as (q & -> & [Q1 Q2 Q3]);
      try done; try zlia. rewrite bind_Done.
    destruct (IH q) as (p' & -> & P1 & P2 & P3);
      [intros; apply Hl; set_solver|done|by rewrite (same_pages _ _ Q2)|].
    exists p'. split_and!; try done; [by etransitivity|].
    intros j Hj. rewrite P3, Q3 by done. btauto.
  - rewrite bind_Done. apply IH; [intros; apply Hl; set_solver|done|done].
Qed.

(** The state [init] leaves: [seg] is the entry the bitmap was put in. *)
Record init_post (mm : limine_memmap_response) (off : Z) (seg : limine_memmap_entry)
    (p : Pfa) : Prop := {
  ip_seg : seg ∈ mm_entries mm ∧ usable seg ∧ bitmap_pages mm * 4096 <= e_length seg;
  ip_largest : ∀ e, e ∈ mm_entries mm → usable e → e_length e <= e_length seg;
  ip_ok : pfa_ok p;
  ip_buffer : BufferAddr (mem_pfaBitmap p) = toVirt off (e_base seg);
  ip_pages : pages p = bitmap_bytes mm * 8;
  ip_oom : oomPanics p = true;
  ip_end : pfa_end p = memory_top (mm_entries mm);
  ip_locked : ∀ j, 0 <= j < total_pages mm → locked p j =
    negb (usable_page mm j) || in_range (e_base seg / 4096) (bitmap_pages mm) j;
  ip_tail : ∀ j, total_pages mm <= j < pages p → locked p j = false;
  ip_free : mem_freeMemory p = e_length seg - 4096 * bitmap_pages mm;
  ip_scan : init_scan mm 0 = Done (e_base seg, e_length seg, memory_top (mm_entries mm));
  (** nothing failed that would be reported *)
  ip_warnings : pfa_warnings p = []
}.

Lemma usable_page_bound mm region j :
  boot_ok mm region → usable_page mm j = true → 0 <= j < total_pages mm.
Proof.
  intros Hb (e & He & Hj)%existsb_exists. apply andb_true_iff in Hj as [_ Hj].
  unfold in_range in Hj. apply bool_decide_eq_true in Hj.
  apply list_elem_of_In in He. pose proof (entry_pages_bound mm region e Hb He). lia.
Qed.

Lemma seg_page_usable mm e j :
  e ∈ mm_entries mm → usable e → e_base e / 4096 <= j < e_base e / 4096 + e_length e / 4096 →
  usable_page mm j = true.
Proof.
  intros He Hu Hj. apply existsb_exists. exists e. split; [by apply list_elem_of_In|].
  unfold entry_has_page, in_range. rewrite Hu. by rewrite bool_decide_true.
Qed.

Lemma bool_decide_in_range0 n j : 0 <= j → in_range 0 n j = bool_decide (j < n).
Proof. intros. unfold in_range. repeat case_bool_decide; try done; lia. Qed.

(** The middle of [init]: clear the bitmap, lock everything, free what is
    usable; [rest] is what the code does afterwards. *)
Lemma init_fill mm region q a (rest : Pfa → outcome Pfa) :
  boot_ok mm region → is_u64 (mem_freeMemory q) → is_u64 (mem_usedMemory q) →
  ∃ p3,
    (p ← mem_pageframeallocator_initBitmap q (bitmap_bytes mm) a region;
     p ← mem_pageframeallocator_lockPages p 0 (total_pages mm);
     p ← for_entries mm
           (λ entry p,
              if e_type entry =? 0 then
                mem_pageframeallocator_freePages p (e_base entry) (e_length entry / 4096)
              else Done p) p;
     rest p) = rest p3 ∧
    pfa_ok p3 ∧ pages p3 = bitmap_bytes mm * 8 ∧ BufferAddr (mem_pfaBitmap p3) = a ∧
    (pfa_end p3 = pfa_end q ∧ pfa_warnings p3 = pfa_warnings q) ∧
    ∀ j, 0 <= j < pages p3 →
      locked p3 j = negb (usable_page mm j) && bool_decide (j < total_pages mm).
Proof.
  intros Hb Hf Hu. destruct (total_pages_bounds mm region Hb) as (HT & HTB & HB & HP).
  destruct (initBitmap_in q (bitmap_bytes mm) a region)
    as (p1 & -> & K1 & A1 & P1 & L1 & E1 & _ & _ & W1); [lia|apply Hb|apply Hb|done|done|].
  rewrite bind_Done.
  destruct (lockPages_in p1 0 (total_pages mm)) as (p2 & -> & [K2 S2 L2 _]);
    [done|lia|done|lia|rewrite P1, Z.div_0_l; lia|]. rewrite bind_Done.
  rewrite for_entries_foldM by apply Hb.
  destruct (free_entries mm region (mm_entries mm) p2) as (p3 & -> & K3 & S3 & L3);
    [done|done|done|by rewrite (same_pages _ _ S2)|]. rewrite bind_Done.
  exists p3. split; [done|].
  assert (pages p3 = bitmap_bytes mm * 8) as P3 by (by rewrite (same_pages _ _ S3), (same_pages _ _ S2)).
  split_and!; try done.
  - by rewrite (same_buffer _ _ S3), (same_buffer _ _ S2), A1.
  - by rewrite (same_end _ _ S3), (same_end _ _ S2), E1.
  - by rewrite (same_warnings _ _ S3), (same_warnings _ _ S2), W1.
  - intros j Hj. rewrite L3, L2, L1 by (rewrite ?P3 in Hj; lia).
    rewrite Z.div_0_l, bool_decide_in_range0, orb_false_r by lia. done.
Qed.

Lemma init_spec mm off region :
  boot_ok mm region →
  ∃ seg p, mem_pageframeallocator_init pfa_boot mm off region = Done p ∧ init_post mm off seg p.
Proof.
  intros Hb. pose proof (bo_memmap _ _ Hb) as Hmm.
  destruct (total_pages_bounds mm region Hb) as (HT & HTB & HB & HP).
  unfold mem_pageframeallocator_init. cbn [pfa_end set_memmap pfa_boot].
  destruct (init_scan_spec mm Hmm) as (seg & size & Escan & Hmax & Hseg). rewrite Escan, bind_Done.
  destruct (bo_room _ _ Hb) as (r & Hr & Hru & Hrl). pose proof (Hmax r Hr Hru) as Hrs.
  destruct Hseg as [[-> ->]|(e & He & Heu & Hepos & <- & <-)]; [lia|].
  destruct (bo_aligned _ _ Hb e He Heu) as (Hea & Hel & He0).
  destruct (Z.eqb_spec (e_base e) 0) as [|_]; [done|].
  rewrite getMemoryArealSize_top, bind_Done by done.
  fold (total_pages mm). fold (bitmap_bytes mm). fold (bitmap_pages mm).
  match goal with |- context [mem_pageframeallocator_initBitmap ?q _ ?a] =>
    destruct (init_fill mm region q a (λ p,
      mem_pageframeallocator_lockPages
        (set_oomPanics (set_counters p (e_length e) 0) true) (e_base e) (bitmap_pages mm)))
      as (p3 & -> & K3 & P3 & A3 & [E3 W3] & L4) end; [done|cbn; znorm; lia|cbn; znorm; lia|].
  set (p4 := set_oomPanics _ _).
  destruct (entry_pages_bound mm region e Hb He) as (B1 & B2 & B3).
  assert (bitmap_pages mm <= e_length e / 4096) as Hfit by zlia.
  change (pages p3) with (pages p4) in P3, L4. change (locked p3) with (locked p4) in L4.
  assert (pfa_ok p4) as K4.
  { destruct K3. split; try done.
    pose proof (mm_each _ Hmm) as Hall. rewrite Forall_forall in Hall.
    destruct (Hall e He) as (? & ? & ?). cbn. znorm. lia. }
  destruct (lockPages_in p4 (e_base e) (bitmap_pages mm)) as (p5 & -> & [K5 S5 L5 F5]);
    [done|zlia|done|lia|zlia|].
  assert (∀ j, e_base e / 4096 <= j < e_base e / 4096 + bitmap_pages mm →
    usable_page mm j = true) as Hbm.
  { intros j Hj. by apply (seg_page_usable mm e); [| |lia]. }
  exists e, p5. split; [done|]. destruct S5 as [X1 X0 X2 X3 X4 X5].
  split; try done.
  - split; [done|]. split; [done|]. zlia.
  - rewrite X0. change (mem_pfaBitmap p4) with (mem_pfaBitmap p3).
    rewrite A3. unfold toVirt. f_equal. lia.
  - by rewrite X1.
  - rewrite X2. change (pfa_end p4) with (pfa_end p3). by rewrite E3.
  - intros j Hj. rewrite L5, L4, (bool_decide_true (j < total_pages mm)) by lia. btauto.
  - intros j Hj. rewrite X1 in Hj. rewrite L5, L4, (bool_decide_false (j < total_pages mm)) by lia.
    rewrite andb_false_r, orb_false_r. unfold in_range. case_bool_decide; [lia|done].
  - apply F5; [|cbn; lia]. intros j Hj. rewrite L4, Hbm by lia. done.
  - rewrite X5. change (pfa_warnings p4) with (pfa_warnings p3). by rewrite W3.
Qed.

(** ** Counting free pages *)

Fixpoint count_free (f : Z → bool) (n : nat) : Z :=
  match n with
  | O => 0
  | S n' => count_free f n' + (if f (Z.of_nat n') then 0 else 1)
  end.

Lemma count_free_ext f g n :
  (∀ j, 0 <= j < Z.of_nat n → f j = g j) → count_free f n = count_free g n.
Proof.
  induction n as [|n IH]; intros H; cbn; [done|].
  rewrite H by lia. rewrite IH; [done|]. intros; apply H; lia.
Qed.

Lemma count_free_lock f g n i :
  0 <= i < Z.of_nat n → f i = false →
  (∀ j, 0 <= j → g j = bool_decide (j = i) || f j) →
  count_free g n = count_free f n - 1.
Proof.
  induction n as [|n IH]; intros Hi Hf Hg; [lia|]. cbn. rewrite Hg by lia.
  destruct (decide (i = Z.of_nat n)) as [->|].
  - rewrite bool_decide_true, Hf by done. cbn.
    rewrite (count_free_ext g f); [lia|]. intros j Hj. rewrite Hg by lia.
    by rewrite bool_decide_false by lia.
  - rewrite bool_decide_false by lia. cbn. rewrite IH by (done || lia). lia.
Qed.

Lemma count_free_unlock f g n i :
  0 <= i < Z.of_nat n → f i = true →
  (∀ j, 0 <= j → g j = negb (bool_decide (j = i)) && f j) →
  count_free g n = count_free f n + 1.
Proof.
  intros Hi Hf Hg. rewrite (count_free_lock g f n i); [lia|done| |].
  - rewrite Hg, bool_decide_true by lia. done.
  - intros j Hj. rewrite Hg by done. case_bool_decide; subst; [by rewrite Hf|done].
Qed.

Lemma count_free_pos f n :
  0 < count_free f n → ∃ i, 0 <= i < Z.of_nat n ∧ f i = false.
Proof.
  induction n as [|n IH]; cbn; [lia|]. destruct (f (Z.of_nat n)) eqn:E.
  - intros H. destruct IH as (i & Hi & Hf); [lia|]. exists i. split; [lia|done].
  - intros _. exists (Z.of_nat n). split; [lia|done].
Qed.

(** A run of free pages counts at least its length. *)
Lemma count_free_range f n lo k :
  0 <= lo → 0 <= k → lo + k <= Z.of_nat n →
  (∀ j, lo <= j < lo + k → f j = false) → k <= count_free f n.
Proof.
  assert (∀ n, 0 <= count_free f n) as Hnn.
  { induction n0; cbn; [lia|]. destruct (f _); lia. }
  revert k. induction n as [|n IH]; intros k Hlo Hk Hle Hfree; [cbn; lia|]. cbn.
  destruct (decide (lo + k = Z.of_nat (S n))) as [E|E].
  - destruct (decide (k = 0)) as [->|]; [specialize (Hnn n); destruct (f _); lia|].
    rewrite Hfree by lia.
    enough (k - 1 <= count_free f n) by lia. apply IH; try lia. intros; apply Hfree; lia.
  - enough (k <= count_free f n) by (destruct (f _); lia).
    apply IH; try lia. done.
Qed.

(** ** The allocator as a state machine

    A configuration is the allocator's state with the set of pages that have
    been handed out and not yet been given back.  A page of the bitmap may also
    be locked for good; the counter must then have a page left to take off, or
    the page be locked already. *)
Inductive pfa_step : Pfa * gset Z → Pfa * gset Z → Prop :=
  | step_request p O a p' :
      mem_pageframeallocator_requestPage p = Done (a, p') →
      pfa_step (p, O) (p', {[a]} ∪ O)
  | step_free p O a p' :
      a ∈ O → mem_pageframeallocator_freePage p a = Done p' →
      pfa_step (p, O) (p', O ∖ {[a]})
  | step_lock p O a p' :
      0 <= a < 4096 * pages p → (locked p (a / 4096) = true ∨ 4096 <= mem_freeMemory p) →
      mem_pageframeallocator_lockPage p a = Done p' →
      pfa_step (p, O) (p', O).

(** [p0] is the state [init] left.  A page that was locked then stays locked. *)
Record run_inv (mm : limine_memmap_response) (p0 p : Pfa) (O : gset Z) : Prop := {
  ri_ok : pfa_ok p;
  ri_pages : total_pages mm < pages p;
  ri_oom : oomPanics p = true;
  ri_avail : ∀ j, 0 <= j < total_pages mm → locked p j = false → locked p0 j = false;
  ri_owned : ∀ a, a ∈ O → ∃ j, a = j * 4096 ∧ 0 <= j < total_pages mm ∧
    locked p j = true ∧ locked p0 j = false;
  ri_count : mem_freeMemory p <= 4096 * count_free (locked p) (Z.to_nat (total_pages mm))
}.

Lemma run_inv_init mm off region seg p :
  boot_ok mm region → init_post mm off seg p → run_inv mm p p ∅.
Proof.
  intros Hb [[I1 [I2 I3]] _ I5 _ I6 I7 _ I9 _ I11].
  destruct (total_pages_bounds mm region Hb) as (HT & HTB & HB & HP).
  split; try done; [lia|].
  rewrite I11. destruct (entry_pages_bound mm region seg Hb I1) as (B1 & B2 & B3).
  pose proof (bo_aligned _ _ Hb seg I1 I2) as (_ & Hal & _).
  assert (e_length seg / 4096 - bitmap_pages mm <=
    count_free (locked p) (Z.to_nat (total_pages mm))); [|zlia].
  apply (count_free_range _ _ (e_base seg / 4096 + bitmap_pages mm)); try zlia.
  intros j Hj. rewrite I9 by lia. rewrite (seg_page_usable mm seg) by (done || lia).
  cbn. unfold in_range. apply bool_decide_false. lia.
Qed.

(** The lowest free page is real memory: the counter only reaches four pages
    while there is a free page below the top of memory. *)
Lemma run_inv_request mm p0 p O i :
  run_inv mm p0 p O → first_free p i → 16384 <= mem_freeMemory p →
  0 <= i < total_pages mm.
Proof.
  intros [_ _ _ _ _ Hc] (Hi & Hf & Hlow) Hge.
  destruct (count_free_pos (locked p) (Z.to_nat (total_pages mm))) as (k & Hk & Hkf); [lia|].
  split; [lia|]. destruct (decide (i <= k)); [lia|]. rewrite Hlow in Hkf by lia. done.
Qed.

(** Locking a page keeps the invariant. *)
Lemma run_inv_lock mm p0 p O a p' :
  run_inv mm p0 p O → 0 <= a < 4096 * pages p → (locked p (a / 4096) = true ∨ 4096 <= mem_freeMemory p) →
  mem_pageframeallocator_lockPage p a = Done p' → run_inv mm p0 p' O.
Proof.
  intros [R1 R2 R3 R4 R5 R6] Ha Hc Hl.
  destruct (lockPage_in p a (a / 4096) R1 eq_refl ltac:(zlia)) as (q & E & [L1 [S1 S0 S2 S3 S4 S5] _ L4 L5 _]).
  assert (p' = q) as -> by congruence. pose proof (pfa_free p R1).
  split; try done; [by rewrite S1|by rewrite S4| | |].
  - intros j Hj. rewrite L4 by lia. intros [_ Hlj]%orb_false_iff. by apply R4.
  - intros b HbO. destruct (R5 b HbO) as (j & -> & Hj & Hlj & Hav). exists j. split_and!; try done; try lia.
    rewrite L4, Hlj by lia. apply orb_true_r.
  - rewrite L5. destruct (locked p (a / 4096)) eqn:El.
    + rewrite (count_free_ext (locked q) (locked p)); [done|]. intros j Hj. rewrite L4 by lia.
      case_bool_decide; subst; [by rewrite El|done].
    + destruct Hc as [?|Hc]; [done|]. rewrite to_u64_id by (znorm; lia).
      destruct (decide (a / 4096 < total_pages mm)).
      * rewrite (count_free_lock (locked p) (locked q) _ (a / 4096)) by (done || zlia). lia.
      * rewrite (count_free_ext (locked q) (locked p)); [lia|]. intros j Hj. rewrite L4 by lia.
        by rewrite bool_decide_false by lia.
Qed.

Lemma run_inv_step mm p0 p O p' O' :
  run_inv mm p0 p O → pfa_step (p, O) (p', O') → run_inv mm p0 p' O'.
Proof.
  intros HI Hstep. pose proof HI as [R1 R2 R3 R4 R5 R6].
  inversion Hstep as [q0 O0 a q0' Hreq|q0 O0 a q0' Ha Hfree|q0 O0 a q0' Ha Hc Hlock]; subst; clear Hstep;
    [| |by eapply run_inv_lock].
  - apply requestPage_Done in Hreq as (i & -> & Hff & Hl & Hoom); [|done].
    specialize (Hoom R3). pose proof (run_inv_request _ _ _ _ _ HI Hff Hoom) as Hi.
    destruct Hff as (_ & Hf & _). destruct Hl as [L1 [S1 S0 S2 S3 S4 S5] _ L4 L5 _].
    cbn in *. change (locked (set_idx p i)) with (locked p) in *.
    rewrite Hf in L5. rewrite to_u64_id in L5 by (pose proof (pfa_free p R1); znorm; lia).
    split; try done.
    + by rewrite S1.
    + by rewrite S4.
    + intros j Hj. rewrite L4 by lia. intros [_ Hlj]%orb_false_iff. by apply R4.
    + intros a [->%elem_of_singleton|HaO]%elem_of_union.
      * exists i. split_and!; try done; try lia; [|by apply R4].
        rewrite L4, bool_decide_true by lia. done.
      * destruct (R5 a HaO) as (j & -> & Hj & Hlj & Hav). exists j. split_and!; try done; try lia.
        rewrite L4, Hlj by lia. apply orb_true_r.
    + rewrite L5, (count_free_lock (locked p) (locked p') _ i) by (done || lia). lia.
  - destruct (R5 a Ha) as (i & -> & Hi & Hli & Hav).
    destruct (freePage_in p (i * 4096) i) as (q & E & [F1 [S1 S0 S2 S3 S4 S5] _ F4 F5 _]);
      [done|by rewrite Z.div_mul|lia|]. assert (p' = q) as -> by congruence.
    rewrite Hli in F5. split; try done.
    + by rewrite S1.
    + by rewrite S4.
    + intros j Hj. rewrite F4 by lia. case_bool_decide; subst; [done|]. by apply R4.
    + intros a [HaO Hne]%elem_of_difference.
      destruct (R5 a HaO) as (j & -> & Hj & Hlj & Hav'). exists j. split_and!; try done; try lia.
      rewrite F4, Hlj, bool_decide_false by (lia || set_solver). done.
    + rewrite F5, (count_free_unlock (locked p) (locked q) _ i) by (done || lia).
      pose proof (Z.mod_le (mem_freeMemory p + 4096) (2^64)).
      pose proof (pfa_free p R1). unfold to_u64. znorm. lia.
Qed.

Lemma run_inv_steps mm p0 c c' :
  rtc pfa_step c c' → run_inv mm p0 c.1 c.2 → run_inv mm p0 c'.1 c'.2.
Proof.
  induction 1 as [|[p O] [p' O'] c'' Hstep _ IH]; [done|].
  intros HI. apply IH. by eapply run_inv_step.
Qed.

(** ** Theorems *)

(** C11: [init] succeeds on every machine that meets [boot_ok], that is at most
    2 GiB of address space (reserved entries included), page-aligned usable
    entries none of which starts at zero, and one of them with room for the bitmap; and
    it leaves exactly the right pages free: below the top of memory a page is
    unlocked if and only if it lies in a usable entry of the memory map and not
    in the pages that hold the bitmap, whose buffer sits at the start of a
    largest usable entry.  The bits of the bitmap behind the top of memory, of
    pages that do not exist, stay unlocked. *)
Theorem init_correct mm off region :
  boot_ok mm region →
  ∃ seg p, mem_pageframeallocator_init pfa_boot mm off region = Done p ∧
    (seg ∈ mm_entries mm ∧ usable seg ∧ bitmap_pages mm * 4096 <= e_length seg) ∧
    (∀ e, e ∈ mm_entries mm → usable e → e_length e <= e_length seg) ∧
    BufferAddr (mem_pfaBitmap p) = toVirt off (e_base seg) ∧
    pfa_ok p ∧ oomPanics p = true ∧ mem_getMemoryMapSize p = memory_top (mm_entries mm) ∧
    (∀ j, 0 <= j < total_pages mm → locked p j = negb (available mm seg j)) ∧
    (∀ j, total_pages mm <= j < pages p → locked p j = false).
Proof.
  intros Hb. destruct (init_spec mm off region Hb) as (seg & p & E & []).
  exists seg, p. split_and!; try done; try tauto.
  intros j Hj. rewrite ip_locked0 by done. unfold available.
  by rewrite negb_andb, negb_involutive.
Qed.


(** C24: as long as the free counter shows four pages, a request succeeds: the
    counter never claims memory that is not there. *)
Theorem requestPage_live mm off region p0 p O :
  boot_ok mm region →
  mem_pageframeallocator_init pfa_boot mm off region = Done p0 →
  rtc pfa_step (p0, ∅) (p, O) →
  (16384 <= mem_getFreeRAM p) →
  ∃ a p', mem_pageframeallocator_requestPage p = Done (a, p').
Proof.
  intros Hb Hinit Hrun Hge. unfold mem_getFreeRAM in Hge.
  destruct (init_spec mm off region Hb) as (seg & q & E & HI).
  assert (p0 = q) as -> by congruence.
  pose proof (run_inv_steps mm q _ _ Hrun (run_inv_init _ _ _ _ _ Hb HI)) as HR. cbn in HR.
  destruct HR as [R1 R2 R3 R4 R5 R6].
  destruct (requestPage_cases p R1) as [[_ [[_ Hlt]|Hall]]|(i & p' & _ & _ & E' & _)];
    [lia| |eauto].
  destruct (count_free_pos (locked p) (Z.to_nat (total_pages mm))) as (k & Hk & Hkf); [lia|].
  rewrite Hall in Hkf by lia. done.
Qed.

Lemma lockPages_overflow p n :
  pfa_ok p → 2^19 < n <= pages p →
  mem_pageframeallocator_lockPages p 0 n = Undef "int overflow in lockPages".
Proof.
  intros Hok. assert (∃ k, k = 2^19) as [k Hk] by eauto. rewrite <- Hk. intros Hn.
  destruct (lockPages_in p 0 k) as (q & E & _);
    [done|lia|done|lia|rewrite Z.div_0_l; lia|].
  unfold mem_pageframeallocator_lockPages in *.
  replace (Z.to_nat n) with (Z.to_nat k + S (Z.to_nat (n - k - 1)))%nat by lia.
  rewrite for_loop_app, E, bind_Done. cbn [for_loop].
  assert ((INT_MAX <? (0 + Z.of_nat (Z.to_nat k)) * 4096) = true) as ->; [|done].
  apply Z.ltb_lt. unfold INT_MAX. lia.
Qed.

(** C38: with more than 2 GiB of address space the first thing [init] does
    with its bitmap, locking every page, overflows the [int] product
    [i * 4096] of [lockPages]. *)
Theorem init_overflows_above_2GiB mm off region seg size :
  memmap_ok mm →
  init_scan mm 0 = Done (seg, size, memory_top (mm_entries mm)) → seg ≠ 0 →
  (2^31 + 4096 <= memory_top (mm_entries mm) < 2^45) →
  bitmap_bytes mm <= Z.of_nat (length region) → Forall is_u8 region →
  mem_pageframeallocator_init pfa_boot mm off region = Undef "int overflow in lockPages".
Proof.
  intros Hmm Hscan Hseg Htop Hlen Hby. unfold mem_pageframeallocator_init.
  cbn [pfa_end set_memmap pfa_boot]. rewrite Hscan, bind_Done.
  destruct (Z.eqb_spec seg 0) as [|_]; [done|].
  rewrite getMemoryArealSize_top, bind_Done by done.
  fold (total_pages mm). fold (bitmap_bytes mm). fold (bitmap_pages mm).
  assert (2^19 < total_pages mm < 2^33) as HT by (unfold total_pages; zlia).
  assert (total_pages mm < bitmap_bytes mm * 8 ∧ 0 <= bitmap_bytes mm <= 2^31 - 1) as HB
    by (unfold bitmap_bytes; zlia).
  match goal with |- context [mem_pageframeallocator_initBitmap ?q _ ?a] =>
    destruct (initBitmap_in q (bitmap_bytes mm) a region) as (p1 & -> & K1 & _ & P1 & _) end;
    [lia|done|done|cbn; znorm; lia|cbn; znorm; lia|]. rewrite bind_Done.
  rewrite lockPages_overflow by (done || lia). done.
Qed.

(** ** A machine to run on

    One MiB with two usable entries; the bitmap needs 41 bytes. *)

Definition sample_region : list Z := replicate 64 255.
Definition sample_hhdm : Z := 18446603336221196288.

Lemma entry_cases (P : limine_memmap_entry → Prop) l :
  Forall P l → ∀ e, e ∈ l → P e.
Proof. by rewrite Forall_forall. Qed.

Lemma sample_boot_ok : boot_ok sample_memmap sample_region.
Proof.
  split.
  - exact sample_memmap_ok.
  - refine (entry_cases _ _ _). repeat constructor; vm_compute; done.
  - vm_compute. done.
  - exists (mkEntry 4096 (155 * 4096) 0). split; [by apply elem_of_cons; left|].
    vm_compute. split; done.
  - split; [vm_compute; done|]. apply Forall_replicate. znorm. lia.
Qed.

Definition sample_pfa : Pfa := Eval vm_compute in
  match mem_pageframeallocator_init pfa_boot sample_memmap sample_hhdm sample_region with
  | Done p => p
  | _ => pfa_boot
  end.

Lemma sample_init :
  mem_pageframeallocator_init pfa_boot sample_memmap sample_hhdm sample_region
  = Done sample_pfa.
Proof. vm_compute. reflexivity. Qed.

Lemma sample_pfa_ok : pfa_ok sample_pfa.
Proof.
  destruct (init_spec _ sample_hhdm _ sample_boot_ok) as (seg & p & E & HI).
  rewrite sample_init in E. injection E as ->. apply (ip_ok _ _ _ _ HI).
Qed.

Lemma init_correct_witness :
  ∃ seg p, mem_pageframeallocator_init pfa_boot sample_memmap sample_hhdm sample_region
           = Done p ∧ locked p 0 = negb (available sample_memmap seg 0).
Proof.
  destruct (init_correct sample_memmap sample_hhdm sample_region sample_boot_ok)
    as (seg & p & H1 & _ & _ & _ & _ & _ & _ & H2 & _).
  exists seg, p. split; [exact H1|]. clear H1. apply H2.
  vm_compute. split; [discriminate|reflexivity].
Defined.


Lemma requestPage_live_witness :
  ∃ a p', mem_pageframeallocator_requestPage sample_pfa = Done (a, p').
Proof.
  apply (requestPage_live sample_memmap sample_hhdm sample_region sample_pfa sample_pfa ∅
    sample_boot_ok sample_init (rtc_refl _ _)). vm_compute. done.
Defined.

Lemma requestPage_first_fit_witness :
  ∃ p', mem_pageframeallocator_requestPage sample_pfa = Done (2 * 4096, p') ∧ pfa_ok p'.
Proof.
  destruct (requestPage_first_fit sample_pfa sample_pfa_ok) as [_ H].
  destruct (H 2) as (p' & H1 & H2 & _).
  - split; [vm_compute; split; done|]. split; [vm_compute; reflexivity|].
    intros j Hj. assert (j = 0 ∨ j = 1) as [-> | ->] by lia; vm_compute; reflexivity.
  - intros _. vm_compute. done.
  - exists p'. split; [exact H1|exact H2].
Defined.

Lemma counters_conserved_witness :
  ∃ p', mem_pageframeallocator_lockPage sample_pfa 8192 = Done p' ∧
        mem_getTotalRAM p' = mem_getTotalRAM sample_pfa.
Proof.
  destruct (mem_pageframeallocator_lockPage sample_pfa 8192) as [p'| | |] eqn:E;
    try (vm_compute in E; discriminate).
  exists p'. split; [reflexivity|].
  apply (counters_conserved sample_pfa 8192 p' sample_pfa_ok).
  - vm_compute. split; done.
  - left. exact E.
Defined.

(** A machine with 4 GiB and one usable entry. *)
Definition big_memmap : limine_memmap_response :=
  mkMemmap 0 1 [mkEntry 4096 (2^32 - 4096) 0].

Lemma init_overflows_above_2GiB_witness :
  mem_pageframeallocator_init pfa_boot big_memmap 0 (replicate (Z.to_nat 131073) 0)
  = Undef "int overflow in lockPages".
Proof.
  apply (init_overflows_above_2GiB big_memmap 0 _ 4096 (2^32 - 4096)).
  - split; [done|]. repeat constructor; cbn; lia.
  - vm_compute. reflexivity.
  - lia.
  - vm_compute. split; done.
  - rewrite length_replicate. vm_compute. done.
  - apply Forall_replicate. znorm. lia.
Defined.

(** Two usable entries of four pages each. *)
Definition small_memmap : limine_memmap_response :=
  mkMemmap 0 2 [mkEntry 4096 16384 0; mkEntry 32768 16384 0].

Lemma small_boot_ok : boot_ok small_memmap sample_region.
Proof.
  split.
  - split; [done|]. repeat constructor; cbn; lia.
  - refine (entry_cases _ _ _). repeat constructor; vm_compute; done.
  - vm_compute. done.
  - exists (mkEntry 4096 16384 0). split; [by apply elem_of_cons; left|].
    vm_compute. split; done.
  - split; [vm_compute; done|]. apply Forall_replicate. znorm. lia.
Qed.

(** [init] starts the free counter from the largest usable entry alone,
    so [requestPage] can report that memory is exhausted while pages are
    free: here on the first request, with seven pages free. *)
Theorem oom_with_free_pages :
  ∃ mm off region p, boot_ok mm region ∧
    mem_pageframeallocator_init pfa_boot mm off region = Done p ∧
    count_free (locked p) (Z.to_nat (total_pages mm)) = 7 ∧
    mem_getFreeRAM p = 3 * 4096 ∧
    mem_pageframeallocator_requestPage p = Panicked "Out of memory".
Proof.
  destruct (mem_pageframeallocator_init pfa_boot small_memmap sample_hhdm sample_region)
    as [p| | |] eqn:E; try (vm_compute in E; discriminate).
  exists small_memmap, sample_hhdm, sample_region, p.
  split; [exact small_boot_ok|]. split; [exact E|].
  vm_compute in E. injection E as <-. vm_compute. done.
Qed.
