(* ===== verification/PageEntry.v ===== *)
(** * mem/paging.cpp, lines 1-35: page-table entries and the index split

    A [PageDirectoryEntry] is its 64-bit [value]; the methods are functions
    on it.  The theorems say that flags and address do not disturb each other
    and that the four table indices are the address bits 12 to 47. *)

From S2P Require Import Prelude.

Inductive PT_Flag :=
  | Present | ReadWrite | UserSuper | WriteThrough | CacheDisabled | Accessed
  | LargerPages | Custom0 | Custom1 | Custom2 | NX.

#[global] Instance PT_Flag_eq_dec : EqDecision PT_Flag.
Proof. solve_decision. Defined.

Definition flag_bit (f : PT_Flag) : Z :=
  match f with
  | Present => 0 | ReadWrite => 1 | UserSuper => 2 | WriteThrough => 3
  | CacheDisabled => 4 | Accessed => 5 | LargerPages => 7
  | Custom0 => 9 | Custom1 => 10 | Custom2 => 11 | NX => 63
  end.

Definition SetFlag (value : Z) (flag : PT_Flag) (enabled : bool) : Z :=
  let bitSelector := to_u64 (Z.shiftl 1 (flag_bit flag)) in
  let value := Z.land value (to_u64 (Z.lnot bitSelector)) in
  if enabled then Z.lor value bitSelector else value.

Definition GetFlag (value : Z) (flag : PT_Flag) : bool :=
  let bitSelector := to_u64 (Z.shiftl 1 (flag_bit flag)) in
  0 <? Z.land value bitSelector.

Definition SetAddress (value address : Z) : Z :=
  let address := Z.land address 0xffffffffff in
  let value := Z.land value 0xfff0000000000fff in
  Z.lor value (to_u64 (Z.shiftl address 12)).

Definition GetAddress (value : Z) : Z := Z.shiftr (Z.land value 0x000ffffffffff000) 12.

Record PageMapIndexer := mkIndexer { PDP_i : Z; PD_i : Z; PT_i : Z; P_i : Z }.

#[export] Instance PageMapIndexer_eq_dec : EqDecision PageMapIndexer.
Proof. solve_decision. Defined.

Definition PageMapIndexer_From (addr : Z) : PageMapIndexer :=
  let addr := Z.shiftr addr 12 in
  let p := Z.land addr 0x1ff in
  let addr := Z.shiftr addr 9 in
  let pt := Z.land addr 0x1ff in
  let addr := Z.shiftr addr 9 in
  let pd := Z.land addr 0x1ff in
  let addr := Z.shiftr addr 9 in
  let pdp := Z.land addr 0x1ff in
  mkIndexer pdp pd pt p.

#[global] Arguments SetFlag : simpl never.
#[global] Arguments GetFlag : simpl never.
#[global] Arguments SetAddress : simpl never.
#[global] Arguments GetAddress : simpl never.

(** ** Bits of an entry *)

Lemma testbit_selector f i :
  0 <= i → Z.testbit (to_u64 (Z.shiftl 1 (flag_bit f))) i = bool_decide (i = flag_bit f).
Proof.
  intros Hi. assert (to_u64 (Z.shiftl 1 (flag_bit f)) = 2 ^ flag_bit f) as -> by (by destruct f).
  apply testbit_pow2. by destruct f.
Qed.

Lemma testbit_SetFlag v f e i :
  is_u64 v → 0 <= i →
  Z.testbit (SetFlag v f e) i = if decide (i = flag_bit f) then e else Z.testbit v i.
Proof.
  intros Hv Hi. unfold SetFlag.
  assert (Z.testbit (Z.land v (to_u64 (Z.lnot (to_u64 (Z.shiftl 1 (flag_bit f)))))) i
    = negb (bool_decide (i = flag_bit f)) && Z.testbit v i) as Hclr.
  { unfold to_u64 at 1. rewrite Z.land_spec, testbit_mod_pow2, Z.lnot_spec by lia.
    rewrite testbit_selector by done. destruct (decide (i < 64)).
    - rewrite bool_decide_true by done. btauto.
    - rewrite (testbit_range v 64) by (done || lia). btauto. }
  destruct e.
  - rewrite Z.lor_spec, Hclr, testbit_selector by done.
    case_decide; case_bool_decide; try done. by rewrite orb_false_r.
  - rewrite Hclr. by case_decide; case_bool_decide.
Qed.

Lemma GetFlag_testbit v f : 0 <= v → GetFlag v f = Z.testbit v (flag_bit f).
Proof.
  intros Hv. unfold GetFlag. set (sel := to_u64 _).
  assert (0 <= Z.land v sel) by (apply Z.land_nonneg; by left).
  assert (0 <= flag_bit f) by (by destruct f).
  destruct (Z.testbit v (flag_bit f)) eqn:E.
  - apply Z.ltb_lt. destruct (decide (Z.land v sel = 0)) as [Hz|]; [|lia].
    exfalso. assert (Z.testbit (Z.land v sel) (flag_bit f) = true) as HT.
    { rewrite Z.land_spec, E. subst sel. rewrite testbit_selector by done.
      by rewrite bool_decide_true. }
    by rewrite Hz, Z.testbit_0_l in HT.
  - apply Z.ltb_ge. enough (Z.land v sel = 0) by lia.
    apply Z.bits_inj'. intros i Hi. rewrite Z.land_spec, Z.testbit_0_l. subst sel.
    rewrite testbit_selector by done. case_bool_decide; [|by rewrite andb_false_r].
    subst. by rewrite E.
Qed.

Lemma addr_mask_keep : 0xfff0000000000fff = Z.lor (Z.ones 12) (Z.shiftl (Z.ones 12) 52).
Proof. reflexivity. Qed.
Lemma addr_mask_take : 0x000ffffffffff000 = Z.shiftl (Z.ones 40) 12.
Proof. reflexivity. Qed.
Lemma addr_mask_40 : 0xffffffffff = Z.ones 40.
Proof. reflexivity. Qed.

Lemma testbit_SetAddress v a i :
  is_u64 v → 0 <= i →
  Z.testbit (SetAddress v a) i =
    if decide (12 <= i < 52) then Z.testbit a (i - 12) else Z.testbit v i.
Proof.
  intros Hv Hi. unfold SetAddress, to_u64. rewrite addr_mask_keep, addr_mask_40.
  autorewrite with bits. destruct (decide (i < 12)).
  { rewrite !(Z.testbit_neg_r _ (i - _)) by lia.
    case_decide; [lia|]. case_bools; try lia; btauto. }
  rewrite (testbit_ones 40) by lia. destruct (decide (i < 52)).
  { rewrite (Z.testbit_neg_r _ (i - 52)) by lia. case_decide; [|lia].
    case_bools; try lia; btauto. }
  rewrite (testbit_ones 12) by lia. case_decide; [lia|].
  destruct (decide (i < 64)); case_bools; try lia; try btauto.
  rewrite (testbit_range v 64) by (done || lia). btauto.
Qed.

Lemma GetAddress_testbit v i :
  0 <= i → Z.testbit (GetAddress v) i = bool_decide (i < 40) && Z.testbit v (i + 12).
Proof.
  intros Hi. unfold GetAddress. rewrite addr_mask_take. autorewrite with bits.
  case_bools; try lia; btauto.
Qed.

Lemma GetAddress_range v : 0 <= GetAddress v < 2^40.
Proof.
  assert (GetAddress v = GetAddress v mod 2^40) as ->.
  { apply Z.bits_inj'. intros i Hi. rewrite testbit_mod_pow2, GetAddress_testbit by lia. btauto. }
  apply Z.mod_pos_bound. lia.
Qed.

Lemma u64_of_bits v : 0 <= v → (∀ i, 64 <= i → Z.testbit v i = false) → is_u64 v.
Proof.
  intros Hv Hbits. split; [done|].
  assert (v = v mod 2^64) as ->; [|by apply Z.mod_pos_bound].
  apply Z.bits_inj'. intros i Hi. rewrite testbit_mod_pow2 by lia. case_bool_decide; [done|].
  apply Hbits. lia.
Qed.

Lemma SetFlag_u64 v f e : is_u64 v → is_u64 (SetFlag v f e).
Proof.
  intros Hv. pose proof Hv as [? ?]. apply u64_of_bits.
  - unfold SetFlag. destruct e; [apply Z.lor_nonneg; split|]; try apply Z.land_nonneg; try (by left).
    apply to_u64_range.
  - intros i Hi. rewrite testbit_SetFlag by (done || lia). case_decide; [destruct f; cbn in *; lia|].
    apply (testbit_range v 64); [done|lia].
Qed.

Lemma SetAddress_u64 v a : is_u64 v → is_u64 (SetAddress v a).
Proof.
  intros Hv. pose proof Hv as [? ?]. apply u64_of_bits.
  - unfold SetAddress. apply Z.lor_nonneg. split; [apply Z.land_nonneg; by left|apply to_u64_range].
  - intros i Hi. rewrite testbit_SetAddress by (done || lia). case_decide; [lia|].
    apply (testbit_range v 64); [done|lia].
Qed.

#[export] Hint Resolve SetFlag_u64 SetAddress_u64 : num.

Lemma flag_bit_inj f g : flag_bit f = flag_bit g → f = g.
Proof. by destruct f, g. Qed.

Lemma flag_bit_range f : 0 <= flag_bit f < 64 ∧ (flag_bit f < 12 ∨ 52 <= flag_bit f).
Proof. destruct f; cbn; lia. Qed.

Lemma GetFlag_SetFlag v f e g :
  is_u64 v → GetFlag (SetFlag v f e) g = if decide (f = g) then e else GetFlag v g.
Proof.
  intros Hv. rewrite !GetFlag_testbit by (apply Hv || by apply SetFlag_u64).
  rewrite testbit_SetFlag by (done || apply flag_bit_range).
  repeat case_decide; subst; try done. by destruct (flag_bit_inj g f).
Qed.

Lemma GetAddress_SetFlag v f e : is_u64 v → GetAddress (SetFlag v f e) = GetAddress v.
Proof.
  intros Hv. apply Z.bits_inj'. intros i Hi. rewrite !GetAddress_testbit by done.
  case_bool_decide; [|done]. rewrite testbit_SetFlag by (done || lia).
  pose proof (flag_bit_range f). case_decide; [lia|done].
Qed.

Lemma GetAddress_SetAddress v a : is_u64 v → GetAddress (SetAddress v a) = a mod 2^40.
Proof.
  intros Hv. apply Z.bits_inj'. intros i Hi.
  rewrite GetAddress_testbit, testbit_mod_pow2 by lia. case_bool_decide; [|done].
  rewrite testbit_SetAddress by (done || lia). case_decide; [|lia].
  by replace (i + 12 - 12) with i by lia.
Qed.

Lemma GetFlag_SetAddress v a f : is_u64 v → GetFlag (SetAddress v a) f = GetFlag v f.
Proof.
  intros Hv. rewrite !GetFlag_testbit by (apply Hv || by apply SetAddress_u64).
  pose proof (flag_bit_range f). rewrite testbit_SetAddress by (done || lia).
  case_decide; [lia|done].
Qed.

(** The fields of an entry are independent: a flag reads back as it was
    set, the address reads back reduced to its 40 bits, setting a flag changes
    no other flag and not the address, and setting the address changes no
    flag. *)
Theorem entry_fields_independent v f e a g :
  is_u64 v →
  GetFlag (SetFlag v f e) g = (if decide (f = g) then e else GetFlag v g) ∧
  GetAddress (SetFlag v f e) = GetAddress v ∧
  GetAddress (SetAddress v a) = a mod 2^40 ∧
  GetFlag (SetAddress v a) g = GetFlag v g ∧
  is_u64 (SetFlag v f e) ∧ is_u64 (SetAddress v a).
Proof.
  intros Hv. split_and!; auto using GetFlag_SetFlag, GetAddress_SetFlag,
    GetAddress_SetAddress, GetFlag_SetAddress with num; try by apply SetFlag_u64.
  all: by apply SetAddress_u64.
Qed.

(** ** The index split *)

Lemma indexer_fields a :
  PageMapIndexer_From a = mkIndexer (a / 2^39 mod 512) (a / 2^30 mod 512)
    (a / 2^21 mod 512) (a / 2^12 mod 512).
Proof.
  unfold PageMapIndexer_From. change 0x1ff with (Z.ones 9).
  rewrite !Z.land_ones, !Z.shiftr_shiftr, !Z.shiftr_div_pow2 by lia. done.
Qed.

Lemma indexer_range a :
  0 <= PDP_i (PageMapIndexer_From a) < 512 ∧ 0 <= PD_i (PageMapIndexer_From a) < 512 ∧
  0 <= PT_i (PageMapIndexer_From a) < 512 ∧ 0 <= P_i (PageMapIndexer_From a) < 512.
Proof. rewrite indexer_fields. cbn. split_and!; apply Z.mod_pos_bound; lia. Qed.

Lemma indexer_compose a :
  let ix := PageMapIndexer_From a in
  ((PDP_i ix * 512 + PD_i ix) * 512 + PT_i ix) * 512 + P_i ix = (a / 4096) mod 2^36.
Proof. cbn zeta. rewrite indexer_fields. cbn. zlia. Qed.

(** Two addresses get the same indices when their page numbers agree in the
    36 bits that four-level paging translates. *)
Lemma indexer_eq a b :
  PageMapIndexer_From a = PageMapIndexer_From b ↔ (a / 4096) mod 2^36 = (b / 4096) mod 2^36.
Proof.
  rewrite <- !indexer_compose. pose proof (indexer_range a). pose proof (indexer_range b).
  split; [by intros ->|].
  destruct (PageMapIndexer_From a), (PageMapIndexer_From b); cbn in *.
  intros. f_equal; lia.
Qed.

(** The four indices are in range and are exactly the digits of the page
    number to base 512: two addresses get the same indices if and only if
    their page numbers agree in the 36 bits that four-level paging
    translates. *)
Theorem indexer_correct a b :
  let ix := PageMapIndexer_From a in
  (0 <= PDP_i ix < 512 ∧ 0 <= PD_i ix < 512 ∧ 0 <= PT_i ix < 512 ∧ 0 <= P_i ix < 512) ∧
  ((PDP_i ix * 512 + PD_i ix) * 512 + PT_i ix) * 512 + P_i ix = (a / 4096) mod 2^36 ∧
  (ix = PageMapIndexer_From b ↔ (a / 4096) mod 2^36 = (b / 4096) mod 2^36).
Proof.
  cbn zeta. split; [apply indexer_range|]. split; [apply indexer_compose|]. apply indexer_eq.
Qed.

Lemma entry_fields_independent_witness :
  GetFlag (SetFlag 0x1003 NX true) Present = true ∧ GetAddress (SetAddress 0x1003 0x42) = 0x42.
Proof.
  destruct (entry_fields_independent 0x1003 NX true 0x42 Present) as (H1 & _ & H2 & _);
    [znorm; lia|]. rewrite H1, H2. split; reflexivity.
Defined.
