(* ===== verification/PageSource.v ===== *)
(** * The interface between the page frame allocator and its clients

    The paging code and, through it, the heap take page frames from the
    allocator with one call.  [PageSource] is that call with the state it
    runs on; [PageSourceLaws] is what the clients rely on.  The page frame
    allocator meets it. *)

From S2P Require Import Prelude Bitmap MemUtils PageFrameAllocator.

Class PageSource (W : Type) := {
  requestPage : W → outcome (Z * W);
  src_ok : W → Prop;
  (** the frame at this physical address is in use *)
  allocated : W → Z → Prop
}.

Class PageSourceLaws (W : Type) `{PageSource W} := {
  request_ok w a w' : src_ok w → requestPage w = Done (a, w') → src_ok w';
  request_frame w a w' :
    src_ok w → requestPage w = Done (a, w') → a mod 4096 = 0 ∧ 0 <= a < 2^52;
  request_fresh w a w' :
    src_ok w → requestPage w = Done (a, w') → ¬ allocated w a;
  request_allocated w a w' b :
    src_ok w → requestPage w = Done (a, w') → b mod 4096 = 0 → 0 <= b →
    allocated w' b ↔ b = a ∨ allocated w b;
  request_fails w :
    src_ok w → (∃ a w', requestPage w = Done (a, w')) ∨
    requestPage w = Panicked "Out of memory"
}.

#[global] Instance pfa_source : PageSource Pfa := {
  requestPage := mem_pageframeallocator_requestPage;
  src_ok := pfa_ok;
  allocated p a := locked p (a / 4096) = true
}.

#[global] Instance pfa_source_laws : PageSourceLaws Pfa.
Proof.
  split; cbn.
  - intros w a w' Hok Hr. apply requestPage_Done in Hr as (i & _ & _ & Hl & _); [|done].
    apply (lp_ok _ _ _ Hl).
  - intros w a w' Hok Hr. apply requestPage_Done in Hr as (i & -> & (Hi & _) & _); [|done].
    pose proof (pfa_size w Hok). unfold pages in Hi. zlia.
  - intros w a w' Hok Hr. apply requestPage_Done in Hr as (i & -> & (_ & Hf & _) & _); [|done].
    by rewrite Z.div_mul, Hf by lia.
  - intros w a w' b Hok Hr Hb Hb0.
    apply requestPage_Done in Hr as (i & -> & _ & Hl & _); [|done].
    rewrite (lp_locked _ _ _ Hl) by zlia. change (locked (set_idx w i)) with (locked w).
    rewrite orb_true_iff, bool_decide_eq_true. split; intros [H|H]; auto; left; zlia.
  - intros w Hok. destruct (requestPage_cases w Hok) as [[E _]|(i & p' & _ & _ & E & _)];
      [by right|left; eauto].
Qed.
