(* ===== verification/Paging.v ===== *)
(** * mem/paging.cpp: mapping pages

    [PageTable_MapMemory] walks the four levels of page tables in physical
    memory, creates the tables that are missing and writes the leaf entry.
    The code reaches a table through its physical address (the low memory is
    identity mapped whenever it runs), so the tables live in the byte memory
    of [Memory.v] at that address, eight bytes per entry.

    The reference is [translate], the walk the processor makes.  The theorem
    is that after a call the page translates to the frame it was mapped to,
    every other page translates as before, and no memory outside the page
    tables and the new frames has changed. *)

From S2P Require Import Prelude Memory PageEntry PageSource.

Section Paging.
Context {W : Type} `{PageSource W}.

(** One level of the walk of [PageTable_MapMemory]: fetch the entry; if it is
    absent, take a page, clear it and link it; give back the next table. *)
Definition next_table (m : mem) (w : W) (table i : Z) : outcome (Z * mem * W) :=
  let PDE := rd64 m (table + 8 * i) in
  if negb (GetFlag PDE Present) then
    '(page, w) ← requestPage w;
    let m := (memset m page 0 0x1000).2 in
    let PDE := SetAddress PDE (Z.shiftr page 12) in
    let PDE := SetFlag PDE Present true in
    let PDE := SetFlag PDE ReadWrite true in
    let PDE := SetFlag PDE NX false in
    let m := wr64 m (table + 8 * i) PDE in
    if negb (GetFlag (rd64 m (table + 8 * i)) Present) then Panicked "mapping failure"
    else Done (page, m, w)
  else Done (to_u64 (Z.shiftl (GetAddress PDE) 12), m, w).

(** The last level: write the frame into the leaf entry. *)
Definition set_leaf (m : mem) (PT i phys : Z) : outcome mem :=
  let PDE := rd64 m (PT + 8 * i) in
  let PDE := SetAddress PDE (Z.shiftr phys 12) in
  let PDE := SetFlag PDE Present true in
  let PDE := SetFlag PDE ReadWrite true in
  let PDE := SetFlag PDE NX false in
  let m := wr64 m (PT + 8 * i) PDE in
  if negb (GetFlag (rd64 m (PT + 8 * i)) Present) then Panicked "mapping failure"
  else Done m.

Definition PageTable_MapMemory (m : mem) (w : W) (PML4 virt phys : Z)
  : outcome (mem * W) :=
  let indexer := PageMapIndexer_From virt in
  '(PDP, m, w) ← next_table m w PML4 (PDP_i indexer);
  '(PD, m, w) ← next_table m w PDP (PD_i indexer);
  '(PT, m, w) ← next_table m w PD (PT_i indexer);
  m ← set_leaf m PT (P_i indexer) phys;
  Done (m, w).

(** ** The processor's walk *)

Definition walk (m : mem) (table i : Z) : option Z :=
  let e := rd64 m (table + 8 * i) in
  if GetFlag e Present && negb (GetFlag e LargerPages) then Some (GetAddress e * 4096)
  else None.

Definition walk_leaf (m : mem) (table i : Z) : option Z :=
  let e := rd64 m (table + 8 * i) in
  if GetFlag e Present then Some (GetAddress e * 4096) else None.

Definition translate (m : mem) (PML4 virt : Z) : option Z :=
  let ix := PageMapIndexer_From virt in
  pdp ← walk m PML4 (PDP_i ix);
  pd ← walk m pdp (PD_i ix);
  pt ← walk m pd (PT_i ix);
  frame ← walk_leaf m pt (P_i ix);
  Some (frame + virt mod 4096).

(** ** The tree of tables

    [T] names every table by the path of indices that leads to it, innermost
    index first.  Distinct paths name distinct frames, all of them allocated,
    and the entries in memory are exactly the edges of the tree. *)
Record tree_inv (PML4 : Z) (m : mem) (w : W) (T : gmap (list Z) Z) : Prop := {
  ti_root : T !! [] = Some PML4;
  ti_inj p q t : T !! p = Some t → T !! q = Some t → p = q;
  ti_frame p t : T !! p = Some t → t mod 4096 = 0 ∧ 0 <= t < 2^52 ∧ allocated w t;
  ti_edge p t i : T !! p = Some t → (length p < 3)%nat → 0 <= i < 512 →
    let e := rd64 m (t + 8 * i) in
    GetFlag e LargerPages = false ∧
    T !! (i :: p) = if GetFlag e Present then Some (GetAddress e * 4096) else None;
  ti_parent p i t : T !! (i :: p) = Some t →
    is_Some (T !! p) ∧ (length p < 3)%nat ∧ 0 <= i < 512
}.

Definition pt_ok (PML4 : Z) (m : mem) (w : W) : Prop := ∃ T, tree_inv PML4 m w T.

(** An address inside some table of the tree. *)
Definition in_table (T : gmap (list Z) Z) (a : Z) : Prop :=
  ∃ p t, T !! p = Some t ∧ t <= a < t + 4096.

(** ** Entries and frames *)

Definition map_entry (e a : Z) : Z :=
  SetFlag (SetFlag (SetFlag (SetAddress e a) Present true) ReadWrite true) NX false.

Lemma map_entry_u64 e a : is_u64 e → is_u64 (map_entry e a).
Proof. unfold map_entry. auto with num. Qed.

Lemma map_entry_fields e a :
  is_u64 e →
  GetFlag (map_entry e a) Present = true ∧
  GetFlag (map_entry e a) LargerPages = GetFlag e LargerPages ∧
  GetAddress (map_entry e a) = a mod 2^40.
Proof.
  intros He. unfold map_entry.
  rewrite !GetAddress_SetFlag, GetAddress_SetAddress by auto with num.
  split_and!; [| |done]; rewrite !GetFlag_SetFlag by auto with num; cbn; [done|].
  by rewrite GetFlag_SetAddress.
Qed.

Lemma frame_address f : f mod 4096 = 0 → 0 <= f < 2^52 → Z.shiftr f 12 mod 2^40 * 4096 = f.
Proof. intros. rewrite Z.shiftr_div_pow2 by lia. zlia. Qed.

Lemma GetAddress_shifted e : to_u64 (Z.shiftl (GetAddress e) 12) = GetAddress e * 4096.
Proof.
  pose proof (GetAddress_range e). rewrite Z.shiftl_mul_pow2 by lia.
  rewrite to_u64_id; [done|znorm; lia].
Qed.

(** [lia] needs no nonlinear fact to tell two aligned frames apart. *)
Lemma frames_apart t f :
  t mod 4096 = 0 → f mod 4096 = 0 → t ≠ f → t + 4096 <= f ∨ f + 4096 <= t.
Proof. zlia. Qed.

Lemma rdN_zero n m a :
  (∀ i, a <= i < a + Z.of_nat n → rd8 m i = 0) → rdN n m a = 0.
Proof.
  revert a. induction n as [|n IH]; intros a Hz; [done|].
  rewrite rdN_S, IH, Hz by (try lia; intros; apply Hz; lia). done.
Qed.

Lemma rd64_memset_in m f b :
  f <= b → b + 8 <= f + 4096 → rd64 (memset m f 0 0x1000).2 b = 0.
Proof.
  intros. apply rdN_zero. intros i Hi. rewrite rd8_memset. case_decide; [done|lia].
Qed.

Lemma rd64_memset_out m f b :
  b + 8 <= f ∨ f + 4096 <= b → rd64 (memset m f 0 0x1000).2 b = rd64 m b.
Proof.
  intros. apply rdN_ext. intros i Hi. rewrite rd8_memset. case_decide; [lia|done].
Qed.

(** ** One level *)

Lemma next_table_present m w t i :
  GetFlag (rd64 m (t + 8 * i)) Present = true →
  next_table m w t i = Done (GetAddress (rd64 m (t + 8 * i)) * 4096, m, w).
Proof. intros E. unfold next_table. rewrite E. cbn. by rewrite GetAddress_shifted. Qed.

Lemma next_table_absent m w t i :
  GetFlag (rd64 m (t + 8 * i)) Present = false →
  next_table m w t i =
    ('(f, w') ← requestPage w;
     Done (f, wr64 (memset m f 0 0x1000).2 (t + 8 * i)
                (map_entry (rd64 m (t + 8 * i)) (Z.shiftr f 12)), w')).
Proof.
  intros E. unfold next_table. rewrite E. cbn [negb].
  destruct (requestPage w) as [[f w']| | |]; cbn; try done.
  pose proof (map_entry_u64 (rd64 m (t + 8 * i)) (Z.shiftr f 12) (rd64_range _ _)) as Hu.
  change (SetFlag (SetFlag _ _ _) NX false)
    with (map_entry (rd64 m (t + 8 * i)) (Z.shiftr f 12)).
  rewrite rd64_wr64_eq, to_u64_id by done.
  destruct (map_entry_fields (rd64 m (t + 8 * i)) (Z.shiftr f 12)) as [-> _];
    [apply rd64_range|done].
Qed.

Lemma set_leaf_eq m t i phys :
  set_leaf m t i phys =
    Done (wr64 m (t + 8 * i) (map_entry (rd64 m (t + 8 * i)) (Z.shiftr phys 12))).
Proof.
  unfold set_leaf.
  pose proof (map_entry_u64 (rd64 m (t + 8 * i)) (Z.shiftr phys 12) (rd64_range _ _)) as Hu.
  change (SetFlag (SetFlag _ _ _) NX false)
    with (map_entry (rd64 m (t + 8 * i)) (Z.shiftr phys 12)).
  rewrite rd64_wr64_eq, to_u64_id by done.
  destruct (map_entry_fields (rd64 m (t + 8 * i)) (Z.shiftr phys 12)) as [-> _];
    [apply rd64_range|done].
Qed.

(** ** Growing the tree *)

Context `{!PageSourceLaws W}.

(** How the state after a walk relates to the state before it. *)
Record grown (m : mem) (w : W) (T : gmap (list Z) Z)
    (m' : mem) (w' : W) (T' : gmap (list Z) Z) : Prop := {
  gr_sub : T ⊆ T';
  gr_new q t : T' !! q = Some t → T !! q = None → ¬ allocated w t;
  gr_alloc b : b mod 4096 = 0 → 0 <= b → allocated w b → allocated w' b;
  gr_leaf q t j : T' !! q = Some t → length q = 3%nat → 0 <= j < 512 →
    rd64 m' (t + 8 * j) = if T !! q is Some _ then rd64 m (t + 8 * j) else 0;
  gr_mem a : ¬ in_table T' a → rd8 m' a = rd8 m a
}.

Lemma grown_refl m w T : grown m w T m w T.
Proof.
  split; try done.
  - intros q t E E'. congruence.
  - intros q t j E _ _. by rewrite E.
Qed.

Lemma grown_trans PML4 m1 w1 T1 m2 w2 T2 m3 w3 T3 :
  tree_inv PML4 m3 w3 T3 →
  grown m1 w1 T1 m2 w2 T2 → grown m2 w2 T2 m3 w3 T3 → grown m1 w1 T1 m3 w3 T3.
Proof.
  intros HT [A1 A2 A3 A4 A5] [B1 B2 B3 B4 B5]. split.
  - by etransitivity.
  - intros q t E3 E1. destruct (T2 !! q) as [t'|] eqn:E2.
    + assert (T3 !! q = Some t') by (by eapply lookup_weaken).
      assert (t' = t) as -> by congruence. by eapply A2.
    + intros Hal. destruct (ti_frame _ _ _ _ HT q t E3) as (? & ? & _).
      eapply (B2 q t E3 E2). apply A3; try done. lia.
  - intros b Hb Hb0 Hal. by apply B3, A3.
  - intros q t j E3 Hq Hj. rewrite (B4 q t j) by done.
    destruct (T2 !! q) as [t'|] eqn:E2.
    + assert (T3 !! q = Some t') by (by eapply lookup_weaken).
      assert (t' = t) as -> by congruence. by apply A4.
    + destruct (T1 !! q) eqn:E1; [|done].
      rewrite (lookup_weaken _ _ _ _ E1 A1) in E2. done.
  - intros a Ha. rewrite B5 by done. apply A5. intros (q & t & Eq & Ht). apply Ha.
    exists q, t. split; [by eapply lookup_weaken|done].
Qed.

(** The entry [(p, i)] sits apart from every other entry of the tree. *)
Lemma entry_apart PML4 m w T p t i q tq j :
  tree_inv PML4 m w T → T !! p = Some t → T !! q = Some tq →
  0 <= i < 512 → 0 <= j < 512 → (q, j) ≠ (p, i) →
  tq + 8 * j + 8 <= t + 8 * i ∨ t + 8 * i + 8 <= tq + 8 * j.
Proof.
  intros HT Ep Eq Hi Hj Hne.
  destruct (ti_frame _ _ _ _ HT p t Ep) as (Hm & _).
  destruct (ti_frame _ _ _ _ HT q tq Eq) as (Hmq & _).
  destruct (decide (tq = t)) as [->|Hd].
  - assert (q = p) as -> by (by eapply ti_inj). assert (j ≠ i) by congruence. lia.
  - destruct (frames_apart tq t) as [?|?]; try done; lia.
Qed.

Section Link.
  (** A fresh frame [f] becomes the table behind entry [i] of table [t]. *)
Context (PML4 : Z) (m : mem) (w : W) (T : gmap (list Z) Z).
Context (p : list Z) (t i f : Z) (w' : W).
Hypothesis HT : tree_inv PML4 m w T.
Hypothesis Hok : src_ok w.
Hypothesis Ep : T !! p = Some t.
Hypothesis Hp : (length p < 3)%nat.
Hypothesis Hi : 0 <= i < 512.
Hypothesis Habs : GetFlag (rd64 m (t + 8 * i)) Present = false.
Hypothesis Hreq : requestPage w = Done (f, w').

Let m' : mem := wr64 (memset m f 0 0x1000).2 (t + 8 * i)
                  (map_entry (rd64 m (t + 8 * i)) (Z.shiftr f 12)).
Let T' : gmap (list Z) Z := <[i :: p := f]> T.

Lemma link_fresh q tq : T !! q = Some tq → tq ≠ f.
Proof.
  intros Eq ->. destruct (ti_frame _ _ _ _ HT q f Eq) as (_ & _ & Hal).
  by apply (request_fresh w f w').
Qed.

Lemma link_absent : T !! (i :: p) = None.
Proof. destruct (ti_edge _ _ _ _ HT p t i Ep Hp Hi) as [_ ->]. by rewrite Habs. Qed.

Lemma link_frame : f mod 4096 = 0 ∧ 0 <= f < 2^52.
Proof. by apply (request_frame w f w'). Qed.

Lemma link_old q tq j :
  T !! q = Some tq → 0 <= j < 512 → (q, j) ≠ (p, i) →
  rd64 m' (tq + 8 * j) = rd64 m (tq + 8 * j).
Proof.
  intros Eq Hj Hne. unfold m'.
  pose proof (entry_apart _ _ _ _ _ _ _ _ _ _ HT Ep Eq Hi Hj Hne).
  rewrite rdN_wrN_ne by lia. apply rd64_memset_out.
  destruct (ti_frame _ _ _ _ HT q tq Eq) as (Hm & _). pose proof link_frame as [Hf _].
  destruct (frames_apart tq f) as [?|?]; try done; [|lia|lia]. by apply (link_fresh q tq).
Qed.

Lemma link_zero j : 0 <= j < 512 → rd64 m' (f + 8 * j) = 0.
Proof.
  intros Hj. unfold m'. destruct (ti_frame _ _ _ _ HT p t Ep) as (Hm & _).
  pose proof link_frame as [Hf _]. pose proof (link_fresh p t Ep).
  destruct (frames_apart t f) as [?|?]; try done;
    rewrite rdN_wrN_ne by lia; apply rd64_memset_in; lia.
Qed.

Lemma link_entry : rd64 m' (t + 8 * i) = map_entry (rd64 m (t + 8 * i)) (Z.shiftr f 12).
Proof. unfold m'. rewrite rd64_wr64_eq. apply to_u64_id, map_entry_u64, rd64_range. Qed.

Lemma link_edge q tq j :
  T' !! q = Some tq → (length q < 3)%nat → 0 <= j < 512 →
  let e := rd64 m' (tq + 8 * j) in
  GetFlag e LargerPages = false ∧
  T' !! (j :: q) = if GetFlag e Present then Some (GetAddress e * 4096) else None.
Proof.
  intros Eq Hq Hj. cbn zeta. unfold T' in *.
  destruct (decide (q = i :: p)) as [->|Hqp].
  - rewrite lookup_insert_eq in Eq. injection Eq as <-. rewrite link_zero by done.
    split; [done|]. rewrite lookup_insert_ne by (intros [= _ E]; by apply (list_ne_cons i p)).
    change (GetFlag 0 Present) with false.
    destruct (T !! (j :: i :: p)) eqn:E; [|done].
    destruct (ti_parent _ _ _ _ HT _ _ _ E) as [[? E'] _]. by rewrite link_absent in E'.
  - rewrite lookup_insert_ne in Eq by done.
    destruct (decide ((q, j) = (p, i))) as [[= -> ->]|Hne].
    + assert (tq = t) as -> by congruence. rewrite lookup_insert_eq, link_entry.
      destruct (map_entry_fields (rd64 m (t + 8 * i)) (Z.shiftr f 12)) as (-> & -> & ->);
        [apply rd64_range|]. pose proof link_frame as [Hf1 Hf2].
      rewrite frame_address by done. split; [|done].
      by destruct (ti_edge _ _ _ _ HT p t i Ep Hp Hi).
    + rewrite lookup_insert_ne by congruence. rewrite (link_old q) by done.
      by apply (ti_edge _ _ _ _ HT).
Qed.

Lemma link_tree : tree_inv PML4 m' w' T'.
Proof.
  pose proof link_frame as [Hf1 Hf2]. unfold T'. split.
  - rewrite lookup_insert_ne by done. apply HT.
  - intros q1 q2 x E1 E2.
    destruct (decide (q1 = i :: p)) as [->|], (decide (q2 = i :: p)) as [->|]; try done.
    + rewrite lookup_insert_eq in E1. rewrite lookup_insert_ne in E2 by done.
      injection E1 as <-. by destruct (link_fresh q2 f).
    + rewrite lookup_insert_eq in E2. rewrite lookup_insert_ne in E1 by done.
      injection E2 as <-. by destruct (link_fresh q1 f).
    + rewrite lookup_insert_ne in E1, E2 by done. by eapply (ti_inj _ _ _ _ HT).
  - intros q x [[<- <-]|[Hne E]]%lookup_insert_Some.
    + split; [done|]. split; [done|].
      apply (request_allocated w f w'); try done; [lia|by left].
    + destruct (ti_frame _ _ _ _ HT q x E) as (? & ? & ?). split; [done|]. split; [done|].
      apply (request_allocated w f w'); try done; [lia|by right].
  - apply link_edge.
  - intros q j x [[[= <- <-] <-]|[Hne E]]%lookup_insert_Some.
    + split; [|done]. rewrite lookup_insert_ne by apply not_eq_sym, list_ne_cons. eauto.
    + destruct (ti_parent _ _ _ _ HT q j x E) as ([y Ey] & ?). split; [|done].
      destruct (decide (q = i :: p)) as [->|]; [by rewrite link_absent in Ey|].
      rewrite lookup_insert_ne by done. eauto.
Qed.

Lemma link_grown : grown m w T m' w' T'.
Proof.
  pose proof link_frame as [Hf1 Hf2]. unfold T'. split.
  - apply insert_subseteq, link_absent.
  - intros q x [[<- <-]|[Hne E]]%lookup_insert_Some E'; [|congruence].
    by apply (request_fresh w f w').
  - intros b Hb Hb0 Hal. apply (request_allocated w f w'); try done. by right.
  - intros q x j [[<- <-]|[Hne E]]%lookup_insert_Some Hq Hj.
    + rewrite link_absent. by apply link_zero.
    + rewrite E. apply (link_old q); try done. intros [= -> ->]. lia.
  - intros a Ha. unfold m'. rewrite rd8_wrN_ne.
    + rewrite rd8_memset. case_decide; [|done]. destruct Ha. exists (i :: p), f.
      split; [apply lookup_insert_eq|lia].
    + destruct (decide (t <= a < t + 4096)); [|lia]. destruct Ha. exists p, t.
      split; [|done]. by rewrite lookup_insert_ne by apply not_eq_sym, list_ne_cons.
Qed.
End Link.

Lemma next_table_ok PML4 m w T p t i t' m' w' :
  tree_inv PML4 m w T → src_ok w → T !! p = Some t → (length p < 3)%nat → 0 <= i < 512 →
  next_table m w t i = Done (t', m', w') →
  ∃ T', tree_inv PML4 m' w' T' ∧ src_ok w' ∧ T' !! (i :: p) = Some t' ∧
        grown m w T m' w' T' ∧ ∀ q, q ≠ i :: p → T' !! q = T !! q.
Proof.
  intros HT Hok Ep Hp Hi. destruct (GetFlag (rd64 m (t + 8 * i)) Present) eqn:E.
  - rewrite next_table_present by done. intros [= <- <- <-]. exists T.
    split_and!; try done; [|apply grown_refl].
    destruct (ti_edge _ _ _ _ HT p t i Ep Hp Hi) as [_ ->]. by rewrite E.
  - rewrite next_table_absent by done. destruct (requestPage w) as [[f w1]| | |] eqn:Hr;
      cbn [mbind outcome_bind]; [|discriminate..]. intros Hd%Done_inj.
    apply pair_eq in Hd as [Hd <-]. apply pair_eq in Hd as [<- <-].
    exists (<[i :: p := f]> T). split_and!.
    + by eapply link_tree.
    + by eapply request_ok.
    + apply lookup_insert_eq.
    + by eapply link_grown.
    + intros q Hq. by rewrite lookup_insert_ne by done.
Qed.

(** ** Translation through the tree *)

Lemma walk_tree PML4 m w T p t i :
  tree_inv PML4 m w T → T !! p = Some t → (length p < 3)%nat → 0 <= i < 512 →
  walk m t i = T !! (i :: p).
Proof.
  intros HT Ep Hp Hi. unfold walk.
  destruct (ti_edge _ _ _ _ HT p t i Ep Hp Hi) as [-> ->]. by rewrite andb_true_r.
Qed.

(** The leaf entry for an address: zero where there is no table. *)
Definition leaf_entry (m : mem) (T : gmap (list Z) Z) (ix : PageMapIndexer) : Z :=
  match T !! [PT_i ix; PD_i ix; PDP_i ix] with
  | Some t => rd64 m (t + 8 * P_i ix)
  | None => 0
  end.

Lemma translate_leaf PML4 m w T va :
  tree_inv PML4 m w T →
  translate m PML4 va =
    let e := leaf_entry m T (PageMapIndexer_From va) in
    if GetFlag e Present then Some (GetAddress e * 4096 + va mod 4096) else None.
Proof.
  intros HT. unfold translate, leaf_entry. pose proof (indexer_range va) as (H1 & H2 & H3 & H4).
  set (ix := PageMapIndexer_From va) in *. cbn zeta.
  rewrite (walk_tree PML4 m w T [] PML4) by (done || apply HT || (cbn; lia)).
  destruct (T !! [PDP_i ix]) as [pdp|] eqn:E1; cbn [mbind option_bind].
  - rewrite (walk_tree PML4 m w T [PDP_i ix] pdp) by (done || (cbn; lia)).
    destruct (T !! [PD_i ix; PDP_i ix]) as [pd|] eqn:E2; cbn [mbind option_bind].
    + rewrite (walk_tree PML4 m w T [PD_i ix; PDP_i ix] pd) by (done || (cbn; lia)).
      destruct (T !! [PT_i ix; PD_i ix; PDP_i ix]) as [pt|]; cbn [mbind option_bind]; [|done].
      unfold walk_leaf. by destruct (GetFlag _ Present).
    + destruct (T !! [PT_i ix; PD_i ix; PDP_i ix]) eqn:E3; [|done].
      apply (ti_parent _ _ _ _ HT) in E3 as [[? E] _]. congruence.
  - destruct (T !! [PT_i ix; PD_i ix; PDP_i ix]) eqn:E3; [|done].
    apply (ti_parent _ _ _ _ HT) in E3 as [[? E] _].
    apply (ti_parent _ _ _ _ HT) in E as [[? E] _]. congruence.
Qed.

(** ** The leaf *)

Lemma indexer_path_inj (ix iy : PageMapIndexer) :
  [PT_i ix; PD_i ix; PDP_i ix] = [PT_i iy; PD_i iy; PDP_i iy] → P_i ix = P_i iy → ix = iy.
Proof. destruct ix, iy. cbn. by intros [= -> -> ->] ->. Qed.

Section Leaf.
Context (PML4 : Z) (m : mem) (w : W) (T : gmap (list Z) Z) (ix : PageMapIndexer) (PT phys : Z).
Hypothesis HT : tree_inv PML4 m w T.
Hypothesis EPT : T !! [PT_i ix; PD_i ix; PDP_i ix] = Some PT.
Hypothesis Hix : 0 <= P_i ix < 512.

Let e' : Z := map_entry (rd64 m (PT + 8 * P_i ix)) (Z.shiftr phys 12).
Let m' : mem := wr64 m (PT + 8 * P_i ix) e'.

Lemma leaf_old q tq j :
  T !! q = Some tq → 0 <= j < 512 → (q, j) ≠ ([PT_i ix; PD_i ix; PDP_i ix], P_i ix) →
  rd64 m' (tq + 8 * j) = rd64 m (tq + 8 * j).
Proof.
  intros Eq Hj Hne. unfold m'. apply rdN_wrN_ne.
  pose proof (entry_apart _ _ _ _ _ _ _ _ _ _ HT EPT Eq Hix Hj Hne). lia.
Qed.

Lemma leaf_tree : tree_inv PML4 m' w T.
Proof.
  split; try apply HT.
  intros p t i Ep Hp Hi. rewrite (leaf_old p) by (done || (intros [= -> ->]; cbn in Hp; lia)).
  by apply (ti_edge _ _ _ _ HT).
Qed.

Lemma leaf_entry_new : leaf_entry m' T ix = e'.
Proof.
  unfold leaf_entry, m'. rewrite EPT, rd64_wr64_eq.
  apply to_u64_id, map_entry_u64, rd64_range.
Qed.

Lemma leaf_entry_other iy :
  0 <= P_i iy < 512 → iy ≠ ix → leaf_entry m' T iy = leaf_entry m T iy.
Proof.
  intros Hiy Hne. unfold leaf_entry.
  destruct (T !! [PT_i iy; PD_i iy; PDP_i iy]) as [t|] eqn:E; [|done].
  apply (leaf_old [PT_i iy; PD_i iy; PDP_i iy]); try done.
  intros E'. apply pair_eq in E' as [E1 E2]. by apply Hne, indexer_path_inj.
Qed.
End Leaf.

Lemma leaf_entry_grown m w T m' w' T' ix :
  grown m w T m' w' T' → 0 <= P_i ix < 512 → leaf_entry m' T' ix = leaf_entry m T ix.
Proof.
  intros [G1 _ _ G4 _] Hix. unfold leaf_entry.
  destruct (T' !! _) as [t|] eqn:E'.
  - rewrite (G4 _ _ _ E') by done. destruct (T !! _) as [t0|] eqn:E; [|done].
    rewrite (lookup_weaken _ _ _ _ E G1) in E'. congruence.
  - destruct (T !! _) as [t0|] eqn:E; [|done].
    by rewrite (lookup_weaken _ _ _ _ E G1) in E'.
Qed.

(** ** The whole call *)

Lemma MapMemory_walk PML4 m w T virt phys r :
  tree_inv PML4 m w T → src_ok w →
  PageTable_MapMemory m w PML4 virt phys = Done r →
  ∃ PT m1 T1, tree_inv PML4 m1 r.2 T1 ∧ src_ok r.2 ∧ grown m w T m1 r.2 T1 ∧
    let ix := PageMapIndexer_From virt in
    T1 !! [PT_i ix; PD_i ix; PDP_i ix] = Some PT ∧
    r.1 = wr64 m1 (PT + 8 * P_i ix)
            (map_entry (rd64 m1 (PT + 8 * P_i ix)) (Z.shiftr phys 12)) ∧
    ∀ j, is_Some (T1 !! [j]) ↔ is_Some (T !! [j]) ∨ j = PDP_i ix.
Proof.
  intros HT Hok Hd. unfold PageTable_MapMemory in Hd.
  pose proof (indexer_range virt) as (R1 & R2 & R3 & R4).
  set (ix := PageMapIndexer_From virt) in *. cbn zeta in *.
  apply bind_Done_inv in Hd as ([[PDP m1] w1] & E1 & Hd).
  apply bind_Done_inv in Hd as ([[PD m2] w2] & E2 & Hd).
  apply bind_Done_inv in Hd as ([[PT m3] w3] & E3 & Hd).
  rewrite set_leaf_eq, bind_Done in Hd. apply Done_inj in Hd as <-.
  destruct (next_table_ok _ _ _ _ _ _ _ _ _ _ HT Hok (ti_root _ _ _ _ HT)
    ltac:(cbn; lia) R1 E1) as (T1 & I1 & O1 & L1 & G1 & N1).
  destruct (next_table_ok _ _ _ _ _ _ _ _ _ _ I1 O1 L1 ltac:(cbn; lia) R2 E2)
    as (T2 & I2 & O2 & L2 & G2 & N2).
  destruct (next_table_ok _ _ _ _ _ _ _ _ _ _ I2 O2 L2 ltac:(cbn; lia) R3 E3)
    as (T3 & I3 & O3 & L3 & G3 & N3).
  exists PT, m3, T3. split; [done|]. split; [done|]. split; [|split; [done|]; split; [done|]].
  - eapply grown_trans; [done| |done]. by eapply grown_trans.
  - intros j. rewrite N3, N2 by done. destruct (decide (j = PDP_i ix)) as [->|Hj]; [rewrite L1; split; [by right|by eexists]|].
    rewrite N1 by congruence. split; [by left|]. by intros [?|?].
Qed.

(** What a call of [PageTable_MapMemory] achieves. *)
Record mapped_post (PML4 : Z) (m : mem) (w : W) (virt phys : Z) (m' : mem) (w' : W) : Prop := {
  mp_ok : pt_ok PML4 m' w' ∧ src_ok w';
  mp_page va : PageMapIndexer_From va = PageMapIndexer_From virt →
    translate m' PML4 va = Some (phys / 4096 * 4096 + va mod 4096);
  mp_others va : PageMapIndexer_From va ≠ PageMapIndexer_From virt →
    translate m' PML4 va = translate m PML4 va;
  mp_alloc b : b mod 4096 = 0 → 0 <= b → allocated w b → allocated w' b
}.

Lemma MapMemory_spec PML4 m w virt phys m' w' :
  pt_ok PML4 m w → src_ok w → 0 <= phys < 2^52 →
  PageTable_MapMemory m w PML4 virt phys = Done (m', w') →
  mapped_post PML4 m w virt phys m' w'.
Proof.
  intros [T HT] Hok Hph Hd.
  destruct (MapMemory_walk _ _ _ _ _ _ _ HT Hok Hd) as (PT & m1 & T1 & I1 & O1 & G1 & EPT & Em & _).
  cbn [fst snd] in *. subst m'. pose proof (indexer_range virt) as (_ & _ & _ & R4).
  pose proof (leaf_tree PML4 m1 w' T1 _ PT phys I1 EPT R4) as I2. split.
  - split; [by exists T1|done].
  - intros va Eix. rewrite (translate_leaf _ _ _ _ va I2), Eix. cbn zeta.
    rewrite (leaf_entry_new m1 T1) by done.
    destruct (map_entry_fields (rd64 m1 (PT + 8 * P_i (PageMapIndexer_From virt)))
      (Z.shiftr phys 12)) as (-> & _ & ->); [apply rd64_range|].
    rewrite Z.shiftr_div_pow2 by lia. do 2 f_equal. rewrite Z.mod_small; [done|zlia].
  - intros va Hne. rewrite (translate_leaf _ _ _ _ va I2), (translate_leaf _ _ _ _ va HT).
    pose proof (indexer_range va) as (_ & _ & _ & Rva).
    rewrite (leaf_entry_other PML4 m1 w' T1) by done.
    by rewrite (leaf_entry_grown _ _ _ _ _ _ _ G1).
  - apply (gr_alloc _ _ _ _ _ _ G1).
Qed.

(** Memory outside the page tables and the frames that were free is untouched. *)
Lemma grown_outside PML4 m w T m1 w1 T1 a :
  tree_inv PML4 m1 w1 T1 → grown m w T m1 w1 T1 →
  0 <= a → ¬ in_table T a → allocated w (a / 4096 * 4096) → ¬ in_table T1 a.
Proof.
  intros I1 G1 Ha Hno Hal (q & t & Eq & Ht). destruct (ti_frame _ _ _ _ I1 q t Eq) as (Hm & Hr & _).
  destruct (T !! q) as [t0|] eqn:E0.
  - apply Hno. exists q, t. split; [|done].
    rewrite (lookup_weaken _ _ _ _ E0 (gr_sub _ _ _ _ _ _ G1)) in Eq. congruence.
  - apply (gr_new _ _ _ _ _ _ G1 q t Eq E0). by replace t with (a / 4096 * 4096) by zlia.
Qed.

(** An address that mapping leaves alone: its frame is in use, and not by a table. *)
Definition untouched (PML4 : Z) (m : mem) (w : W) (a : Z) : Prop :=
  0 <= a ∧ allocated w (a / 4096 * 4096) ∧ ∃ T, tree_inv PML4 m w T ∧ ¬ in_table T a.

Lemma MapMemory_untouched PML4 m w virt phys m' w' a :
  src_ok w → PageTable_MapMemory m w PML4 virt phys = Done (m', w') →
  untouched PML4 m w a → untouched PML4 m' w' a ∧ rd8 m' a = rd8 m a.
Proof.
  intros Hok Hd (Ha & Hal & T & HT & Hno).
  destruct (MapMemory_walk _ _ _ _ _ _ _ HT Hok Hd) as (PT & m1 & T1 & I1 & O1 & G1 & EPT & Em & _).
  cbn [fst snd] in *. subst m'. pose proof (indexer_range virt) as (_ & _ & _ & R4).
  pose proof (grown_outside _ _ _ _ _ _ _ _ I1 G1 Ha Hno Hal) as Hno1. split.
  - split; [done|]. split; [apply (gr_alloc _ _ _ _ _ _ G1); [zlia|zlia|done]|].
    exists T1. split; [by apply (leaf_tree PML4 m1 w' T1 _ PT phys I1 EPT R4)|done].
  - rewrite rd8_wrN_ne; [by apply (gr_mem _ _ _ _ _ _ G1)|].
    destruct (decide (PT <= a < PT + 4096)); [|lia]. destruct Hno1. by eexists _, PT.
Qed.

Lemma MapMemory_mem PML4 m w T virt phys m' w' a :
  tree_inv PML4 m w T → src_ok w →
  PageTable_MapMemory m w PML4 virt phys = Done (m', w') →
  0 <= a → ¬ in_table T a → allocated w (a / 4096 * 4096) → rd8 m' a = rd8 m a.
Proof.
  intros HT Hok Hd Ha Hno Hal.
  apply (MapMemory_untouched PML4 m w virt phys m' w' a Hok Hd). split; [done|]. split; [done|]. by exists T.
Qed.

(** What every request preserves, a call preserves. *)
Lemma MapMemory_source (R : W → W → Prop) `{!PreOrder R} PML4 m w virt phys m' w' :
  (∀ w a w', src_ok w → requestPage w = Done (a, w') → R w w') →
  src_ok w → PageTable_MapMemory m w PML4 virt phys = Done (m', w') → R w w'.
Proof.
  intros HR Hok Hd. unfold PageTable_MapMemory in Hd. cbn zeta in Hd.
  assert (∀ m w t i t' m' w', src_ok w → next_table m w t i = Done (t', m', w') → R w w' ∧ src_ok w') as Hn.
  { intros m0 w0 t i t' m1 w1 H0 E. destruct (GetFlag (rd64 m0 (t + 8 * i)) Present) eqn:Ef.
    - rewrite next_table_present in E by done. apply Done_inj in E. by apply pair_eq in E as [_ <-].
    - rewrite next_table_absent in E by done. destruct (requestPage w0) as [[f w2]| | |] eqn:Hr;
        cbn [mbind outcome_bind] in E; [|discriminate..]. apply Done_inj in E. apply pair_eq in E as [_ <-].
      split; [by eapply HR|by eapply request_ok]. }
  apply bind_Done_inv in Hd as ([[t1 m1] w1] & E1 & Hd). destruct (Hn _ _ _ _ _ _ _ Hok E1) as [R1 O1].
  apply bind_Done_inv in Hd as ([[t2 m2] w2] & E2 & Hd). destruct (Hn _ _ _ _ _ _ _ O1 E2) as [R2 O2].
  apply bind_Done_inv in Hd as ([[t3 m3] w3] & E3 & Hd). destruct (Hn _ _ _ _ _ _ _ O2 E3) as [R3 O3].
  apply bind_Done_inv in Hd as (m4 & _ & Hd). apply Done_inj in Hd. apply pair_eq in Hd as [_ <-].
  transitivity w1; [done|]. by transitivity w2.
Qed.

(** The entries of the root that point to a table. *)
Definition pdp_present (m : mem) (PML4 i : Z) : bool := GetFlag (rd64 m (PML4 + 8 * i)) Present.

Lemma pdp_present_tree PML4 m w T i :
  tree_inv PML4 m w T → 0 <= i < 512 → pdp_present m PML4 i = true ↔ is_Some (T !! [i]).
Proof.
  intros HT Hi. destruct (ti_edge _ _ _ _ HT [] PML4 i (ti_root _ _ _ _ HT) ltac:(cbn; lia) Hi) as [_ ->].
  unfold pdp_present. by destruct (GetFlag _ Present).
Qed.

Lemma MapMemory_pdp PML4 m w virt phys m' w' i :
  pt_ok PML4 m w → src_ok w → PageTable_MapMemory m w PML4 virt phys = Done (m', w') → 0 <= i < 512 →
  pdp_present m' PML4 i = pdp_present m PML4 i || (i =? PDP_i (PageMapIndexer_From virt)).
Proof.
  intros [T HT] Hok Hd Hi.
  destruct (MapMemory_walk _ _ _ _ _ _ _ HT Hok Hd) as (PT & m1 & T1 & I1 & O1 & G1 & EPT & Em & Htop).
  cbn [fst snd] in *. subst m'. pose proof (indexer_range virt) as (_ & _ & _ & R4).
  pose proof (leaf_tree PML4 m1 w' T1 _ PT phys I1 EPT R4) as I2. apply eq_true_iff_eq.
  rewrite orb_true_iff, Z.eqb_eq, !pdp_present_tree by done. apply Htop.
Qed.

(** ** Failures and the empty address space *)

Lemma next_table_fails PML4 m w T p t i :
  tree_inv PML4 m w T → src_ok w → T !! p = Some t →
  (∃ r, next_table m w t i = Done r) ∨ next_table m w t i = Panicked "Out of memory".
Proof.
  intros HT Hok Ep. destruct (GetFlag (rd64 m (t + 8 * i)) Present) eqn:E.
  - rewrite next_table_present by done. eauto.
  - rewrite next_table_absent by done.
    destruct (request_fails w Hok) as [(f & w' & ->)| ->]; [left; eauto|by right].
Qed.

(** A cleared page is the page table of the empty address space. *)
Lemma root_tree_ok PML4 m w :
  PML4 mod 4096 = 0 → 0 <= PML4 < 2^52 → allocated w PML4 →
  (∀ a, PML4 <= a < PML4 + 4096 → rd8 m a = 0) → tree_inv PML4 m w {[ [] := PML4 ]}.
Proof.
  intros Hm Hr Hal Hz. split.
  - apply lookup_singleton_eq.
  - intros p q t [<- _]%lookup_singleton_Some [<- _]%lookup_singleton_Some. done.
  - intros p t [<- <-]%lookup_singleton_Some. split; [done|]. by split.
  - intros p t i [<- <-]%lookup_singleton_Some _ Hi. cbn zeta.
    rewrite rdN_zero by (intros a Ha; apply Hz; lia). split; [done|].
    change (GetFlag 0 Present) with false. by apply lookup_singleton_ne.
  - intros p i t [? _]%lookup_singleton_Some. done.
Qed.

(** C4: the central promise of the paging code.  After
    [PageTable_MapMemory (virt, phys)] returns, the processor's walk takes
    every address of the page of [virt] to the same offset in the frame of
    [phys], every other address translates exactly as before the call, and
    the tables are again a well-formed tree. *)
Theorem MapMemory_translates PML4 m w virt phys m' w' :
  pt_ok PML4 m w → src_ok w → 0 <= phys < 2^52 →
  PageTable_MapMemory m w PML4 virt phys = Done (m', w') →
  pt_ok PML4 m' w' ∧ src_ok w' ∧
  (∀ va, PageMapIndexer_From va = PageMapIndexer_From virt →
     translate m' PML4 va = Some (phys / 4096 * 4096 + va mod 4096)) ∧
  (∀ va, PageMapIndexer_From va ≠ PageMapIndexer_From virt →
     translate m' PML4 va = translate m PML4 va).
Proof.
  intros Hpt Hok Hph Hd.
  by destruct (MapMemory_spec _ _ _ _ _ _ _ Hpt Hok Hph Hd) as [[? ?] ? ? ?].
Qed.

(** C22: mapping a page writes to page tables and to frames that were free,
    and to nothing else: every byte of a frame that was in use and is not a
    page table keeps its value. *)
Theorem MapMemory_memory_safe PML4 m w T virt phys m' w' a :
  tree_inv PML4 m w T → src_ok w →
  PageTable_MapMemory m w PML4 virt phys = Done (m', w') →
  0 <= a → ¬ in_table T a → allocated w (a / 4096 * 4096) → rd8 m' a = rd8 m a.
Proof. apply MapMemory_mem. Qed.

Lemma MapMemory_cases PML4 m w virt phys :
  pt_ok PML4 m w → src_ok w →
  (∃ r, PageTable_MapMemory m w PML4 virt phys = Done r) ∨
  PageTable_MapMemory m w PML4 virt phys = Panicked "Out of memory".
Proof.
  intros [T HT] Hok. unfold PageTable_MapMemory.
  pose proof (indexer_range virt) as (R1 & R2 & R3 & R4).
  pose proof (ti_root _ _ _ _ HT) as L0.
  destruct (next_table_fails _ _ _ _ _ _ (PDP_i (PageMapIndexer_From virt)) HT Hok L0)
    as [[[[PDP m1] w1] E1]|E1]; rewrite E1; [|by right]. rewrite bind_Done.
  destruct (next_table_ok _ _ _ _ _ _ _ _ _ _ HT Hok L0 ltac:(cbn; lia) R1 E1)
    as (T1 & I1 & O1 & L1 & _).
  destruct (next_table_fails _ _ _ _ _ _ (PD_i (PageMapIndexer_From virt)) I1 O1 L1)
    as [[[[PD m2] w2] E2]|E2]; rewrite E2; [|by right]. rewrite bind_Done.
  destruct (next_table_ok _ _ _ _ _ _ _ _ _ _ I1 O1 L1 ltac:(cbn; lia) R2 E2)
    as (T2 & I2 & O2 & L2 & _).
  destruct (next_table_fails _ _ _ _ _ _ (PT_i (PageMapIndexer_From virt)) I2 O2 L2)
    as [[[[PT m3] w3] E3]|E3]; rewrite E3; [|by right]. rewrite bind_Done.
  rewrite set_leaf_eq. left. eexists. by rewrite bind_Done.
Qed.

(** A call either succeeds or stops with "Out of memory" of the page frame
    allocator; the check "mapping failure" after each store never fires, and
    nothing the call does is undefined. *)
Theorem MapMemory_failure PML4 m w virt phys :
  pt_ok PML4 m w → src_ok w →
  (∃ r, PageTable_MapMemory m w PML4 virt phys = Done r) ∨
  PageTable_MapMemory m w PML4 virt phys = Panicked "Out of memory".
Proof. apply MapMemory_cases. Qed.
End Paging.
