(* ===== verification/PagingLive.v ===== *)
(** * Enough memory for the page tables

    [PageTable_MapMemory] stops when the page frame allocator does.  Here is
    how many pages it needs: one for each table that does not exist yet.  A
    page source can serve [n] requests, from a given part of memory; the tables
    that a sequence of calls can ever create are the prefixes of its paths;
    with a page for each of them every call returns. *)

From S2P Require Import Prelude Memory Bitmap MemUtils PageFrameAllocator PfaInit.
From S2P Require Import PageEntry PageSource Paging.

Section Live.
Context {W : Type} `{PageSourceLaws W}.

(** The source serves [n] more requests, each with a frame in [P]. *)
Fixpoint can_serve (P : Z → Prop) (n : nat) (w : W) : Prop :=
  match n with
  | O => True
  | S n' => ∃ a w', requestPage w = Done (a, w') ∧ P a ∧ can_serve P n' w'
  end.

Context (P : Z → Prop).

Lemma can_serve_le n n' w : (n' <= n)%nat → can_serve P n w → can_serve P n' w.
Proof.
  revert n' w. induction n as [|n IH]; intros [|n'] w Hle; try done; [lia|].
  intros (a & w' & E & HP & Hs). exists a, w'. split; [done|]. split; [done|]. apply IH; [lia|done].
Qed.

(** All tables lie in [S] and on frames in [P], and there is a page for each
    that is missing, and [r] more. *)
Record supplied (S : gset (list Z)) (r : nat) (T : gmap (list Z) Z) (w : W) : Prop := {
  sp_dom : dom T ⊆ S;
  sp_frames p t : T !! p = Some t → P t;
  sp_serves : can_serve P (size S - size T + r) w
}.

Lemma next_table_live PML4 m w T p t i S r :
  tree_inv PML4 m w T → src_ok w → T !! p = Some t → (length p < 3)%nat → 0 <= i < 512 →
  i :: p ∈ S → supplied S r T w →
  ∃ t' m' w' T', next_table m w t i = Done (t', m', w') ∧ tree_inv PML4 m' w' T' ∧ src_ok w' ∧
    T' !! (i :: p) = Some t' ∧ T ⊆ T' ∧ supplied S r T' w'.
Proof.
  intros HT Hok Ep Hp Hi HS [Hdom Hfr Hserve]. destruct (GetFlag (rd64 m (t + 8 * i)) Present) eqn:E.
  - rewrite next_table_present by done. eexists _, _, _, T. split; [done|]. split_and!; try done.
    destruct (ti_edge _ _ _ _ HT p t i Ep Hp Hi) as [_ ->]. by rewrite E.
  - pose proof (link_absent PML4 m w T p t i HT Ep Hp Hi E) as Hno.
    assert (size T < size S)%nat as Hlt.
    { rewrite <- size_dom. apply subset_size. split; [done|]. intros Hsub.
      apply Hsub, elem_of_dom in HS. rewrite Hno in HS. by destruct HS. }
    replace (size S - size T + r)%nat with (1 + (size S - (1 + size T) + r))%nat in Hserve by lia.
    destruct Hserve as (f & w1 & Hr & HP & Hserve). rewrite next_table_absent by done. rewrite Hr, bind_Done.
    eexists _, _, _, (<[i :: p := f]> T). split; [done|]. split; [by eapply link_tree|].
    split; [by eapply request_ok|]. split; [apply lookup_insert_eq|]. split; [by apply insert_subseteq|]. split.
    + rewrite dom_insert_L. set_solver.
    + intros q x [[<- <-]|[_ Hx]]%lookup_insert_Some; [done|by eapply Hfr].
    + rewrite map_size_insert_None by done. exact Hserve.
Qed.

(** The tables on the way to a page. *)
Definition table_paths (virt : Z) : list (list Z) :=
  let ix := PageMapIndexer_From virt in
  [[PDP_i ix]; [PD_i ix; PDP_i ix]; [PT_i ix; PD_i ix; PDP_i ix]].

Definition supplied_tables (PML4 : Z) (S : gset (list Z)) (r : nat) (m : mem) (w : W) : Prop :=
  src_ok w ∧ ∃ T, tree_inv PML4 m w T ∧ supplied S r T w.

(** With a page for every missing table the call returns; [T'] are the tables
    it leaves. *)
Lemma MapMemory_live_tree PML4 m w T virt phys S r :
  src_ok w → tree_inv PML4 m w T → supplied S r T w → Forall (.∈ S) (table_paths virt) →
  ∃ m' w' T', PageTable_MapMemory m w PML4 virt phys = Done (m', w') ∧ src_ok w' ∧
    tree_inv PML4 m' w' T' ∧ T ⊆ T' ∧ supplied S r T' w'.
Proof.
  intros Hok HT Hs HS. unfold table_paths in HS. cbn zeta in HS.
  pose proof (indexer_range virt) as (R1 & R2 & R3 & R4). unfold PageTable_MapMemory.
  set (ix := PageMapIndexer_From virt) in *.
  apply Forall_cons in HS as [S1 HS]. apply Forall_cons in HS as [S2 HS]. apply Forall_cons in HS as [S3 _].
  destruct (next_table_live PML4 m w T [] PML4 (PDP_i ix) S r HT Hok (ti_root _ _ _ _ HT)
    ltac:(cbn; lia) R1 S1 Hs) as (t1 & m1 & w1 & T1 & -> & I1 & O1 & L1 & U1 & P1). rewrite bind_Done.
  destruct (next_table_live PML4 m1 w1 T1 _ t1 (PD_i ix) S r I1 O1 L1 ltac:(cbn; lia) R2 S2 P1)
    as (t2 & m2 & w2 & T2 & -> & I2 & O2 & L2 & U2 & P2). rewrite bind_Done.
  destruct (next_table_live PML4 m2 w2 T2 _ t2 (PT_i ix) S r I2 O2 L2 ltac:(cbn; lia) R3 S3 P2)
    as (t3 & m3 & w3 & T3 & -> & I3 & O3 & L3 & U3 & P3). rewrite bind_Done.
  rewrite set_leaf_eq, bind_Done. eexists _, _, T3. split; [done|]. split; [done|].
  split; [by apply (leaf_tree PML4 m3 w3 T3 ix t3 phys)|]. split; [|done].
  transitivity T1; [done|]. by transitivity T2.
Qed.

Lemma MapMemory_live PML4 m w virt phys S r :
  supplied_tables PML4 S r m w → Forall (.∈ S) (table_paths virt) →
  ∃ m' w', PageTable_MapMemory m w PML4 virt phys = Done (m', w') ∧
    supplied_tables PML4 S r m' w'.
Proof.
  intros [Hok (T & HT & Hs)] HS.
  destruct (MapMemory_live_tree PML4 m w T virt phys S r Hok HT Hs HS) as (m' & w' & T' & E & O' & I' & _ & P').
  exists m', w'. split; [done|]. split; [done|]. by exists T'.
Qed.

(** With all the tables there, the levels are those of the tree. *)
Lemma present_levels PML4 m w T virt :
  tree_inv PML4 m w T → Forall (.∈ dom T) (table_paths virt) →
  let ix := PageMapIndexer_From virt in
  ∃ t1 t2 t3, T !! [PDP_i ix] = Some t1 ∧ T !! [PD_i ix; PDP_i ix] = Some t2 ∧
    T !! [PT_i ix; PD_i ix; PDP_i ix] = Some t3 ∧ GetFlag (rd64 m (PML4 + 8 * PDP_i ix)) Present = true ∧
    next_table m w PML4 (PDP_i ix) = Done (t1, m, w) ∧ next_table m w t1 (PD_i ix) = Done (t2, m, w) ∧
    next_table m w t2 (PT_i ix) = Done (t3, m, w).
Proof.
  intros HT HS. unfold table_paths in HS. cbn zeta in HS |- *. rewrite !Forall_cons, !elem_of_dom in HS.
  pose proof (indexer_range virt) as (R1 & R2 & R3 & R4).
  set (ix := PageMapIndexer_From virt) in *. destruct HS as ([t1 E1] & [t2 E2] & [t3 E3] & _).
  assert (∀ p t i t', T !! p = Some t → (length p < 3)%nat → 0 <= i < 512 → T !! (i :: p) = Some t' →
    GetFlag (rd64 m (t + 8 * i)) Present = true ∧ next_table m w t i = Done (t', m, w)) as Hn.
  { intros p t i t' Ep Hp Hi Et. destruct (ti_edge _ _ _ _ HT p t i Ep Hp Hi) as [_ Ee]. rewrite Et in Ee.
    destruct (GetFlag (rd64 m (t + 8 * i)) Present) eqn:Ef; [|done]. injection Ee as ->. split; [done|by apply next_table_present]. }
  exists t1, t2, t3. do 3 (split; [done|]).
  destruct (Hn [] PML4 (PDP_i ix) t1) as [H1 H1']; [apply HT|cbn; lia|done|done|].
  split; [done|]. split; [done|]. split; [by apply (Hn _ _ (PD_i ix) t2 E1); [cbn; lia| |]|].
  by apply (Hn _ _ (PT_i ix) t3 E2); [cbn; lia| |].
Qed.

(** The call then takes no frame and makes no table. *)
Lemma MapMemory_present PML4 m w T virt phys :
  tree_inv PML4 m w T → Forall (.∈ dom T) (table_paths virt) →
  ∃ m', PageTable_MapMemory m w PML4 virt phys = Done (m', w) ∧ tree_inv PML4 m' w T.
Proof.
  intros HT HS. destruct (present_levels PML4 m w T virt HT HS) as (t1 & t2 & t3 & E1 & E2 & E3 & _ & N1 & N2 & N3).
  pose proof (indexer_range virt) as (_ & _ & _ & R4). unfold PageTable_MapMemory.
  rewrite N1, bind_Done, N2, bind_Done, N3, bind_Done, set_leaf_eq, bind_Done.
  eexists. split; [done|]. by apply (leaf_tree PML4 m w T _ t3 phys).
Qed.

Lemma supplied_weaken PML4 S r r' m w :
  (r' <= r)%nat → supplied_tables PML4 S r m w → supplied_tables PML4 S r' m w.
Proof.
  intros Hle [Hok (T & HT & [Hd Hf Hc])]. split; [done|]. exists T. split; [done|]. split; [done|done|].
  eapply can_serve_le; [|done]. lia.
Qed.
End Live.

(** ** What the page frame allocator can serve *)

Lemma pfa_request_run mm p0 p O :
  run_inv mm p0 p O → 16384 <= mem_freeMemory p →
  ∃ a p', mem_pageframeallocator_requestPage p = Done (a, p') ∧
    run_inv mm p0 p' ({[a]} ∪ O) ∧ mem_freeMemory p' = mem_freeMemory p - 4096.
Proof.
  intros HR Hge. pose proof HR as [R1 R2 R3 R4 R5 R6].
  destruct (requestPage_cases p R1) as [[_ [[_ Hlt]|Hall]]|(i & p' & Hff & _ & E & _)]; [lia| |].
  { destruct (count_free_pos (locked p) (Z.to_nat (total_pages mm))) as (k & Hk & Hkf); [lia|].
    by rewrite Hall in Hkf by lia. }
  exists (i * 4096), p'. split; [done|]. split; [by eapply run_inv_step; [|apply step_request]|].
  apply requestPage_Done in E as (j & E & (_ & Hf & _) & Hl & _); [|done].
  assert (j = i) as -> by lia. pose proof (lp_free _ _ _ Hl) as L5. cbn in L5.
  change (locked (set_idx p i)) with (locked p) in L5. rewrite Hf in L5.
  rewrite L5. apply to_u64_id. pose proof (pfa_free p R1). znorm. lia.
Qed.

(** The frames the kernel can reach at their own address while the heap is
    mapped at 0x800000, page zero apart. *)
Definition low_frame (f : Z) : Prop := 4096 <= f ∧ f + 4096 <= 0x800000.

(** The free pages below 0x800000. *)
Definition low_free (mm : limine_memmap_response) (p : Pfa) : Z :=
  count_free (locked p) (Z.to_nat (Z.min 2048 (total_pages mm))).

(** The counter keeps four pages back; the lowest free page is taken first. *)
Lemma pfa_can_serve n mm p0 p O :
  run_inv mm p0 p O → locked p0 0 = true → 4096 * (Z.of_nat n + 3) <= mem_freeMemory p →
  Z.of_nat n <= low_free mm p → can_serve low_frame n p.
Proof.
  revert p O. induction n as [|n IH]; intros p O HR H0 Hge Hlow; [done|].
  destruct (pfa_request_run mm p0 p O HR) as (a & p' & E & HR' & Ef); [lia|].
  exists a, p'. split; [done|]. pose proof HR as [R1 _ _ R4 _ _].
  apply requestPage_Done in E as (i & -> & (Hi & Hf & Hfirst) & Hl & _); [|done].
  destruct (count_free_pos (locked p) (Z.to_nat (Z.min 2048 (total_pages mm)))) as (j & Hj & Hjf);
    [unfold low_free in Hlow; lia|].
  assert (i <= j) as Hij by (destruct (decide (i <= j)); [done|]; rewrite Hfirst in Hjf by lia; done).
  assert (i ≠ 0) by (intros ->; rewrite R4 in H0 by (done || lia); done).
  split; [split; lia|]. apply (IH p' _ HR' H0); [lia|].
  unfold low_free in *. rewrite (count_free_lock (locked p) (locked p') _ i); [lia|lia|done|].
  intros x Hx. rewrite (lp_locked _ _ _ Hl) by done. done.
Qed.

(** What is usable below 0x800000 is free after [init], up to the bitmap. *)
Definition usable_below (mm : limine_memmap_response) : Z :=
  count_free (λ j, negb (usable_page mm j)) (Z.to_nat (Z.min 2048 (total_pages mm))).

Lemma count_free_range_bound f lo k n :
  0 <= lo → 0 <= k →
  count_free f n <= count_free (λ j, f j || in_range lo k j) n + Z.max 0 (Z.min (Z.of_nat n) (lo + k) - lo).
Proof.
  intros Hlo Hk. induction n as [|n IH]; [cbn; lia|]. cbn [count_free]. unfold in_range at 2.
  case_bool_decide; destruct (f (Z.of_nat n)); cbn [orb]; lia.
Qed.

Lemma init_low_free mm off region seg p :
  boot_ok mm region → init_post mm off seg p → usable_below mm - bitmap_pages mm <= low_free mm p.
Proof.
  intros Hb HI. unfold usable_below, low_free. pose proof (ip_seg _ _ _ _ HI) as (Hs & _).
  destruct (entry_pages_bound mm region seg Hb Hs) as (B1 & _). pose proof (total_pages_bounds mm region Hb) as (HT & _ & _ & HP).
  set (n := Z.to_nat _). assert (Z.of_nat n <= total_pages mm) as Hn by (unfold n; lia).
  rewrite (count_free_ext (locked p)
    (λ j, negb (usable_page mm j) || in_range (e_base seg / 4096) (bitmap_pages mm) j) n).
  - pose proof (count_free_range_bound (λ j, negb (usable_page mm j)) (e_base seg / 4096) (bitmap_pages mm) n). lia.
  - intros j Hj. apply (ip_locked _ _ _ _ HI). lia.
Qed.

(** Page zero is never handed out. *)
Lemma init_zero_locked mm off region seg p :
  boot_ok mm region → init_post mm off seg p → locked p 0 = true.
Proof.
  intros Hb HI. destruct (bo_room _ _ Hb) as (e & He & Hu & Hl).
  destruct (entry_pages_bound mm region e Hb He) as (B1 & B2 & B3).
  pose proof (total_pages_bounds mm region Hb) as (_ & _ & _ & HP).
  destruct (bo_aligned _ _ Hb e He Hu) as (A1 & A2 & A3).
  rewrite (ip_locked _ _ _ _ HI) by zlia. apply orb_true_iff. left. apply negb_true_iff.
  destruct (usable_page mm 0) eqn:E; [|done]. apply existsb_exists in E as (e' & He'%list_elem_of_In & E).
  apply andb_true_iff in E as [Hu'%Z.eqb_eq Hr]. unfold in_range in Hr. apply bool_decide_eq_true in Hr.
  destruct (bo_aligned _ _ Hb e' He' Hu') as (A4 & _ & A5).
  pose proof (mm_each _ (bo_memmap _ _ Hb)) as Hall. rewrite Forall_forall in Hall.
  destruct (Hall e' He') as (? & ? & ?). zlia.
Qed.
