(* ===== verification/Paged.v ===== *)
(** * mem/paging.cpp on the kernel's own page tables

    Once [_start] has loaded CR3, the pointers through which
    [PageTable_MapMemory] reaches the tables are virtual addresses like any
    other: a table at the physical address [t] is read and written at the
    virtual address [t], wherever the current tables map that.  Here every
    access goes through the processor's walk; on a page that is not mapped it
    is a page fault, and on one that is mapped elsewhere it is elsewhere.

    The theorem is a simulation: as long as all tables, and the frames that
    become tables, lie below a limit up to which memory is mapped to itself,
    and the new mapping leaves that so, the call does what
    [PageTable_MapMemory] of Paging.v does on physical memory. *)

From S2P Require Import Prelude Memory PageEntry PageSource Paging PagingLive.

Section Paged.
Context {W : Type} `{PageSource W}.
(** The root in CR3. *)
Context (CR3 : Z).

(** The physical address behind a pointer. *)
Definition reach (m : mem) (va : Z) : outcome Z :=
  match translate m CR3 va with Some pa => Done pa | None => Panicked "Page fault" end.

(** One level.  A table is one page, so that one translation serves the
    [memset]; every entry is translated anew. *)
Definition next_table_paged (m : mem) (w : W) (table i : Z) : outcome (Z * mem * W) :=
  a ← reach m (table + 8 * i);
  let PDE := rd64 m a in
  if negb (GetFlag PDE Present) then
    '(page, w) ← requestPage w;
    f ← reach m page;
    let m := (memset m f 0 0x1000).2 in
    let PDE := SetAddress PDE (Z.shiftr page 12) in
    let PDE := SetFlag PDE Present true in
    let PDE := SetFlag PDE ReadWrite true in
    let PDE := SetFlag PDE NX false in
    a ← reach m (table + 8 * i);
    let m := wr64 m a PDE in
    a ← reach m (table + 8 * i);
    if negb (GetFlag (rd64 m a) Present) then Panicked "mapping failure"
    else Done (page, m, w)
  else Done (to_u64 (Z.shiftl (GetAddress PDE) 12), m, w).

Definition set_leaf_paged (m : mem) (PT i phys : Z) : outcome mem :=
  a ← reach m (PT + 8 * i);
  let PDE := rd64 m a in
  let PDE := SetAddress PDE (Z.shiftr phys 12) in
  let PDE := SetFlag PDE Present true in
  let PDE := SetFlag PDE ReadWrite true in
  let PDE := SetFlag PDE NX false in
  let m := wr64 m a PDE in
  a ← reach m (PT + 8 * i);
  if negb (GetFlag (rd64 m a) Present) then Panicked "mapping failure"
  else Done m.

Definition MapMemory_paged (m : mem) (w : W) (PML4 virt phys : Z) : outcome (mem * W) :=
  let indexer := PageMapIndexer_From virt in
  '(PDP, m, w) ← next_table_paged m w PML4 (PDP_i indexer);
  '(PD, m, w) ← next_table_paged m w PDP (PD_i indexer);
  '(PT, m, w) ← next_table_paged m w PD (PT_i indexer);
  m ← set_leaf_paged m PT (P_i indexer) phys;
  Done (m, w).

(** ** Memory that is mapped to itself *)

Definition low_identity (lim : Z) (m : mem) : Prop := ∀ va, 0 <= va < lim → translate m CR3 va = Some va.

Lemma reach_low lim m va : low_identity lim m → 0 <= va < lim → reach m va = Done va.
Proof. intros Hid Hva. unfold reach. by rewrite Hid. Qed.

Context `{!PageSourceLaws W}.

(** Memories with the same entries have the same tables and translations. *)
Lemma tree_agree m m' (w : W) T :
  tree_inv CR3 m w T →
  (∀ q tq j, T !! q = Some tq → 0 <= j < 512 → rd64 m' (tq + 8 * j) = rd64 m (tq + 8 * j)) →
  tree_inv CR3 m' w T ∧ ∀ va, translate m' CR3 va = translate m CR3 va.
Proof.
  intros HT He. assert (tree_inv CR3 m' w T) as HT'.
  { split; try apply HT. intros p t i Ep Hp Hi. rewrite (He p t i Ep Hi). by apply (ti_edge _ _ _ _ HT). }
  split; [done|]. intros va. rewrite (translate_leaf _ _ _ _ va HT'), (translate_leaf _ _ _ _ va HT). cbn zeta.
  pose proof (indexer_range va) as (_ & _ & _ & R4).
  assert (leaf_entry m' T (PageMapIndexer_From va) = leaf_entry m T (PageMapIndexer_From va)) as ->; [|done].
  unfold leaf_entry. destruct (T !! _) as [t|] eqn:E; [|done]. by eapply He.
Qed.

Lemma grown_translate m w T m' (w' : W) T' va :
  tree_inv CR3 m w T → tree_inv CR3 m' w' T' → grown m w T m' w' T' → translate m' CR3 va = translate m CR3 va.
Proof.
  intros HT HT' G. rewrite (translate_leaf _ _ _ _ va HT'), (translate_leaf _ _ _ _ va HT). cbn zeta.
  pose proof (indexer_range va) as (_ & _ & _ & R4). by rewrite (leaf_entry_grown _ _ _ _ _ _ _ G).
Qed.

(** Clearing a frame that nobody uses changes no translation. *)
Lemma clear_translate m (w : W) T f w' va :
  tree_inv CR3 m w T → src_ok w → requestPage w = Done (f, w') →
  translate (memset m f 0 0x1000).2 CR3 va = translate m CR3 va.
Proof.
  intros HT Hok Hr. apply (tree_agree m _ w T HT). intros q tq j Eq Hj. apply rd64_memset_out.
  destruct (ti_frame _ _ _ _ HT q tq Eq) as (Hm & _ & Hal). destruct (request_frame w f w' Hok Hr) as [Hf _].
  destruct (frames_apart tq f) as [?|?]; try done; [|lia|lia].
  intros ->. by apply (request_fresh w f w').
Qed.

(** ** One level *)

Section Level.
Context (lim : Z) (m : mem) (w : W) (T : gmap (list Z) Z) (p : list Z) (t i : Z).
Hypothesis HT : tree_inv CR3 m w T.
Hypothesis Hok : src_ok w.
Hypothesis Ep : T !! p = Some t.
Hypothesis Hp : (length p < 3)%nat.
Hypothesis Hi : 0 <= i < 512.
Hypothesis Hid : low_identity lim m.
Hypothesis Ht : 0 <= t ∧ t + 4096 <= lim.

Lemma next_table_identity t' m' w' :
  next_table m w t i = Done (t', m', w') → low_identity lim m'.
Proof using PageSourceLaws0 HT Hok Ep Hp Hi Hid.
  intros E va Hva. destruct (next_table_ok _ _ _ _ _ _ _ _ _ _ HT Hok Ep Hp Hi E) as (T' & I' & _ & _ & G & _).
  rewrite (grown_translate m w T m' w' T' va HT I' G). by apply Hid.
Qed.

Lemma next_table_paged_eq :
  (∀ f w', GetFlag (rd64 m (t + 8 * i)) Present = false → requestPage w = Done (f, w') → 0 <= f ∧ f + 4096 <= lim) →
  next_table_paged m w t i = next_table m w t i.
Proof using PageSourceLaws0 HT Hok Ep Hp Hi Hid Ht.
  intros Hf. unfold next_table_paged. rewrite (reach_low lim m) by (done || lia). rewrite bind_Done.
  destruct (GetFlag (rd64 m (t + 8 * i)) Present) eqn:E; cbn [negb].
  { unfold next_table. by rewrite E. }
  destruct (requestPage w) as [[f w']| | |] eqn:Hr; cbn [mbind outcome_bind];
    [|by unfold next_table; rewrite E; cbn [negb]; rewrite Hr..].
  destruct (Hf f w' eq_refl eq_refl) as [F1 F2]. pose proof (next_table_absent m w t i E) as En.
  rewrite Hr in En. cbn [mbind outcome_bind] in En. rewrite En.
  rewrite (reach_low lim m) by (done || lia). rewrite bind_Done.
  set (m1 := (memset m f 0 0x1000).2) in *.
  assert (low_identity lim m1) as Hid1.
  { intros va Hva. unfold m1. rewrite (clear_translate m w T f w' va) by done. by apply Hid. }
  rewrite (reach_low lim m1) by (done || lia). rewrite bind_Done. fold (map_entry (rd64 m (t + 8 * i)) (Z.shiftr f 12)).
  rewrite (reach_low lim) by (lia || by apply (next_table_identity _ _ _ En)). rewrite bind_Done.
  rewrite rd64_wr64_eq, to_u64_id by (apply map_entry_u64, rd64_range).
  by destruct (map_entry_fields (rd64 m (t + 8 * i)) (Z.shiftr f 12)) as [-> _]; [apply rd64_range|].
Qed.
End Level.

(** A mapping of [virt] to [phys] that leaves memory below [lim] mapped to
    itself: a page from [lim] on, or a page to itself. *)
Definition spares_low (lim virt phys : Z) : Prop :=
  ∀ va, 0 <= va < lim → PageMapIndexer_From va = PageMapIndexer_From virt → phys / 4096 * 4096 + va mod 4096 = va.

Lemma mapped_identity lim m w virt phys m' w' :
  low_identity lim m → spares_low lim virt phys → mapped_post CR3 m w virt phys m' w' → low_identity lim m'.
Proof.
  intros Hid Hsp [_ M2 M3 _] va Hva. destruct (decide (PageMapIndexer_From va = PageMapIndexer_From virt)) as [E|E].
  - rewrite M2 by done. f_equal. by apply Hsp.
  - rewrite M3 by done. by apply Hid.
Qed.

Lemma set_leaf_paged_eq lim m w T virt phys PT :
  tree_inv CR3 m w T → low_identity lim m → spares_low lim virt phys → 0 <= phys < 2^52 →
  let ix := PageMapIndexer_From virt in
  T !! [PT_i ix; PD_i ix; PDP_i ix] = Some PT → 0 <= PT ∧ PT + 4096 <= lim →
  set_leaf_paged m PT (P_i ix) phys = set_leaf m PT (P_i ix) phys.
Proof.
  intros HT Hid Hsp Hph ix EPT Ht. pose proof (indexer_range virt) as (_ & _ & _ & R4). fold ix in R4.
  unfold set_leaf_paged. rewrite set_leaf_eq, (reach_low lim m) by (done || lia). rewrite bind_Done.
  fold (map_entry (rd64 m (PT + 8 * P_i ix)) (Z.shiftr phys 12)). set (m' := wr64 m _ _).
  rewrite (reach_low lim m'); [|intros va Hva|lia].
  - rewrite bind_Done. unfold m'. rewrite rd64_wr64_eq, to_u64_id by (apply map_entry_u64, rd64_range).
    by destruct (map_entry_fields (rd64 m (PT + 8 * P_i ix)) (Z.shiftr phys 12)) as [-> _]; [apply rd64_range|].
  - pose proof (leaf_tree CR3 m w T ix PT phys HT EPT R4) as HT'. fold m' in HT'.
    rewrite (translate_leaf _ _ _ _ va HT'). cbn zeta. pose proof (indexer_range va) as (_ & _ & _ & R4').
    destruct (decide (PageMapIndexer_From va = ix)) as [E|E].
    + unfold m'. rewrite E, (leaf_entry_new m T) by done.
      destruct (map_entry_fields (rd64 m (PT + 8 * P_i ix)) (Z.shiftr phys 12)) as (-> & _ & ->); [apply rd64_range|].
      f_equal. rewrite Z.shiftr_div_pow2 by lia. rewrite Z.mod_small by zlia. by apply Hsp.
    + unfold m'. rewrite (leaf_entry_other CR3 m w T) by done.
      etrans; [symmetry; apply (translate_leaf _ _ _ _ va HT)|by apply Hid].
Qed.
End Paged.

(** ** The whole call *)

Section Simulation.
Context {W : Type} `{PageSourceLaws W}.
Context (P : Z → Prop) (lim : Z).
Hypothesis P_low : ∀ f, P f → 0 <= f ∧ f + 4096 <= lim.

Lemma next_table_paged_live CR3 m (w : W) T p t i S r :
  tree_inv CR3 m w T → src_ok w → T !! p = Some t → (length p < 3)%nat → 0 <= i < 512 →
  i :: p ∈ S → supplied P S r T w → low_identity CR3 lim m →
  ∃ t' m' w' T', next_table_paged CR3 m w t i = Done (t', m', w') ∧ next_table m w t i = Done (t', m', w') ∧
    tree_inv CR3 m' w' T' ∧ src_ok w' ∧ T' !! (i :: p) = Some t' ∧ supplied P S r T' w' ∧ low_identity CR3 lim m'.
Proof using H0 P_low.
  intros HT Hok Ep Hp Hi HS Hs Hid.
  destruct (next_table_live P CR3 m w T p t i S r HT Hok Ep Hp Hi HS Hs) as (t' & m' & w' & T' & E & I' & O' & L' & _ & P').
  exists t', m', w', T'. pose proof (P_low _ (sp_frames _ _ _ _ _ Hs p t Ep)) as Ht.
  assert (next_table_paged CR3 m w t i = next_table m w t i) as ->.
  { apply (next_table_paged_eq CR3 lim m w T p t i HT Hok Ep Hp Hi Hid Ht). intros f w1 Ef Hr. apply P_low.
    rewrite (next_table_absent _ _ _ _ Ef), Hr in E. cbn [mbind outcome_bind] in E.
    apply Done_inj in E. apply pair_eq in E as [E _]. apply pair_eq in E as [-> _]. exact (sp_frames _ _ _ _ _ P' _ _ L'). }
  split; [exact E|]. split; [exact E|]. split_and!; try assumption.
  exact (next_table_identity CR3 lim m w T p t i HT Hok Ep Hp Hi Hid t' m' w' E).
Qed.

(** The call on the kernel's own tables is the call on physical memory. *)
Lemma MapMemory_paged_eq CR3 m (w : W) T virt phys S r :
  src_ok w → tree_inv CR3 m w T → supplied P S r T w → Forall (.∈ S) (table_paths virt) →
  low_identity CR3 lim m → spares_low lim virt phys → 0 <= phys < 2^52 →
  MapMemory_paged CR3 m w CR3 virt phys = PageTable_MapMemory m w CR3 virt phys.
Proof using H0 P_low.
  intros Hok HT Hs HS Hid Hsp Hph. unfold table_paths in HS. cbn zeta in HS.
  pose proof (indexer_range virt) as (R1 & R2 & R3 & R4). unfold MapMemory_paged, PageTable_MapMemory.
  cbn zeta. set (ix := PageMapIndexer_From virt) in *.
  apply Forall_cons in HS as [S1 HS]. apply Forall_cons in HS as [S2 HS]. apply Forall_cons in HS as [S3 _].
  destruct (next_table_paged_live CR3 m w T [] CR3 (PDP_i ix) S r HT Hok (ti_root _ _ _ _ HT)
    ltac:(cbn; lia) R1 S1 Hs Hid) as (t1 & m1 & w1 & T1 & -> & -> & I1 & O1 & L1 & P1 & D1). rewrite !bind_Done.
  destruct (next_table_paged_live CR3 m1 w1 T1 _ t1 (PD_i ix) S r I1 O1 L1 ltac:(cbn; lia) R2 S2 P1 D1)
    as (t2 & m2 & w2 & T2 & -> & -> & I2 & O2 & L2 & P2 & D2). rewrite !bind_Done.
  destruct (next_table_paged_live CR3 m2 w2 T2 _ t2 (PT_i ix) S r I2 O2 L2 ltac:(cbn; lia) R3 S3 P2 D2)
    as (t3 & m3 & w3 & T3 & -> & -> & I3 & O3 & L3 & P3 & D3). rewrite !bind_Done.
  unfold ix in *. by rewrite (set_leaf_paged_eq CR3 lim m3 w3 T3 virt phys t3 I3 D3 Hsp Hph L3
    (P_low _ (sp_frames _ _ _ _ _ P3 _ _ L3))).
Qed.
End Simulation.
