(* ===== verification/PageMapper.v ===== *)
(** * The interface between paging and the heap

    The heap grows by [PageTable_MapMemory(globalPageTable, pos,
    mem_pageframeallocator_requestPage())].  [PageMapper] is that call with
    the state it runs on, and [PageMapperLaws] what the heap relies on, for the
    pages between a floor and a ceiling.  [Machine] is the physical memory, the
    allocator and the page table of the kernel, with the tables reached at
    their physical addresses, as under the boot loader's page tables; [Paged]
    is the same once the kernel's own tables are loaded and every access goes
    through them.  Both provide the interface. *)

From S2P Require Import Prelude Memory Bitmap MemUtils PageFrameAllocator PfaInit.
From S2P Require Import PageEntry PageSource Paging PagingLive Paged.

Class PageMapper (W : Type) := {
  map_new_page : W → Z → outcome W;
  mapper_ok : W → Prop;
  (** the frame behind a virtual page *)
  page_frame : W → Z → option Z;
  (** frames somebody uses *)
  frame_used : W → Z → Prop;
  (** where a heap may lie *)
  heap_floor : Z;
  heap_ceiling : Z
}.
Arguments heap_floor W {_}.
Arguments heap_ceiling W {_}.

(** Virtual page addresses that four-level paging tells apart. *)
Definition vpage (v : Z) : Prop := v mod 4096 = 0 ∧ 0 <= v < 2^48.

(** The pages of a heap. *)
Definition heap_page (W : Type) `{PageMapper W} (v : Z) : Prop :=
  vpage v ∧ heap_floor W <= v < heap_ceiling W.

Class PageMapperLaws (W : Type) `{PageMapper W} := {
  map_ok w v w' : mapper_ok w → heap_page W v → map_new_page w v = Done w' → mapper_ok w';
  map_frame w v w' : mapper_ok w → heap_page W v → map_new_page w v = Done w' →
    ∃ f, page_frame w' v = Some f ∧ ¬ frame_used w f ∧ frame_used w' f;
  map_others w v w' v' : mapper_ok w → heap_page W v → vpage v' → v' ≠ v →
    map_new_page w v = Done w' → page_frame w' v' = page_frame w v';
  map_used w v w' f : mapper_ok w → heap_page W v → map_new_page w v = Done w' →
    frame_used w f → frame_used w' f;
  map_fails w v : mapper_ok w → heap_page W v →
    (∃ w', map_new_page w v = Done w') ∨ map_new_page w v = Panicked "Out of memory";
  heap_bounds : 0 <= heap_floor W ∧ heap_ceiling W <= 2^47
}.

(** ** The kernel's memory *)

Record Machine := mkMachine {
  ram : mem;
  pfa : Pfa;
  globalPageTable : Z
}.

Definition machine_map_new_page (k : Machine) (pos : Z) : outcome Machine :=
  '(page, p) ← mem_pageframeallocator_requestPage (pfa k);
  '(m, p) ← PageTable_MapMemory (ram k) p (globalPageTable k) pos page;
  Done (mkMachine m p (globalPageTable k)).

Definition machine_ok (k : Machine) : Prop :=
  pt_ok (globalPageTable k) (ram k) (pfa k) ∧ src_ok (pfa k).

#[global] Instance machine_mapper : PageMapper Machine := {
  map_new_page := machine_map_new_page;
  mapper_ok := machine_ok;
  page_frame k v := translate (ram k) (globalPageTable k) v;
  frame_used k f := f mod 4096 = 0 ∧ 0 <= f ∧ allocated (pfa k) f;
  heap_floor := 0;
  heap_ceiling := 2^47
}.

Lemma vpage_index v v' :
  vpage v → vpage v' → PageMapIndexer_From v = PageMapIndexer_From v' → v = v'.
Proof.
  intros [Hv Hr] [Hv' Hr'] E.
  pose proof (indexer_compose v) as C. pose proof (indexer_compose v') as C'.
  cbn zeta in C, C'. rewrite E, C' in C. zlia.
Qed.

(** Requesting a page changes neither memory nor tables. *)
Lemma tree_request PML4 m (p : Pfa) a p' T :
  src_ok p → tree_inv PML4 m p T → requestPage p = Done (a, p') → tree_inv PML4 m p' T.
Proof.
  intros Hok HT Hr. destruct HT as [H1 H2 H3 H4 H5]. split; try done.
  intros q t Eq. destruct (H3 q t Eq) as (? & ? & ?). split; [done|]. split; [done|].
  eapply request_allocated; try done; [lia|by right].
Qed.

Lemma pt_ok_request PML4 m (p : Pfa) a p' :
  src_ok p → pt_ok PML4 m p → requestPage p = Done (a, p') → pt_ok PML4 m p'.
Proof. intros Hok [T HT] Hr. exists T. by eapply tree_request. Qed.

Lemma machine_map_spec k v k' :
  machine_ok k → machine_map_new_page k v = Done k' →
  ∃ a p, requestPage (pfa k) = Done (a, p) ∧ src_ok p ∧
    globalPageTable k' = globalPageTable k ∧ (a mod 4096 = 0 ∧ 0 <= a < 2^52) ∧
    mapped_post (globalPageTable k) (ram k) p v a (ram k') (pfa k').
Proof.
  intros [Hpt Hok] Hd. unfold machine_map_new_page in Hd.
  apply bind_Done_inv in Hd as ([a p] & Hr & Hd).
  apply bind_Done_inv in Hd as ([m p'] & Hm & Hd). apply Done_inj in Hd as <-.
  change (mem_pageframeallocator_requestPage (pfa k)) with (requestPage (pfa k)) in Hr.
  pose proof (request_frame _ _ _ Hok Hr) as Hf.
  pose proof (request_ok _ _ _ Hok Hr) as Hok'.
  exists a, p. split; [done|]. split; [done|]. split; [done|]. split; [done|].
  by apply MapMemory_spec; [apply (pt_ok_request _ _ (pfa k) a)| |apply Hf|].
Qed.

Lemma machine_map_fails k v :
  machine_ok k →
  (∃ k', machine_map_new_page k v = Done k') ∨
  machine_map_new_page k v = Panicked "Out of memory".
Proof.
  intros [Hpt Hok]. unfold machine_map_new_page.
  destruct (request_fails (pfa k) Hok) as [(a & p & E)|E]; cbn in E; rewrite E; [|by right].
  rewrite bind_Done.
  destruct (MapMemory_cases (globalPageTable k) (ram k) p v a) as [[[m p'] ->]| ->].
  - by apply (pt_ok_request _ _ (pfa k) a).
  - by apply (request_ok (pfa k) a).
  - left. eauto.
  - by right.
Qed.

#[global] Instance machine_mapper_laws : PageMapperLaws Machine.
Proof.
  split; cbn.
  - intros k v k' Hk _ Hd.
    destruct (machine_map_spec k v k' Hk Hd) as (a & p & _ & _ & Eg & _ & [M1 _ _ _]).
    split; [rewrite Eg|]; apply M1.
  - intros k v k' Hk [[Hv Hvr] _] Hd.
    destruct (machine_map_spec k v k' Hk Hd) as (a & p & Hr & Hp & -> & Ha & [_ M2 _ M4]).
    exists a. split_and!; try apply Ha.
    + rewrite M2 by done. f_equal. destruct Ha. zlia.
    + intros (_ & _ & Hal). by apply (request_fresh _ _ _ (proj2 Hk) Hr).
    + apply M4; try apply Ha. apply (request_allocated _ _ _ _ (proj2 Hk) Hr); try apply Ha.
      by left.
  - intros k v k' v' Hk [Hv _] Hv' Hne Hd.
    destruct (machine_map_spec k v k' Hk Hd) as (a & p & _ & _ & -> & _ & [_ _ M3 _]).
    apply M3. intros E. by apply Hne, vpage_index.
  - intros k v k' f Hk _ Hd (Hf1 & Hf2 & Hal). split; [done|]. split; [done|].
    destruct (machine_map_spec k v k' Hk Hd) as (a & p & Hr & _ & _ & _ & [_ _ _ M4]).
    apply M4; try done. apply (request_allocated _ _ _ _ (proj2 Hk) Hr); try done. by right.
  - intros k v Hk _. by apply machine_map_fails.
  - lia.
Qed.

(** ** On the kernel's own tables *)

(** After [mov cr3]: the root in CR3 is [globalPageTable]. *)
Record Paged := mkPaged { machine :> Machine }.

Definition paged_map_to (k : Paged) (virt phys : Z) : outcome Paged :=
  '(m, p) ← MapMemory_paged (globalPageTable k) (ram k) (pfa k) (globalPageTable k) virt phys;
  Done (mkPaged (mkMachine m p (globalPageTable k))).

Definition paged_map_new_page (k : Paged) (pos : Z) : outcome Paged :=
  '(page, p) ← mem_pageframeallocator_requestPage (pfa k);
  paged_map_to (mkPaged (mkMachine (ram k) p (globalPageTable k))) pos page.

(** kernel.cpp: the heap starts at 8 MiB; the first 16 MiB are mapped. *)
Definition HEAP_BASE : Z := 0x800000.
Definition LOW_END : Z := 2^24.

(** The tables [T] are those of the machine, all below the heap, and the
    tables of the pages from there to 16 MiB are among them; memory below the
    heap is mapped to itself. *)
Record reachable (T : gmap (list Z) Z) (k : Machine) : Prop := {
  re_src : src_ok (pfa k);
  re_tree : tree_inv (globalPageTable k) (ram k) (pfa k) T;
  re_low p t : T !! p = Some t → low_frame t;
  re_heap v : HEAP_BASE <= v < LOW_END → Forall (.∈ dom T) (table_paths v);
  re_identity : low_identity (globalPageTable k) HEAP_BASE (ram k)
}.

#[global] Instance paged_mapper : PageMapper Paged := {
  map_new_page := paged_map_new_page;
  mapper_ok k := ∃ T, reachable T k;
  page_frame k v := translate (ram k) (globalPageTable k) v;
  frame_used k f := frame_used (machine k) f;
  heap_floor := HEAP_BASE;
  heap_ceiling := LOW_END
}.

Lemma low_frame_reach f : low_frame f → 0 <= f ∧ f + 4096 <= HEAP_BASE.
Proof. unfold low_frame, HEAP_BASE. lia. Qed.

Lemma reachable_ok T k : reachable T k → machine_ok k.
Proof. intros [H1 H2 _ _ _]. split; [by exists T|done]. Qed.

Lemma spares_low_above virt phys : HEAP_BASE <= virt < 2^48 → spares_low HEAP_BASE virt phys.
Proof.
  intros Hv va Hva E. exfalso. pose proof (indexer_compose va) as C. pose proof (indexer_compose virt) as C'.
  cbn zeta in C, C'. rewrite E, C' in C. unfold HEAP_BASE in *. zlia.
Qed.

(** A request keeps the tables where they are. *)
Lemma reachable_request T k a p :
  reachable T k → requestPage (pfa k) = Done (a, p) → reachable T (mkMachine (ram k) p (globalPageTable k)).
Proof.
  intros [H1 H2 H3 H4 H5] Hr. split; try done; [by eapply request_ok|by eapply tree_request].
Qed.

(** The levels of a page of the heap: the tables are those of [T], and the
    entry that is set and read again holds the frame. *)
Lemma paged_levels T (k : Machine) v f :
  reachable T k → HEAP_BASE <= v < LOW_END → 0 <= f < 2^52 → f mod 4096 = 0 →
  let R := globalPageTable k in
  let ix := PageMapIndexer_From v in
  ∃ t1 t2 t3 m', reach R (ram k) (R + 8 * PDP_i ix) = Done (R + 8 * PDP_i ix) ∧
    GetFlag (rd64 (ram k) (R + 8 * PDP_i ix)) Present = true ∧
    next_table_paged R (ram k) (pfa k) R (PDP_i ix) = Done (t1, ram k, pfa k) ∧
    next_table_paged R (ram k) (pfa k) t1 (PD_i ix) = Done (t2, ram k, pfa k) ∧
    next_table_paged R (ram k) (pfa k) t2 (PT_i ix) = Done (t3, ram k, pfa k) ∧
    set_leaf_paged R (ram k) t3 (P_i ix) f = Done m' ∧
    PageTable_MapMemory (ram k) (pfa k) R v f = Done (m', pfa k) ∧
    reachable T (mkMachine m' (pfa k) R) ∧
    reach R m' (t3 + 8 * P_i ix) = Done (t3 + 8 * P_i ix) ∧ GetAddress (rd64 m' (t3 + 8 * P_i ix)) * 4096 = f.
Proof.
  intros Hre Hv Hf Hal R ix. pose proof Hre as [H1 H2 H3 H4 H5]. pose proof (indexer_range v) as (R1 & R2 & R3 & R4).
  assert (spares_low HEAP_BASE v f) as Hsp by (apply spares_low_above; unfold LOW_END in Hv; lia).
  destruct (present_levels R (ram k) (pfa k) T v H2 (H4 v Hv)) as (t1 & t2 & t3 & E1 & E2 & E3 & Hp & N1 & N2 & N3).
  fold ix in E1, E2, E3, Hp, N1, N2, N3, R1, R2, R3, R4.
  assert (∀ p t i t', T !! p = Some t → (length p < 3)%nat → 0 <= i < 512 → T !! (i :: p) = Some t' →
    next_table_paged R (ram k) (pfa k) t i = next_table (ram k) (pfa k) t i) as Hn.
  { intros p t i t' Ep Hl Hi Et. apply (next_table_paged_eq R HEAP_BASE (ram k) (pfa k) T p t i); try done.
    { by apply low_frame_reach, (H3 p). }
    intros g w' Ef _. destruct (ti_edge _ _ _ _ H2 p t i Ep Hl Hi) as [_ Ee]. rewrite Et in Ee. cbn zeta in Ee. by rewrite Ef in Ee. }
  pose proof (low_frame_reach _ (H3 _ _ E3)) as L3. pose proof (low_frame_reach _ (H3 _ _ (ti_root _ _ _ _ H2))) as L0. fold R in L0.
  set (m' := wr64 (ram k) (t3 + 8 * P_i ix) (map_entry (rd64 (ram k) (t3 + 8 * P_i ix)) (Z.shiftr f 12))).
  assert (PageTable_MapMemory (ram k) (pfa k) R v f = Done (m', pfa k)) as EM.
  { unfold PageTable_MapMemory. fold ix. by rewrite N1, bind_Done, N2, bind_Done, N3, bind_Done, set_leaf_eq, bind_Done. }
  assert (reachable T (mkMachine m' (pfa k) R)) as Hre'.
  { split; try done; cbn [ram pfa globalPageTable]; [by apply leaf_tree|].
    eapply (mapped_identity R HEAP_BASE (ram k) (pfa k) v f m' (pfa k)); [done|done|].
    by apply MapMemory_spec; [exists T| | |]. }
  exists t1, t2, t3, m'. split_and!; try done.
  - apply (reach_low R HEAP_BASE); [done|lia].
  - rewrite (Hn [] R (PDP_i ix) t1) by (done || apply H2 || (cbn; lia)). done.
  - rewrite (Hn _ t1 (PD_i ix) t2 E1) by (done || (cbn; lia)). done.
  - rewrite (Hn _ t2 (PT_i ix) t3 E2) by (done || (cbn; lia)). done.
  - unfold ix in *. rewrite (set_leaf_paged_eq R HEAP_BASE (ram k) (pfa k) T v f t3) by done. apply set_leaf_eq.
  - apply (reach_low R HEAP_BASE); [apply Hre'|lia].
  - unfold m'. rewrite rd64_wr64_eq, to_u64_id by (apply map_entry_u64, rd64_range).
    destruct (map_entry_fields (rd64 (ram k) (t3 + 8 * P_i ix)) (Z.shiftr f 12)) as (_ & _ & ->); [apply rd64_range|].
    rewrite Z.shiftr_div_pow2 by lia. zlia.
Qed.

(** Mapping a page of the heap: what the machine does, on the same tables. *)
Lemma paged_map_heap T (k : Paged) v f :
  reachable T k → HEAP_BASE <= v < LOW_END → 0 <= f < 2^52 → f mod 4096 = 0 →
  ∃ m', PageTable_MapMemory (ram k) (pfa k) (globalPageTable k) v f = Done (m', pfa k) ∧
    paged_map_to k v f = Done (mkPaged (mkMachine m' (pfa k) (globalPageTable k))) ∧
    reachable T (mkMachine m' (pfa k) (globalPageTable k)).
Proof.
  intros Hre Hv Hf Hal.
  destruct (paged_levels T k v f Hre Hv Hf Hal) as (t1 & t2 & t3 & m' & _ & _ & N1 & N2 & N3 & N4 & EM & Hre' & _).
  exists m'. split; [done|]. split; [|done]. unfold paged_map_to, MapMemory_paged. cbn zeta.
  by rewrite N1, bind_Done, N2, bind_Done, N3, bind_Done, N4.
Qed.

Lemma paged_map_machine T (k : Paged) v :
  reachable T k → heap_page Paged v →
  (∃ m p a, requestPage (pfa k) = Done (a, p) ∧ (a mod 4096 = 0 ∧ 0 <= a < 2^52) ∧
     paged_map_new_page k v = Done (mkPaged (mkMachine m p (globalPageTable k))) ∧
     machine_map_new_page k v = Done (mkMachine m p (globalPageTable k)) ∧
     reachable T (mkMachine m p (globalPageTable k))) ∨
  paged_map_new_page k v = Panicked "Out of memory" ∧ machine_map_new_page k v = Panicked "Out of memory".
Proof.
  intros Hre [_ Hv]. cbn in Hv. unfold paged_map_new_page, machine_map_new_page.
  change mem_pageframeallocator_requestPage with (requestPage (W := Pfa)).
  destruct (request_fails (pfa k) (re_src _ _ Hre)) as [(a & p & Hr)|Hr]; rewrite Hr; [left|by right].
  rewrite !bind_Done. pose proof (request_frame _ _ _ (re_src _ _ Hre) Hr) as Hf.
  destruct (paged_map_heap T (mkPaged (mkMachine (ram k) p (globalPageTable k))) v a
    (reachable_request _ _ _ _ Hre Hr) Hv (proj2 Hf) (proj1 Hf)) as (m' & Em & -> & Hre').
  cbn [ram pfa globalPageTable machine] in *. exists m', p, a. rewrite Em, bind_Done. done.
Qed.

#[global] Instance paged_mapper_laws : PageMapperLaws Paged.
Proof.
  assert (∀ (k k' : Paged) v, mapper_ok k → heap_page Paged v → map_new_page k v = Done k' →
    mapper_ok (machine k) ∧ heap_page Machine v ∧ map_new_page (machine k) v = Done (machine k') ∧ mapper_ok k') as Hm.
  { intros k k' v [T Hre] Hv Hd. pose proof Hv as [Hv1 Hv2]. cbn in Hv2, Hd. unfold HEAP_BASE, LOW_END in Hv2.
    split; [by eapply reachable_ok|]. split; [split; [done|cbn; lia]|].
    destruct (paged_map_machine T k v Hre Hv) as [(m & p & a & _ & _ & E1 & E2 & Hre')|[E1 _]]; rewrite Hd in E1; [|discriminate].
    apply Done_inj in E1 as ->. split; [exact E2|by exists T]. }
  split.
  - intros k v k' Hk Hv Hd. by apply (Hm k k' v).
  - intros k v k' Hk Hv Hd. destruct (Hm k k' v Hk Hv Hd) as (H1 & H2 & H3 & _). exact (map_frame _ _ _ H1 H2 H3).
  - intros k v k' v' Hk Hv Hv' Hne Hd. destruct (Hm k k' v Hk Hv Hd) as (H1 & H2 & H3 & _).
    exact (map_others _ _ _ v' H1 H2 Hv' Hne H3).
  - intros k v k' f Hk Hv Hd. destruct (Hm k k' v Hk Hv Hd) as (H1 & H2 & H3 & _). exact (map_used _ _ _ f H1 H2 H3).
  - intros k v [T Hre] Hv. destruct (paged_map_machine T k v Hre Hv) as [(m & p & a & _ & _ & E & _)|[E _]];
      [left; by eexists|by right].
  - cbn. unfold HEAP_BASE, LOW_END. lia.
Qed.
