(* ===== verification/Heap.v ===== *)
(** * mem/heap.cpp: the kernel heap

    Every function of heap.cpp, on the bytes of the heap's virtual memory.  A
    [HeapSegHdr] is packed: magic at offset 0, length at 4, next at 12, last
    at 20, free at 28; 29 bytes in all.  A null pointer is address 0, and a
    store through it is a store to low memory: nothing traps there, because
    the first 16 MiB are mapped ([_start], "Map first 16 mb"). *)

From S2P Require Import Prelude Memory PageMapper.

Definition SIZEOF_HDR : Z := 29.

Definition hdr_length (m : mem) (s : Z) : Z := rd64 m (s + 4).
Definition hdr_next (m : mem) (s : Z) : Z := rd64 m (s + 12).
Definition hdr_last (m : mem) (s : Z) : Z := rd64 m (s + 20).
Definition hdr_free (m : mem) (s : Z) : bool := negb (rd8 m (s + 28) =? 0).
Definition set_length (m : mem) (s v : Z) : mem := wr64 m (s + 4) v.
Definition set_next (m : mem) (s v : Z) : mem := wr64 m (s + 12) v.
Definition set_last (m : mem) (s v : Z) : mem := wr64 m (s + 20) v.
Definition set_free (m : mem) (s : Z) (b : bool) : mem := wr8 m (s + 28) (Z.b2z b).

Section Heap.
Context {W : Type} `{PageMapper W}.

Record Heap := mkHeap {
  h_mem : mem;
  heapStart : Z;
  heapEnd : Z;
  LastHdr : Z;
  h_world : W
}.

Definition with_mem (h : Heap) (m : mem) : Heap :=
  mkHeap m (heapStart h) (heapEnd h) (LastHdr h) (h_world h).

(** The page-mapping loop of [initHeap] and [expandHeap]: maps [n] pages from
    [pos] on and gives back the position after them. *)
Definition map_pages (w : W) (pos : Z) (n : Z) : outcome (Z * W) :=
  for_loop (Z.to_nat n) 0
    (λ _ '(pos, w),
       w ← map_new_page w pos;
       Done (to_u64 (pos + 0x1000), w)) (pos, w).

(** The first header, over all of the heap. *)
Definition init_segment (h : Heap) (heapAddress pageCount : Z) : Heap :=
  let heapLength := to_u64 (pageCount * 0x1000) in
  let m := h_mem h in
  let m := set_length m heapAddress (to_u64 (heapLength - SIZEOF_HDR)) in
  let m := set_next m heapAddress 0 in
  let m := set_last m heapAddress 0 in
  let m := set_free m heapAddress true in
  mkHeap m heapAddress (to_u64 (heapAddress + heapLength)) heapAddress (h_world h).

(** What [initHeap] does to the heap; the two lines each of its mappings
    prints ([debug] is true) are those of [BootLog.initHeap_says]. *)
Definition initHeap (h : Heap) (heapAddress pageCount : Z) : outcome Heap :=
  '(_, w) ← map_pages (h_world h) heapAddress pageCount;
  Done (init_segment (mkHeap (h_mem h) (heapStart h) (heapEnd h) (LastHdr h) w) heapAddress pageCount).

Definition combineForward (h : Heap) (this : Z) : Heap :=
  let m := h_mem h in
  let next := hdr_next m this in
  if next =? 0 then h
  else if negb (hdr_free m next) then h
  else
    let last := if next =? LastHdr h then this else LastHdr h in
    let m := if negb (hdr_next m next =? 0) then set_last m (hdr_next m next) this else m in
    let m := set_length m this
               (to_u64 (hdr_length m this + hdr_length m next + SIZEOF_HDR)) in
    let m := set_next m this (hdr_next m next) in
    mkHeap m (heapStart h) (heapEnd h) last (h_world h).

Definition combineBackward (h : Heap) (this : Z) : Heap :=
  let last := hdr_last (h_mem h) this in
  if negb (last =? 0) && hdr_free (h_mem h) last then combineForward h last else h.

(** [free] and [sfree]; the header lies right before the block. *)
Definition free (h : Heap) (address : Z) : Heap :=
  let segment := address - SIZEOF_HDR in
  let h := with_mem h (set_free (h_mem h) segment true) in
  let h := combineForward h segment in
  combineBackward h segment.

Definition sfree (h : Heap) (address size : Z) : Heap :=
  let h := free h address in
  with_mem h (memset (h_mem h) address 0 size).2.

(** [HeapSegHdr::split]; the first component is the new header or null. *)
Definition split (h : Heap) (this splitLength : Z) : Z * Heap :=
  if splitLength <? 0x10 then (0, h)
  else
    let m := h_mem h in
    let splitSegLength :=
      to_i64 (to_u64 (hdr_length m this - splitLength - SIZEOF_HDR)) in
    if splitSegLength <? 0x10 then (0, h)
    else
      let newSplitHdr := to_u64 (this + splitLength + SIZEOF_HDR) in
      let m := set_last m (hdr_next m this) newSplitHdr in
      let m := set_next m newSplitHdr (hdr_next m this) in
      let m := set_next m this newSplitHdr in
      let m := set_last m newSplitHdr this in
      let m := set_length m newSplitHdr splitSegLength in
      let m := set_free m newSplitHdr (hdr_free m this) in
      let m := set_length m this splitLength in
      let last := if LastHdr h =? this then newSplitHdr else LastHdr h in
      (newSplitHdr, mkHeap m (heapStart h) (heapEnd h) last (h_world h)).

Definition expandHeap (h : Heap) (length : Z) : outcome Heap :=
  let length :=
    if length mod 0x1000 =? 0 then length
    else to_u64 (to_u64 (length - length mod 0x1000) + 0x1000) in
  let pageCount := length / 0x1000 in
  let align := heapEnd h mod 0x1000 in
  let heapEnd1 :=
    if 0 <? align then to_u64 (heapEnd h + (0x1000 - align)) else heapEnd h in
  let newSegment := heapEnd1 in
  '(heapEnd2, w) ← map_pages (h_world h) heapEnd1 pageCount;
  let m := h_mem h in
  let m := set_free m newSegment true in
  let m := set_last m newSegment (LastHdr h) in
  let m := set_next m (LastHdr h) newSegment in
  let m := set_next m newSegment 0 in
  let m := set_length m newSegment (to_u64 (length - SIZEOF_HDR)) in
  Done (combineBackward (mkHeap m (heapStart h) heapEnd2 newSegment w) newSegment).

(** A block is handed out: [memset(addr, size, 0)] writes no byte. *)
Definition take_block (h : Heap) (seg size : Z) : Z * Heap :=
  let h := with_mem h (set_free (h_mem h) seg false) in
  let addr := to_u64 (seg + SIZEOF_HDR) in
  (addr, with_mem h (memset (h_mem h) addr size 0).2).

(** The [while(true)] of [malloc]; [None] is the [break]. *)
Fixpoint malloc_search (fuel : nat) (h : Heap) (currentSeg size : Z)
  : outcome (option (Z * Heap)) :=
  match fuel with
  | O => NoFuel
  | S f =>
      let m := h_mem h in
      if hdr_free m currentSeg && (size <? hdr_length m currentSeg) then
        Done (Some (take_block (split h currentSeg size).2 currentSeg size))
      else if hdr_free m currentSeg && (hdr_length m currentSeg =? size) then
        Done (Some (take_block h currentSeg size))
      else if hdr_next m currentSeg =? 0 then Done None
      else malloc_search f h (hdr_next m currentSeg) size
  end.

Definition align16 (size : Z) : Z :=
  if 0 <? size mod 0x10 then to_u64 (to_u64 (size - size mod 0x10) + 0x10) else size.

(** [tries] bounds the calls of [malloc] to itself, [fuel] the search. *)
Fixpoint malloc (tries fuel : nat) (h : Heap) (size : Z) : outcome (Z * Heap) :=
  match tries with
  | O => NoFuel
  | S t =>
      let size := align16 size in
      if size =? 0 then Done (0, h)
      else
        found ← malloc_search fuel h (heapStart h) size;
        match found with
        | Some r => Done r
        | None => h ← expandHeap h size; malloc t fuel h size
        end
  end.

Fixpoint getUsedMem_loop (fuel : nat) (h : Heap) (currentSeg used : Z) : outcome Z :=
  match fuel with
  | O => NoFuel
  | S f =>
      let m := h_mem h in
      let used :=
        if negb (hdr_free m currentSeg)
        then to_u64 (used + (hdr_length m currentSeg + SIZEOF_HDR)) else used in
      if hdr_next m currentSeg =? 0 then Done used
      else getUsedMem_loop f h (hdr_next m currentSeg) used
  end.

Definition getUsedMem (fuel : nat) (h : Heap) : outcome Z :=
  getUsedMem_loop fuel h (heapStart h) 0.
End Heap.

#[global] Arguments Heap : clear implicits.

