(* ===== verification/HeapSpec.v ===== *)
(** * What the heap promises: a list of segments

    The abstract heap is the list of its segments in address order, which
    tile the heap without gaps: every segment is a 29-byte header and its
    block.  Allocation takes the first segment that is free and large enough;
    freeing marks a segment and joins runs of free segments.  The functions
    below are the specification that heap.cpp is proved to refine. *)

From S2P Require Import Prelude.

Record seg := mkSeg { s_addr : Z; s_len : Z; s_free : bool }.

#[global] Instance seg_eq_dec : EqDecision seg.
Proof. solve_decision. Defined.

Definition seg_end (s : seg) : Z := s_addr s + 29 + s_len s.
Definition block (s : seg) : Z := s_addr s + 29.

(** ** Operations *)

(** Carving a block of [size] bytes out of a segment; the rest becomes a
    segment of its own if it can hold a header and 16 bytes. *)
Definition carve (size : Z) (s : seg) : list seg :=
  if (size <? s_len s) && (16 <=? s_len s - size - 29)
  then [mkSeg (s_addr s) size false;
        mkSeg (s_addr s + size + 29) (s_len s - size - 29) true]
  else [mkSeg (s_addr s) (s_len s) false].

Definition fits (size : Z) (s : seg) : bool := s_free s && (size <=? s_len s).

Fixpoint spec_alloc (size : Z) (l : list seg) : option (Z * list seg) :=
  match l with
  | [] => None
  | s :: l' =>
      if fits size s then Some (block s, carve size s ++ l')
      else
        '(a, l'') ← spec_alloc size l';
        Some (a, s :: l'')
  end.

Definition join (s n : seg) : seg := mkSeg (s_addr s) (s_len s + s_len n + 29) (s_free s).

(** Puts a segment in front of a list, joining it with the head if both are free. *)
Definition push (s : seg) (l : list seg) : list seg :=
  match l with
  | n :: l' => if s_free s && s_free n then join s n :: l' else s :: l
  | [] => [s]
  end.

Definition coalesce (l : list seg) : list seg := foldr push [] l.

Definition mark (a : Z) (s : seg) : seg :=
  if block s =? a then mkSeg (s_addr s) (s_len s) true else s.

Definition spec_free (a : Z) (l : list seg) : list seg := coalesce (mark a <$> l).

Definition page_up (n : Z) : Z := (n + 4095) / 4096 * 4096.

(** Growing by [n] bytes, rounded up to whole pages, from address [e] on. *)
Definition spec_expand (n e : Z) (l : list seg) : list seg :=
  coalesce (l ++ [mkSeg e (page_up n - 29) true]).

(** Allocation, growing the heap at most [n] times; also gives the new end. *)
Fixpoint spec_malloc (n : nat) (size e : Z) (l : list seg) : option (Z * list seg * Z) :=
  match spec_alloc size l with
  | Some (a, l') => Some (a, l', e)
  | None =>
      match n with
      | O => None
      | S n' => spec_malloc n' size (e + page_up size) (spec_expand size e l)
      end
  end.

Fixpoint used_bytes (l : list seg) : Z :=
  match l with
  | [] => 0
  | s :: l' => (if s_free s then 0 else s_len s + 29) + used_bytes l'
  end.

(** ** Well-formed heaps *)

Fixpoint tiled (a : Z) (l : list seg) (e : Z) : Prop :=
  match l with
  | [] => a = e
  | s :: l' => s_addr s = a ∧ 16 <= s_len s ∧ tiled (seg_end s) l' e
  end.

Fixpoint coalesced (l : list seg) : Prop :=
  match l with
  | s :: ((n :: _) as l') => (s_free s && s_free n) = false ∧ coalesced l'
  | _ => True
  end.

Lemma tiled_app a l1 l2 e : tiled a (l1 ++ l2) e ↔ ∃ b, tiled a l1 b ∧ tiled b l2 e.
Proof.
  revert a. induction l1 as [|s l1 IH]; intros a; cbn.
  - split; [by exists a|]. by intros (b & <- & ?).
  - rewrite IH. split.
    + intros (E & H16 & b & H1 & H2). by exists b.
    + intros (b & (E & H16 & H1) & H2). eauto.
Qed.

Lemma tiled_le a l e : tiled a l e → a <= e.
Proof.
  revert a. induction l as [|s l IH]; cbn; intros a; [lia|].
  intros (<- & H16 & Ht). apply IH in Ht. unfold seg_end in Ht. lia.
Qed.

Lemma tiled_in a l e s :
  tiled a l e → s ∈ l → a <= s_addr s ∧ 16 <= s_len s ∧ seg_end s <= e.
Proof.
  revert a. induction l as [|s' l IH]; intros a; [by intros _ ?%not_elem_of_nil|].
  cbn. intros (<- & H16 & Ht) [->|Hin]%elem_of_cons.
  - apply tiled_le in Ht. lia.
  - destruct (IH _ Ht Hin). unfold seg_end in *. lia.
Qed.

(** Segments of a tiled heap do not overlap. *)
Lemma tiled_apart a l e i j s1 s2 :
  tiled a l e → l !! i = Some s1 → l !! j = Some s2 → (i < j)%nat →
  seg_end s1 <= s_addr s2.
Proof.
  intros Ht Hi Hj Hij.
  rewrite <- (take_drop_middle l i s1 Hi) in Ht.
  apply tiled_app in Ht as (b & _ & Ht). cbn in Ht. destruct Ht as (_ & _ & Ht).
  assert (s2 ∈ drop (S i) l) as Hin.
  { apply list_elem_of_lookup. exists (j - S i)%nat. rewrite lookup_drop, <- Hj. f_equal. lia. }
  by destruct (tiled_in _ _ _ _ Ht Hin).
Qed.

Lemma block_inj a l e s1 s2 :
  tiled a l e → s1 ∈ l → s2 ∈ l → s_addr s1 = s_addr s2 → s1 = s2.
Proof.
  intros Ht [i Hi]%list_elem_of_lookup [j Hj]%list_elem_of_lookup E.
  destruct (Nat.lt_trichotomy i j) as [Hij|[->|Hij]]; [|congruence|].
  - pose proof (tiled_apart _ _ _ _ _ _ _ Ht Hi Hj Hij).
    apply list_elem_of_lookup_2 in Hi. destruct (tiled_in _ _ _ _ Ht Hi).
    unfold seg_end in *. lia.
  - pose proof (tiled_apart _ _ _ _ _ _ _ Ht Hj Hi Hij).
    apply list_elem_of_lookup_2 in Hj. destruct (tiled_in _ _ _ _ Ht Hj).
    unfold seg_end in *. lia.
Qed.

(** No block reaches into a header. *)
Lemma block_vs_header a l e u x y :
  tiled a l e → u ∈ l → x ∈ l → block u <= y < seg_end u →
  y < s_addr x ∨ s_addr x + 29 <= y.
Proof.
  intros Ht Hu Hx Hy. pose proof Hu as [i Hi]%list_elem_of_lookup.
  pose proof Hx as [j Hj]%list_elem_of_lookup.
  destruct (tiled_in _ _ _ _ Ht Hu) as (_ & ? & _).
  destruct (tiled_in _ _ _ _ Ht Hx) as (_ & ? & _). unfold block, seg_end in *.
  destruct (Nat.lt_trichotomy i j) as [Hij|[->|Hij]].
  - pose proof (tiled_apart _ _ _ _ _ _ _ Ht Hi Hj Hij). unfold seg_end in *. lia.
  - assert (u = x) as -> by congruence. lia.
  - pose proof (tiled_apart _ _ _ _ _ _ _ Ht Hj Hi Hij). unfold seg_end in *. lia.
Qed.

(** ** coalesced lists *)

Lemma coalesced_cons s l : coalesced (s :: l) → coalesced l.
Proof. destruct l; [done|]. by intros [_ ?]. Qed.

Lemma coalesced_app l1 l2 : coalesced (l1 ++ l2) → coalesced l1 ∧ coalesced l2.
Proof.
  induction l1 as [|s l1 IH]; [done|]. intros Hc.
  destruct (IH (coalesced_cons _ _ Hc)) as [H1 H2]. split; [|done].
  destruct l1 as [|n l1]; [done|]. cbn in Hc. by destruct Hc as [? _].
Qed.

Lemma push_coalesced s l : coalesced (s :: l) → push s l = s :: l.
Proof. destruct l as [|n l]; [done|]. cbn. by intros [-> _]. Qed.

Lemma coalesce_cons s l : coalesce (s :: l) = push s (coalesce l).
Proof. done. Qed.

Lemma coalesce_id l : coalesced l → coalesce l = l.
Proof.
  induction l as [|s l IH]; [done|]. intros Hc. rewrite coalesce_cons.
  rewrite IH by (by eapply coalesced_cons). by apply push_coalesced.
Qed.

Lemma coalesce_app l1 l2 : coalesce (l1 ++ l2) = foldr push (coalesce l2) l1.
Proof. apply foldr_app. Qed.

Lemma foldr_push_id l1 l2 : coalesced (l1 ++ l2) → foldr push l2 l1 = l1 ++ l2.
Proof.
  induction l1 as [|s l1 IH]; [done|]. intros Hc. cbn.
  rewrite IH by (by eapply coalesced_cons). by apply push_coalesced.
Qed.

Lemma coalesced_push s l : coalesced l → coalesced (push s l).
Proof.
  destruct l as [|n l]; [done|]. intros Hc. unfold push.
  destruct (s_free s && s_free n) eqn:E; [|by split].
  destruct l as [|q l]; [done|]. cbn in Hc |- *. destruct Hc as [Hc ?]. split; [|done].
  apply andb_true_iff in E as [-> E2]. by rewrite E2 in Hc.
Qed.

Lemma coalesced_coalesce l : coalesced (coalesce l).
Proof. induction l as [|s l IH]; [done|]. by apply coalesced_push. Qed.

Lemma tiled_push a s l e : tiled a (s :: l) e → tiled a (push s l) e.
Proof.
  destruct l as [|n l]; [done|]. unfold push. destruct (s_free s && s_free n); [|done].
  cbn. unfold seg_end. cbn. intros (<- & H16 & Hn & Hn16 & Ht). split; [done|]. split; [lia|].
  by replace (s_addr s + 29 + (s_len s + s_len n + 29)) with (s_addr n + 29 + s_len n) by lia.
Qed.

Lemma tiled_coalesce a l e : tiled a l e → tiled a (coalesce l) e.
Proof.
  revert a. induction l as [|s l IH]; [done|]. intros a (<- & H16 & Ht).
  rewrite coalesce_cons. apply tiled_push. split; [done|]. split; [done|]. by apply IH.
Qed.

(** Replacing the last segment of a prefix by one with the same flag. *)
Lemma coalesced_replace pre p p' l :
  coalesced (pre ++ [p]) → s_free p' = s_free p → coalesced (p' :: l) →
  coalesced (pre ++ p' :: l).
Proof.
  intros Hp Hf Hl. induction pre as [|s pre IH]; [done|].
  specialize (IH (coalesced_cons _ _ Hp)).
  destruct pre as [|n pre]; cbn in Hp |- *.
  - split; [rewrite Hf; apply Hp|exact Hl].
  - split; [apply Hp|exact IH].
Qed.

(** ** Allocation *)

Lemma spec_alloc_split size l a l' :
  spec_alloc size l = Some (a, l') →
  ∃ pre s post, l = pre ++ s :: post ∧ Forall (λ s, fits size s = false) pre ∧
    fits size s = true ∧ a = block s ∧ l' = pre ++ carve size s ++ post.
Proof.
  revert l'. induction l as [|s l IH]; intros l'; cbn; [done|].
  destruct (fits size s) eqn:E.
  - intros [= <- <-]. by exists [], s, l.
  - destruct (spec_alloc size l) as [[b l1]|]; cbn; [|done]. intros [= -> <-].
    destruct (IH l1 eq_refl) as (pre & x & post & -> & Hpre & Hx & -> & ->).
    exists (s :: pre), x, post. split_and!; try done. by constructor.
Qed.

Lemma spec_alloc_None size l :
  spec_alloc size l = None ↔ Forall (λ s, fits size s = false) l.
Proof.
  induction l as [|s l IH]; cbn; [by split|].
  rewrite Forall_cons, <- IH. destruct (fits size s); [by split; [|intros []]|].
  destruct (spec_alloc size l) as [[b l1]|]; cbn; split; try done. by intros [_ ?].
Qed.

Lemma tiled_carve size s e :
  16 <= size → fits size s = true → tiled (s_addr s) [s] e → tiled (s_addr s) (carve size s) e.
Proof.
  intros Hsz Hfit. unfold carve. destruct (_ && _) eqn:E; cbn; unfold seg_end; cbn; [|done].
  apply andb_true_iff in E as [E1%Z.ltb_lt E2%Z.leb_le].
  intros (_ & _ & <-). split_and!; try done; lia.
Qed.

Lemma tiled_alloc size l a l' b e :
  16 <= size → tiled b l e → spec_alloc size l = Some (a, l') → tiled b l' e.
Proof.
  intros Hsz Ht (pre & s & post & -> & _ & Hfit & _ & ->)%spec_alloc_split.
  apply tiled_app in Ht as (c & H1 & H2). apply tiled_app. exists c. split; [done|].
  change (s :: post) with ([s] ++ post) in H2. apply tiled_app in H2 as (d & H2 & H3).
  apply tiled_app. exists d. split; [|done].
  destruct H2 as (<- & H2). by apply tiled_carve.
Qed.

Lemma coalesced_alloc size l a l' :
  coalesced l → spec_alloc size l = Some (a, l') → coalesced l'.
Proof.
  intros Hc (pre & s & post & -> & _ & Hfit & _ & ->)%spec_alloc_split.
  apply andb_true_iff in Hfit as [Hf _].
  assert (coalesced (carve size s ++ post) ∧ ∃ x y, carve size s ++ post = x :: y ∧ s_free x = false)
    as (Hcp & x & y & E & Hx).
  { destruct (coalesced_app _ _ Hc) as [_ Hsp]. unfold carve.
    destruct (_ && _); cbn; (split; [|by eauto]).
    - split; [done|]. destruct post as [|n post]; [done|]. cbn in Hsp.
      rewrite Hf in Hsp. by destruct Hsp.
    - by destruct post as [|n post]; [|destruct Hsp]. }
  rewrite E in *. clear E Hf. induction pre as [|p pre IH]; [done|].
  specialize (IH (coalesced_cons _ _ Hc)).
  destruct pre as [|q pre]; cbn in Hc |- *.
  - split; [by rewrite Hx, andb_false_r|exact Hcp].
  - split; [apply Hc|exact IH].
Qed.

(** ** Freeing what was allocated *)

Lemma mark_other a s : block s ≠ a → mark a s = s.
Proof. intros. unfold mark. by destruct (Z.eqb_spec (block s) a). Qed.

Lemma fmap_mark_other a l : Forall (λ s, block s ≠ a) l → mark a <$> l = l.
Proof.
  induction 1 as [|s l Hs Hl IH]; [done|]. rewrite fmap_cons, IH, mark_other by done. done.
Qed.

Lemma tiled_mark b e pre s post :
  tiled b (pre ++ s :: post) e →
  mark (block s) <$> (pre ++ s :: post) = pre ++ mkSeg (s_addr s) (s_len s) true :: post.
Proof.
  intros Ht. apply tiled_app in Ht as (c & H1 & H2). destruct H2 as (Ha & H16 & H2).
  rewrite fmap_app, fmap_cons. rewrite !fmap_mark_other.
  - unfold mark. by rewrite Z.eqb_refl.
  - apply Forall_forall. intros x Hx. destruct (tiled_in _ _ _ _ H2 Hx). unfold block, seg_end in *. lia.
  - apply Forall_forall. intros x Hx. destruct (tiled_in _ _ _ _ H1 Hx). unfold block, seg_end in *. lia.
Qed.

Lemma join_carve size s post :
  0 <= size → fits size s = true → coalesced (s :: post) →
  foldr push post (mark (block s) <$> carve size s) = s :: post.
Proof.
  intros Hsz [Hf Hle%Z.leb_le]%andb_true_iff Hc. unfold carve.
  destruct s as [sa sl sf]. cbn in Hf, Hle. subst sf. cbn [s_addr s_len] in *.
  destruct ((size <? sl) && (16 <=? sl - size - 29)); cbn [fmap list_fmap foldr].
  - rewrite (mark_other _ (mkSeg (sa + size + 29) _ _)) by (unfold block; cbn; lia).
    unfold mark, block. cbn [s_addr s_len]. rewrite Z.eqb_refl.
    rewrite (push_coalesced (mkSeg (sa + size + 29) _ true)).
    + cbn. unfold join. cbn. do 2 f_equal. lia.
    + destruct post as [|n post]; [done|]. by destruct Hc.
  - unfold mark, block. cbn [s_addr s_len]. rewrite Z.eqb_refl. by apply push_coalesced.
Qed.

Lemma spec_free_alloc size l a l' b e :
  16 <= size → tiled b l e → coalesced l → spec_alloc size l = Some (a, l') →
  spec_free a l' = l.
Proof.
  intros Hsz Ht Hc (pre & s & post & -> & _ & Hfit & -> & ->)%spec_alloc_split.
  pose proof (coalesced_app _ _ Hc) as [_ Hsp].
  apply tiled_app in Ht as (c & H1 & (Hc' & H16 & H2)).
  unfold spec_free. rewrite !fmap_app, !coalesce_app.
  rewrite (fmap_mark_other _ post), (fmap_mark_other _ pre).
  - rewrite (coalesce_id post) by (by eapply coalesced_cons).
    rewrite join_carve by (done || lia). by apply foldr_push_id.
  - apply Forall_forall. intros x Hx. destruct (tiled_in _ _ _ _ H1 Hx). unfold block, seg_end in *. lia.
  - apply Forall_forall. intros x Hx. destruct (tiled_in _ _ _ _ H2 Hx). unfold block, seg_end in *. lia.
Qed.

(** Freeing one used segment joins it with at most its two neighbours. *)
Definition free_at (pre : list seg) (s : seg) (post : list seg) : list seg :=
  let mid := push (mkSeg (s_addr s) (s_len s) true) post in
  match last pre with
  | Some p => removelast pre ++ push p mid
  | None => mid
  end.

Lemma push_head s l : ∃ x y, push s l = x :: y ∧ s_free x = s_free s ∧ s_addr x = s_addr s.
Proof.
  destruct l as [|n l]; cbn; [by eexists _, _|].
  destruct (s_free s && s_free n); by eexists _, _.
Qed.

Lemma spec_free_at b e pre s post :
  tiled b (pre ++ s :: post) e → coalesced (pre ++ s :: post) → s_free s = false →
  spec_free (block s) (pre ++ s :: post) = free_at pre s post.
Proof.
  intros Ht Hc Hf. unfold spec_free. rewrite (tiled_mark _ _ _ _ _ Ht), coalesce_app.
  pose proof (coalesced_app _ _ Hc) as [Hpre Hpost].
  rewrite coalesce_cons, (coalesce_id post) by (by eapply coalesced_cons).
  unfold free_at. set (mid := push _ post).
  assert (coalesced mid) as Hmid.
  { apply coalesced_push. by eapply coalesced_cons. }
  destruct (list_snoc_inv pre) as [->|(pre' & p & ->)]; [done|].
  rewrite last_snoc, removelast_last, foldr_app. cbn [foldr].
  apply foldr_push_id.
  destruct (push_head p mid) as (x & y & E & Hx & _). rewrite E.
  eapply coalesced_replace; [done|done|]. rewrite <- E. by apply coalesced_push.
Qed.

(** ** Growth and use *)

Lemma page_up_bounds n : 0 <= n → n <= page_up n < n + 4096 ∧ page_up n mod 4096 = 0.
Proof. unfold page_up. zlia. Qed.

Lemma tiled_expand n b l e :
  0 < n → tiled b l e → tiled b (spec_expand n e l) (e + page_up n).
Proof.
  intros Hn Ht. apply tiled_coalesce, tiled_app. exists e. split; [done|].
  cbn. unfold seg_end. cbn. pose proof (page_up_bounds n). split; [done|]. unfold page_up in *. zlia.
Qed.

Lemma used_bytes_push s l : used_bytes (push s l) = used_bytes (s :: l).
Proof.
  destruct l as [|n l]; [done|]. unfold push.
  destruct (s_free s) eqn:E1, (s_free n) eqn:E2; cbn; rewrite ?E1, ?E2; lia.
Qed.

Lemma used_bytes_coalesce l : used_bytes (coalesce l) = used_bytes l.
Proof.
  induction l as [|s l IH]; [done|]. rewrite coalesce_cons, used_bytes_push. cbn [used_bytes]. by rewrite IH.
Qed.

Lemma used_bytes_bound a l e : tiled a l e → 0 <= used_bytes l <= e - a.
Proof.
  revert a. induction l as [|s l IH]; cbn; intros a; [lia|].
  intros (<- & H16 & Ht). apply IH in Ht. unfold seg_end in Ht. destruct (s_free s); lia.
Qed.

Lemma length_push s l : (length (push s l) <= S (length l))%nat.
Proof. destruct l as [|n l]; [done|]. unfold push. destruct (_ && _); cbn; lia. Qed.

Lemma length_coalesce l : (length (coalesce l) <= length l)%nat.
Proof.
  induction l as [|s l IH]; [done|]. rewrite coalesce_cons.
  pose proof (length_push s (coalesce l)). cbn. lia.
Qed.

Lemma length_expand n e l : (length (spec_expand n e l) <= S (length l))%nat.
Proof.
  unfold spec_expand. etransitivity; [apply length_coalesce|]. rewrite length_app. cbn. lia.
Qed.

Lemma spec_expand_at n e pre p :
  coalesced (pre ++ [p]) →
  spec_expand n e (pre ++ [p]) = pre ++ push p [mkSeg e (page_up n - 29) true].
Proof.
  intros Hc. unfold spec_expand. rewrite <- app_assoc, coalesce_app. cbn.
  apply foldr_push_id. destruct (s_free p) eqn:Hf; cbn; (eapply coalesced_replace; [exact Hc|done|]).
  - done.
  - cbn. by rewrite Hf.
Qed.

(** ** How often the heap grows for one allocation *)

Lemma spec_alloc_last size pre p : fits size p = true → is_Some (spec_alloc size (pre ++ [p])).
Proof.
  intros Hf. destruct (spec_alloc size (pre ++ [p])) as [r|] eqn:E; [done|].
  apply spec_alloc_None in E. rewrite Forall_app, Forall_singleton in E. destruct E. congruence.
Qed.

(** Growing behind a free segment gives a segment that is large enough. *)
Lemma grow_behind_free size e pre p :
  16 <= size → 16 <= s_len p → s_free p = true → coalesced (pre ++ [p]) →
  is_Some (spec_alloc size (spec_expand size e (pre ++ [p]))).
Proof.
  intros Hs Hl Hf Hc. rewrite spec_expand_at by done. cbn. rewrite Hf. cbn [andb s_free].
  apply spec_alloc_last. unfold fits, join. cbn. rewrite Hf. cbn.
  apply Z.leb_le. pose proof (page_up_bounds size). lia.
Qed.

(** Two growths are always enough: the new pages alone may be too small for
    the block and its header, but then the second growth joins them. *)
Lemma spec_malloc_total size b e l :
  16 <= size → tiled b l e → l ≠ [] → coalesced l → is_Some (spec_malloc 2 size e l).
Proof.
  intros Hs Ht Hne Hc. cbn [spec_malloc].
  destruct (spec_alloc size l) as [[a l']|]; [done|].
  destruct (list_snoc_inv l) as [->|(pre & p & ->)]; [done|].
  pose proof (tiled_in _ _ _ p Ht (elem_of_middle _ _ _)) as (_ & Hp & _).
  destruct (s_free p) eqn:Hf.
  { destruct (grow_behind_free size e pre p Hs Hp Hf Hc) as [[a l'] ->]. done. }
  destruct (spec_alloc size (spec_expand size e (pre ++ [p]))) as [[a l']|]; [done|].
  pose proof (coalesced_coalesce ((pre ++ [p]) ++ [mkSeg e (page_up size - 29) true])) as Hc'.
  change (coalesced (spec_expand size e (pre ++ [p]))) in Hc'.
  rewrite (spec_expand_at _ _ pre) in * by done. cbn [push] in *. rewrite Hf in *. cbn [andb] in *.
  rewrite cons_middle, app_assoc in Hc' |- *.
  destruct (grow_behind_free size (e + page_up size) (pre ++ [p]) (mkSeg e (page_up size - 29) true))
    as [[a l'] ->]; try done.
  cbn. unfold page_up. zlia.
Qed.
