(* ===== verification/HeapRefine.v ===== *)
(** * heap.cpp refines the list of segments

    [heap_rep h l] says that the doubly linked headers in memory are the
    segment list [l].  Every operation of heap.cpp takes a heap that
    represents [l] to one that represents the list the specification gives. *)

From S2P Require Import Prelude Memory PageMapper Heap HeapSpec.

(** ** Headers in memory *)

Definition head_addr (l : list seg) (d : Z) : Z :=
  match l with s :: _ => s_addr s | [] => d end.

Fixpoint last_addr (d : Z) (l : list seg) : Z :=
  match l with s :: l' => last_addr (s_addr s) l' | [] => d end.

Record seg_at (m : mem) (prev next : Z) (s : seg) : Prop := {
  sa_length : hdr_length m (s_addr s) = s_len s;
  sa_next : hdr_next m (s_addr s) = next;
  sa_last : hdr_last m (s_addr s) = prev;
  sa_free : hdr_free m (s_addr s) = s_free s
}.

Fixpoint chain (m : mem) (prev : Z) (l : list seg) (next : Z) : Prop :=
  match l with
  | [] => True
  | s :: l' => seg_at m prev (head_addr l' next) s ∧ chain m (s_addr s) l' next
  end.

Lemma last_addr_app d l1 l2 : last_addr d (l1 ++ l2) = last_addr (last_addr d l1) l2.
Proof. revert d. induction l1 as [|s l1 IH]; intros d; cbn; [done|apply IH]. Qed.

Lemma head_addr_app l1 l2 d : head_addr (l1 ++ l2) d = head_addr l1 (head_addr l2 d).
Proof. by destruct l1. Qed.

Lemma chain_app m prev l1 l2 next :
  chain m prev (l1 ++ l2) next ↔
  chain m prev l1 (head_addr l2 next) ∧ chain m (last_addr prev l1) l2 next.
Proof.
  revert prev. induction l1 as [|s l1 IH]; intros prev; cbn; [tauto|].
  rewrite IH, head_addr_app. tauto.
Qed.

(** The bytes of a header that the code uses are the same in both memories. *)
Definition hdr_kept (m m' : mem) (s : seg) : Prop :=
  ∀ a, s_addr s + 4 <= a < s_addr s + 29 → rd8 m' a = rd8 m a.

Lemma seg_at_kept m m' prev next s :
  hdr_kept m m' s → seg_at m prev next s → seg_at m' prev next s.
Proof.
  intros Hk [H1 H2 H3 H4].
  split; [rewrite <- H1|rewrite <- H2|rewrite <- H3|rewrite <- H4];
    unfold hdr_length, hdr_next, hdr_last, hdr_free;
    try (apply rdN_ext; intros; apply Hk; lia).
  by rewrite Hk by lia.
Qed.

Lemma chain_kept m m' prev l next :
  Forall (hdr_kept m m') l → chain m prev l next → chain m' prev l next.
Proof.
  intros Hk. revert prev. induction Hk as [|s l Hs _ IH]; intros prev; cbn; [done|].
  intros [H1 H2]. split; [by apply (seg_at_kept m)|by apply IH].
Qed.

(** [hdr] computes a header field after a sequence of header writes and reads
    the fields of the memory before them from the context. *)
Ltac hdr_unfold :=
  unfold hdr_length, hdr_next, hdr_last, hdr_free, set_length, set_next, set_last,
    set_free, SIZEOF_HDR in *.
Ltac hdr :=
  hdr_unfold; mem_simpl;
  repeat match goal with
  | E : rdN ?n ?m ?a = _ |- context [rdN ?n ?m ?a] => rewrite E
  end;
  u64_small; try done.

(** Headers of a tiled list are kept by writes outside the list. *)
Lemma kept_below m m' a l b :
  tiled a l b → (∀ x, a <= x < b → rd8 m' x = rd8 m x) → Forall (hdr_kept m m') l.
Proof.
  intros Ht Hm. apply Forall_forall. intros s Hs x Hx. apply Hm.
  destruct (tiled_in _ _ _ _ Ht Hs). unfold seg_end in *. lia.
Qed.

Section Refine.
Context {W : Type} `{PageMapper W}.
Implicit Types h : Heap W.

Record heap_rep (h : Heap W) (l : list seg) : Prop := {
  hr_start : 28 <= heapStart h;
  hr_end : heapEnd h <= 2^47 ∧ heapEnd h mod 4096 = 0;
  hr_tiled : tiled (heapStart h) l (heapEnd h);
  hr_nonempty : l ≠ [];
  hr_chain : chain (h_mem h) 0 l 0;
  hr_last : LastHdr h = last_addr 0 l
}.

Lemma heap_head h l : heap_rep h l → heapStart h = head_addr l 0.
Proof. intros [_ _ Ht Hne _ _]. destruct l; [done|]. by destruct Ht. Qed.

(** The pieces of a heap around one segment. *)
Lemma heap_rep_at h pre s post :
  heap_rep h (pre ++ s :: post) →
  tiled (heapStart h) pre (s_addr s) ∧ 16 <= s_len s ∧ 28 <= s_addr s ∧
  tiled (seg_end s) post (heapEnd h) ∧ seg_end s <= heapEnd h ∧
  chain (h_mem h) 0 pre (s_addr s) ∧
  seg_at (h_mem h) (last_addr 0 pre) (head_addr post 0) s ∧
  chain (h_mem h) (s_addr s) post 0.
Proof.
  intros [H1 H2 H3 H4 H5 H6].
  apply tiled_app in H3 as (b & T1 & Eb & H16 & T2). subst b.
  pose proof (tiled_le _ _ _ T1). pose proof (tiled_le _ _ _ T2).
  apply chain_app in H5 as [C1 [C2 C3]]. cbn in C1. split_and!; try done. lia.
Qed.

(** ** combineForward *)

Lemma last_addr_ge a d l e : tiled a l e → d <= a → d <= last_addr d l.
Proof.
  revert a d. induction l as [|s l IH]; cbn; intros a d; [lia|].
  intros (<- & H16 & Ht) Hd. transitivity (s_addr s); [done|].
  eapply IH; [done|]. unfold seg_end. lia.
Qed.

Lemma combineForward_join h pre s n post :
  heap_rep h (pre ++ s :: n :: post) → s_free n = true →
  heap_rep (combineForward h (s_addr s)) (pre ++ join s n :: post).
Proof.
  intros Hr Hn. pose proof Hr as [R1 [R2 R2'] R3 _ _ R6].
  destruct (heap_rep_at _ _ _ _ Hr) as (T1 & L1 & A1 & T2 & E1 & C1 & [S1 S2 S3 S4] & C2).
  cbn [head_addr chain] in S2, C2. destruct C2 as [[N1 N2 N3 N4] C3].
  cbn [tiled] in T2. destruct T2 as (An & Ln & T3). unfold seg_end in *.
  pose proof (tiled_le _ _ _ T3) as Hend.
  unfold combineForward. rewrite S2.
  destruct (Z.eqb_spec (s_addr n) 0); [lia|]. rewrite N4, Hn. cbn [negb].
  set (A := s_addr s) in *. set (N := s_addr n) in *.
  assert (tiled (heapStart h) (pre ++ join s n :: post) (heapEnd h)) as Ht'.
  { apply tiled_app. exists A. split; [done|]. cbn. unfold seg_end. cbn. fold A.
    split; [done|]. split; [lia|].
    by replace (A + 29 + (s_len s + s_len n + 29)) with (N + 29 + s_len n) by lia. }
  rewrite last_addr_app in R6. cbn [last_addr] in R6. fold N in R6.
  destruct post as [|q post]; cbn [head_addr chain tiled last_addr] in *.
  - (* the joined segment is the last one *)
    rewrite N2. cbn [negb Z.eqb]. rewrite R6, Z.eqb_refl.
    split; cbn [h_mem heapStart heapEnd LastHdr]; try done.
    + by destruct pre.
    + apply chain_app. split; [|cbn [chain head_addr join s_addr]; split; [split|done]];
        cbn [join s_addr s_len s_free]; fold A; try by hdr.
      eapply chain_kept; [|exact C1]. eapply kept_below; [exact T1|]. intros x Hx. by hdr.
    + by rewrite last_addr_app.
  - (* the segment behind is re-linked *)
    destruct T3 as (Aq & Lq & T4). destruct C3 as [[Q1 Q2 Q3 Q4] C4].
    pose proof (tiled_le _ _ _ T4) as Hend2. unfold seg_end in *. set (Q := s_addr q) in *.
    rewrite N2. destruct (Z.eqb_spec Q 0); [lia|]. cbn [negb].
    destruct (Z.eqb_spec N (LastHdr h)) as [EL|_].
    { rewrite R6 in EL. pose proof (last_addr_ge _ Q _ _ T4). lia. }
    split; cbn [h_mem heapStart heapEnd LastHdr]; try done.
    + by destruct pre.
    + apply chain_app. split; [|cbn [chain head_addr join s_addr]; split; [split|split; [split|]]];
        cbn [join s_addr s_len s_free]; fold A Q; try by hdr.
      * eapply chain_kept; [|exact C1]. eapply kept_below; [exact T1|]. intros x Hx. by hdr.
      * eapply chain_kept; [|exact C4]. eapply kept_below; [exact T4|]. intros x Hx. by hdr.
    + by rewrite last_addr_app.
Qed.

(** ** One operation after the other

    A step keeps the bytes of every used block and every used segment, and
    all memory off the heap but the eight bytes that a store through a null
    header changes. *)
Definition off_heap (first last a : Z) : Prop := (a < first ∨ last <= a) ∧ ¬ (20 <= a < 28).

Record heap_step (h : Heap W) (l : list seg) (h' : Heap W) (l' : list seg) : Prop := {
  hs_rep : heap_rep h' l';
  hs_kept u a : u ∈ l → s_free u = false → block u <= a < seg_end u →
    rd8 (h_mem h') a = rd8 (h_mem h) a;
  hs_used u : u ∈ l → s_free u = false → u ∈ l';
  hs_start : heapStart h' = heapStart h;
  hs_end : heapEnd h <= heapEnd h';
  hs_frame a : off_heap (heapStart h) (heapEnd h') a → rd8 (h_mem h') a = rd8 (h_mem h) a
}.

Lemma heap_step_refl h l : heap_rep h l → heap_step h l h l.
Proof. by split. Qed.

Lemma heap_step_trans h1 l1 h2 l2 h3 l3 :
  heap_step h1 l1 h2 l2 → heap_step h2 l2 h3 l3 → heap_step h1 l1 h3 l3.
Proof.
  intros [A1 A2 A3 A4 A5 A6] [B1 B2 B3 B4 B5 B6]. split; [done| | |congruence|lia|].
  - intros u a Hu Hf Ha. rewrite (B2 u) by auto. by apply (A2 u).
  - auto.
  - intros a Ha. rewrite A4 in B6. rewrite B6 by done. apply A6. unfold off_heap in *. lia.
Qed.

(** A header of the list lies on the heap. *)
Lemma off_heap_header h l s a :
  heap_rep h l → s ∈ l → off_heap (heapStart h) (heapEnd h) a → a < s_addr s ∨ s_addr s + 29 <= a.
Proof.
  intros Hr Hs [Ha _]. destruct (tiled_in _ _ _ _ (hr_tiled _ _ Hr) Hs) as (? & ? & ?).
  unfold seg_end in *. lia.
Qed.

Lemma combineForward_world h s :
  heapStart (combineForward h s) = heapStart h ∧ heapEnd (combineForward h s) = heapEnd h ∧
  h_world (combineForward h s) = h_world h.
Proof.
  unfold combineForward.
  destruct (_ =? 0); [done|]. by destruct (negb _).
Qed.

Lemma combineForward_kept h pre s n post u a :
  heap_rep h (pre ++ s :: n :: post) → s_free n = true →
  u ∈ pre ++ s :: n :: post → block u <= a < seg_end u →
  rd8 (h_mem (combineForward h (s_addr s))) a = rd8 (h_mem h) a.
Proof.
  intros Hr Hn Hu Ha. pose proof (hr_tiled _ _ Hr) as Ht.
  destruct (heap_rep_at _ _ _ _ Hr) as (T1 & L1 & A1 & T2 & E1 & C1 & [S1 S2 S3 S4] & C2).
  cbn [head_addr chain] in S2, C2. destruct C2 as [[N1 N2 N3 N4] C3].
  unfold combineForward. rewrite S2, N4, Hn. destruct (_ =? 0); [done|]. cbn [negb].
  pose proof (block_vs_header _ _ _ u s a Ht Hu (elem_of_middle _ _ _) Ha) as Hs.
  rewrite N2. destruct post as [|q post]; cbn [head_addr h_mem].
  - cbn [negb Z.eqb]. by hdr.
  - pose proof (block_vs_header _ _ _ u q a Ht Hu ltac:(set_solver) Ha) as Hq.
    destruct (negb _); by hdr.
Qed.

Lemma combineForward_frame h pre s n post a :
  heap_rep h (pre ++ s :: n :: post) → s_free n = true →
  off_heap (heapStart h) (heapEnd h) a →
  rd8 (h_mem (combineForward h (s_addr s))) a = rd8 (h_mem h) a.
Proof.
  intros Hr Hn Ha. pose proof (off_heap_header _ _ s a Hr (elem_of_middle _ _ _) Ha) as Hs.
  destruct (heap_rep_at _ _ _ _ Hr) as (_ & _ & _ & _ & _ & _ & [S1 S2 S3 S4] & C2).
  cbn [head_addr chain] in S2, C2. destruct C2 as [[N1 N2 N3 N4] C3].
  unfold combineForward. rewrite S2, N4, Hn. destruct (_ =? 0); [done|]. cbn [negb].
  rewrite N2. destruct post as [|q post]; cbn [head_addr h_mem].
  - cbn [negb Z.eqb]. by hdr.
  - pose proof (off_heap_header _ _ q a Hr
      ltac:(apply elem_of_app_mid, elem_of_app_mid, elem_of_middle) Ha) as Hq.
    destruct (negb _); by hdr.
Qed.

Lemma combineForward_push h pre s post :
  heap_rep h (pre ++ s :: post) → s_free s = true →
  heap_step h (pre ++ s :: post) (combineForward h (s_addr s)) (pre ++ push s post).
Proof.
  intros Hr Hs. destruct post as [|n post].
  - destruct (heap_rep_at _ _ _ _ Hr) as (_ & _ & _ & _ & _ & _ & [_ S2 _ _] & _).
    cbn in S2. unfold combineForward. rewrite S2. by apply heap_step_refl.
  - cbn [push]. rewrite Hs. cbn [andb]. destruct (s_free n) eqn:Hn.
    + destruct (combineForward_world h (s_addr s)) as (W1 & W2 & _).
      split; [by apply combineForward_join| | |done|lia|intros a; rewrite W2; by apply (combineForward_frame h pre s n post)].
      * intros u a Hu _ Ha. by eapply combineForward_kept.
      * intros u Hu Hf. apply elem_of_app in Hu as [Hu|Hu]; [apply elem_of_app; by left|].
        apply elem_of_app. right. apply elem_of_cons in Hu as [->|Hu]; [congruence|].
        apply elem_of_cons in Hu as [->|Hu]; [congruence|]. apply elem_of_cons. by right.
    + destruct (heap_rep_at _ _ _ _ Hr) as (_ & _ & An & T2 & _ & _ & [_ S2 _ _] & [[_ _ _ N4] _]).
      cbn in S2. unfold combineForward. rewrite S2, N4, Hn.
      destruct (_ =? 0); by apply heap_step_refl.
Qed.

Lemma combineBackward_push h pre s post :
  heap_rep h (pre ++ s :: post) →
  heap_step h (pre ++ s :: post) (combineBackward h (s_addr s))
    (match last pre with
     | Some p => removelast pre ++ push p (s :: post)
     | None => s :: post
     end).
Proof.
  intros Hr. destruct (list_snoc_inv pre) as [->|(pre' & p & ->)].
  - cbn [last]. destruct Hr as [R1 R2 R3 R4 R5 R6]. cbn in R5.
    unfold combineBackward. rewrite (sa_last _ _ _ _ (proj1 R5)). by apply heap_step_refl.
  - rewrite last_snoc, removelast_last.
    rewrite <- app_assoc in *. cbn [app] in *.
    destruct (heap_rep_at _ _ _ _ Hr) as (_ & _ & Ap & _ & _ & _ & [_ _ _ P4] & [[_ _ S3 _] _]).
    unfold combineBackward. rewrite S3, P4.
    destruct (Z.eqb_spec (s_addr p) 0); [lia|]. cbn [negb andb].
    destruct (s_free p) eqn:Hp; [by apply combineForward_push|].
    unfold push. rewrite Hp. by apply heap_step_refl.
Qed.

(** ** free *)

Lemma set_free_rep h pre s post b :
  heap_rep h (pre ++ s :: post) →
  heap_rep (with_mem h (set_free (h_mem h) (s_addr s) b))
    (pre ++ mkSeg (s_addr s) (s_len s) b :: post).
Proof.
  intros Hr. pose proof Hr as [R1 R2 R3 R4 R5 R6].
  destruct (heap_rep_at _ _ _ _ Hr) as (T1 & L1 & A1 & T2 & E1 & C1 & [S1 S2 S3 S4] & C2).
  unfold seg_end in *. split; cbn [with_mem h_mem heapStart heapEnd LastHdr]; try done.
  - apply tiled_app. exists (s_addr s). split; [done|]. by split.
  - by destruct pre.
  - apply chain_app. split; [|cbn [chain head_addr s_addr]; split; [split|]];
      cbn [s_addr s_len s_free]; try by hdr.
    + eapply chain_kept; [|exact C1]. eapply kept_below; [exact T1|]. intros x Hx. by hdr.
    + unfold hdr_free, set_free. rewrite rd8_wr8_eq. by destruct b.
    + eapply chain_kept; [|exact C2]. eapply kept_below; [exact T2|]. intros x Hx. by hdr.
  - rewrite R6, !last_addr_app. done.
Qed.

Lemma set_free_kept h l s b u a :
  heap_rep h l → s ∈ l → u ∈ l → block u <= a < seg_end u →
  rd8 (set_free (h_mem h) (s_addr s) b) a = rd8 (h_mem h) a.
Proof.
  intros Hr Hs Hu Ha.
  pose proof (block_vs_header _ _ _ u s a (hr_tiled _ _ Hr) Hu Hs Ha). by hdr.
Qed.

(** [free] with its effect on the rest of memory. *)
Lemma free_refines_frame h pre s post :
  heap_rep h (pre ++ s :: post) →
  let h' := free h (block s) in
  heap_rep h' (free_at pre s post) ∧ heapStart h' = heapStart h ∧
  (∀ u a, u ∈ pre ++ post → s_free u = false → block u <= a < seg_end u →
    u ∈ free_at pre s post ∧ rd8 (h_mem h') a = rd8 (h_mem h) a) ∧
  ∀ a, off_heap (heapStart h) (heapEnd h') a → heapEnd h <= heapEnd h' →
    rd8 (h_mem h') a = rd8 (h_mem h) a.
Proof.
  intros Hr. cbn zeta. unfold free, block, SIZEOF_HDR. replace (s_addr s + 29 - 29) with (s_addr s) by lia.
  set (s' := mkSeg (s_addr s) (s_len s) true).
  pose proof (set_free_rep h pre s post true Hr) as Hr1. fold s' in Hr1.
  set (h1 := with_mem h _) in *.
  pose proof (combineForward_push h1 pre s' post Hr1 eq_refl) as St1.
  change (s_addr s') with (s_addr s) in St1.
  destruct (push_head s' post) as (x & y & E & _ & Ex). cbn in Ex.
  rewrite E in St1. pose proof (combineBackward_push _ _ _ _ (hs_rep _ _ _ _ St1)) as St2.
  rewrite Ex, <- E in St2. pose proof (heap_step_trans _ _ _ _ _ _ St1 ltac:(rewrite <- E; exact St2)) as St.
  assert (free_at pre s post = match last pre with
     | Some p => removelast pre ++ push p (push s' post) | None => push s' post end) as -> by done.
  destruct St as [S1 S2 S3 S4 S5 S6]. split; [done|]. split; [done|]. split; [intros u a Hu Hf Ha|intros a Ha He].
  2: { rewrite S6 by done. cbn.
    pose proof (off_heap_header _ _ s a Hr (elem_of_middle _ _ _) ltac:(unfold off_heap in *; cbn in *; lia)).
    by hdr. }
  split; [by apply S3; [apply elem_of_app_mid|]|].
  rewrite (S2 u) by (try done; by apply elem_of_app_mid). cbn.
  apply (set_free_kept h (pre ++ s :: post) s true u); try done;
    [apply elem_of_middle|by apply elem_of_app_mid].
Qed.

Lemma free_refines h pre s post :
  heap_rep h (pre ++ s :: post) →
  let h' := free h (block s) in
  heap_rep h' (free_at pre s post) ∧ heapStart h' = heapStart h ∧
  ∀ u a, u ∈ pre ++ post → s_free u = false → block u <= a < seg_end u →
    u ∈ free_at pre s post ∧ rd8 (h_mem h') a = rd8 (h_mem h) a.
Proof.
  intros Hr. destruct (free_refines_frame h pre s post Hr) as (H1 & H2 & H3 & _). done.
Qed.

(** ** Bytes that stay zero

    On a heap below 16 MiB every address and every length has three bytes,
    so that the stores of heap.cpp leave a zero byte zero unless it is one of
    the low bytes of a field of a header. *)
Definition low_offsets : list Z := [4; 5; 6; 12; 13; 14; 20; 21; 22; 28].
Definition low (l : list seg) (x : Z) : Prop := ∃ u, u ∈ l ∧ (x - s_addr u) ∈ low_offsets.

Lemma not_low l x u : ¬ low l x → u ∈ l →
  ¬ (s_addr u + 4 <= x < s_addr u + 7) ∧ ¬ (s_addr u + 12 <= x < s_addr u + 15) ∧
  ¬ (s_addr u + 20 <= x < s_addr u + 23) ∧ x ≠ s_addr u + 28.
Proof.
  intros Hx Hu. assert ((x - s_addr u) ∉ low_offsets) as Hn by (intros Hin; apply Hx; by exists u).
  unfold low_offsets in Hn. rewrite !not_elem_of_cons in Hn. lia.
Qed.

Lemma zero_wr64 m a v x :
  0 <= v < 2^24 → ¬ (a <= x < a + 3) → rd8 m x = 0 → rd8 (wr64 m a v) x = 0.
Proof.
  intros Hv Ha Hx. destruct (decide (a + 3 <= x < a + 8)) as [Hd|Hd]; [|by rewrite rd8_wrN_ne by lia].
  rewrite rd8_wrN, Z.div_small; [done| |lia]. pose proof (Z.pow_le_mono_r 2 24 (8 * (x - a))). lia.
Qed.

Lemma low_incl l1 l2 x : (∀ u, u ∈ l1 → ∃ v, v ∈ l2 ∧ s_addr v = s_addr u) → low l1 x → low l2 x.
Proof. intros Hl (u & Hu & Hx). destruct (Hl u Hu) as (v & Hv & E). exists v. by rewrite E. Qed.

(** [zeros_kept l h h']: what is zero stays zero, the low header bytes apart. *)
Definition zeros_kept (l : list seg) h h' : Prop :=
  ∀ x, heapStart h <= x → ¬ low l x → rd8 (h_mem h) x = 0 → rd8 (h_mem h') x = 0.

Lemma combineForward_zeros h pre s post :
  heap_rep h (pre ++ s :: post) → heapEnd h <= 2^24 →
  zeros_kept (pre ++ s :: post) h (combineForward h (s_addr s)).
Proof.
  intros Hr Hsm x H0 Hx Hz. destruct post as [|n post].
  { destruct (heap_rep_at _ _ _ _ Hr) as (_ & _ & _ & _ & _ & _ & [_ S2 _ _] & _).
    cbn in S2. unfold combineForward. by rewrite S2. }
  destruct (heap_rep_at _ _ _ _ Hr) as (_ & L1 & A1 & T2 & E1 & _ & [S1 S2 S3 S4] & C2).
  cbn [head_addr chain] in S2, C2. destruct C2 as [[N1 N2 N3 N4] C3].
  cbn [tiled] in T2. destruct T2 as (An & Ln & T3). pose proof (tiled_le _ _ _ T3). unfold seg_end in *.
  destruct (not_low _ _ s Hx (elem_of_middle _ _ _)) as (X1 & X2 & X3 & X4).
  unfold combineForward. rewrite S2, N4. destruct (_ =? 0); [done|]. destruct (s_free n); [|done]. cbn [negb h_mem].
  rewrite N2. destruct post as [|q post]; cbn [head_addr].
  - cbn [negb Z.eqb]. unfold set_next, set_length. rewrite S1, N1. unfold SIZEOF_HDR.
    apply zero_wr64; [hdr; lia|lia|]. apply zero_wr64; [u64_small; lia|lia|done].
  - destruct (not_low _ _ q Hx ltac:(apply elem_of_app_mid, elem_of_app_mid, elem_of_middle)) as (Y1 & Y2 & Y3 & Y4).
    cbn [tiled] in T3. destruct T3 as (Aq & Lq & T4). pose proof (tiled_le _ _ _ T4). unfold seg_end in *.
    destruct (Z.eqb_spec (s_addr q) 0); [lia|]. cbn [negb].
    assert (hdr_length (set_last (h_mem h) (s_addr q) (s_addr s)) (s_addr s) = s_len s ∧
      hdr_length (set_last (h_mem h) (s_addr q) (s_addr s)) (s_addr n) = s_len n) as [-> ->] by (split; by hdr).
    set (m1 := set_length _ _ _). assert (hdr_next m1 (s_addr n) = s_addr q) as -> by (unfold m1; by hdr).
    unfold set_next. apply zero_wr64; [lia|lia|]. unfold m1, set_length, SIZEOF_HDR.
    apply zero_wr64; [u64_small; lia|lia|]. unfold set_last. apply zero_wr64; [lia|lia|done].
Qed.

Lemma combineBackward_zeros h pre s post :
  heap_rep h (pre ++ s :: post) → heapEnd h <= 2^24 →
  zeros_kept (pre ++ s :: post) h (combineBackward h (s_addr s)).
Proof.
  intros Hr Hsm. destruct (list_snoc_inv pre) as [->|(pre' & p & ->)].
  - destruct Hr as [_ _ _ _ R5 _]. cbn in R5. unfold combineBackward.
    rewrite (sa_last _ _ _ _ (proj1 R5)). by intros x.
  - rewrite <- app_assoc in *. cbn [app] in *.
    destruct (heap_rep_at _ _ _ _ Hr) as (_ & _ & Ap & _ & _ & _ & _ & [[_ _ S3 _] _]).
    unfold combineBackward. rewrite S3. destruct (_ && _); [|by intros x]. by apply combineForward_zeros.
Qed.

Lemma set_free_zeros h l s b :
  s ∈ l → zeros_kept l h (with_mem h (set_free (h_mem h) (s_addr s) b)).
Proof.
  intros Hs x _ Hx Hz. destruct (not_low _ _ s Hx Hs) as (_ & _ & _ & X4).
  cbn. unfold set_free. by rewrite rd8_wr8_ne.
Qed.

Lemma push_addr s l u : u ∈ push s l → ∃ v, v ∈ s :: l ∧ s_addr v = s_addr u.
Proof.
  unfold push. destruct l as [|n l]; [by exists u|]. destruct (_ && _); [|by exists u].
  intros [->|Hu]%elem_of_cons; [exists s|exists u]; (split; [|done]); [by apply elem_of_cons; left|].
  by apply elem_of_cons; right; apply elem_of_cons; right.
Qed.

Lemma free_zeros h pre s post :
  heap_rep h (pre ++ s :: post) → heapEnd h <= 2^24 → zeros_kept (pre ++ s :: post) h (free h (block s)).
Proof.
  intros Hr Hsm x H0 Hx Hz. unfold free, block, SIZEOF_HDR. replace (s_addr s + 29 - 29) with (s_addr s) by lia.
  set (s' := mkSeg (s_addr s) (s_len s) true).
  pose proof (set_free_rep h pre s post true Hr) as Hr1. fold s' in Hr1.
  pose proof (set_free_zeros h _ s true (elem_of_middle _ _ _) x H0 Hx Hz) as Z1.
  set (h1 := with_mem h _) in *.
  assert (¬ low (pre ++ s' :: post) x) as Hx1.
  { intros Hl. apply Hx. eapply low_incl; [|exact Hl]. intros u [Hu|[->|Hu]%elem_of_cons]%elem_of_app.
    - exists u. split; [apply elem_of_app; by left|done].
    - exists s. split; [apply elem_of_middle|done].
    - exists u. split; [apply elem_of_app_mid, elem_of_app; by right|done]. }
  pose proof (combineForward_zeros h1 pre s' post Hr1 Hsm x H0 Hx1 Z1) as Z2.
  pose proof (combineForward_push h1 pre s' post Hr1 eq_refl) as St1.
  destruct (combineForward_world h1 (s_addr s')) as (W1 & W2 & _).
  change (s_addr s') with (s_addr s) in *.
  destruct (push_head s' post) as (y & l & E & _ & Ey). cbn in Ey. rewrite E in St1.
  pose proof (combineBackward_zeros (combineForward h1 (s_addr s)) pre y l (hs_rep _ _ _ _ St1)) as Hb.
  rewrite Ey in Hb. cbn in W1, W2. apply Hb; [lia|lia| |exact Z2].
  rewrite <- E. intros Hl. apply Hx1. eapply low_incl; [|exact Hl]. intros u [Hu|Hu]%elem_of_app.
  - exists u. split; [apply elem_of_app; by left|done].
  - destruct (push_addr _ _ _ Hu) as (v & Hv & Ev). exists v. split; [apply elem_of_app; by right|done].
Qed.
End Refine.
