(* ===== verification/HeapMalloc.v ===== *)
(** * heap.cpp: allocation refines first fit

    [split], the search of [malloc], [expandHeap] and [initHeap] against the
    specification of HeapSpec, on top of the representation of HeapRefine. *)

From S2P Require Import Prelude Memory PageMapper Heap HeapSpec HeapRefine.

Section Malloc.
Context {W : Type} `{PageMapper W}.
Implicit Types h : Heap W.

(** ** split *)

(** A rest too small for a header and 16 bytes, or negative, is not split off. *)
Lemma split_refused h A size :
  let rest := hdr_length (h_mem h) A - size - 29 in
  is_i64 rest → rest < 16 → split h A size = (0, h).
Proof.
  cbn zeta. intros Hi Hor. unfold split, SIZEOF_HDR.
  destruct (Z.ltb_spec size 16); [done|]. rewrite to_i64_to_u64 by done.
  destruct (Z.ltb_spec (hdr_length (h_mem h) A - size - 29) 16); [done|lia].
Qed.

(** The two segments a split makes of one. *)
Definition split_fst (size : Z) (s : seg) : seg := mkSeg (s_addr s) size (s_free s).
Definition split_snd (size : Z) (s : seg) : seg :=
  mkSeg (s_addr s + size + 29) (s_len s - size - 29) (s_free s).

(** The stores of a split, with what they read resolved. *)
Definition split_mem (m : mem) (s : seg) (N nx size : Z) : mem :=
  let A := s_addr s in
  let m := set_next (set_last m nx N) N nx in
  let m := set_length (set_last (set_next m A N) N A) N (s_len s - size - 29) in
  set_length (set_free m N (s_free s)) A size.

Section Split.
Context (h : Heap W) (pre : list seg) (s : seg) (post : list seg) (size : Z).
Hypothesis Hr : heap_rep h (pre ++ s :: post).
Hypothesis Hsize : 16 <= size.
Hypothesis Hrest : 16 <= s_len s - size - 29.
Let N := s_addr s + size + 29.
Let l' := pre ++ split_fst size s :: split_snd size s :: post.

(** The null pointer or the header behind: never inside this segment. *)
Lemma split_next_cases :
  hdr_next (h_mem h) (s_addr s) = head_addr post 0 ∧
  (head_addr post 0 = 0 ∨ seg_end s <= head_addr post 0 <= heapEnd h).
Proof.
  destruct (heap_rep_at _ _ _ _ Hr) as (_ & _ & _ & T2 & _ & _ & [_ S2 _ _] & _).
  split; [done|]. destruct post as [|q post']; [by left|right].
  cbn in T2 |- *. destruct T2 as (Eq & H16 & T3%tiled_le). unfold seg_end in *. lia.
Qed.

Lemma split_eq :
  split h (s_addr s) size =
  (N, mkHeap (split_mem (h_mem h) s N (head_addr post 0) size) (heapStart h) (heapEnd h)
        (if LastHdr h =? s_addr s then N else LastHdr h) (h_world h)).
Proof.
  pose proof Hr as [R1 [R2 R2'] R3 _ _ _]. destruct split_next_cases as [Hn Hc].
  destruct (heap_rep_at _ _ _ _ Hr) as (T1 & L1 & A1 & _ & E1 & _ & [S1 _ _ S4] & _).
  unfold split, seg_end in *. destruct (Z.ltb_spec size 16); [lia|]. unfold SIZEOF_HDR.
  rewrite S1, to_i64_to_u64 by (znorm; lia).
  destruct (Z.ltb_spec (s_len s - size - 29) 16); [lia|].
  rewrite to_u64_id by (znorm; lia). fold N. rewrite Hn.
  do 2 f_equal. unfold split_mem. cbn zeta.
  assert (hdr_next (set_last (h_mem h) (head_addr post 0) N) (s_addr s) = head_addr post 0)
    as -> by by hdr.
  do 2 f_equal. rewrite <- S4. subst N. by hdr.
Qed.

Lemma split_tiled : tiled (heapStart h) l' (heapEnd h).
Proof.
  destruct (heap_rep_at _ _ _ _ Hr) as (T1 & _ & _ & T2 & _).
  apply tiled_app. exists (s_addr s). split; [done|]. cbn. unfold seg_end in *. cbn.
  split_and!; try done; try lia.
  by replace (s_addr s + size + 29 + 29 + (s_len s - size - 29))
    with (s_addr s + 29 + s_len s) by lia.
Qed.

Lemma split_bytes u a :
  u ∈ l' → block u <= a < seg_end u →
  rd8 (h_mem (split h (s_addr s) size).2) a = rd8 (h_mem h) a.
Proof.
  intros Hu Ha. rewrite split_eq. cbn [h_mem snd]. unfold split_mem. cbn zeta.
  pose proof split_tiled as Ht. destruct (tiled_in _ _ _ _ Ht Hu) as (? & _).
  pose proof (block_vs_header _ _ _ u _ a Ht Hu (elem_of_middle _ _ _) Ha) as B1.
  pose proof (block_vs_header _ _ _ u (split_snd size s) a Ht Hu
    ltac:(apply elem_of_app_mid, elem_of_middle) Ha) as B2.
  assert (a < head_addr post 0 ∨ head_addr post 0 + 28 <= a) as B3.
  { destruct post as [|q post']; cbn [head_addr].
    - pose proof (hr_start _ _ Hr). unfold block in Ha. lia.
    - pose proof (block_vs_header _ _ _ u q a Ht Hu
        ltac:(apply elem_of_app_mid, elem_of_app_mid, elem_of_middle) Ha). lia. }
  cbn in B1, B2. subst N. by hdr.
Qed.

Lemma split_frame a :
  off_heap (heapStart h) (heapEnd h) a →
  rd8 (h_mem (split h (s_addr s) size).2) a = rd8 (h_mem h) a.
Proof.
  intros Ha. rewrite split_eq. cbn [h_mem snd]. unfold split_mem. cbn zeta.
  pose proof (tiled_in _ _ _ _ split_tiled (elem_of_middle _ _ _)) as (B1 & _ & B1').
  destruct (tiled_in _ _ _ (split_snd size s) split_tiled) as (B2 & _ & B2');
    [apply elem_of_app_mid, elem_of_middle|].
  assert (a < head_addr post 0 + 20 ∨ head_addr post 0 + 28 <= a) as B3.
  { destruct post as [|q post'] eqn:Ep; cbn [head_addr]; [destruct Ha; lia|].
    pose proof (off_heap_header _ _ q a Hr ltac:(apply elem_of_app_mid, elem_of_middle) Ha). lia. }
  destruct Ha as [Ha _]. unfold seg_end in *. cbn in B1, B1', B2, B2'. subst N. by hdr.
Qed.

Lemma split_zeros : heapEnd h <= 2^24 → zeros_kept l' h (split h (s_addr s) size).2.
Proof.
  intros Hsm x H0 Hx Hz. rewrite split_eq. cbn [h_mem snd]. unfold split_mem. cbn zeta.
  destruct (heap_rep_at _ _ _ _ Hr) as (_ & _ & A1 & _ & E1 & _). unfold seg_end in *.
  pose proof (hr_start _ _ Hr) as Hst.
  destruct (not_low _ _ (split_fst size s) Hx (elem_of_middle _ _ _)) as (X1 & X2 & X3 & X4).
  destruct (not_low _ _ (split_snd size s) Hx ltac:(apply elem_of_app_mid, elem_of_middle)) as (Y1 & Y2 & Y3 & Y4).
  cbn [split_fst split_snd s_addr] in X1, X2, X3, X4, Y1, Y2, Y3, Y4.
  assert (0 <= head_addr post 0 < 2^24 ∧ ¬ (head_addr post 0 + 20 <= x < head_addr post 0 + 23)) as [B1 B2].
  { destruct (heap_rep_at _ _ _ _ Hr) as (_ & _ & _ & T2 & _).
    destruct post as [|q post']; cbn [head_addr] in *; [lia|].
    destruct (not_low _ _ q Hx ltac:(apply elem_of_app_mid, elem_of_app_mid, elem_of_middle)) as (_ & _ & ? & _).
    cbn in T2. destruct T2 as (Eq & H16 & T3%tiled_le). unfold seg_end in *. lia. }
  unfold set_length, set_next, set_last, set_free. subst N.
  apply zero_wr64; [lia|lia|]. rewrite rd8_wr8_ne by lia.
  repeat (apply zero_wr64; [lia|lia|]). done.
Qed.

(** The headers behind the segment, re-linked to the new one. *)
Lemma split_chain_post :
  chain (split_mem (h_mem h) s N (head_addr post 0) size) N post 0.
Proof.
  pose proof (hr_end _ _ Hr) as [R2 _].
  destruct (heap_rep_at _ _ _ _ Hr) as (_ & _ & A1 & T2 & _ & _ & _ & C2).
  unfold split_mem, seg_end in *. cbn zeta. destruct post as [|q post']; [done|].
  cbn [head_addr chain tiled] in *. destruct T2 as (Aq & Lq & T3). destruct C2 as [[Q1 Q2 Q3 Q4] C3].
  pose proof (tiled_le _ _ _ T3). unfold seg_end in *. subst N.
  split; [split; by hdr|]. eapply chain_kept; [|exact C3].
  eapply kept_below; [exact T3|]. intros x Hx. by hdr.
Qed.

Lemma split_rep : heap_rep (split h (s_addr s) size).2 l'.
Proof.
  rewrite split_eq. cbn [snd]. pose proof Hr as [R1 [R2 R2'] R3 _ _ R6].
  pose proof split_chain_post as Cp. pose proof split_next_cases as [_ Hc].
  destruct (heap_rep_at _ _ _ _ Hr) as (T1 & L1 & A1 & T2 & E1 & C1 & [S1 S2 S3 S4] & _).
  pose proof (tiled_le _ _ _ T1). unfold seg_end in *.
  split; cbn [h_mem heapStart heapEnd LastHdr]; try done; [apply split_tiled|by destruct pre| |].
  - unfold l'. apply chain_app. cbn [head_addr chain split_fst split_snd s_addr].
    split; [|split; [|split; [|exact Cp]]]; unfold split_mem; cbn zeta.
    + eapply chain_kept; [|exact C1]. eapply kept_below; [exact T1|]. intros x Hx.
      subst N. by hdr.
    + split; cbn [split_fst s_addr s_len s_free]; fold N; subst N; by hdr.
    + split; cbn [split_snd s_addr s_len s_free]; fold N; subst N; try by hdr.
      hdr. by destruct (s_free s).
  - unfold l'. rewrite R6, !last_addr_app. cbn [last_addr split_fst split_snd s_addr].
    destruct post as [|q post']; cbn [last_addr]; [by rewrite Z.eqb_refl|].
    cbn [tiled] in T2. destruct T2 as (Aq & Lq & T3). unfold seg_end in *.
    pose proof (last_addr_ge _ (s_addr q) _ _ T3).
    destruct (Z.eqb_spec (last_addr (s_addr q) post') (s_addr s)); [lia|done].
Qed.
End Split.

(** ** Handing a block out *)

Lemma memset_nothing m a c : (memset m a c 0).2 = m.
Proof. done. Qed.

(** What an allocation does to the heap; [ap_bytes] covers the block that is
    handed out, whose bytes are left as they were. *)
Record alloc_post (h : Heap W) (l : list seg) (h' : Heap W) (l' : list seg) : Prop := {
  ap_rep : heap_rep h' l';
  ap_bytes u a : u ∈ l' → block u <= a < seg_end u → rd8 (h_mem h') a = rd8 (h_mem h) a;
  ap_used u : u ∈ l → s_free u = false → u ∈ l';
  ap_start : heapStart h' = heapStart h;
  ap_end : heapEnd h' = heapEnd h;
  ap_world : h_world h' = h_world h;
  ap_frame a : off_heap (heapStart h) (heapEnd h) a → rd8 (h_mem h') a = rd8 (h_mem h) a;
  ap_zeros : heapEnd h <= 2^24 → zeros_kept l' h h'
}.

Lemma alloc_step h l h' l' : alloc_post h l h' l' → heap_step h l h' l'.
Proof. intros [A1 A2 A3 A4 A5 A6 A7 _]. split; eauto; [lia|by rewrite A5]. Qed.

Lemma take_block_rep h pre s post size :
  heap_rep h (pre ++ s :: post) → s_free s = true →
  let r := take_block h (s_addr s) size in
  r.1 = block s ∧
  alloc_post h (pre ++ s :: post) r.2 (pre ++ mkSeg (s_addr s) (s_len s) false :: post).
Proof.
  intros Hr Hf. cbn zeta. unfold take_block, block, SIZEOF_HDR. cbn [fst snd].
  destruct (heap_rep_at _ _ _ _ Hr) as (_ & L1 & A1 & _ & E1 & _).
  pose proof (hr_end _ _ Hr) as [R2 _]. unfold seg_end in E1.
  rewrite memset_nothing. split; [by u64_small|].
  pose proof (set_free_rep h pre s post false Hr) as Hr'. split; try done.
  - intros u a Hu Ha. cbn.
    pose proof (block_vs_header _ _ _ u _ a (hr_tiled _ _ Hr') Hu (elem_of_middle _ _ _) Ha) as B.
    cbn in B. by hdr.
  - intros u Hu Hu'. apply elem_of_app in Hu as [Hu|[->|Hu]%elem_of_cons];
      [|congruence|]; apply elem_of_app_mid, elem_of_app; auto.
  - intros a Ha. pose proof (off_heap_header _ _ s a Hr (elem_of_middle _ _ _) Ha). cbn. by hdr.
  - intros _. apply (set_free_zeros h _ (mkSeg (s_addr s) (s_len s) false) false), elem_of_middle.
Qed.

(** The branch of the search that takes a segment. *)
Lemma take_refines h pre s post size :
  heap_rep h (pre ++ s :: post) → 16 <= size → fits size s = true →
  let h1 := if size <? s_len s then (split h (s_addr s) size).2 else h in
  let r := take_block h1 (s_addr s) size in
  r.1 = block s ∧ alloc_post h (pre ++ s :: post) r.2 (pre ++ carve size s ++ post).
Proof.
  intros Hr H16 [Hf Hle%Z.leb_le]%andb_true_iff. cbn zeta. unfold carve.
  destruct (heap_rep_at _ _ _ _ Hr) as (_ & L1 & A1 & _ & E1 & _ & [S1 _ _ _] & _).
  pose proof (hr_end _ _ Hr) as [R2 _]. unfold seg_end in E1.
  destruct (Z.ltb_spec size (s_len s)); cbn [andb]; [|by apply take_block_rep].
  destruct (Z.leb_spec 16 (s_len s - size - 29)) as [Hl|Hl]; cbn [app].
  - pose proof (split_rep h pre s post size Hr H16 Hl) as Hr1.
    pose proof (split_bytes h pre s post size Hr H16 Hl) as Hb.
    pose proof (split_eq h pre s post size Hr H16 Hl) as Es.
    destruct (take_block_rep _ _ _ _ size Hr1 Hf) as [Et [P1 P2 P3 P4 P5 P6 P7 P8]].
    change (s_addr (split_fst size s)) with (s_addr s) in *.
    split; [exact Et|]. unfold split_snd in P1, P2, P3, P8. rewrite Hf in P1, P2, P3, P8.
    split; try done.
    + intros u a Hu Ha. rewrite (P2 u) by done. pose proof Hu as Hu'.
      apply elem_of_app in Hu as [Hu|[->|Hu]%elem_of_cons].
      * apply (Hb u); [apply elem_of_app; by left|done].
      * apply (Hb (split_fst size s)); [apply elem_of_middle|done].
      * apply (Hb u); [apply elem_of_app_mid, elem_of_app; right|done].
        unfold split_snd. by rewrite Hf.
    + intros u Hu Hu'. apply P3; [|done].
      apply elem_of_app in Hu as [Hu|[->|Hu]%elem_of_cons]; [|congruence|];
        apply elem_of_app_mid, elem_of_app_mid, elem_of_app; auto.
    + rewrite P4, Es. done.
    + rewrite P5, Es. done.
    + rewrite P6, Es. done.
    + intros a Ha. rewrite P7 by (rewrite Es; done). by apply (split_frame h pre s post).
    + intros Hsm x Hge Hx Hz. apply P8; [by rewrite Es|by rewrite Es|done|].
      apply (split_zeros h pre s post size Hr H16 Hl Hsm x Hge); [|done].
      intros Hlow. apply Hx. eapply low_incl; [|exact Hlow]. intros u [Hu|[->|[->|Hu]%elem_of_cons]%elem_of_cons]%elem_of_app.
      * exists u. split; [apply elem_of_app; by left|done].
      * eexists. split; [apply elem_of_middle|done].
      * eexists. split; [apply elem_of_app_mid, elem_of_middle|done].
      * exists u. split; [|done]. apply elem_of_app. right. by apply elem_of_cons; right; apply elem_of_cons; right.
  - rewrite split_refused by (rewrite S1; znorm; lia). by apply take_block_rep.
Qed.

(** ** The search *)

Lemma malloc_search_refines fuel h pre l size :
  heap_rep h (pre ++ l) → l ≠ [] → (length l <= fuel)%nat → 16 <= size →
  match spec_alloc size l with
  | None => malloc_search fuel h (head_addr l 0) size = Done None
  | Some (a, l') => ∃ h',
      malloc_search fuel h (head_addr l 0) size = Done (Some (a, h')) ∧
      alloc_post h (pre ++ l) h' (pre ++ l')
  end.
Proof.
  revert fuel pre. induction l as [|s l IH]; intros fuel pre Hr Hne Hfuel H16; [done|].
  destruct fuel as [|fuel]; [cbn in Hfuel; lia|]. clear Hne.
  cbn [spec_alloc head_addr malloc_search]. cbn [length] in Hfuel.
  destruct (heap_rep_at _ _ _ _ Hr) as (_ & L1 & A1 & T2 & _ & _ & [S1 S2 S3 S4] & _).
  rewrite S1, S2, S4. destruct (fits size s) eqn:Efit.
  - destruct (take_refines h pre s l size Hr H16 Efit) as [Ea Hp].
    pose proof Efit as [Hf Hle%Z.leb_le]%andb_true_iff. rewrite Hf. cbn [andb].
    destruct (Z.ltb_spec size (s_len s)).
    + eexists. split; [|exact Hp]. rewrite <- Ea. by rewrite <- surjective_pairing.
    + destruct (Z.eqb_spec (s_len s) size); [|lia].
      eexists. split; [|exact Hp]. rewrite <- Ea. by rewrite <- surjective_pairing.
  - assert ((s_free s && (size <? s_len s)) = false ∧ (s_free s && (s_len s =? size)) = false)
      as [-> ->].
    { unfold fits in Efit. destruct (s_free s); [|done]. cbn in *.
      apply Z.leb_gt in Efit. split; [apply Z.ltb_ge|apply Z.eqb_neq]; lia. }
    destruct l as [|n l]; [done|]. cbn [head_addr].
    cbn [tiled] in T2. destruct T2 as (An & _). unfold seg_end in An.
    destruct (Z.eqb_spec (s_addr n) 0); [lia|].
    specialize (IH fuel (pre ++ [s])). rewrite <- !app_assoc in IH. cbn [app head_addr] in IH.
    specialize (IH Hr ltac:(done) ltac:(lia) H16).
    destruct (spec_alloc size (n :: l)) as [[a l1]|]; [|exact IH].
    cbn [mbind option_bind]. destruct IH as (h' & E & Hp). exists h'. split; [exact E|].
    by rewrite <- app_assoc in Hp.
Qed.
End Malloc.
