(* ===== verification/HeapGrow.v ===== *)
(** * heap.cpp: growth, and allocation as a whole

    [initHeap] and [expandHeap] on top of the page mapper, [malloc] with its
    calls of itself, and the invariant that ties the heap to the frames
    behind it. *)

From S2P Require Import Prelude Memory PageMapper Heap HeapSpec HeapRefine HeapMalloc.

Section Grow.
Context {W : Type} `{PageMapperLaws W}.
Implicit Types h : Heap W.

(** ** Mapping pages *)

(** The pages of a range have frames, in use and pairwise different. *)
Record backed (w : W) (a b : Z) : Prop := {
  bk_frame v : vpage v → a <= v < b → ∃ f, page_frame w v = Some f ∧ frame_used w f;
  bk_apart v v' f : vpage v → vpage v' → a <= v < b → a <= v' < b →
    page_frame w v = Some f → page_frame w v' = Some f → v = v'
}.

Lemma backed_empty w a : backed w a a.
Proof. split; intros; lia. Qed.

Lemma backed_grow w a b w' :
  mapper_ok w → heap_page W b → a mod 4096 = 0 → backed w a b → map_new_page w b = Done w' →
  backed w' a (b + 4096).
Proof.
  intros Hok Hb Ha [B1 B2] Hm.
  destruct (map_frame w b w' Hok Hb Hm) as (f & Hf & Hnew & Hused).
  pose proof Hb as [[Hb1 Hb2] _].
  assert (∀ v, vpage v → a <= v < b + 4096 → v = b ∨ a <= v < b ∧ page_frame w' v = page_frame w v) as Hv.
  { intros v Hv Hav. destruct (decide (v = b)) as [|Hne]; [by left|right]. split.
    - destruct Hv. zlia.
    - by apply (map_others w b w' v). }
  assert (∀ v, vpage v → a <= v < b → page_frame w v ≠ Some f) as Hfresh.
  { intros v Hv1 Hav Ef. destruct (B1 v Hv1 Hav) as (g & Eg & Hg).
    apply Hnew. congruence. }
  split.
  - intros v Hv1 Hav. destruct (Hv v Hv1 Hav) as [->|[Hav' ->]]; [by exists f|].
    destruct (B1 v Hv1 Hav') as (g & ? & ?). exists g. split; [done|].
    by apply (map_used w b).
  - intros v v' g Hv1 Hv1' Hav Hav' E E'.
    destruct (Hv v Hv1 Hav) as [->|[Hav1 E1]], (Hv v' Hv1' Hav') as [->|[Hav2 E2]]; try done.
    + destruct (Hfresh v' Hv1' Hav2). congruence.
    + destruct (Hfresh v Hv1 Hav1). congruence.
    + apply (B2 v v' g); congruence.
Qed.

(** [n] pages from [pos] on: all are mapped, behind a backed range, or memory
    is exhausted. *)
Lemma map_pages_spec (w : W) (start pos n : Z) :
  mapper_ok w → backed w start pos → start mod 4096 = 0 → pos mod 4096 = 0 →
  heap_floor W <= pos → 0 <= n → pos + 4096 * n <= heap_ceiling W →
  map_pages w pos n = Panicked "Out of memory" ∨
  ∃ w', map_pages w pos n = Done (pos + 4096 * n, w') ∧ mapper_ok w' ∧
    backed w' start (pos + 4096 * n).
Proof.
  intros Hok Hbk Hs Hp Hpos Hn. unfold map_pages. rewrite <- (Z2Nat.id n) by done.
  rewrite Nat2Z.id. generalize 0 as i. generalize (Z.to_nat n) as k. clear n Hn.
  pose proof (heap_bounds (W := W)) as [B0 B1].
  intros k. revert w pos Hok Hbk Hp Hpos.
  induction k as [|k IH]; intros w pos Hok Hbk Hp Hpos i Hmax.
  { right. exists w. cbn [for_loop]. replace (pos + 4096 * Z.of_nat 0) with pos by lia. done. }
  assert (heap_page W pos) as Hvp by (split; [split; [done|]|]; lia).
  cbn [for_loop]. destruct (map_fails w pos Hok Hvp) as [[w' E]|E]; rewrite E; [|by left].
  cbn [mbind outcome_bind]. rewrite to_u64_id by (znorm; lia).
  specialize (IH w' (pos + 4096) ltac:(by eapply map_ok)).
  replace (pos + 4096 * Z.of_nat (S k)) with (pos + 4096 + 4096 * Z.of_nat k) in * by lia.
  apply IH; [by eapply backed_grow|zlia|lia|lia].
Qed.

(** Pages outside the range keep their frames. *)
Lemma map_pages_others (w : W) (pos n : Z) r v :
  mapper_ok w → pos mod 4096 = 0 → heap_floor W <= pos → pos + 4096 * n <= heap_ceiling W →
  vpage v → v < pos ∨ pos + 4096 * n <= v →
  map_pages w pos n = Done r → page_frame r.2 v = page_frame w v.
Proof.
  intros Hok Hp Hpos Hmax Hv Hout Hd. unfold map_pages in Hd. pose proof (heap_bounds (W := W)) as [B0 B1].
  destruct (decide (n <= 0)) as [Hn|Hn].
  { replace (Z.to_nat n) with 0%nat in Hd by lia. cbn in Hd. by injection Hd as <-. }
  eapply (for_loop_inv_partial
    (λ i pw, pw.1 = pos + 4096 * i ∧ mapper_ok pw.2 ∧ page_frame pw.2 v = page_frame w v))
    in Hd as (_ & _ & ?); [done|cbn [fst snd]; split; [lia|done]|].
  intros i [q w1] s Hi (E & O & F) Hs. cbn [fst snd] in *. subst q.
  apply bind_Done_inv in Hs as (w2 & Hm & Hs). apply Done_inj in Hs as <-. cbn [fst snd].
  assert (heap_page W (pos + 4096 * i)) by (split; [split; [zlia|lia]|lia]).
  rewrite to_u64_id by (znorm; lia). split; [lia|]. split; [by eapply map_ok|].
  rewrite (map_others w1 (pos + 4096 * i) w2 v) by (done || lia). done.
Qed.

(** ** The invariant of a running heap *)

Record heap_inv (h : Heap W) (l : list seg) : Prop := {
  hi_rep : heap_rep h l;
  hi_coalesced : coalesced l;
  hi_start : heapStart h mod 4096 = 0 ∧ heap_floor W <= heapStart h;
  hi_mapper : mapper_ok (h_world h);
  hi_backed : backed (h_world h) (heapStart h) (heapEnd h)
}.

(** ** initHeap *)

Lemma initHeap_inv h heapAddress pageCount :
  mapper_ok (h_world h) → vpage heapAddress → 28 <= heapAddress → heap_floor W <= heapAddress → 0 < pageCount →
  heapAddress + 4096 * pageCount <= heap_ceiling W →
  initHeap h heapAddress pageCount = Panicked "Out of memory" ∨
  ∃ h', initHeap h heapAddress pageCount = Done h' ∧ heapStart h' = heapAddress ∧
    heapEnd h' = heapAddress + 4096 * pageCount ∧
    heap_inv h' [mkSeg heapAddress (4096 * pageCount - 29) true].
Proof.
  intros Hok [Hv Hv'] H28 Hfl Hn Hmax. pose proof (heap_bounds (W := W)) as [B0 B1]. unfold initHeap.
  destruct (map_pages_spec (h_world h) heapAddress heapAddress pageCount)
    as [->|(w & -> & Hw & Hb)]; try done; try lia; [apply backed_empty|by left|].
  right. cbn [mbind outcome_bind]. eexists. split; [done|]. unfold init_segment. cbn [heapStart heapEnd h_mem h_world].
  rewrite (to_u64_id (pageCount * 4096)) by (znorm; lia).
  rewrite (to_u64_id (heapAddress + _)) by (znorm; lia).
  replace (pageCount * 4096) with (4096 * pageCount) by lia. unfold SIZEOF_HDR.
  rewrite (to_u64_id (4096 * pageCount - 29)) by (znorm; lia).
  split; [done|]. split; [done|]. split; try done. split; cbn [h_mem heapStart heapEnd LastHdr]; try done.
  - split; [lia|zlia].
  - cbn. unfold seg_end. cbn. lia.
  - cbn [chain head_addr]. split; [|done]. split; cbn [s_addr s_len s_free]; by hdr.
Qed.

(** ** expandHeap *)

(** Linking a new segment behind the last one. *)
Lemma append_rep h l size w :
  heap_rep h l → 16 <= size → heapEnd h + page_up size <= 2^47 →
  let new := heapEnd h in
  let m := set_free (h_mem h) new true in
  let m := set_last m new (LastHdr h) in
  let m := set_next m (LastHdr h) new in
  let m := set_next m new 0 in
  let m := set_length m new (page_up size - 29) in
  heap_step h l (mkHeap m (heapStart h) (new + page_up size) new w)
    (l ++ [mkSeg new (page_up size - 29) true]).
Proof.
  intros Hr H16 Hmax. cbn zeta. pose proof Hr as [R1 [R2 R2'] R3 R4 R5 R6].
  destruct (list_snoc_inv l) as [->|(pre & p & ->)]; [done|].
  destruct (heap_rep_at _ _ _ _ Hr) as (T1 & L1 & A1 & T2 & E1 & C1 & [S1 S2 S3 S4] & _).
  pose proof (tiled_le _ _ _ T1). cbn in T2. unfold seg_end in *.
  rewrite last_addr_app in R6. cbn in R6. rewrite R6.
  assert (4096 <= page_up size) as Hpu by (unfold page_up; zlia).
  assert (page_up size mod 4096 = 0) as Hpm by (apply page_up_bounds; lia).
  split; [|intros u a Hu _ Ha|intros u Hu _; apply elem_of_app; by left|done|cbn; lia|].
  - split; cbn [h_mem heapStart heapEnd LastHdr]; try done.
    + split; [lia|]. zlia.
    + apply tiled_app. exists (heapEnd h). split; [done|]. cbn. unfold seg_end. cbn. lia.
    + by destruct pre.
    + rewrite <- app_assoc. apply chain_app. cbn [app chain head_addr s_addr].
      split; [|split; [split|split; [split|done]]]; cbn [s_addr s_len s_free]; try by hdr.
      eapply chain_kept; [|exact C1]. eapply kept_below; [exact T1|]. intros x Hx. by hdr.
    + by rewrite last_addr_app.
  - pose proof (block_vs_header _ _ _ u p a R3 Hu (elem_of_middle _ _ _) Ha).
    destruct (tiled_in _ _ _ _ R3 Hu). unfold seg_end, block in *. cbn [h_mem]. by hdr.
  - intros a [Ha _]. cbn [h_mem heapEnd] in *. by hdr.
Qed.

(** The rounding of [expandHeap]. *)
Lemma expand_length size :
  0 <= size <= 2^47 →
  (if size mod 0x1000 =? 0 then size
   else to_u64 (to_u64 (size - size mod 0x1000) + 0x1000)) = page_up size.
Proof.
  intros Hs. unfold page_up.
  assert (0 <= size mod 4096 < 4096) by (apply Z.mod_pos_bound; lia).
  pose proof (Z.div_mod size 4096 ltac:(lia)).
  case_cmp; [zlia|]. rewrite (to_u64_id (size - _)) by (znorm; lia). u64_small. zlia.
Qed.

Lemma combineBackward_world h s :
  heapStart (combineBackward h s) = heapStart h ∧ heapEnd (combineBackward h s) = heapEnd h ∧
  h_world (combineBackward h s) = h_world h.
Proof. unfold combineBackward. destruct (_ && _); [apply combineForward_world|done]. Qed.

Lemma expandHeap_refines h l size :
  heap_inv h l → 16 <= size → heapEnd h + page_up size <= heap_ceiling W →
  expandHeap h size = Panicked "Out of memory" ∨
  ∃ h', expandHeap h size = Done h' ∧ heap_inv h' (spec_expand size (heapEnd h) l) ∧
    heap_step h l h' (spec_expand size (heapEnd h) l) ∧
    heapEnd h' = heapEnd h + page_up size.
Proof.
  intros [Hr Hc [Hs Hfl] Hok Hb] H16 Hmax. unfold expandHeap, SIZEOF_HDR. pose proof (heap_bounds (W := W)) as [B0 B1].
  pose proof (hr_start _ _ Hr). pose proof (hr_end _ _ Hr) as [R2 R2'].
  pose proof (tiled_le _ _ _ (hr_tiled _ _ Hr)).
  pose proof (page_up_bounds size ltac:(lia)) as [[Hp1 Hp2] Hp3].
  rewrite expand_length by lia. rewrite R2'. cbn [Z.ltb Z.compare].
  pose proof (Z.div_mod (page_up size) 4096 ltac:(lia)) as Hdm. rewrite Hp3, Z.add_0_r in Hdm.
  set (n := page_up size / 4096) in *.
  destruct (map_pages_spec (h_world h) (heapStart h) (heapEnd h) n)
    as [->|(w & -> & Hw & Hbk)]; try done; try lia; [by left|right].
  cbn [mbind outcome_bind]. eexists. split; [done|].
  rewrite (to_u64_id (page_up size - 29)) by (znorm; lia). rewrite <- Hdm in *.
  pose proof (append_rep h l size w Hr H16 ltac:(lia)) as St1. cbn zeta in St1.
  set (h1 := mkHeap _ _ _ _ _) in *.
  pose proof (combineBackward_push h1 l _ [] (hs_rep _ _ _ _ St1)) as St2. cbn [s_addr] in St2.
  destruct (combineBackward_world h1 (heapEnd h)) as (E1 & E2 & E3).
  destruct (list_snoc_inv l) as [->|(pre & p & ->)]; [by destruct (hr_nonempty _ _ Hr)|].
  rewrite last_snoc, removelast_last in St2. rewrite spec_expand_at by done.
  pose proof (heap_step_trans _ _ _ _ _ _ St1 St2) as St. split_and!; [|done|done].
  split; [apply St2| |by rewrite E1|by rewrite E3|by rewrite E1, E2, E3].
  rewrite <- spec_expand_at by done. apply coalesced_coalesce.
Qed.

(** ** malloc *)

Lemma align16_spec size :
  0 < size <= 2^47 →
  size <= align16 size < size + 16 ∧ 16 <= align16 size ∧ align16 size mod 16 = 0.
Proof.
  intros Hs. unfold align16.
  assert (0 <= size mod 16 < 16) by (apply Z.mod_pos_bound; lia).
  pose proof (Z.div_mod size 16 ltac:(lia)).
  case_cmp; [|zlia]. rewrite (to_u64_id (size - _)) by (znorm; lia). u64_small. zlia.
Qed.

Lemma align16_id size : 0 <= size → size mod 16 = 0 → align16 size = size.
Proof. intros Hs E. unfold align16. by rewrite E. Qed.

(** A used segment of [l] is never what the allocation takes. *)
Lemma spec_alloc_fresh size l a l' b e u :
  tiled b l e → spec_alloc size l = Some (a, l') → u ∈ l → s_free u = false → block u ≠ a.
Proof.
  intros Ht (pre & s & post & -> & _ & [Hf _]%andb_true_iff & -> & _)%spec_alloc_split Hu Hfu E.
  assert (u = s) as ->; [|congruence].
  eapply block_inj; [done|done|apply elem_of_middle|]. unfold block in E. lia.
Qed.

Lemma spec_alloc_block size l a l' :
  spec_alloc size l = Some (a, l') →
  ∃ s, s ∈ l' ∧ s_free s = false ∧ block s = a ∧ size <= s_len s.
Proof.
  intros (pre & s & post & -> & _ & [_ Hl%Z.leb_le]%andb_true_iff & -> & ->)%spec_alloc_split.
  unfold carve. destruct (_ && _); cbn [app].
  - eexists. split; [apply elem_of_middle|]. done.
  - eexists. split; [apply elem_of_middle|]. done.
Qed.

Record malloc_post (h : Heap W) (l : list seg) (size a : Z) (h' : Heap W) (l' : list seg) : Prop := {
  mp_inv : heap_inv h' l';
  mp_step : heap_step h l h' l';
  mp_block : ∃ s, s ∈ l' ∧ s_free s = false ∧ block s = a ∧ size <= s_len s;
  mp_fresh u : u ∈ l → s_free u = false → block u ≠ a
}.

Lemma alloc_inv h l h' l' size a :
  heap_inv h l → 16 <= size → spec_alloc size l = Some (a, l') → alloc_post h l h' l' →
  malloc_post h l size a h' l'.
Proof.
  intros [I1 I2 I3 I4 I5] H16 Ha Hp. pose proof (alloc_step _ _ _ _ Hp) as St.
  destruct Hp as [P1 P2 P3 P4 P5 P6 _]. split; [|done|by eapply spec_alloc_block|].
  - split; [done|by eapply coalesced_alloc|by rewrite P4|by rewrite P6|by rewrite P4, P5, P6].
  - intros u Hu Hf. by eapply spec_alloc_fresh; [apply I1| | |].
Qed.

Lemma malloc_refines n tries fuel h l size a l' e' :
  heap_inv h l → 16 <= size → size mod 16 = 0 →
  heapEnd h + Z.of_nat n * page_up size <= heap_ceiling W →
  (n < tries)%nat → (length l + n <= fuel)%nat →
  spec_malloc n size (heapEnd h) l = Some (a, l', e') →
  malloc tries fuel h size = Panicked "Out of memory" ∨
  ∃ h', malloc tries fuel h size = Done (a, h') ∧ heapEnd h' = e' ∧
    malloc_post h l size a h' l'.
Proof.
  revert tries h l. induction n as [|n IH]; intros tries h l Hi H16 Hmod Hmax Ht Hf Hsp;
    (destruct tries as [|tries]; [lia|]); cbn [malloc spec_malloc] in *;
    rewrite align16_id by (done || lia); (destruct (Z.eqb_spec size 0); [lia|]);
    pose proof (malloc_search_refines fuel h [] l size (hi_rep _ _ Hi)
      (hr_nonempty _ _ (hi_rep _ _ Hi)) ltac:(lia) H16) as Hse; cbn [app] in Hse;
    rewrite (heap_head _ _ (hi_rep _ _ Hi));
    destruct (spec_alloc size l) as [[a1 l1]|] eqn:Ea.
  - injection Hsp as -> -> <-. destruct Hse as (h' & -> & Hp). right. exists h'.
    split; [done|]. split; [apply Hp|by eapply alloc_inv].
  - done.
  - injection Hsp as -> -> <-. destruct Hse as (h' & -> & Hp). right. exists h'.
    split; [done|]. split; [apply Hp|by eapply alloc_inv].
  - rewrite Hse. cbn [mbind outcome_bind].
    assert (0 <= page_up size) by (unfold page_up; zlia).
    destruct (expandHeap_refines h l size Hi H16 ltac:(lia)) as [->|(h1 & -> & Hi1 & St1 & E1)];
      [by left|]. cbn [mbind outcome_bind].
    pose proof (length_expand size (heapEnd h) l). rewrite <- E1 in Hsp.
    destruct (IH tries h1 _ Hi1 H16 Hmod ltac:(rewrite E1; lia) ltac:(lia) ltac:(lia) Hsp)
      as [->|(h2 & -> & E2 & [M1 M2 M3 M4])]; [by left|right].
    exists h2. split; [done|]. split; [done|]. split; [done| |done|].
    + by eapply heap_step_trans.
    + intros u Hu Hfu. apply M4; [|done]. by apply St1.
Qed.
End Grow.
