(* ===== verification/HeapClient.v ===== *)
(** * heap.cpp: what its clients can rely on

    The theorems about the calls of heap.h, and the heap as a state machine:
    clients allocate, write into their blocks and free them in any order. *)

From S2P Require Import Prelude Memory PageMapper Heap HeapSpec HeapRefine.
From S2P Require Import HeapMalloc HeapGrow.

Section Client.
Context {W : Type} `{PageMapperLaws W}.
Implicit Types h : Heap W.

(** ** Helpers *)

Lemma free_world h a :
  heapStart (free h a) = heapStart h ∧ heapEnd (free h a) = heapEnd h ∧
  h_world (free h a) = h_world h.
Proof.
  unfold free.
  destruct (combineBackward_world (combineForward (with_mem h
    (set_free (h_mem h) (a - SIZEOF_HDR) true)) (a - SIZEOF_HDR)) (a - SIZEOF_HDR)) as (-> & -> & ->).
  destruct (combineForward_world (with_mem h (set_free (h_mem h) (a - SIZEOF_HDR) true))
    (a - SIZEOF_HDR)) as (-> & -> & ->). done.
Qed.

Lemma free_inv h l s :
  heap_inv h l → s ∈ l → s_free s = false →
  heap_inv (free h (block s)) (spec_free (block s) l) ∧
  ∀ u, u ∈ l → s_free u = false → u ≠ s →
    u ∈ spec_free (block s) l ∧
    ∀ a, block u <= a < seg_end u → rd8 (h_mem (free h (block s))) a = rd8 (h_mem h) a.
Proof.
  intros [Hr Hc H3 H4 H5] Hs Hf. apply list_elem_of_split in Hs as (pre & post & ->).
  rewrite (spec_free_at _ _ _ _ _ (hr_tiled _ _ Hr) Hc Hf).
  destruct (free_refines h pre s post Hr) as (Hr' & E & Hk).
  destruct (free_world h (block s)) as (E1 & E2 & E3). split.
  - split; [done| |by rewrite E1|by rewrite E3|by rewrite E1, E2, E3].
    rewrite <- (spec_free_at _ _ _ _ _ (hr_tiled _ _ Hr) Hc Hf). apply coalesced_coalesce.
  - intros u Hu Hfu Hne. apply elem_of_other in Hu; [|done]. split.
    + destruct (Hk u (block u) Hu Hfu); [|done]. unfold block, seg_end.
      destruct (tiled_in _ _ _ u (hr_tiled _ _ Hr)); [by apply elem_of_app_mid|]. lia.
    + intros a Ha. by apply (Hk u a Hu Hfu).
Qed.

(** Stores into a block leave the list alone. *)
Lemma write_inv h l m' :
  heap_inv h l →
  (∀ s a, s ∈ l → s_addr s <= a < s_addr s + 29 → rd8 m' a = rd8 (h_mem h) a) →
  heap_inv (with_mem h m') l.
Proof.
  intros [[R1 R2 R3 R4 R5 R6] H2 H3 H4 H5] Hm. split; try done. split; try done.
  cbn. eapply chain_kept; [|exact R5]. apply Forall_forall. intros s Hs x Hx.
  apply (Hm s); [done|lia].
Qed.

(** Headers after a free are headers before it. *)
Lemma spec_free_addr a l x : x ∈ spec_free a l → ∃ y, y ∈ l ∧ s_addr y = s_addr x.
Proof.
  unfold spec_free. revert x. induction l as [|s l IH]; intros x; [by intros ?%elem_of_nil|].
  rewrite fmap_cons, coalesce_cons. intros (y & [->|Hy]%elem_of_cons & <-)%push_addr.
  - exists s. split; [apply elem_of_cons; by left|]. unfold mark. by destruct (_ =? _).
  - destruct (IH _ Hy) as (z & ? & <-). exists z. split; [|done]. apply elem_of_cons. by right.
Qed.

(** ** The calls *)

Lemma malloc_spec tries fuel h l size :
  heap_inv h l → 0 < size <= 2^47 → heapEnd h + 2 * page_up (align16 size) <= heap_ceiling W →
  (3 <= tries)%nat → (length l + 2 <= fuel)%nat →
  ∃ a l' e', spec_malloc 2 (align16 size) (heapEnd h) l = Some (a, l', e') ∧
  (malloc tries fuel h size = Panicked "Out of memory" ∨
   ∃ h', malloc tries fuel h size = Done (a, h') ∧ heapEnd h' = e' ∧
     malloc_post h l (align16 size) a h' l').
Proof.
  intros Hi Hs Hmax Ht Hf. destruct (hi_rep _ _ Hi) as [R1 R2 R3 R4 _ _].
  destruct (align16_spec size ltac:(lia)) as (A1 & A2 & A3).
  destruct (spec_malloc_total (align16 size) _ _ l A2 R3 R4 (hi_coalesced _ _ Hi)) as [[[a l'] e'] E].
  exists a, l', e'. split; [done|].
  pose proof (malloc_refines 2 tries fuel h l (align16 size) a l' e' Hi A2 A3 ltac:(lia) ltac:(lia) Hf E) as M.
  destruct tries as [|tries]; [lia|]. cbn [malloc] in M |- *.
  by rewrite (align16_id (align16 size)) in M by (done || lia).
Qed.

(** Two segments of a heap that are not the same do not overlap. *)
Lemma segs_apart a l e s u :
  tiled a l e → s ∈ l → u ∈ l → s ≠ u → seg_end s <= s_addr u ∨ seg_end u <= s_addr s.
Proof.
  intros Ht [i Hi]%list_elem_of_lookup [j Hj]%list_elem_of_lookup Hne.
  destruct (Nat.lt_trichotomy i j) as [Hij|[->|Hij]]; [left| |right].
  - by eapply tiled_apart.
  - congruence.
  - by eapply tiled_apart.
Qed.

(** C7: the contract of [malloc].  On a well-formed heap it returns (at most
    two growths, three calls of itself, are ever needed) the block that first
    fit selects, or memory is exhausted.  The block has the requested size
    and lies inside the heap, it does not overlap any block in use nor its
    header, every block in use keeps its bytes, and the heap is well-formed
    again. *)
Theorem malloc_correct tries fuel h l size :
  heap_inv h l → 0 < size <= 2^47 → heapEnd h + 2 * page_up (align16 size) <= heap_ceiling W →
  (3 <= tries)%nat → (length l + 2 <= fuel)%nat →
  malloc tries fuel h size = Panicked "Out of memory" ∨
  ∃ a h' l', malloc tries fuel h size = Done (a, h') ∧
    spec_malloc 2 (align16 size) (heapEnd h) l = Some (a, l', heapEnd h') ∧
    heap_inv h' l' ∧ heapStart h' + 29 <= a ∧ a + size <= heapEnd h' ∧
    ∀ u, u ∈ l → s_free u = false →
      u ∈ l' ∧ (a + size <= s_addr u ∨ seg_end u <= a - 29) ∧
      ∀ x, block u <= x < seg_end u → rd8 (h_mem h') x = rd8 (h_mem h) x.
Proof.
  intros Hi Hs Hmax Ht Hf.
  destruct (malloc_spec tries fuel h l size Hi Hs Hmax Ht Hf)
    as (a & l' & e' & Esp & [E|(h' & E & <- & [M1 M2 (s & S1 & S2 & <- & S4) M4])]); [by left|right].
  exists (block s), h', l'. split; [done|]. split; [done|]. split; [done|].
  destruct (align16_spec size Hs) as (A1 & _). pose proof (hr_tiled _ _ (hi_rep _ _ M1)) as Htl.
  destruct (tiled_in _ _ _ s Htl S1) as (B1 & B2 & B3). unfold block, seg_end in *.
  split; [lia|]. split; [lia|]. intros u Hu Hfu.
  assert (u ∈ l') as Hu' by by apply M2. split; [done|]. split.
  - destruct (segs_apart _ _ _ s u Htl S1 Hu') as [?|?]; unfold seg_end in *; [|lia|lia].
    intros ->. by destruct (M4 u).
  - intros x Hx. by apply (hs_kept _ _ _ _ M2 u).
Qed.

(** C13: [free] marks the block's segment free and joins it with free
    neighbours, exactly as the specification's coalescing does; blocks still
    in use keep their place and their bytes. *)
Theorem free_correct h l s :
  heap_inv h l → s ∈ l → s_free s = false →
  heap_inv (free h (block s)) (spec_free (block s) l) ∧
  ∀ u, u ∈ l → s_free u = false → u ≠ s →
    u ∈ spec_free (block s) l ∧
    ∀ a, block u <= a < seg_end u → rd8 (h_mem (free h (block s))) a = rd8 (h_mem h) a.
Proof. apply free_inv. Qed.

(** [sfree] is [free] followed by clearing the block: the heap stays
    well-formed, and [size] bytes from the address on read as zero. *)
Theorem sfree_correct h l s size :
  heap_inv h l → s ∈ l → s_free s = false → 0 <= size <= s_len s →
  heap_inv (sfree h (block s) size) (spec_free (block s) l) ∧
  (∀ a, block s <= a < block s + size → rd8 (h_mem (sfree h (block s) size)) a = 0) ∧
  ∀ u a, u ∈ l → s_free u = false → u ≠ s → block u <= a < seg_end u →
    rd8 (h_mem (sfree h (block s) size)) a = rd8 (h_mem h) a.
Proof.
  intros Hi Hs Hf Hsz. destruct (free_inv h l s Hi Hs Hf) as [Hi' Hk].
  pose proof (hr_tiled _ _ (hi_rep _ _ Hi)) as Ht. unfold sfree. split; [|split].
  - apply write_inv; [done|]. intros x a Hx Ha. rewrite rd8_memset. case_decide as Hd; [|done].
    destruct (spec_free_addr _ _ _ Hx) as (y & Hy & E).
    destruct (block_vs_header _ _ _ s y a Ht Hs Hy); [unfold block, seg_end in *; lia|lia|lia].
  - intros a Ha. cbn. rewrite rd8_memset. case_decide; [done|lia].
  - intros u a Hu Hfu Hne Ha. cbn. rewrite rd8_memset. case_decide.
    + destruct (segs_apart _ _ _ s u Ht Hs Hu); [congruence| |]; unfold block, seg_end in *; lia.
    + by apply (Hk u Hu Hfu Hne).
Qed.

(** Freeing the block [malloc] just returned restores the heap: when no
    growth was needed, the segment list is the one before the call. *)
Theorem malloc_free_roundtrip tries fuel h l size :
  heap_inv h l → 0 < size <= 2^47 → heapEnd h + 2 * page_up (align16 size) <= heap_ceiling W →
  (3 <= tries)%nat → (length l + 2 <= fuel)%nat →
  is_Some (spec_alloc (align16 size) l) →
  ∃ a h', malloc tries fuel h size = Done (a, h') ∧ heap_inv (free h' a) l.
Proof.
  intros Hi Hs Hmax Ht Hf [[a l'] Ea]. destruct (align16_spec size Hs) as (A1 & A2 & A3).
  pose proof (hi_rep _ _ Hi) as Hr.
  pose proof (malloc_search_refines fuel h [] l (align16 size) Hr (hr_nonempty _ _ Hr) ltac:(lia) A2) as Hse.
  rewrite Ea in Hse. destruct Hse as (h' & E & Hp).
  pose proof (alloc_inv _ _ _ _ _ _ Hi A2 Ea Hp) as [M1 _ (s & S1 & S2 & <- & _) _].
  exists (block s), h'. split.
  - destruct tries as [|tries]; [lia|]. cbn [malloc]. destruct (Z.eqb_spec (align16 size) 0); [lia|].
    rewrite (heap_head _ _ Hr). by rewrite E.
  - destruct (free_inv h' l' s M1 S1 S2) as [Hi' _].
    by erewrite spec_free_alloc in Hi'; [|exact A2|apply Hr|apply Hi|exact Ea].
Qed.

Lemma getUsedMem_loop_refines fuel h pre l used :
  heap_rep h (pre ++ l) → l ≠ [] → (length l <= fuel)%nat →
  0 <= used → used + used_bytes l < 2^64 →
  getUsedMem_loop fuel h (head_addr l 0) used = Done (used + used_bytes l).
Proof.
  revert fuel pre used.
  induction l as [|s l IH]; intros fuel pre used Hr Hne Hfuel Hu Hb; [done|].
  destruct fuel as [|fuel]; [cbn in Hfuel; lia|]. clear Hne.
  cbn [head_addr getUsedMem_loop used_bytes length] in *.
  destruct (heap_rep_at _ _ _ _ Hr) as (_ & L1 & A1 & T2 & _ & _ & [S1 S2 S3 S4] & _).
  rewrite S1, S2, S4. unfold SIZEOF_HDR.
  pose proof (used_bytes_bound _ _ _ T2) as [Hl _].
  assert ((if negb (s_free s) then to_u64 (used + (s_len s + 29)) else used)
    = used + (if s_free s then 0 else s_len s + 29)) as ->.
  { destruct (s_free s); cbn [negb]; [lia|]. by u64_small. }
  destruct l as [|n l]; cbn [head_addr]; [cbn; f_equal; lia|].
  destruct T2 as (An & _). unfold seg_end in An.
  destruct (Z.eqb_spec (s_addr n) 0); [lia|].
  specialize (IH fuel (pre ++ [s])). rewrite <- !app_assoc in IH. cbn [app head_addr] in IH.
  rewrite (IH (used + (if s_free s then 0 else s_len s + 29)) Hr); try done; try lia.
  - f_equal. lia.
  - destruct (s_free s); lia.
Qed.

(** [getUsedMem] returns, after one pass over the headers, the number of
    bytes of the heap that blocks in use and their headers take up. *)
Theorem getUsedMem_correct fuel h l :
  heap_inv h l → (length l <= fuel)%nat → getUsedMem fuel h = Done (used_bytes l).
Proof.
  intros [Hr _ _ _ _] Hf. unfold getUsedMem. rewrite (heap_head _ _ Hr).
  pose proof Hr as [R1 R2 R3 R4 _ _]. pose proof (used_bytes_bound _ _ _ R3).
  by apply (getUsedMem_loop_refines fuel h [] l 0); try done; lia.
Qed.

(** The block [malloc] returns is not cleared: [memset(addr, size, 0)]
    has its last two arguments exchanged and writes nothing, so a block that
    needs no growth holds the bytes that were there before the call. *)
Theorem malloc_block_not_cleared fuel h l size a h' x :
  heap_inv h l → 0 < size <= 2^47 → (length l <= fuel)%nat →
  is_Some (spec_alloc (align16 size) l) → malloc 1 fuel h size = Done (a, h') →
  a <= x < a + size → rd8 (h_mem h') x = rd8 (h_mem h) x.
Proof.
  intros Hi Hs Hf [[a1 l'] Ea] E Hx. destruct (align16_spec size Hs) as (A1 & A2 & A3).
  pose proof (hi_rep _ _ Hi) as Hr.
  pose proof (malloc_search_refines fuel h [] l (align16 size) Hr (hr_nonempty _ _ Hr) Hf A2) as Hse.
  rewrite Ea in Hse. destruct Hse as (h1 & E1 & Hp). cbn [malloc] in E.
  destruct (Z.eqb_spec (align16 size) 0); [lia|]. rewrite (heap_head _ _ Hr), E1 in E.
  cbn [mbind outcome_bind] in E. apply Done_inj in E as [= -> ->].
  destruct (spec_alloc_block _ _ _ _ Ea) as (s & S1 & S2 & <- & S4).
  apply (ap_bytes _ _ _ _ Hp s); [done|]. unfold block, seg_end in *. lia.
Qed.

(** Splitting the last segment stores through the null pointer: [split]
    does not test [next] before [next->last = newSplitHdr], so it overwrites
    the eight bytes at address 20 with the address of the new header. *)
Theorem split_last_stores_through_null h pre s size :
  heap_rep h (pre ++ [s]) → 48 <= heapStart h → 16 <= size → 16 <= s_len s - size - 29 →
  rd64 (h_mem (split h (s_addr s) size).2) 20 = s_addr s + size + 29.
Proof.
  intros Hr H48 H16 Hl. rewrite (split_eq h pre s [] size Hr H16 Hl). cbn [snd h_mem head_addr].
  destruct (heap_rep_at _ _ _ _ Hr) as (T1 & _ & A1 & T2 & E1 & _).
  pose proof (tiled_le _ _ _ T1). pose proof (hr_end _ _ Hr) as [R2 _].
  unfold split_mem, seg_end in *. cbn zeta. by hdr.
Qed.
End Client.
