(* ===== verification/HeapRun.v ===== *)
(** * The heap over a whole run

    Clients call [malloc] and [free] and write into the blocks they hold, in
    any order.  The ledger records the blocks that are held, with the sizes
    they were asked for. *)

From S2P Require Import Prelude Memory PageMapper Heap HeapSpec HeapRefine.
From S2P Require Import HeapMalloc HeapGrow HeapClient.

(** A bound on the number of segments, hence fuel for the search. *)
Lemma tiled_length a l e : tiled a l e → Z.of_nat (length l) * 45 <= e - a.
Proof.
  revert a. induction l as [|s l IH]; cbn [tiled length]; intros a; [lia|].
  intros (<- & H16 & Ht). apply IH in Ht. unfold seg_end in Ht. lia.
Qed.

Section Run.
Context {W : Type} `{PageMapperLaws W}.
Implicit Types h : Heap W.

Definition search_fuel h : nat := Z.to_nat ((heapEnd h - heapStart h) / 45) + 2.

Abbreviation ledger := (gmap Z Z).

Inductive heap_run_step : Heap W * ledger → Heap W * ledger → Prop :=
  | run_malloc h L size a h' :
      0 < size <= 2^47 → heapEnd h + 2 * page_up (align16 size) <= heap_ceiling W →
      malloc 3 (search_fuel h) h size = Done (a, h') →
      heap_run_step (h, L) (h', <[a := size]> L)
  | run_free h L a size :
      L !! a = Some size → heap_run_step (h, L) (free h a, delete a L)
  | run_write h L a size k v :
      L !! a = Some size → 0 <= k < size →
      heap_run_step (h, L) (with_mem h (wr8 (h_mem h) (a + k) v), L).

(** The ledger is the list of used segments. *)
Record ledger_ok (h : Heap W) (L : ledger) (l : list seg) : Prop := {
  lo_inv : heap_inv h l;
  lo_block a size : L !! a = Some size →
    0 < size ∧ ∃ s, s ∈ l ∧ s_free s = false ∧ block s = a ∧ size <= s_len s;
  lo_used s : s ∈ l → s_free s = false → is_Some (L !! block s)
}.

Lemma search_fuel_enough h l : heap_inv h l → (length l + 2 <= search_fuel h)%nat.
Proof.
  intros [[_ _ Ht _ _ _] _ _ _ _]. apply tiled_length in Ht. unfold search_fuel.
  assert (Z.of_nat (length l) <= (heapEnd h - heapStart h) / 45); [|lia].
  apply Z.div_le_lower_bound; lia.
Qed.

Lemma seg_by_block h l s u :
  heap_inv h l → s ∈ l → u ∈ l → block s = block u → s = u.
Proof.
  intros Hi Hs Hu E. eapply block_inj; [apply (hr_tiled _ _ (hi_rep _ _ Hi))|done|done|].
  unfold block in E. lia.
Qed.

(** An operation changes used segments only where the specification says. *)
Lemma used_after_alloc size l a l' u :
  spec_alloc size l = Some (a, l') → u ∈ l' → s_free u = false → u ∈ l ∨ block u = a.
Proof.
  intros (pre & s & post & -> & _ & [Hf _]%andb_true_iff & -> & ->)%spec_alloc_split Hu Hfu.
  apply elem_of_app in Hu as [Hu|[Hu|Hu]%elem_of_app].
  - left. apply elem_of_app. by left.
  - right. unfold carve in Hu. destruct (_ && _).
    + apply elem_of_cons in Hu as [->|Hu]; [done|].
      apply list_elem_of_singleton in Hu as ->. done.
    + apply list_elem_of_singleton in Hu as ->. done.
  - left. apply elem_of_app_mid, elem_of_app. by right.
Qed.

Lemma used_push s l u : u ∈ push s l → s_free u = false → u ∈ s :: l.
Proof.
  destruct l as [|n l]; [done|]. unfold push. destruct (_ && _) eqn:E; [|done].
  apply andb_true_iff in E as [E _].
  intros [->|Hu]%elem_of_cons Hf; [cbn in Hf; congruence|].
  apply elem_of_cons. right. apply elem_of_cons. by right.
Qed.

Lemma used_coalesce l u : u ∈ coalesce l → s_free u = false → u ∈ l.
Proof.
  induction l as [|s l IH]; [done|]. rewrite coalesce_cons. intros Hu Hf.
  apply used_push in Hu as [->|Hu]%elem_of_cons; [|auto|done]; apply elem_of_cons; auto.
Qed.

Lemma used_after_free a l u :
  u ∈ spec_free a l → s_free u = false → u ∈ l ∧ block u ≠ a.
Proof.
  unfold spec_free. intros Hu Hf. apply used_coalesce in Hu; [|done].
  apply list_elem_of_fmap in Hu as (x & -> & Hx). revert Hf. unfold mark.
  destruct (Z.eqb_spec (block x) a); [done|]. done.
Qed.

Lemma used_after_malloc n size e l a l' e' u :
  spec_malloc n size e l = Some (a, l', e') → u ∈ l' → s_free u = false → u ∈ l ∨ block u = a.
Proof.
  revert e l. induction n as [|n IH]; intros e l; cbn [spec_malloc];
    destruct (spec_alloc size l) as [[a1 l1]|] eqn:E.
  - intros [= <- <- _] Hu Hf. by eapply used_after_alloc.
  - done.
  - intros [= <- <- _] Hu Hf. by eapply used_after_alloc.
  - intros Hs Hu Hf. destruct (IH _ _ Hs Hu Hf) as [Hin|]; [|by right].
    left. apply used_coalesce in Hin; [|done].
    apply elem_of_app in Hin as [|Hin]; [done|].
    apply list_elem_of_singleton in Hin as ->. done.
Qed.

Lemma step_malloc_ok h L l size a h' :
  ledger_ok h L l → 0 < size <= 2^47 → heapEnd h + 2 * page_up (align16 size) <= heap_ceiling W →
  malloc 3 (search_fuel h) h size = Done (a, h') → ∃ l', ledger_ok h' (<[a := size]> L) l'.
Proof.
  intros [Hi Hb Hu] Hs Hmax E. pose proof (search_fuel_enough h l Hi) as Hf.
  destruct (malloc_spec 3 (search_fuel h) h l size Hi Hs Hmax ltac:(lia) Hf)
    as (a1 & l' & e' & Esp & [E1|(h1 & E1 & _ & [M1 M2 M3 M4])]); rewrite E1 in E; [done|].
  apply Done_inj in E as [= -> ->]. exists l'. destruct (align16_spec size Hs) as (A1 & _).
  split; [done| |].
  - intros b n [[-> ->]|[Hne Hbn]]%lookup_insert_Some.
    + split; [lia|]. destruct M3 as (s & ? & ? & ? & ?). exists s. split_and!; try done. lia.
    + destruct (Hb b n Hbn) as (? & s & S1 & S2 & S3 & S4). split; [done|].
      exists s. split_and!; try done. by apply (hs_used _ _ _ _ M2).
  - intros s S1 S2. destruct (used_after_malloc _ _ _ _ _ _ _ s Esp S1 S2) as [Hin| ->].
    + rewrite lookup_insert. case_decide; [done|]. by apply Hu.
    + rewrite lookup_insert_eq. done.
Qed.

Lemma step_free_ok h L l a size :
  ledger_ok h L l → L !! a = Some size → ∃ l', ledger_ok (free h a) (delete a L) l'.
Proof.
  intros [Hi Hb Hu] E. destruct (Hb a size E) as (_ & s & S1 & S2 & <- & _).
  destruct (free_inv h l s Hi S1 S2) as [Hi' Hk]. exists (spec_free (block s) l). split; [done| |].
  - intros b n [Hne Hbn]%lookup_delete_Some. destruct (Hb b n Hbn) as (? & u & U1 & U2 & U3 & U4).
    split; [done|]. exists u. split_and!; try done. apply Hk; try done. congruence.
  - intros u U1 U2. destruct (used_after_free _ _ u U1 U2) as [Hin Hne].
    rewrite lookup_delete_ne by done. by apply Hu.
Qed.

Lemma step_write_ok h L l a size k v :
  ledger_ok h L l → L !! a = Some size → 0 <= k < size →
  ledger_ok (with_mem h (wr8 (h_mem h) (a + k) v)) L l.
Proof.
  intros [Hi Hb Hu] E Hk. split; try done. apply write_inv; [done|].
  intros x y Hx Hy. destruct (Hb a size E) as (_ & s & S1 & S2 & <- & S4).
  destruct (block_vs_header _ _ _ s x (block s + k) (hr_tiled _ _ (hi_rep _ _ Hi)) S1 Hx);
    [unfold block, seg_end in *; lia| |]; by rewrite rd8_wr8_ne by lia.
Qed.

Lemma run_ledger_ok st st' :
  rtc heap_run_step st st' → (∃ l, ledger_ok st.1 st.2 l) → ∃ l, ledger_ok st'.1 st'.2 l.
Proof.
  induction 1 as [|x y z Hstep _ IH]; [done|]. intros [l Hl]. apply IH.
  destruct Hstep; cbn [fst snd] in *.
  - by eapply step_malloc_ok.
  - by eapply step_free_ok.
  - exists l. by eapply step_write_ok.
Qed.

Lemma init_ledger_ok h A n :
  heap_inv h [mkSeg A n true] → ledger_ok h ∅ [mkSeg A n true].
Proof.
  intros Hi. split; [done|by intros ? ? ?%lookup_empty_Some|].
  intros s ->%list_elem_of_singleton Hf. done.
Qed.

(** C2: memory safety of the heap over every run.  Whatever sequence of
    allocations, frees of held blocks and writes into held blocks the clients
    make on a fresh heap, the blocks that are held lie inside the heap and do
    not overlap each other. *)
Theorem heap_run_safe h0 A n h (L : ledger) a b sa sb :
  heap_inv h0 [mkSeg A n true] → rtc heap_run_step (h0, ∅) (h, L) →
  L !! a = Some sa → L !! b = Some sb →
  heapStart h <= a ∧ a + sa <= heapEnd h ∧
  (a = b ∨ a + sa <= b ∨ b + sb <= a).
Proof.
  intros Hi Hrun Ha Hb.
  destruct (run_ledger_ok _ _ Hrun) as [l [Hl Hbl _]]; [by eexists; apply init_ledger_ok|].
  cbn [fst snd] in *. pose proof (hr_tiled _ _ (hi_rep _ _ Hl)) as Ht.
  destruct (Hbl a sa Ha) as (_ & s & S1 & S2 & <- & S4).
  destruct (Hbl b sb Hb) as (_ & u & U1 & U2 & <- & U4).
  destruct (tiled_in _ _ _ _ Ht S1) as (? & ? & ?). unfold block, seg_end in *.
  split; [lia|]. split; [lia|]. destruct (decide (s = u)) as [->|Hne]; [by left|right].
  destruct (segs_apart _ _ _ s u Ht S1 U1 Hne); unfold seg_end in *; lia.
Qed.

Lemma all_free_single b l e :
  tiled b l e → l ≠ [] → coalesced l → (∀ s, s ∈ l → s_free s = true) →
  l = [mkSeg b (e - b - 29) true].
Proof.
  intros Ht Hne Hc Hall. destruct l as [|s [|u l]]; [done| |].
  - destruct s as [sa sl sf]. cbn in Ht. unfold seg_end in Ht. cbn in Ht.
    destruct Ht as (-> & _ & <-). specialize (Hall _ (elem_of_middle _ [] _)). cbn in Hall. subst sf.
    do 2 f_equal. lia.
  - cbn in Hc. destruct Hc as [Hc _].
    rewrite (Hall s (elem_of_middle _ [] _)), (Hall u (elem_of_middle _ [s] _)) in Hc. done.
Qed.

(** C10: no fragmentation remains: when every block has been freed, in any
    order, the heap is a single free segment again, as large as the heap. *)
Theorem heap_run_no_leak h0 A n h :
  heap_inv h0 [mkSeg A n true] → rtc heap_run_step (h0, ∅) (h, ∅) →
  heap_inv h [mkSeg (heapStart h) (heapEnd h - heapStart h - 29) true].
Proof.
  intros Hi Hrun.
  destruct (run_ledger_ok _ _ Hrun) as [l [Hl _ Hu]]; [by eexists; apply init_ledger_ok|].
  cbn [fst snd] in *. pose proof (hi_rep _ _ Hl) as Hr.
  rewrite <- (all_free_single _ _ _ (hr_tiled _ _ Hr) (hr_nonempty _ _ Hr) (hi_coalesced _ _ Hl)); [done|].
  intros s Hs. destruct (s_free s) eqn:Hf; [done|]. by destruct (Hu s Hs Hf).
Qed.
End Run.
