(* ===== verification/HeapFrame.v ===== *)
(** * The heap as its clients see it

    What the code on top of heap.cpp needs of a call that does not grow the
    heap: which segments are in use before and after it, which bytes it
    leaves alone, and that the list of segments is determined by the ones in
    use, so that freeing what was allocated, in any order, restores it. *)

From S2P Require Import Prelude Memory PageMapper Heap HeapSpec HeapRefine.
From S2P Require Import HeapMalloc HeapGrow HeapClient HeapRun.

Definition in_use (l : list seg) (u : seg) : Prop := u ∈ l ∧ s_free u = false.

(** Some free segment has room for [n] bytes. *)
Definition room (n : Z) (l : list seg) : Prop := ∃ s, s ∈ l ∧ s_free s = true ∧ n <= s_len s.

Lemma room_alloc n l : room n l → is_Some (spec_alloc n l).
Proof.
  intros (s & Hs & Hf & Hn). induction l as [|x l IH]; [by apply elem_of_nil in Hs|].
  cbn [spec_alloc]. destruct (fits n x) eqn:E; [eauto|].
  apply elem_of_cons in Hs as [->|Hs].
  - unfold fits in E. rewrite Hf in E. cbn in E. apply Z.leb_gt in E. lia.
  - destruct (IH Hs) as [[a l'] ->]. cbn. eauto.
Qed.

(** What is left after an allocation. *)
Lemma room_after n size l a l' :
  0 <= size → spec_alloc size l = Some (a, l') → room (size + 29 + n) l → 16 <= n → room n l'.
Proof.
  intros H0 (pre & s & post & -> & _ & [Hf _]%andb_true_iff & _ & ->)%spec_alloc_split (u & Hu & Hfu & Hn) H16.
  destruct (decide (u = s)) as [->|Hne].
  - exists (mkSeg (s_addr s + size + 29) (s_len s - size - 29) true). cbn. split; [|split; [done|lia]].
    apply elem_of_app. right. apply elem_of_app. left. unfold carve.
    destruct (Z.ltb_spec size (s_len s)); [|lia]. destruct (Z.leb_spec 16 (s_len s - size - 29)); [|lia].
    cbn [andb]. apply elem_of_cons. right. by apply elem_of_cons; left.
  - exists u. split; [|split; [done|lia]]. apply elem_of_other in Hu; [|done].
    apply elem_of_app in Hu as [Hu|Hu]; apply elem_of_app; [by left|right]. apply elem_of_app. by right.
Qed.

(** ** The used segments determine the list *)

Lemma tiled_at a l e u : tiled a l e → u ∈ l → s_addr u = a → ∃ l', l = u :: l'.
Proof.
  intros Ht Hu E. destruct l as [|s l]; [by apply elem_of_nil in Hu|]. pose proof Ht as (Es & H16 & Ht').
  exists l. f_equal. eapply block_inj; [exact Ht|by apply elem_of_cons; left|done|]. congruence.
Qed.

Lemma coalesced_tail s l : coalesced (s :: l) → coalesced l.
Proof. destruct l; [done|]. by intros [_ ?]. Qed.

(** A free segment cannot end before the other list's: a used one would start inside. *)
Lemma free_heads_len a s l s' l' e :
  tiled a (s :: l) e → tiled a (s' :: l') e → coalesced (s :: l) → s_free s = true → s_free s' = true →
  (∀ u, in_use (s :: l) u → in_use (s' :: l') u) → s_len s' <= s_len s.
Proof.
  intros (E1 & H1 & T1) (E2 & H2 & T2) Hc Hf Hf' Huse. destruct l as [|u l].
  - cbn in T1. pose proof (tiled_le _ _ _ T2). unfold seg_end in *. lia.
  - destruct Hc as [Hc _]. rewrite Hf in Hc. cbn in T1. destruct T1 as (Eu & Hu16 & _).
    assert (s_free u = false) as Hfu by (destruct (s_free u); [done|done]).
    destruct (Huse u) as [Hin _]; [split; [|done]; by apply elem_of_cons; right; apply elem_of_cons; left|].
    apply elem_of_cons in Hin as [->|Hin]; [congruence|].
    destruct (tiled_in _ _ _ _ T2 Hin). unfold seg_end in *. lia.
Qed.

Lemma in_use_tail a s l s' l' e :
  tiled a (s :: l) e → tiled a (s' :: l') e → s_free s = s_free s' → (s_free s = false → s = s') →
  (∀ u, in_use (s :: l) u → in_use (s' :: l') u) → ∀ u, in_use l u → in_use l' u.
Proof.
  intros T1 T2 Ef Es Huse u [Hu Hf].
  destruct (Huse u) as [Hin _]; [split; [by apply elem_of_cons; right|done]|].
  split; [|done]. apply elem_of_cons in Hin as [->|Hin]; [|done]. exfalso.
  rewrite Hf in Ef. rewrite (Es Ef) in T1. cbn in T1. destruct T1 as (E1 & _ & T1).
  destruct (tiled_in _ _ _ _ T1 Hu). unfold seg_end in *. lia.
Qed.

Lemma coalesced_unique l l' a e :
  tiled a l e → tiled a l' e → coalesced l → coalesced l' →
  (∀ u, in_use l u ↔ in_use l' u) → l = l'.
Proof.
  revert l' a. induction l as [|s l IH]; intros l' a T1 T2 C1 C2 Huse.
  - cbn in T1. subst e. destruct l' as [|s' l']; [done|]. destruct T2 as (E2 & H2 & T2%tiled_le).
    unfold seg_end in T2. lia.
  - destruct l' as [|s' l'].
    { cbn in T2. subst e. destruct T1 as (E1 & H1 & T1%tiled_le). unfold seg_end in T1. lia. }
    assert (s = s') as ->.
    { destruct (s_free s) eqn:F1, (s_free s') eqn:F2.
      - pose proof (free_heads_len _ _ _ _ _ _ T1 T2 C1 F1 F2 (λ u, proj1 (Huse u))).
        pose proof (free_heads_len _ _ _ _ _ _ T2 T1 C2 F2 F1 (λ u, proj2 (Huse u))).
        destruct T1 as (E1 & _), T2 as (E2 & _). destruct s, s'; cbn in *. f_equal; congruence || lia.
      - destruct (proj2 (Huse s')) as [Hin _]; [split; [by apply elem_of_cons; left|done]|].
        destruct T2 as (E2 & _). destruct (tiled_at _ _ _ _ T1 Hin E2) as [? [= -> _]]. congruence.
      - destruct (proj1 (Huse s)) as [Hin _]; [split; [by apply elem_of_cons; left|done]|].
        destruct T1 as (E1 & _). destruct (tiled_at _ _ _ _ T2 Hin E1) as [? [= -> _]]. congruence.
      - destruct (proj1 (Huse s)) as [Hin _]; [split; [by apply elem_of_cons; left|done]|].
        destruct T1 as (E1 & _). by destruct (tiled_at _ _ _ _ T2 Hin E1) as [? [= -> _]]. }
    f_equal. apply (IH l' (seg_end s')); [apply T1|apply T2|by eapply coalesced_tail|by eapply coalesced_tail|].
    intros u. split; eapply in_use_tail; try done; intros u'; apply Huse.
Qed.

(** Allocations one after the other, with the blocks they give. *)
Fixpoint spec_allocs (sizes : list Z) (l : list seg) : option (list Z * list seg) :=
  match sizes with
  | [] => Some ([], l)
  | size :: sizes =>
      '(a, l) ← spec_alloc (align16 size) l;
      '(bs, l) ← spec_allocs sizes l;
      Some (a :: bs, l)
  end.

Lemma spec_allocs_cons size sizes l a l1 bs l2 :
  spec_alloc (align16 size) l = Some (a, l1) → spec_allocs sizes l1 = Some (bs, l2) →
  spec_allocs (size :: sizes) l = Some (a :: bs, l2).
Proof. intros E1 E2. cbn [spec_allocs]. rewrite E1. cbn. by rewrite E2. Qed.

(** ** The calls *)

Section Frame.
Context {W : Type} `{PageMapperLaws W}.
Implicit Types h : Heap W.

(** [s] is the new segment. *)
Record allocated h l size h' l' s : Prop := {
  al_inv : heap_inv h' l';
  al_start : heapStart h' = heapStart h;
  al_end : heapEnd h' = heapEnd h;
  al_seg : in_use l' s ∧ size <= s_len s;
  al_new : ¬ in_use l s;
  al_use u : in_use l' u ↔ in_use l u ∨ u = s;
  al_bytes u x : u ∈ l' → block u <= x < seg_end u → rd8 (h_mem h') x = rd8 (h_mem h) x;
  al_frame x : off_heap (heapStart h) (heapEnd h) x → rd8 (h_mem h') x = rd8 (h_mem h) x;
  al_length : (length l' <= S (length l))%nat;
  (** segments that were not in use are pieces of free ones *)
  al_origin u : u ∈ l' → ¬ in_use l u →
    ∃ f, f ∈ l ∧ s_free f = true ∧ block f <= block u ∧ seg_end u <= seg_end f;
  al_spec : spec_alloc (align16 size) l = Some (block s, l');
  al_zeros : heapEnd h <= 2^24 → zeros_kept l' h h';
  al_world : h_world h' = h_world h
}.

Lemma spec_alloc_length size l a l' : spec_alloc size l = Some (a, l') → (length l' <= S (length l))%nat.
Proof.
  intros (pre & s & post & -> & _ & _ & _ & ->)%spec_alloc_split. rewrite !length_app. unfold carve.
  destruct (_ && _); cbn [length]; lia.
Qed.

Lemma spec_alloc_origin size l a l' u :
  0 <= size → spec_alloc size l = Some (a, l') → u ∈ l' → ¬ in_use l u →
  ∃ f, f ∈ l ∧ s_free f = true ∧ block f <= block u ∧ seg_end u <= seg_end f.
Proof.
  intros Hsz (pre & s & post & -> & _ & [Hf Hle%Z.leb_le]%andb_true_iff & _ & ->)%spec_alloc_split Hu Hno.
  assert (u ∈ pre ++ s :: post → ∃ f, f ∈ pre ++ s :: post ∧ s_free f = true ∧ block f <= block u ∧
    seg_end u <= seg_end f) as Hsame.
  { intros Hin. exists u. split; [done|]. split; [|lia]. destruct (s_free u) eqn:E; [done|]. by destruct Hno. }
  apply elem_of_app in Hu as [Hu|[Hu|Hu]%elem_of_app].
  - apply Hsame. apply elem_of_app. by left.
  - exists s. split; [apply elem_of_middle|]. split; [done|]. unfold carve in Hu.
    destruct (_ && _); repeat apply elem_of_cons in Hu as [->|Hu]; try by apply elem_of_nil in Hu.
    all: unfold block, seg_end; cbn; lia.
  - apply Hsame. apply elem_of_app_mid, elem_of_app. by right.
Qed.

Lemma malloc_fit tries fuel h l size :
  heap_inv h l → 0 < size <= 2^47 → room (align16 size) l → (1 <= tries)%nat → (length l <= fuel)%nat →
  ∃ h' l' s, malloc tries fuel h size = Done (block s, h') ∧ allocated h l size h' l' s ∧
    ∀ n, room (align16 size + 29 + n) l → 16 <= n → room n l'.
Proof.
  intros Hi Hs Hroom Ht Hf. destruct (align16_spec size Hs) as (A1 & A2 & A3).
  destruct (room_alloc _ _ Hroom) as [[a l'] Ea]. pose proof (hi_rep _ _ Hi) as Hr.
  pose proof (malloc_search_refines fuel h [] l (align16 size) Hr (hr_nonempty _ _ Hr) Hf A2) as Hse.
  rewrite Ea in Hse. destruct Hse as (h' & E & Hp). cbn [app] in Hp.
  pose proof (alloc_inv _ _ _ _ _ _ Hi A2 Ea Hp) as [M1 M2 (s & S1 & S2 & <- & S4) M4].
  exists h', l', s. split; [|split].
  - destruct tries as [|tries]; [lia|]. cbn [malloc]. destruct (Z.eqb_spec (align16 size) 0); [lia|].
    rewrite (heap_head _ _ Hr). by rewrite E.
  - destruct Hp as [P1 P2 P3 P4 P5 P6 P7 P8]. split; try done.
    + by split; [split|lia].
    + intros [Hin Hfs]. by destruct (M4 s Hin Hfs).
    + intros u. split.
      * intros [Hu Hfu]. destruct (used_after_alloc _ _ _ _ u Ea Hu Hfu) as [Hin|Hb]; [left; by split|right].
        by eapply (seg_by_block h').
      * intros [[Hu Hfu]| ->]; [|by split]. split; [by apply P3|done].
    + by eapply spec_alloc_length.
    + intros u. eapply spec_alloc_origin; [|exact Ea]. lia.
  - intros n Hn. eapply room_after; [|exact Ea|done]. lia.
Qed.

(** [s] is the segment that was given back. *)
Record released h l s h' l' : Prop := {
  rl_inv : heap_inv h' l';
  rl_start : heapStart h' = heapStart h;
  rl_end : heapEnd h' = heapEnd h;
  rl_use u : in_use l' u ↔ in_use l u ∧ u ≠ s;
  rl_bytes u x : in_use l u → u ≠ s → block u <= x < seg_end u → rd8 (h_mem h') x = rd8 (h_mem h) x;
  rl_frame x : off_heap (heapStart h) (heapEnd h) x → rd8 (h_mem h') x = rd8 (h_mem h) x;
  rl_zeros : heapEnd h <= 2^24 → zeros_kept l h h';
  rl_world : h_world h' = h_world h
}.

Lemma free_released h l s :
  heap_inv h l → in_use l s → released h l s (free h (block s)) (spec_free (block s) l).
Proof.
  intros Hi [Hs Hf]. destruct (free_inv h l s Hi Hs Hf) as [Hi' Hk].
  destruct (free_world h (block s)) as (E1 & E2 & E3). split; try done.
  - intros u. split.
    + intros [Hu Hfu]. destruct (used_after_free _ _ u Hu Hfu) as [Hin Hne].
      split; [by split|]. intros ->. done.
    + intros [[Hu Hfu] Hne]. split; [|done]. by apply Hk.
  - intros u x [Hu Hfu] Hne Hx. by apply (Hk u).
  - intros x Hx. pose proof Hs as (pre & post & ->)%list_elem_of_split.
    destruct (free_refines_frame h pre s post (hi_rep _ _ Hi)) as (_ & _ & _ & Hfr).
    apply Hfr; rewrite E2; [done|lia].
  - intros Hsm. pose proof Hs as (pre & post & ->)%list_elem_of_split. by apply free_zeros; [apply Hi|].
Qed.

Lemma sfree_released h l s size :
  heap_inv h l → in_use l s → 0 <= size <= s_len s →
  released h l s (sfree h (block s) size) (spec_free (block s) l).
Proof.
  intros Hi Hu Hsz. pose proof Hu as [Hs Hf]. destruct (free_released h l s Hi Hu) as [R1 R2 R3 R4 R5 R6 R7].
  pose proof (hr_tiled _ _ (hi_rep _ _ Hi)) as Ht. pose proof (tiled_in _ _ _ _ Ht Hs) as Hin.
  unfold sfree. split; try done.
  - apply write_inv; [done|]. intros x a Hx Ha. rewrite rd8_memset. case_decide as Hd; [|done].
    destruct (spec_free_addr _ _ _ Hx) as (y & Hy & E).
    destruct (block_vs_header _ _ _ s y a Ht Hs Hy); [unfold block, seg_end in *; lia|lia|lia].
  - intros u a Hu' Hne Ha. cbn. rewrite rd8_memset. case_decide; [|by apply (R5 u)].
    destruct (segs_apart _ _ _ s u Ht Hs (proj1 Hu')); [congruence| |]; unfold block, seg_end in *; lia.
  - intros x Hx. cbn. rewrite rd8_memset. case_decide; [|by apply R6].
    destruct Hx. unfold block, seg_end in *. lia.
  - intros Hsm x Hge Hx Hz. cbn. rewrite rd8_memset. case_decide; [done|]. by apply R7.
Qed.

Lemma sfree_zeroed h a n x : a <= x < a + n → rd8 (h_mem (sfree h a n)) x = 0.
Proof. intros Hx. unfold sfree. cbn. by rewrite rd8_memset, decide_True. Qed.

Lemma spec_free_low a l x : low (spec_free a l) x → low l x.
Proof. apply low_incl. intros u. apply spec_free_addr. Qed.

(** Stores into a block in use. *)
Lemma write_block h l s m' :
  heap_inv h l → in_use l s →
  (∀ x, ¬ (block s <= x < seg_end s) → rd8 m' x = rd8 (h_mem h) x) → heap_inv (with_mem h m') l.
Proof.
  intros Hi [Hs Hf] Hm. apply write_inv; [done|]. intros u a Hu Ha. apply Hm.
  intros Hin. destruct (block_vs_header _ _ _ s u a (hr_tiled _ _ (hi_rep _ _ Hi)) Hs Hu Hin); lia.
Qed.

(** ** A heap whose free memory has never been used *)

Definition clean h (l : list seg) : Prop :=
  ∀ u x, u ∈ l → s_free u = true → block u <= x < seg_end u → rd8 (h_mem h) x = 0.

Lemma clean_allocated h l size h' l' s :
  clean h l → allocated h l size h' l' s →
  clean h' l' ∧ ∀ x, block s <= x < seg_end s → rd8 (h_mem h') x = 0.
Proof.
  intros Hc [A1 A2 A3 [[A4 A4'] A5] A6 A7 A8 A9 A10 A11 _ _ _].
  assert (∀ u x, u ∈ l' → ¬ in_use l u → block u <= x < seg_end u → rd8 (h_mem h') x = 0) as H1.
  { intros u x Hu Hno Hx. rewrite (A8 u) by done. destruct (A11 u Hu Hno) as (f & F1 & F2 & F3 & F4).
    apply (Hc f); try done. lia. }
  split; [|intros x; by apply H1]. intros u x Hu Hf. apply H1; [done|]. intros [_ ?]. congruence.
Qed.

(** Blocks in use lie on the heap and apart from each other. *)
Lemma blocks_apart h l s u :
  heap_inv h l → in_use l s → in_use l u → s ≠ u → seg_end s <= block u - 29 ∨ seg_end u <= block s - 29.
Proof.
  intros Hi [Hs _] [Hu _] Hne.
  destruct (segs_apart _ _ _ s u (hr_tiled _ _ (hi_rep _ _ Hi)) Hs Hu Hne); unfold block; lia.
Qed.

Lemma block_on_heap h l s :
  heap_inv h l → in_use l s →
  heapStart h + 29 <= block s ∧ seg_end s <= heapEnd h ∧ 28 <= heapStart h ∧ heapEnd h <= 2^47 ∧
  seg_end s = block s + s_len s.
Proof.
  intros Hi [Hs _]. destruct (tiled_in _ _ _ _ (hr_tiled _ _ (hi_rep _ _ Hi)) Hs) as (? & ? & ?).
  pose proof (hr_start _ _ (hi_rep _ _ Hi)). pose proof (hr_end _ _ (hi_rep _ _ Hi)) as [? _].
  unfold block, seg_end in *. lia.
Qed.

(** ** Sessions: calls that allocate blocks and give them back *)

(** Bytes no call touches: off the heap, or in a block in use. *)
Definition kept h (l : list seg) (a : Z) : Prop :=
  off_heap (heapStart h) (heapEnd h) a ∨ ∃ u, in_use l u ∧ block u <= a < seg_end u.

(** [h'] holds the blocks of [h] and the new ones [ss]. *)
Record extends h l (ss : list seg) h' l' : Prop := {
  ex_inv : heap_inv h' l';
  ex_start : heapStart h' = heapStart h;
  ex_end : heapEnd h' = heapEnd h;
  ex_use u : in_use l' u ↔ in_use l u ∨ u ∈ ss;
  ex_new u : u ∈ ss → ¬ in_use l u;
  ex_kept a : kept h l a → rd8 (h_mem h') a = rd8 (h_mem h) a;
  ex_world : h_world h' = h_world h
}.

Lemma extends_refl h l : heap_inv h l → extends h l [] h l.
Proof.
  intros Hi. split; try done; [|by intros u ?%elem_of_nil].
  intros u. split; [by left|]. by intros [?| ?%elem_of_nil].
Qed.

Lemma extends_kept h l ss h' l' a : extends h l ss h' l' → kept h l a → kept h' l' a.
Proof.
  intros [E1 E2 E3 E4 E5 E6 E7] [Ha|(u & Hu & Ha)]; [left; by rewrite E2, E3|].
  right. exists u. split; [|done]. apply E4. by left.
Qed.

Lemma allocated_kept h l size h' l' s a :
  allocated h l size h' l' s → kept h l a → rd8 (h_mem h') a = rd8 (h_mem h) a.
Proof.
  intros A [Ha|(u & Hu & Ha)]; [by eapply al_frame|].
  eapply (al_bytes _ _ _ _ _ _ A u); [|done]. apply (al_use _ _ _ _ _ _ A). by left.
Qed.

Lemma extends_alloc h l ss h1 l1 size h2 l2 s :
  extends h l ss h1 l1 → allocated h1 l1 size h2 l2 s → extends h l (s :: ss) h2 l2.
Proof.
  intros X A. pose proof X as [E1 E2 E3 E4 E5 E6 E7]. split.
  - apply A.
  - by rewrite (al_start _ _ _ _ _ _ A).
  - by rewrite (al_end _ _ _ _ _ _ A).
  - intros u. rewrite (al_use _ _ _ _ _ _ A), E4, elem_of_cons. tauto.
  - intros u [->|Hu]%elem_of_cons; [|by apply E5]. intros Hin.
    apply (al_new _ _ _ _ _ _ A), E4. by left.
  - intros a Ha. rewrite (allocated_kept _ _ _ _ _ _ a A); [by apply E6|by eapply extends_kept].
  - by rewrite (al_world _ _ _ _ _ _ A).
Qed.

(** Stores into the session's own blocks. *)
Lemma extends_write h l ss h1 l1 s m' :
  extends h l ss h1 l1 → s ∈ ss →
  (∀ x, ¬ (block s <= x < seg_end s) → rd8 m' x = rd8 (h_mem h1) x) →
  extends h l ss (with_mem h1 m') l1.
Proof.
  intros [E1 E2 E3 E4 E5 E6 E7] Hs Hm. assert (in_use l1 s) as Hu by (apply E4; by right).
  split; try done; [by eapply write_block|].
  intros a Ha. rewrite <- E6 by done. apply Hm. intros Hin. pose proof (block_on_heap _ _ _ E1 Hu).
  destruct Ha as [[Ha _]|(u & Hv & Ha)]; [rewrite <- E2, <- E3 in Ha; lia|].
  destruct (blocks_apart h1 l1 s u E1 Hu); [apply E4; by left|intros ->; by apply (E5 u)|lia|lia].
Qed.

Lemma extends_release h l ss h1 l1 s h2 l2 :
  extends h l ss h1 l1 → s ∈ ss → released h1 l1 s h2 l2 →
  extends h l (filter (λ u, u ≠ s) ss) h2 l2.
Proof.
  intros [E1 E2 E3 E4 E5 E6 E7] Hs R. split.
  - apply R.
  - by rewrite (rl_start _ _ _ _ _ R).
  - by rewrite (rl_end _ _ _ _ _ R).
  - intros u. rewrite (rl_use _ _ _ _ _ R), E4, list_elem_of_filter. split; [tauto|].
    intros [Hu|Hu]; [|tauto]. split; [by left|]. intros ->. by apply (E5 s).
  - intros u [_ Hu]%list_elem_of_filter. by apply E5.
  - intros a Ha. rewrite <- E6 by done. destruct Ha as [Ha|(u & Hu & Ha)].
    + apply (rl_frame _ _ _ _ _ R). by rewrite E2, E3.
    + apply (rl_bytes _ _ _ _ _ R u); [apply E4; by left| |done]. intros ->. by apply (E5 s).
  - by rewrite (rl_world _ _ _ _ _ R).
Qed.

(** A session that has given everything back leaves the segments as they were. *)
Lemma extends_restored h l h' l' : heap_inv h l → extends h l [] h' l' → l' = l.
Proof.
  intros Hi [E1 E2 E3 E4 E5 E6 E7]. pose proof (hr_tiled _ _ (hi_rep _ _ E1)) as T. rewrite E2, E3 in T.
  eapply (coalesced_unique l' l); [exact T|apply (hr_tiled _ _ (hi_rep _ _ Hi))|apply E1|apply Hi|].
  intros u. rewrite E4. split; [|by left]. by intros [?| ?%elem_of_nil].
Qed.

Lemma extends_perm h l ss ss' h' l' :
  (∀ u, u ∈ ss ↔ u ∈ ss') → extends h l ss h' l' → extends h l ss' h' l'.
Proof.
  intros Hss [E1 E2 E3 E4 E5 E6 E7]. split; try done.
  - intros u. by rewrite E4, Hss.
  - intros u Hu. apply E5. by apply Hss.
Qed.

Lemma room_le a b l : room a l → b <= a → room b l.
Proof. intros (s & H1 & H2 & H3) Hab. exists s. split_and!; [done|done|lia]. Qed.

Lemma clean_write h l s m' :
  heap_inv h l → in_use l s → clean h l →
  (∀ x, ¬ (block s <= x < seg_end s) → rd8 m' x = rd8 (h_mem h) x) → clean (with_mem h m') l.
Proof.
  intros Hi [Hs Hf] Hc Hm u x Hu Hfu Hx. cbn. rewrite Hm; [by apply (Hc u)|]. intros Hin.
  destruct (segs_apart _ _ _ s u (hr_tiled _ _ (hi_rep _ _ Hi)) Hs Hu); [congruence| |];
    unfold block, seg_end in *; lia.
Qed.

(** ** What a session keeps track of

    A session carries a predicate on the heap that allocations and stores into
    blocks in use preserve.  [F] says at which addresses the predicate promises
    that a block that is handed out is zero. *)
Class Tracked (I : Heap W → list seg → Prop) (F : Z → Prop) : Prop := {
  tr_alloc h l size h' l' s : heap_inv h l → I h l → allocated h l size h' l' s → I h' l';
  tr_fresh h l size h' l' s x : heap_inv h l → I h l → allocated h l size h' l' s → F x →
    block s <= x < seg_end s → rd8 (h_mem h') x = 0;
  tr_write h l s m' : heap_inv h l → in_use l s → I h l →
    (∀ x, ¬ (block s <= x < seg_end s) → rd8 m' x = rd8 (h_mem h) x) → I (with_mem h m') l
}.

(** Nothing, and: the heap is [clean] if [c] holds. *)
Definition untracked h (l : list seg) : Prop := True.
Definition when_clean (c : Prop) h (l : list seg) : Prop := c → clean h l.

#[export] Instance untracked_Tracked : Tracked untracked (λ _, False).
Proof. by split. Qed.

#[export] Instance when_clean_Tracked c : Tracked (when_clean c) (λ _, c).
Proof.
  split; unfold when_clean.
  - intros h l size h' l' s _ Hc A Hcl. by eapply clean_allocated; [apply Hc|].
  - intros h l size h' l' s x _ Hc A Hcl. by apply (clean_allocated _ _ _ _ _ _ (Hc Hcl) A).
  - intros h l s m' Hi Hu Hc Hm Hcl. by eapply clean_write; [| |apply Hc|].
Qed.

(** No block in use covers [x]. *)
Definition unused (l : list seg) (x : Z) : Prop := ∀ u, in_use l u → ¬ (block u <= x < seg_end u).

(** A small heap that is zero at the addresses of [P], what is in use and the
    low bytes of the headers apart. *)
Definition tidy (P : Z → Prop) h (l : list seg) : Prop :=
  heapEnd h <= 2^24 ∧
  ∀ x, P x → heapStart h <= x < heapEnd h → unused l x → ¬ low l x → rd8 (h_mem h) x = 0.

Lemma allocated_unused h l size h' l' s x : allocated h l size h' l' s → unused l' x → unused l x.
Proof. intros A Hx u Hu. apply Hx. apply (al_use _ _ _ _ _ _ A). by left. Qed.

Lemma carve_addr size s u : u ∈ [s] → ∃ v, v ∈ carve size s ∧ s_addr v = s_addr u.
Proof.
  intros Hu. apply list_elem_of_singleton in Hu as ->. unfold carve.
  destruct (_ && _); (eexists; split; [by apply elem_of_cons; left|done]).
Qed.

Lemma allocated_low h l size h' l' s x : allocated h l size h' l' s → low l x → low l' x.
Proof.
  intros A. apply low_incl. destruct (spec_alloc_split _ _ _ _ (al_spec _ _ _ _ _ _ A))
    as (pre & q & post & -> & _ & _ & _ & ->). intros u [Hu|[->|Hu]%elem_of_cons]%elem_of_app.
  - exists u. split; [apply elem_of_app; by left|done].
  - destruct (carve_addr (align16 size) q q) as (v & Hv & E); [by apply elem_of_cons; left|].
    exists v. split; [|done]. apply elem_of_app. right. apply elem_of_app. by left.
  - exists u. split; [|done]. apply elem_of_app. right. apply elem_of_app. by right.
Qed.

(** A free block has no header bytes of the list in it. *)
Lemma free_not_low h l f x :
  heap_inv h l → f ∈ l → block f <= x < seg_end f → ¬ low l x.
Proof.
  intros Hi Hf Hx (u & Hu & Ho). destruct (block_vs_header _ _ _ f u x (hr_tiled _ _ (hi_rep _ _ Hi)) Hf Hu Hx).
  all: unfold low_offsets in Ho; rewrite !elem_of_cons in Ho; lia || (rewrite elem_of_nil in Ho; lia).
Qed.

Lemma free_unused h l f x :
  heap_inv h l → f ∈ l → s_free f = true → block f <= x < seg_end f → unused l x.
Proof.
  intros Hi Hf Hfr Hx u [Hu Hfu] Hxu.
  destruct (segs_apart _ _ _ f u (hr_tiled _ _ (hi_rep _ _ Hi)) Hf Hu); [congruence| |];
    unfold block, seg_end in *; lia.
Qed.

#[export] Instance tidy_Tracked P : Tracked (tidy P) P.
Proof.
  split.
  - intros h l size h' l' s Hi [Hsm Hz] A.
    pose proof (al_start _ _ _ _ _ _ A) as Es. pose proof (al_end _ _ _ _ _ _ A) as Ee.
    split; [lia|]. intros x HP Hx Hu Hl. apply (al_zeros _ _ _ _ _ _ A Hsm); [lia|done|].
    apply Hz; [done|lia|by eapply allocated_unused|]. intros Hlow. apply Hl. by eapply allocated_low.
  - intros h l size h' l' s x Hi [Hsm Hz] A HP Hx.
    destruct (al_seg _ _ _ _ _ _ A) as [[Hs _] _].
    rewrite (al_bytes _ _ _ _ _ _ A s) by done.
    destruct (al_origin _ _ _ _ _ _ A s Hs (al_new _ _ _ _ _ _ A)) as (f & F1 & F2 & F3 & F4).
    destruct (tiled_in _ _ _ _ (hr_tiled _ _ (hi_rep _ _ Hi)) F1) as (? & ? & ?).
    apply Hz; [done|unfold block in *; lia|by eapply (free_unused h l f); [| | |lia]|].
    eapply (free_not_low h l f); [done|done|lia].
  - intros h l s m' Hi Hu [Hsm Hz] Hm. split; [done|]. intros x HP Hx Hun Hl. cbn.
    rewrite Hm by (by apply Hun). by apply Hz.
Qed.

(** ** Sessions *)

Record session (I : Heap W → list seg → Prop) h l (ss : list seg) h' l' : Prop := {
  sn_ext : extends h l ss h' l';
  sn_track : I h' l'
}.

Lemma session_refl I h l : I h l → heap_inv h l → session I h l [] h l.
Proof. intros Hc Hi. split; [by apply extends_refl|done]. Qed.

Lemma session_in_use {I} h l ss h' l' s : session I h l ss h' l' → s ∈ ss → in_use l' s.
Proof. intros [E _] Hs. apply (ex_use _ _ _ _ _ E). by right. Qed.

Lemma session_inv {I} h l ss h' l' : session I h l ss h' l' → heap_inv h' l'.
Proof. intros [E _]. apply E. Qed.

Lemma session_alloc {I F} `{!Tracked I F} h l ss h1 l1 size h2 l2 s :
  session I h l ss h1 l1 → allocated h1 l1 size h2 l2 s → session I h l (s :: ss) h2 l2.
Proof. intros [E C] A. split; [by eapply extends_alloc|]. eapply tr_alloc; [apply E|done|done]. Qed.

Lemma session_write {I F} `{!Tracked I F} h l ss h1 l1 s m' :
  session I h l ss h1 l1 → s ∈ ss →
  (∀ x, ¬ (block s <= x < seg_end s) → rd8 m' x = rd8 (h_mem h1) x) →
  session I h l ss (with_mem h1 m') l1.
Proof.
  intros Sn Hs Hm. pose proof (session_in_use _ _ _ _ _ _ Sn Hs) as Hu.
  pose proof (session_inv _ _ _ _ _ Sn) as Hi. destruct Sn as [E C].
  split; [by eapply extends_write|]. by eapply tr_write.
Qed.

(** Bytes that survive are not in the session's own blocks. *)
Lemma session_kept_apart {I} h l ss h' l' s a :
  session I h l ss h' l' → s ∈ ss → kept h l a → a < block s ∨ seg_end s <= a.
Proof.
  intros Sn Hs Ha. pose proof (session_in_use _ _ _ _ _ _ Sn Hs) as Hu. destruct Sn as [[E1 E2 E3 E4 E5 E6 E7] _].
  pose proof (block_on_heap _ _ _ E1 Hu). destruct Ha as [[Ha _]|(u & Hv & Ha)]; [lia|].
  destruct (blocks_apart h' l' s u E1 Hu); [apply E4; by left|intros ->; by apply (E5 u)|lia|lia].
Qed.

Lemma session_kept {I} h l ss h' l' a : session I h l ss h' l' → kept h l a → rd8 (h_mem h') a = rd8 (h_mem h) a.
Proof. intros [E _]. apply E. Qed.

Lemma session_fuel {I} h l ss h' l' : session I h l ss h' l' → search_fuel h' = search_fuel h.
Proof. intros [E _]. unfold search_fuel. by rewrite (ex_start _ _ _ _ _ E), (ex_end _ _ _ _ _ E). Qed.

Lemma session_malloc {I F} `{!Tracked I F} tries fuel h l ss h1 l1 size :
  session I h l ss h1 l1 → 0 < size <= 2^47 → room (align16 size) l1 → (1 <= tries)%nat →
  (search_fuel h <= fuel)%nat →
  ∃ h2 l2 s, malloc tries fuel h1 size = Done (block s, h2) ∧ session I h l (s :: ss) h2 l2 ∧
    allocated h1 l1 size h2 l2 s ∧ ∀ n, room (align16 size + 29 + n) l1 → 16 <= n → room n l2.
Proof.
  intros Sn Hsz Hr Ht Hf. pose proof (session_inv _ _ _ _ _ Sn) as Hi.
  pose proof (search_fuel_enough _ _ Hi). rewrite (session_fuel _ _ _ _ _ Sn) in *.
  destruct (malloc_fit tries fuel h1 l1 size Hi Hsz Hr Ht ltac:(lia)) as (h2 & l2 & s & E & A & Hn).
  exists h2, l2, s. split; [done|]. split; [by eapply session_alloc|done].
Qed.

(** After a block was given back nothing is known of the free memory. *)
Lemma session_release {I} h l ss h1 l1 s h2 l2 :
  session I h l ss h1 l1 → s ∈ ss → released h1 l1 s h2 l2 →
  session untracked h l (filter (λ u, u ≠ s) ss) h2 l2.
Proof. intros [E _] Hs R. split; [by eapply extends_release|done]. Qed.

(** [initHeap] writes the first header and nothing else. *)
Lemma initHeap_frame h a n h' x :
  initHeap h a n = Done h' → x < a ∨ a + 29 <= x → rd8 (h_mem h') x = rd8 (h_mem h) x.
Proof.
  unfold initHeap. destruct (map_pages _ _ _) as [[p w]| | |]; [|discriminate..].
  rewrite bind_Done. intros E Hx. apply Done_inj in E. subst h'. unfold init_segment. cbn [h_mem].
  unfold set_free, set_last, set_next, set_length. mem_simpl. done.
Qed.

(** Someone else stores outside the heap while a session is open. *)
Lemma extends_outside h l ss h1 l1 m' :
  extends h l ss h1 l1 → heap_inv h l →
  (∀ a, heapStart h <= a < heapEnd h → rd8 m' a = rd8 (h_mem h1) a) →
  let m0 := splice (heapStart h) (heapEnd h) (h_mem h) m' in
  extends (with_mem h m0) l ss (with_mem h1 m') l1 ∧ heap_inv (with_mem h m0) l.
Proof.
  intros [E1 E2 E3 E4 E5 E6 E7] Hi Hm m0.
  assert (∀ g lg u a, heap_inv g lg → u ∈ lg → s_addr u <= a < s_addr u + 29 →
    heapStart g <= a < heapEnd g) as Hhdr.
  { intros g lg u a Hg Hu Ha. destruct (tiled_in _ _ _ _ (hr_tiled _ _ (hi_rep _ _ Hg)) Hu) as (? & ? & ?).
    unfold seg_end in *. lia. }
  split; [split; try done|].
  - apply write_inv; [done|]. intros u a Hu Ha. apply Hm. rewrite <- E2, <- E3. by eapply Hhdr.
  - intros a Ha. cbn [h_mem with_mem]. unfold m0. rewrite rd8_splice. case_decide as Hd; [|done].
    rewrite Hm by done. by apply E6.
  - apply write_inv; [done|]. intros u a Hu Ha. unfold m0. rewrite rd8_splice, decide_True; [done|].
    by eapply Hhdr.
Qed.

(** A session with one block that is given back. *)
Lemma extends_release_one h l s h1 l1 h2 l2 :
  heap_inv h l → extends h l [s] h1 l1 → released h1 l1 s h2 l2 → extends h l [] h2 l.
Proof.
  intros Hi X R. pose proof (extends_release h l [s] h1 l1 s h2 l2 X ltac:(by apply elem_of_cons; left) R) as X2.
  eapply (extends_perm _ _ _ []) in X2; [by rewrite (extends_restored _ _ _ _ Hi X2) in X2|].
  intros u. rewrite list_elem_of_filter, elem_of_cons. split; [by intros (? & [?|?])|by intros ?%elem_of_nil].
Qed.
End Frame.
