(* ===== verification/BootPaging.v ===== *)
(** * kernel.cpp: the address space the kernel boots into

    The region "Init Paging" of [_start]: a fresh root table, the loop that
    maps every page of the boot loader's memory map, and the loop that maps
    the first 16 MiB to themselves; then "Init Heap", which maps the heap's
    pages over part of them.

    The reference is a plan, the list of the pairs (virtual page, frame) in
    the order in which the loops map them; the theorems say that the address
    space the processor sees is the plan, the last pair for a page winning,
    and what that means for the kernel, the direct map and low memory. *)

From S2P Require Import Prelude Memory Bitmap MemUtils PageFrameAllocator PfaInit.
From S2P Require Import PageEntry PageSource Paging PagingLive Paged PageMapper.
From S2P Require Import Heap HeapSpec HeapRefine HeapMalloc HeapGrow HeapClient.

(** ** The loops *)

(** [PageTable_MapMemory(globalPageTable, virt, phys)] *)
Definition map_to (k : Machine) (virt phys : Z) : outcome Machine :=
  '(m, p) ← PageTable_MapMemory (ram k) (pfa k) (globalPageTable k) virt phys;
  Done (mkMachine m p (globalPageTable k)).

Section Boot.
Context (mem_hhdmOffset mem_kVirtOffset : Z).

Definition sizeInPages (entry : limine_memmap_entry) : Z :=
  let n := e_length entry / 4096 in
  if negb (e_length entry mod 4096 =? 0) then to_u64 (n + 1) else n.

Definition page_phys (entry : limine_memmap_entry) (pageIdx : Z) : Z :=
  to_u64 (e_base entry + to_u64 (pageIdx * 4096)).

Definition page_virt (entry : limine_memmap_entry) (pageIdx : Z) : Z :=
  if e_type entry =? LIMINE_MEMMAP_KERNEL_AND_MODULES
  then to_u64 (mem_kVirtOffset + to_u64 (pageIdx * 4096))
  else toVirt mem_hhdmOffset (page_phys entry pageIdx).

(** The loops over the memory map and over low memory, for any call [map] that
    maps a page. *)
Section Loops.
Context {St : Type} (map : St → Z → Z → outcome St).

Definition map_entry_pages (entry : limine_memmap_entry) (k : St) : outcome St :=
  for_loop (Z.to_nat (sizeInPages entry)) 0
    (λ pageIdx k, map k (page_virt entry pageIdx) (page_phys entry pageIdx)) k.

Definition map_memmap (memmap : limine_memmap_response) (k : St) : outcome St :=
  for_entries memmap map_entry_pages k.

(** [for(u64 i = 0; i < mb(16); i += 0x1000)]: 4096 rounds. *)
Definition map_low (k : St) : outcome St :=
  for_loop (Z.to_nat (16 * 1024 * 1024 / 0x1000)) 0
    (λ n k, let i := n * 0x1000 in map k i i) k.
End Loops.

(** The region "Init Paging". *)
Definition init_paging (memmap : limine_memmap_response) (m : mem) (p : Pfa) : outcome Machine :=
  '(globalPageTable, p) ← mem_pageframeallocator_requestPage p;
  let m := (memset m globalPageTable 0 0x1000).2 in
  k ← map_memmap map_to memmap (mkMachine m p globalPageTable);
  map_low map_to k.

(** ** The plan *)

Definition entry_plan (e : limine_memmap_entry) : list (Z * Z) :=
  (λ i, (page_virt e i, page_phys e i)) <$> seqZ 0 (sizeInPages e).

Definition low_plan : list (Z * Z) := (λ n, (n * 4096, n * 4096)) <$> seqZ 0 4096.

Definition boot_plan (l : list limine_memmap_entry) : list (Z * Z) :=
  concat (entry_plan <$> l) ++ low_plan.

Definition map_plan (l : list (Z * Z)) (k : Machine) : outcome Machine :=
  foldM (λ vp k, map_to k vp.1 vp.2) l k.
End Boot.

(** The page number of an address, in the bits the processor translates. *)
Definition page_no (va : Z) : Z := (va / 4096) mod 2^36.

(** The last pair of a plan for the page of an address. *)
Definition planned (l : list (Z * Z)) (va : Z) : option Z :=
  vp ← last (filter (λ vp, page_no vp.1 = page_no va) l);
  Some (vp.2 / 4096 * 4096 + va mod 4096).

(** ** One mapping, and a whole plan *)

Definition space (k : Machine) (va : Z) : option Z := translate (ram k) (globalPageTable k) va.

Record remapped (k : Machine) (tr : Z → option Z) (k' : Machine) : Prop := {
  rm_ok : machine_ok k';
  rm_root : globalPageTable k' = globalPageTable k;
  rm_space va : space k' va = tr va;
  rm_alloc b : b mod 4096 = 0 → 0 <= b → allocated (pfa k) b → allocated (pfa k') b
}.

Lemma map_to_spec k v f :
  machine_ok k → 0 <= f < 2^52 →
  map_to k v f = Panicked "Out of memory" ∨
  ∃ k', map_to k v f = Done k' ∧
    remapped k (λ va, if decide (page_no v = page_no va) then Some (f / 4096 * 4096 + va mod 4096)
                      else space k va) k'.
Proof.
  intros [Hpt Hok] Hf. unfold map_to.
  destruct (MapMemory_cases (globalPageTable k) (ram k) (pfa k) v f Hpt Hok) as [[[m p] E]|E];
    rewrite E; [right|by left].
  pose proof (MapMemory_spec _ _ _ _ _ _ _ Hpt Hok Hf E) as [M1 M2 M3 M4].
  eexists. split; [done|]. split; try done.
  intros va. unfold space. cbn [ram globalPageTable]. case_decide as Hp.
  - apply M2, indexer_eq. done.
  - apply M3. intros He%indexer_eq. by apply Hp.
Qed.

Lemma map_plan_spec k l :
  machine_ok k → Forall (λ vp, 0 <= vp.2 < 2^52) l →
  map_plan l k = Panicked "Out of memory" ∨
  ∃ k', map_plan l k = Done k' ∧
    remapped k (λ va, match planned l va with Some a => Some a | None => space k va end) k'.
Proof.
  intros Hk. induction l as [|[v f] l IH] using rev_ind; intros Hl.
  { right. exists k. by split. }
  apply Forall_app in Hl as [Hl Hf]. apply Forall_cons in Hf as [Hf _]. cbn [snd] in Hf. unfold map_plan in *. rewrite foldM_app.
  destruct (IH Hl) as [->|(k1 & -> & [O1 R1 S1 A1])]; [by left|]. cbn [mbind outcome_bind foldM fst snd].
  destruct (map_to_spec k1 v f O1 Hf) as [->|(k2 & -> & [O2 R2 S2 A2])]; [by left|right].
  exists k2. split; [done|]. split; [done|congruence| |auto].
  intros va. rewrite S2. unfold planned. rewrite filter_app, filter_cons, filter_nil. cbn [fst].
  case_decide.
  - by rewrite last_snoc.
  - rewrite app_nil_r. apply S1.
Qed.

(** ** The loops follow the plan *)

Lemma sizeInPages_nonneg e : 0 <= e_length e → 0 <= sizeInPages e.
Proof.
  intros. unfold sizeInPages. case_cmp; cbn [negb]; [zlia|apply to_u64_range].
Qed.

Section Plan.
Context {St : Type} (map : St → Z → Z → outcome St).
Let follow (l : list (Z * Z)) (k : St) : outcome St := foldM (λ vp k, map k vp.1 vp.2) l k.

Lemma map_entry_plan off kv e k :
  0 <= sizeInPages e → map_entry_pages off kv map e k = follow (entry_plan off kv e) k.
Proof.
  intros. unfold map_entry_pages, follow, entry_plan.
  by rewrite foldM_fmap, for_loop_foldM, Z2Nat.id.
Qed.

Lemma map_low_plan k : map_low map k = follow low_plan k.
Proof. unfold map_low, follow, low_plan. by rewrite foldM_fmap, for_loop_foldM. Qed.

Lemma map_memmap_plan off kv mm k :
  memmap_ok mm → map_memmap off kv map mm k = follow (concat (entry_plan off kv <$> mm_entries mm)) k.
Proof.
  intros Hmm. unfold map_memmap, follow. rewrite for_entries_foldM by done.
  rewrite <- foldM_nested. destruct Hmm as [_ Hmm]. revert k.
  induction Hmm as [|e l He Hl IH]; intros k; cbn [foldM]; [done|].
  rewrite map_entry_plan by (apply sizeInPages_nonneg, He). unfold follow at 1.
  destruct (foldM _ (entry_plan off kv e) k); cbn; [apply IH|done..].
Qed.

Lemma boot_loops_follow off kv mm k :
  memmap_ok mm →
  (k ← map_memmap off kv map mm k; map_low map k) = follow (boot_plan off kv (mm_entries mm)) k.
Proof.
  intros Hmm. rewrite map_memmap_plan by done. unfold boot_plan, follow. rewrite foldM_app.
  destruct (foldM _ _ k); cbn [mbind outcome_bind]; [apply map_low_plan|done..].
Qed.
End Plan.

Lemma boot_loops_plan off kv mm k :
  memmap_ok mm →
  (k ← map_memmap off kv map_to mm k; map_low map_to k) = map_plan (boot_plan off kv (mm_entries mm)) k.
Proof. apply boot_loops_follow. Qed.

(** ** The fresh root table *)

Lemma empty_space k T :
  tree_inv (globalPageTable k) (ram k) (pfa k) T → T = {[ [] := globalPageTable k ]} →
  ∀ va, space k va = None.
Proof.
  intros HT -> va. unfold space. rewrite (translate_leaf _ _ _ _ va HT). cbn zeta.
  unfold leaf_entry. rewrite lookup_singleton_ne by done. done.
Qed.

Lemma root_tree m p root p' :
  src_ok p → requestPage p = Done (root, p') →
  tree_inv root (memset m root 0 0x1000).2 p' {[ [] := root ]}.
Proof.
  intros Hok Hr. destruct (request_frame _ _ _ Hok Hr) as [Hm Hb].
  apply root_tree_ok; [done|done| |].
  - apply (request_allocated _ _ _ root Hok Hr); [done|lia|by left].
  - intros a Ha. rewrite rd8_memset, decide_True by lia. done.
Qed.

Lemma root_machine m p root p' :
  src_ok p → requestPage p = Done (root, p') →
  let k := mkMachine (memset m root 0 0x1000).2 p' root in
  machine_ok k ∧ ∀ va, space k va = None.
Proof.
  intros Hok Hr k. pose proof (root_tree m p root p' Hok Hr) as HT.
  split; [|by apply (empty_space k _ HT)]. split; [by eexists|]. by apply (request_ok p root p').
Qed.

(** ** What is planned for a page *)

Lemma planned_app l1 l2 va :
  planned (l1 ++ l2) va = match planned l2 va with Some a => Some a | None => planned l1 va end.
Proof.
  unfold planned. rewrite filter_app, last_app.
  by destruct (last (filter _ l2)) as [vp|].
Qed.

Lemma planned_None l va : (∀ vp, vp ∈ l → page_no vp.1 ≠ page_no va) → planned l va = None.
Proof.
  intros H. unfold planned. destruct (last _) as [vp|] eqn:E; [|done].
  apply last_Some_elem_of, list_elem_of_filter in E as [E1 E2]. by destruct (H vp E2).
Qed.

Lemma planned_in l va a :
  planned l va = Some a →
  ∃ vp, vp ∈ l ∧ page_no vp.1 = page_no va ∧ a = vp.2 / 4096 * 4096 + va mod 4096.
Proof.
  unfold planned. destruct (last _) as [vp|] eqn:E; [|done]. intros [= <-]. exists vp.
  by apply last_Some_elem_of, list_elem_of_filter in E as [? ?].
Qed.

(** All pairs for a page agree on the frame. *)
Lemma planned_agree l vp va :
  vp ∈ l → page_no vp.1 = page_no va →
  (∀ vp', vp' ∈ l → page_no vp'.1 = page_no va → vp'.2 / 4096 = vp.2 / 4096) →
  planned l va = Some (vp.2 / 4096 * 4096 + va mod 4096).
Proof.
  intros Hin Hp Hall. destruct (planned l va) as [a|] eqn:E.
  - apply planned_in in E as (vp' & H1 & H2 & ->). by rewrite (Hall vp').
  - exfalso. unfold planned in E. destruct (last _) eqn:El; [done|].
    apply last_None in El. assert (vp ∈ filter (λ vp, page_no vp.1 = page_no va) l) as H
      by (by apply list_elem_of_filter). rewrite El in H. by apply elem_of_nil in H.
Qed.

(** ** Page numbers of the mapped pages *)

Lemma page_no_to_u64 a : page_no (to_u64 a) = page_no a.
Proof. unfold page_no, to_u64. zlia. Qed.

Lemma page_no_add a n : page_no (a + n * 4096) = (page_no a + n) mod 2^36.
Proof. unfold page_no. rewrite Z.div_add by lia. by rewrite Z.add_mod_idemp_l by lia. Qed.

Lemma page_no_range a : 0 <= page_no a < 2^36.
Proof. apply Z.mod_pos_bound. lia. Qed.

(** The addresses the boot loader chose: the direct map above the identity
    mapped 16 MiB, the kernel above the direct map, physical addresses in the
    52 bits of an entry. *)
Record boot_layout (off kv : Z) (l : list limine_memmap_entry) : Prop := {
  bl_entries : Forall entry_ok l;
  bl_phys : memory_top l <= 2^52;
  bl_off : off mod 4096 = 0;
  bl_kv : kv mod 4096 = 0;
  bl_low : 4096 <= page_no off;
  bl_direct : page_no off * 4096 + memory_top l <= page_no kv * 4096;
  bl_kernel e : e ∈ l → e_type e = LIMINE_MEMMAP_KERNEL_AND_MODULES →
    page_no kv + sizeInPages e <= 2^36
}.

Lemma sizeInPages_bound e i :
  entry_ok e → 0 <= i < sizeInPages e ↔ 0 <= i ∧ i * 4096 < e_length e.
Proof.
  intros (H1 & H2 & H3). unfold sizeInPages. case_cmp; cbn [negb].
  - split; zlia.
  - rewrite to_u64_id by zlia. split; zlia.
Qed.

Section Layout.
Context (off kv : Z) (l : list limine_memmap_entry).
Hypothesis Hl : boot_layout off kv l.

Lemma layout_entry e : e ∈ l → entry_ok e ∧ e_base e + e_length e <= memory_top l.
Proof.
  intros He. split; [|by apply memory_top_bound].
  pose proof (bl_entries _ _ _ Hl) as H. rewrite Forall_forall in H. by apply H.
Qed.

Lemma page_phys_eq e i :
  e ∈ l → 0 <= i < sizeInPages e →
  page_phys e i = e_base e + i * 4096 ∧ 0 <= page_phys e i < memory_top l.
Proof.
  intros He Hi. destruct (layout_entry e He) as [Hok Ht].
  apply sizeInPages_bound in Hi; [|done]. destruct Hok as (H1 & H2 & H3).
  unfold page_phys. rewrite (to_u64_id (i * 4096)), to_u64_id by (znorm; lia). lia.
Qed.

Lemma direct_page_no a :
  0 <= a < memory_top l → page_no (toVirt off a) = page_no off + a / 4096.
Proof.
  intros Ha. unfold toVirt. rewrite page_no_to_u64.
  pose proof (bl_direct _ _ _ Hl). pose proof (bl_off _ _ _ Hl).
  pose proof (page_no_range kv). unfold page_no in *. zlia.
Qed.

Lemma page_virt_direct e i :
  e ∈ l → 0 <= i < sizeInPages e → e_type e ≠ LIMINE_MEMMAP_KERNEL_AND_MODULES →
  page_no (page_virt off kv e i) = page_no off + page_phys e i / 4096.
Proof.
  intros He Hi Ht. destruct (page_phys_eq e i He Hi) as [_ Hp].
  unfold page_virt. destruct (Z.eqb_spec (e_type e) LIMINE_MEMMAP_KERNEL_AND_MODULES); [done|].
  by apply direct_page_no.
Qed.

Lemma page_virt_kernel e i :
  e ∈ l → 0 <= i < sizeInPages e → e_type e = LIMINE_MEMMAP_KERNEL_AND_MODULES →
  page_no (page_virt off kv e i) = page_no kv + i.
Proof.
  intros He Hi Ht. pose proof (bl_kernel _ _ _ Hl e He Ht).
  apply layout_entry in He as [(?&?&?) _]. pose proof Hi as [_ Hi']%sizeInPages_bound; [|done].
  unfold page_virt. rewrite Ht, Z.eqb_refl, page_no_to_u64, to_u64_id by (znorm; lia).
  rewrite page_no_add. pose proof (page_no_range kv). apply Z.mod_small. lia.
Qed.

(** The page [a] of the kernel lies [i] pages behind its base. *)
Lemma kernel_page_no e a :
  e ∈ l → e_type e = LIMINE_MEMMAP_KERNEL_AND_MODULES → e_base e <= a < e_base e + e_length e →
  let i := (a - e_base e) / 4096 in
  0 <= i < sizeInPages e ∧ page_no (to_u64 (kv + (a - e_base e))) = page_no kv + i.
Proof.
  intros He Ht Ha i. destruct (layout_entry e He) as [Hok _].
  assert (0 <= i < sizeInPages e) as Hi.
  { apply sizeInPages_bound; [done|]. unfold i. zlia. }
  split; [done|]. pose proof (bl_kernel _ _ _ Hl e He Ht). pose proof (bl_kv _ _ _ Hl).
  rewrite page_no_to_u64. pose proof (page_no_range kv). unfold page_no, i in *. zlia.
Qed.

Lemma entry_plan_elem e vp :
  vp ∈ entry_plan off kv e ↔ ∃ i, 0 <= i < sizeInPages e ∧ vp = (page_virt off kv e i, page_phys e i).
Proof.
  unfold entry_plan. rewrite list_elem_of_fmap. setoid_rewrite elem_of_seqZ.
  split; intros (i & H1 & H2); exists i; split; try done; lia.
Qed.

Lemma low_plan_elem vp : vp ∈ low_plan ↔ ∃ n, 0 <= n < 4096 ∧ vp = (n * 4096, n * 4096).
Proof.
  unfold low_plan. rewrite list_elem_of_fmap. setoid_rewrite elem_of_seqZ.
  split; intros (i & H1 & H2); exists i; split; try done; lia.
Qed.

Lemma low_page_no n : 0 <= n < 4096 → page_no (n * 4096) = n.
Proof. intros. unfold page_no. rewrite Z.div_mul by lia. apply Z.mod_small. lia. Qed.

Lemma planned_low va : 0 <= va < 2^24 → planned low_plan va = Some va.
Proof.
  intros Hv. rewrite (planned_agree _ (va / 4096 * 4096, va / 4096 * 4096)); cbn [fst snd].
  - f_equal. zlia.
  - apply low_plan_elem. exists (va / 4096). split; [zlia|done].
  - unfold page_no. zlia.
  - intros vp (n & Hn & ->)%low_plan_elem. cbn [fst snd]. rewrite low_page_no by done.
    unfold page_no. zlia.
Qed.

Lemma planned_low_None va : 4096 <= page_no va → planned low_plan va = None.
Proof.
  intros Hv. apply planned_None. intros vp (n & Hn & ->)%low_plan_elem. cbn [fst].
  rewrite low_page_no by done. lia.
Qed.

Lemma entries_plan_elem es vp :
  vp ∈ concat (entry_plan off kv <$> es) → ∃ e, e ∈ es ∧ vp ∈ entry_plan off kv e.
Proof. rewrite elem_of_concat. intros (x & H1 & (e & -> & H2)%list_elem_of_fmap). eauto. Qed.

Lemma entries_plan_intro es e vp :
  e ∈ es → vp ∈ entry_plan off kv e → vp ∈ concat (entry_plan off kv <$> es).
Proof.
  intros H1 H2. rewrite elem_of_concat. exists (entry_plan off kv e). split; [done|].
  by apply list_elem_of_fmap_2.
Qed.
End Layout.

(** ** Theorems *)

Section Space.
Context (off kv : Z) (mm : limine_memmap_response).
Hypothesis Hmm : memmap_ok mm.
Hypothesis Hl : boot_layout off kv (mm_entries mm).

Lemma boot_plan_phys : Forall (λ vp, 0 <= vp.2 < 2^52) (boot_plan off kv (mm_entries mm)).
Proof.
  apply Forall_app. split; apply Forall_forall; intros vp.
  - intros (e & He & (i & Hi & ->)%entry_plan_elem)%entries_plan_elem. cbn [snd].
    pose proof (page_phys_eq _ _ _ Hl e i He Hi). pose proof (bl_phys _ _ _ Hl). lia.
  - intros (n & Hn & ->)%low_plan_elem. cbn [snd]. lia.
Qed.

Lemma init_paging_spec m p :
  src_ok p →
  init_paging off kv mm m p = Panicked "Out of memory" ∨
  ∃ k, init_paging off kv mm m p = Done k ∧ machine_ok k ∧
    ∀ va, space k va = planned (boot_plan off kv (mm_entries mm)) va.
Proof.
  intros Hok. unfold init_paging.
  change mem_pageframeallocator_requestPage with (requestPage (W := Pfa)).
  destruct (request_fails p Hok) as [(root & p' & Hr)|Hr]; rewrite Hr; [|by left].
  rewrite bind_Done. cbn zeta. destruct (root_machine m p root p' Hok Hr) as [Hk0 Hs0].
  set (k0 := mkMachine _ _ _) in *. rewrite boot_loops_plan by done.
  destruct (map_plan_spec k0 _ Hk0 boot_plan_phys) as [->|(k & -> & [O R S A])]; [by left|right].
  exists k. split; [done|]. split; [done|]. intros va. rewrite S, Hs0. by destruct (planned _ va).
Qed.

Abbreviation plan := (boot_plan off kv (mm_entries mm)).

Lemma plan_high va :
  4096 <= page_no va → planned plan va = planned (concat (entry_plan off kv <$> mm_entries mm)) va.
Proof. intros. unfold boot_plan. by rewrite planned_app, planned_low_None. Qed.

Lemma plan_direct e a :
  e ∈ mm_entries mm → e_type e ≠ LIMINE_MEMMAP_KERNEL_AND_MODULES → e_base e mod 4096 = 0 →
  e_base e <= a < e_base e + e_length e → planned plan (toVirt off a) = Some a.
Proof.
  intros He Ht Hal Ha. pose proof (layout_entry _ _ _ Hl e He) as [Hok Htop].
  set (i := (a - e_base e) / 4096). assert (0 <= i < sizeInPages e) as Hi.
  { apply sizeInPages_bound; [done|]. unfold i. zlia. }
  pose proof (page_phys_eq _ _ _ Hl e i He Hi) as [Ep Hp].
  assert (page_phys e i / 4096 = a / 4096) as Eq by (rewrite Ep; unfold i; zlia).
  assert (page_no (toVirt off a) = page_no off + a / 4096) as Epn.
  { apply (direct_page_no _ _ _ Hl). destruct Hok as (? & ? & ?). lia. }
  rewrite plan_high.
  - rewrite (planned_agree _ (page_virt off kv e i, page_phys e i)); cbn [fst snd].
    + f_equal. rewrite Eq. pose proof (bl_off _ _ _ Hl). unfold toVirt, to_u64. zlia.
    + eapply entries_plan_intro; [done|]. apply entry_plan_elem. eauto.
    + rewrite (page_virt_direct _ _ _ Hl) by done. lia.
    + intros vp (e' & He' & (j & Hj & ->)%entry_plan_elem)%entries_plan_elem. cbn [fst snd].
      rewrite Epn. destruct (decide (e_type e' = LIMINE_MEMMAP_KERNEL_AND_MODULES)).
      * rewrite (page_virt_kernel _ _ _ Hl) by done. pose proof (bl_direct _ _ _ Hl). zlia.
      * rewrite (page_virt_direct _ _ _ Hl) by done. lia.
  - rewrite Epn. pose proof (bl_low _ _ _ Hl). destruct Hok. zlia.
Qed.

Lemma plan_kernel pre e post a :
  mm_entries mm = pre ++ e :: post → e_type e = LIMINE_MEMMAP_KERNEL_AND_MODULES →
  Forall (λ e, e_type e ≠ LIMINE_MEMMAP_KERNEL_AND_MODULES) post → e_base e mod 4096 = 0 →
  e_base e <= a < e_base e + e_length e →
  planned plan (to_u64 (kv + (a - e_base e))) = Some a.
Proof.
  intros E Ht Hpost Hal Ha.
  assert (e ∈ mm_entries mm) as He by (rewrite E; apply elem_of_middle).
  pose proof (layout_entry _ _ _ Hl e He) as [Hok Htop]. pose proof (bl_kv _ _ _ Hl) as Hkv.
  pose proof (bl_direct _ _ _ Hl) as Hdir. pose proof (bl_low _ _ _ Hl) as Hlow.
  destruct (kernel_page_no _ _ _ Hl e a He Ht Ha) as [Hi Epn]. set (i := (a - e_base e) / 4096) in *.
  pose proof (page_phys_eq _ _ _ Hl e i He Hi) as [Ep Hp].
  pose proof (memory_top_nonneg (mm_entries mm)).
  rewrite plan_high by (rewrite Epn; lia). rewrite E, fmap_app, fmap_cons, concat_app, !planned_app. cbn [concat].
  rewrite planned_app, (planned_None (concat (entry_plan off kv <$> post))).
  - rewrite (planned_agree _ (page_virt off kv e i, page_phys e i)); cbn [fst snd].
    + f_equal. rewrite Ep. unfold i, to_u64. zlia.
    + apply entry_plan_elem. eauto.
    + by rewrite (page_virt_kernel _ _ _ Hl), Epn.
    + intros vp (j & Hj & ->)%entry_plan_elem. cbn [fst snd].
      rewrite Epn, (page_virt_kernel _ _ _ Hl) by done. intros. by replace j with i by lia.
  - intros vp (e' & He' & (j & Hj & ->)%entry_plan_elem)%entries_plan_elem. cbn [fst].
    assert (e' ∈ mm_entries mm) as He'' by (rewrite E; apply elem_of_app_mid, elem_of_app; by right).
    rewrite Forall_forall in Hpost. rewrite Epn, (page_virt_direct _ _ _ Hl) by auto.
    pose proof (page_phys_eq _ _ _ Hl e' j He'' Hj) as [_ ?]. zlia.
Qed.

Lemma plan_nothing_else va a :
  planned plan va = Some a →
  page_no va < 4096 ∨
  (∃ e i, e ∈ mm_entries mm ∧ 0 <= i < sizeInPages e ∧ page_no va = page_no (page_virt off kv e i)).
Proof.
  intros (vp & [Hin|Hin]%elem_of_app & Hp & _)%planned_in.
  - right. apply entries_plan_elem in Hin as (e & He & (i & Hi & ->)%entry_plan_elem). by exists e, i.
  - left. apply low_plan_elem in Hin as (n & Hn & ->). rewrite <- Hp. cbn [fst].
    rewrite low_page_no; lia.
Qed.
End Space.

(** The kernel's pages as a list position: the last kernel entry of the map. *)
Definition last_kernel_entry (l : list limine_memmap_entry) (e : limine_memmap_entry) : Prop :=
  ∃ pre post, l = pre ++ e :: post ∧ e_type e = LIMINE_MEMMAP_KERNEL_AND_MODULES ∧
    Forall (λ e, e_type e ≠ LIMINE_MEMMAP_KERNEL_AND_MODULES) post.

(** C8: the address space the kernel boots into.  Building it either exhausts
    physical memory or returns well-formed page tables in which the first
    16 MiB are mapped to themselves, every byte of every page-aligned entry
    of the memory map that is not the kernel is found in the direct map, the
    bytes of the kernel's entry are found from the kernel's base on, and no
    other page is mapped. *)
Theorem init_paging_correct off kv mm m p :
  memmap_ok mm → boot_layout off kv (mm_entries mm) → pfa_ok p →
  init_paging off kv mm m p = Panicked "Out of memory" ∨
  ∃ k, init_paging off kv mm m p = Done k ∧ machine_ok k ∧
    (∀ va, 0 <= va < 2^24 → space k va = Some va) ∧
    (∀ e a, e ∈ mm_entries mm → e_type e ≠ LIMINE_MEMMAP_KERNEL_AND_MODULES →
       e_base e mod 4096 = 0 → e_base e <= a < e_base e + e_length e →
       space k (toVirt off a) = Some a) ∧
    (∀ e a, last_kernel_entry (mm_entries mm) e → e_base e mod 4096 = 0 →
       e_base e <= a < e_base e + e_length e →
       space k (to_u64 (kv + (a - e_base e))) = Some a) ∧
    (∀ va, is_Some (space k va) → page_no va < 4096 ∨
       ∃ e i, e ∈ mm_entries mm ∧ 0 <= i < sizeInPages e ∧ page_no va = page_no (page_virt off kv e i)).
Proof.
  intros Hmm Hl Hok. destruct (init_paging_spec off kv mm Hmm Hl m p Hok) as [?|(k & E & Hk & Hs)]; [by left|].
  right. exists k. split; [done|]. split; [done|]. split_and!.
  - intros va Hva. rewrite Hs. unfold boot_plan. by rewrite planned_app, planned_low.
  - intros e a He Ht Hal Ha. rewrite Hs. by eapply plan_direct.
  - intros e a (pre & post & E' & Ht & Hpost) Hal Ha. rewrite Hs. by eapply plan_kernel.
  - intros va [a Ha]. rewrite Hs in Ha. by eapply plan_nothing_else.
Qed.

(** C36: the loop maps every entry of the kind "kernel and modules" from the
    kernel's base on, so with two such entries the later one takes the pages
    of the earlier: the page that was meant for the first entry ends up as
    the second one's. *)
Theorem kernel_entries_collide off kv mm m p k e1 e2 :
  memmap_ok mm → boot_layout off kv (mm_entries mm) → pfa_ok p →
  init_paging off kv mm m p = Done k → is_u64 kv →
  e1 ∈ mm_entries mm → e_type e1 = LIMINE_MEMMAP_KERNEL_AND_MODULES →
  last_kernel_entry (mm_entries mm) e2 → e_base e2 mod 4096 = 0 →
  0 < e_length e1 → 0 < e_length e2 → e_base e1 ≠ e_base e2 →
  page_virt off kv e1 0 = kv ∧ page_phys e1 0 = e_base e1 ∧
  space k kv = Some (e_base e2) ∧ e_base e2 ≠ e_base e1.
Proof.
  intros Hmm Hl Hok E Hkv He1 Ht1 (pre & post & E' & Ht & Hpost) Hal Hn1 Hn2 Hne.
  destruct (init_paging_spec off kv mm Hmm Hl m p Hok) as [?|(k' & E'' & Hk & Hs)]; [congruence|].
  assert (k' = k) as -> by congruence. split_and!; [| | |done].
  - unfold page_virt. rewrite Ht1, Z.eqb_refl. rewrite (to_u64_id (0 * 4096)), Z.add_0_r by (znorm; lia).
    by apply to_u64_id.
  - destruct (layout_entry _ _ _ Hl e1 He1) as [Hok1 _].
    destruct (page_phys_eq _ _ _ Hl e1 0 He1) as [-> _]; [|lia].
    apply sizeInPages_bound; [done|lia].
  - pose proof (plan_kernel off kv mm Hl pre e2 post (e_base e2) E' Ht Hpost Hal ltac:(lia)) as H.
    rewrite Z.sub_diag, Z.add_0_r, to_u64_id in H by done. by rewrite Hs.
Qed.

(** ** Pages that the heap does not take *)

Lemma space_page k va :
  space k va = (f ← space k (page_no va * 4096); Some (f + va mod 4096)).
Proof.
  unfold space, translate.
  replace (PageMapIndexer_From (page_no va * 4096)) with (PageMapIndexer_From va)
    by (apply indexer_eq; unfold page_no; zlia).
  rewrite Z.mod_mul by lia. do 3 (destruct (walk _ _ _); [cbn|done]).
  destruct (walk_leaf _ _ _); cbn; [|done]. f_equal. lia.
Qed.

Lemma space_ext k k' va :
  space k' (page_no va * 4096) = space k (page_no va * 4096) → space k' va = space k va.
Proof. intros E. by rewrite (space_page k' va), (space_page k va), E. Qed.

Lemma initHeap_others (h h' : Heap Paged) addr n va :
  mapper_ok (h_world h) → addr mod 4096 = 0 → HEAP_BASE <= addr → 0 <= n → addr + 4096 * n <= LOW_END →
  page_no va < addr / 4096 ∨ addr / 4096 + n <= page_no va →
  initHeap h addr n = Done h' → space (h_world h') va = space (h_world h) va.
Proof.
  intros Hk Hm Ha Hn Hmax Hout Hd. unfold initHeap in Hd. inv_done. destruct r as [pos w].
  apply Done_inj in Hd as <-. cbn [h_world init_segment]. apply space_ext. pose proof (page_no_range va).
  exact (map_pages_others (h_world h) addr n (pos, w) (page_no va * 4096) Hk Hm Ha Hmax
    ltac:(split; [apply Z.mod_mul; lia|lia]) ltac:(zlia) E).
Qed.

(** ** Enough memory *)

(** The tables a plan needs, the root among them. *)
Definition plan_tables (l : list (Z * Z)) : gset (list Z) :=
  {[ [] ]} ∪ list_to_set (concat ((λ vp, table_paths vp.1) <$> l)).

Definition machine_supplied (S : gset (list Z)) (r : nat) (k : Machine) : Prop :=
  supplied_tables low_frame (globalPageTable k) S r (ram k) (pfa k).

Lemma plan_tables_paths l vp : vp ∈ l → Forall (.∈ plan_tables l) (table_paths vp.1).
Proof.
  intros Hin. apply Forall_forall. intros x Hx. unfold plan_tables. apply elem_of_union_r.
  apply elem_of_list_to_set, elem_of_concat. exists (table_paths vp.1). split; [done|].
  apply list_elem_of_fmap. eauto.
Qed.

Lemma plan_tables_root l : [] ∈ plan_tables l ∧ size (plan_tables l) ≠ 0%nat.
Proof.
  assert ([] ∈ plan_tables l) as Hin by (apply elem_of_union_l, elem_of_singleton; done).
  split; [done|]. intros E%size_empty_iff. apply E in Hin. by apply elem_of_empty in Hin.
Qed.

Lemma map_to_live S r k v f :
  machine_supplied S r k → Forall (.∈ S) (table_paths v) →
  ∃ k', map_to k v f = Done k' ∧ machine_supplied S r k'.
Proof.
  intros Hk HS. unfold map_to.
  destruct (MapMemory_live low_frame _ _ _ v f S r Hk HS) as (m & p & -> & Hs). eexists. split; [done|]. exact Hs.
Qed.

Lemma map_plan_live S r k l :
  machine_supplied S r k → (∀ vp, vp ∈ l → Forall (.∈ S) (table_paths vp.1)) →
  ∃ k', map_plan l k = Done k' ∧ machine_supplied S r k'.
Proof.
  revert k. unfold map_plan. induction l as [|vp l IH]; intros k Hk HS; [by exists k|]. cbn [foldM].
  destruct (map_to_live S r k vp.1 vp.2 Hk) as (k1 & -> & Hk1); [apply HS, elem_of_cons; by left|].
  rewrite bind_Done. apply IH; [done|]. intros vp' H. apply HS, elem_of_cons. by right.
Qed.

Lemma init_paging_live off kv mm m p l r :
  memmap_ok mm → src_ok p →
  let S := plan_tables (boot_plan off kv (mm_entries mm) ++ l) in
  can_serve low_frame (size S + r) p →
  ∃ k, init_paging off kv mm m p = Done k ∧ machine_supplied S r k.
Proof.
  intros Hmm Hok S Hserve.
  pose proof (plan_tables_root (boot_plan off kv (mm_entries mm) ++ l)) as [Hroot Hsz]. fold S in Hroot, Hsz.
  replace (size S + r)%nat with (1 + (size S - 1 + r))%nat in Hserve by lia.
  destruct Hserve as (root & p' & Hr & Hlow & Hserve). unfold init_paging.
  change mem_pageframeallocator_requestPage with (requestPage (W := Pfa)). rewrite Hr, bind_Done. cbn zeta.
  rewrite boot_loops_plan by done. set (k0 := mkMachine _ _ _).
  assert (machine_supplied S r k0) as Hk0.
  { split; [by apply (request_ok p root p')|]. exists {[ [] := root ]}. split; [by apply (root_tree m p)|].
    split; [by rewrite dom_singleton_L; apply singleton_subseteq_l| |by rewrite map_size_singleton].
    by intros q t [_ <-]%lookup_singleton_Some. }
  apply map_plan_live; [done|]. intros vp Hvp. apply plan_tables_paths, elem_of_app. by left.
Qed.

(** A page that is mapped has its tables. *)
Lemma space_tables (k : Machine) T va :
  tree_inv (globalPageTable k) (ram k) (pfa k) T → is_Some (space k va) → Forall (.∈ dom T) (table_paths va).
Proof.
  intros HT Hs. unfold space in Hs. rewrite (translate_leaf _ _ _ _ va HT) in Hs. unfold leaf_entry, table_paths in *.
  cbn zeta in *. set (ix := PageMapIndexer_From va) in *.
  destruct (T !! [PT_i ix; PD_i ix; PDP_i ix]) as [t3|] eqn:E3; [|by destruct Hs].
  destruct (ti_parent _ _ _ _ HT _ _ _ E3) as ([t2 E2] & _). destruct (ti_parent _ _ _ _ HT _ _ _ E2) as ([t1 E1] & _).
  repeat constructor; by apply elem_of_dom.
Qed.

(** The kernel on its own tables, with the pages of [S] to come. *)
Definition paged_supplied (S : gset (list Z)) (r : nat) (T : gmap (list Z) Z) (k : Machine) : Prop :=
  reachable T k ∧ supplied low_frame S r T (pfa k).

Lemma paged_supplied_intro S r k :
  machine_supplied S r k → (∀ va, 0 <= va < LOW_END → space k va = Some va) → ∃ T, paged_supplied S r T k.
Proof.
  intros [Hok (T & HT & Hs)] Hid. exists T. split; [|done]. split; try done.
  - apply Hs.
  - intros v Hv. apply (space_tables k); [done|]. rewrite Hid; [done|]. unfold HEAP_BASE in Hv. lia.
  - intros va Hva. apply Hid. unfold HEAP_BASE, LOW_END in *. lia.
Qed.

(** The frame behind a page is in use, and no byte of it belongs to a table. *)
Definition off_tables (T : gmap (list Z) Z) (k : Machine) (v : Z) : Prop :=
  ∃ f, space k v = Some f ∧ frame_used k f ∧ ∀ a, f <= a < f + 4096 → ¬ in_table T a.

(** A heap page takes a page of the reserve. *)
Lemma map_new_page_live S r T (k : Paged) v :
  paged_supplied S (1 + r) T k → heap_page Paged v →
  ∃ k', paged_map_new_page k v = Done k' ∧ paged_supplied S r T k' ∧ off_tables T k' v.
Proof.
  intros [Hre [Hd Hf Hc]] Hv. replace (size S - size T + (1 + r))%nat with (1 + (size S - size T + r))%nat in Hc by lia.
  destruct Hc as (a' & p' & Hr' & _ & Hc).
  destruct (paged_map_machine T k v Hre Hv) as [(m & p & a & Hr & Ha & E & Em & Hre')|[E _]].
  2: { unfold paged_map_new_page in E. change mem_pageframeallocator_requestPage with (requestPage (W := Pfa)) in E.
    rewrite Hr', bind_Done in E.
    destruct (paged_map_heap T (mkPaged (mkMachine (ram k) p' (globalPageTable k))) v a'
      (reachable_request _ _ _ _ Hre Hr') (proj2 Hv) (proj2 (request_frame _ _ _ (re_src _ _ Hre) Hr'))
      (proj1 (request_frame _ _ _ (re_src _ _ Hre) Hr')))
      as (m' & _ & E' & _). rewrite E in E'. discriminate. }
  assert (p' = p) as -> by congruence. eexists. split; [exact E|]. split; [by split|].
  destruct (machine_map_spec k v _ (reachable_ok _ _ Hre) Em) as (a2 & p2 & Hr2 & _ & _ & _ & [_ M2 _ M4]).
  assert (a2 = a ∧ p2 = p) as [-> ->] by (split; congruence). destruct Hv as [[Hv0 _] _].
  exists a. split; [|split; [split_and!; try apply Ha|]].
  - unfold space. cbn [machine ram globalPageTable] in *. rewrite M2 by done. f_equal. destruct Ha. zlia.
  - apply M4; try apply Ha. apply (request_allocated _ _ _ _ (re_src _ _ Hre) Hr); try apply Ha. by left.
  - intros x Hx (q & t & Eq & Ht). destruct (ti_frame _ _ _ _ (re_tree _ _ Hre) q t Eq) as (Ht1 & Ht2 & Hal).
    apply (request_fresh _ _ _ (re_src _ _ Hre) Hr). replace a with t; [done|]. destruct Ha. zlia.
Qed.

Lemma map_pages_live S r T (k : Paged) pos n :
  paged_supplied S (n + r) T k → pos mod 4096 = 0 → HEAP_BASE <= pos → pos + 4096 * Z.of_nat n <= LOW_END →
  ∃ q, map_pages k pos (Z.of_nat n) = Done q ∧ paged_supplied S r T q.2 ∧
    ∀ i, 0 <= i < Z.of_nat n → off_tables T q.2 (pos + 4096 * i).
Proof.
  intros Hk Hal Hpos Hmax. unfold map_pages. rewrite Nat2Z.id. unfold HEAP_BASE, LOW_END in *.
  destruct (for_loop_inv (λ i (pk : Z * Paged), pk.1 = pos + 4096 * i ∧ paged_supplied S (n - Z.to_nat i + r) T pk.2 ∧
    ∀ j, 0 <= j < i → off_tables T pk.2 (pos + 4096 * j)) n 0
    (λ _ '(pos, w), w ← map_new_page w pos; Done (to_u64 (pos + 4096), w)) (pos, k)) as (q & E & _ & Hq & Ho);
    [|intros i [q k1] Hi (E & Hk1 & Ho); cbn [fst snd] in *; subst q
     |exists q; split; [done|]; replace (n - Z.to_nat (0 + Z.of_nat n) + r)%nat with r in Hq by lia; by split].
  - cbn [fst snd]. split; [lia|]. split; [|lia]. by replace (n - Z.to_nat 0 + r)%nat with (n + r)%nat by lia.
  - replace (n - Z.to_nat i + r)%nat with (1 + (n - Z.to_nat (i + 1) + r))%nat in Hk1 by lia.
    assert (heap_page Paged (pos + 4096 * i)) as Hv.
    { split; [split; [zlia|lia]|]. cbn. unfold HEAP_BASE, LOW_END. lia. }
    destruct (map_new_page_live S _ T k1 (pos + 4096 * i) Hk1 Hv) as (k2 & E & Hk2 & Hv2).
    cbn [map_new_page paged_mapper]. rewrite E, bind_Done, to_u64_id by (znorm; lia).
    eexists. split; [done|]. cbn [fst snd]. split; [lia|]. split; [done|]. intros j Hj.
    destruct (decide (j = i)) as [->|Hne]; [done|]. destruct (Ho j ltac:(lia)) as (f & Ef & Hu & Hf). exists f.
    split; [|split; [exact (map_used (W := Paged) k1 _ k2 f (ex_intro _ T (proj1 Hk1)) Hv E Hu)|done]].
    rewrite <- Ef. exact (map_others (W := Paged) k1 (pos + 4096 * i) k2 (pos + 4096 * j) (ex_intro _ T (proj1 Hk1)) Hv
      ltac:(split; [zlia|lia]) ltac:(lia) E).
Qed.

(** A page of the first 256 TiB to itself, on the kernel's own tables. *)
Lemma paged_map_identity S r T (k : Paged) v :
  paged_supplied S r T k → Forall (.∈ S) (table_paths v) → 0 <= v < 2^48 →
  ∃ k' T', paged_map_to k v v = Done k' ∧ map_to k v v = Done (machine k') ∧ paged_supplied S r T' k'.
Proof.
  intros [Hre Hs] HS Hv. pose proof Hre as [H1 H2 H3 H4 H5].
  assert (spares_low HEAP_BASE v v) as Hsp.
  { intros va Hva E. pose proof (indexer_compose va) as C. pose proof (indexer_compose v) as C'. cbn zeta in C, C'.
    rewrite E, C' in C. unfold HEAP_BASE in Hva. zlia. }
  destruct (MapMemory_live_tree low_frame (globalPageTable k) (ram k) (pfa k) T v v S r H1 H2 Hs HS)
    as (m' & w' & T' & E & O' & I' & U' & P').
  exists (mkPaged (mkMachine m' w' (globalPageTable k))), T'. unfold paged_map_to, map_to.
  rewrite (MapMemory_paged_eq low_frame HEAP_BASE low_frame_reach _ _ _ T v v S r H1 H2 Hs HS H5 Hsp) by lia.
  rewrite E, bind_Done. split; [done|]. split; [done|]. split; [|done]. split; try done.
  - apply P'.
  - intros x Hx. eapply Forall_impl; [exact (H4 x Hx)|]. intros q [t Hq]%elem_of_dom. apply elem_of_dom. exists t.
    by eapply lookup_weaken.
  - eapply (mapped_identity (globalPageTable k) HEAP_BASE (ram k) (pfa k) v v m' w'); [done|done|].
    apply MapMemory_spec; [by exists T|done|lia|done].
Qed.

Lemma low_pages_planned off kv l l' n :
  0 <= n < 4096 → Forall (.∈ plan_tables (boot_plan off kv l ++ l')) (table_paths (n * 4096)).
Proof.
  intros Hn. apply (plan_tables_paths _ (n * 4096, n * 4096)).
  apply elem_of_app. left. apply elem_of_app. right. apply low_plan_elem. by exists n.
Qed.

(** The largest usable entry holds the bitmap, the tables of the plan and of
    the later mappings [l], the pages of the heap, and leaves the three pages
    the allocator keeps back; below the heap, at 8 MiB, there is usable memory
    for all but those three, so that no table lies where the heap is mapped or
    beyond the first 16 MiB. *)
Definition enough_memory_for (l : list (Z * Z)) (off kv : Z) (mm : limine_memmap_response) : Prop :=
  ∃ e, e ∈ mm_entries mm ∧ usable e ∧
    let n := bitmap_pages mm + Z.of_nat (size (plan_tables (boot_plan off kv (mm_entries mm) ++ l))) + 256 in
    4096 * (n + 3) <= e_length e ∧ n <= usable_below mm.
Definition enough_memory := enough_memory_for [].

Lemma boot_can_serve l off kv mm region seg p :
  boot_ok mm region → init_post mm off seg p → enough_memory_for l off kv mm →
  can_serve low_frame (size (plan_tables (boot_plan off kv (mm_entries mm) ++ l)) + 256) p.
Proof.
  intros Hb HI (e & He & Hu & Hlen & Hlow).
  apply (pfa_can_serve _ mm p p ∅ (run_inv_init _ _ _ _ _ Hb HI)).
  - by eapply init_zero_locked.
  - rewrite (ip_free _ _ _ _ HI). pose proof (ip_largest _ _ _ _ HI e He Hu). lia.
  - pose proof (init_low_free _ _ _ _ _ Hb HI). lia.
Qed.

(** ** Examples: a machine with 3 MiB *)

Definition boot_memmap : limine_memmap_response := mkMemmap 0 4
  [ mkEntry 4096 (155 * 4096) 0; mkEntry (160 * 4096) (96 * 4096) 1;
    mkEntry (256 * 4096) (496 * 4096) 0; mkEntry (752 * 4096) (16 * 4096) 6 ].

Definition boot_hhdm : Z := 0xffff800000000000.
Definition boot_kernel : Z := 0xffffffff80000000.
Definition boot_region : list Z := replicate 97 0.

Lemma boot_memmap_boot_ok : boot_ok boot_memmap boot_region.
Proof.
  split.
  - split; [done|]. repeat constructor; cbn; lia.
  - refine (entry_cases _ _ _). repeat constructor; vm_compute; done.
  - vm_compute. done.
  - exists (mkEntry 4096 (155 * 4096) 0). split; [by apply elem_of_cons; left|].
    vm_compute. split; done.
  - split; [vm_compute; done|]. apply Forall_replicate. znorm. lia.
Qed.

Lemma boot_memmap_layout : boot_layout boot_hhdm boot_kernel (mm_entries boot_memmap).
Proof.
  split; [apply boot_memmap_boot_ok|by vm_compute..|].
  refine (entry_cases _ _ _). by repeat constructor.
Qed.

Definition boot_kernel_entry : limine_memmap_entry := mkEntry (752 * 4096) (16 * 4096) 6.

Lemma boot_kernel_last : last_kernel_entry (mm_entries boot_memmap) boot_kernel_entry.
Proof.
  exists [mkEntry 4096 (155 * 4096) 0; mkEntry (160 * 4096) (96 * 4096) 1;
    mkEntry (256 * 4096) (496 * 4096) 0], []. by split_and!.
Qed.

(** The tables of the plan, counted without building the set. *)
Lemma plan_tables_bound l (P : list (list Z)) :
  NoDup P → [] ∈ P → (∀ vp, vp ∈ l → Forall (.∈ P) (table_paths vp.1)) → (size (plan_tables l) <= length P)%nat.
Proof.
  intros Hn H0 Hl. rewrite <- (size_list_to_set (C := gset (list Z)) P Hn). apply subseteq_size.
  intros x [->%elem_of_singleton|Hx%elem_of_list_to_set]%elem_of_union; apply elem_of_list_to_set; [done|].
  apply elem_of_concat in Hx as (t & Hx & Ht). apply list_elem_of_fmap in Ht as (vp & -> & Hvp).
  apply Hl in Hvp. rewrite Forall_forall in Hvp. by apply Hvp.
Qed.

Definition boot_tables : list (list Z) :=
  [[]; [0]; [0; 0]; [0; 0; 0]; [1; 0; 0]; [2; 0; 0]; [3; 0; 0]; [4; 0; 0]; [5; 0; 0]; [6; 0; 0]; [7; 0; 0];
   [256]; [0; 256]; [0; 0; 256]; [1; 0; 256]; [511]; [510; 511]; [0; 510; 511]].

Lemma boot_tables_ok : NoDup boot_tables ∧ [] ∈ boot_tables.
Proof. split; apply (bool_decide_unpack _); vm_compute; exact I. Qed.

Lemma low_tables n : 0 <= n < 4096 → Forall (.∈ boot_tables) (table_paths (n * 4096)).
Proof.
  intros Hn. unfold table_paths. rewrite indexer_fields. cbn [PDP_i PD_i PT_i].
  assert (n * 4096 / 2^39 mod 512 = 0) as -> by zlia. assert (n * 4096 / 2^30 mod 512 = 0) as -> by zlia.
  assert (n * 4096 / 2^21 mod 512 ∈ seqZ 0 8) as Hq by (apply elem_of_seqZ; zlia).
  rewrite !Forall_cons. split_and!; [by apply (bool_decide_unpack _); vm_compute..| |by constructor].
  revert Hq. generalize (n * 4096 / 2^21 mod 512). apply Forall_forall, (bool_decide_unpack _). vm_compute. exact I.
Qed.

Lemma enough_by_tables mm e :
  e ∈ mm_entries mm → usable e →
  forallb (λ vp, forallb (λ x, bool_decide (x ∈ boot_tables)) (table_paths vp.1))
    (concat (entry_plan boot_hhdm boot_kernel <$> mm_entries mm)) = true →
  4096 * (bitmap_pages mm + 18 + 256 + 3) <= e_length e → bitmap_pages mm + 18 + 256 <= usable_below mm →
  enough_memory boot_hhdm boot_kernel mm.
Proof.
  intros He Hu Hp Hlen Hlow. exists e. split; [done|]. split; [done|].
  assert (size (plan_tables (boot_plan boot_hhdm boot_kernel (mm_entries mm) ++ [])) <= length boot_tables)%nat as Hs.
  { apply plan_tables_bound; [apply boot_tables_ok..|]. intros vp. rewrite app_nil_r. intros [Hv|Hv]%elem_of_app.
    - rewrite forallb_forall in Hp. apply list_elem_of_In, Hp in Hv. apply Forall_forall. intros x Hx.
      rewrite forallb_forall in Hv. apply list_elem_of_In, Hv in Hx. by apply bool_decide_eq_true in Hx.
    - apply list_elem_of_fmap in Hv as (n & -> & Hn%elem_of_seqZ). apply low_tables. lia. }
  change (length boot_tables) with 18%nat in Hs. lia.
Qed.

Lemma boot_enough : enough_memory boot_hhdm boot_kernel boot_memmap.
Proof.
  apply (enough_by_tables boot_memmap (mkEntry (256 * 4096) (496 * 4096) 0)); [|done|by vm_compute..].
  by do 2 (apply elem_of_cons; right); apply elem_of_cons; left.
Qed.

(** The machine before its heap. *)
Lemma paging_returns mm :
  boot_ok mm boot_region → enough_memory boot_hhdm boot_kernel mm →
  ∃ p k, pfa_ok p ∧ init_paging boot_hhdm boot_kernel mm ∅ p = Done k.
Proof.
  intros Hb Hm. destruct (init_spec mm boot_hhdm boot_region Hb) as (seg & p & _ & HI).
  pose proof (ip_ok _ _ _ _ HI) as Hok. pose proof (bo_memmap _ _ Hb) as Hmm.
  destruct (init_paging_live boot_hhdm boot_kernel mm ∅ p [] 256 Hmm Hok
    (boot_can_serve _ _ _ _ _ _ _ Hb HI Hm)) as (k & E & _). by exists p, k.
Qed.

Lemma init_paging_correct_witness :
  ∃ p k, init_paging boot_hhdm boot_kernel boot_memmap ∅ p = Done k ∧ space k 0xABCDEF = Some 0xABCDEF.
Proof.
  destruct (paging_returns boot_memmap boot_memmap_boot_ok boot_enough) as (p & k & Hp & E).
  exists p, k. split; [exact E|].
  destruct (init_paging_correct boot_hhdm boot_kernel boot_memmap ∅ p
    (bo_memmap _ _ boot_memmap_boot_ok) boot_memmap_layout Hp) as [E'|(k' & E' & _ & H & _)].
  - rewrite E in E'. discriminate E'.
  - rewrite E in E'. apply Done_inj in E' as ->. apply H. lia.
Defined.

(** A memory map with a module behind the kernel. *)
Definition module_memmap : limine_memmap_response := mkMemmap 0 3
  [ mkEntry 4096 (495 * 4096) 0; mkEntry (512 * 4096) (16 * 4096) 6;
    mkEntry (640 * 4096) (4 * 4096) 6 ].

Lemma module_memmap_boot_ok : boot_ok module_memmap boot_region.
Proof.
  split.
  - split; [done|]. repeat constructor; cbn; lia.
  - refine (entry_cases _ _ _). repeat constructor; vm_compute; done.
  - vm_compute. done.
  - exists (mkEntry 4096 (495 * 4096) 0). split; [by apply elem_of_cons; left|].
    vm_compute. split; done.
  - split; [vm_compute; done|]. apply Forall_replicate. znorm. lia.
Qed.

Lemma module_memmap_layout : boot_layout boot_hhdm boot_kernel (mm_entries module_memmap).
Proof.
  split; [apply module_memmap_boot_ok|by vm_compute..|].
  refine (entry_cases _ _ _). by repeat constructor.
Qed.

Lemma module_enough : enough_memory boot_hhdm boot_kernel module_memmap.
Proof.
  apply (enough_by_tables module_memmap (mkEntry 4096 (495 * 4096) 0)); [by apply elem_of_cons; left|done|by vm_compute..].
Qed.

Lemma kernel_entries_collide_witness :
  ∃ p k, init_paging boot_hhdm boot_kernel module_memmap ∅ p = Done k ∧
    space k boot_kernel = Some (640 * 4096).
Proof.
  destruct (paging_returns module_memmap module_memmap_boot_ok module_enough) as (p & k & Hp & E).
  exists p, k. split; [exact E|].
  apply (kernel_entries_collide boot_hhdm boot_kernel module_memmap ∅ p k
    (mkEntry (512 * 4096) (16 * 4096) 6) (mkEntry (640 * 4096) (4 * 4096) 6)
    (bo_memmap _ _ module_memmap_boot_ok) module_memmap_layout Hp E); try (cbn; lia); try done.
  - by apply elem_of_cons; right; apply elem_of_cons; left.
  - exists [mkEntry 4096 (495 * 4096) 0; mkEntry (512 * 4096) (16 * 4096) 6], []. by split_and!.
Defined.
