(* ===== verification/BootMemory.v ===== *)
(** * Memory at boot, for the code that runs on it

    What memory the kernel does not use while it brings paging and the heap up
    stays as the firmware left it; the tables of later mappings have pages
    left; and the root of the page tables gets its entries one by one, each
    with a line on the serial port. *)

From S2P Require Import Prelude Memory Bitmap MemUtils PageFrameAllocator PfaInit.
From S2P Require Import PageEntry PageSource Paging PagingLive Paged PageMapper BootPaging.
From S2P Require Import Heap HeapSpec HeapRefine HeapMalloc HeapGrow HeapClient HeapRun HeapFrame.

(** ** Bytes that nobody touches *)

Definition spared (k : Machine) (a : Z) : Prop := untouched (globalPageTable k) (ram k) (pfa k) a.

(** What is spared in [k] is spared in [k'], with the same contents, under the
    same root, and the allocator has nothing to report. *)
Definition spares (k k' : Machine) : Prop :=
  (globalPageTable k' = globalPageTable k ∧ pfa_warnings (pfa k') = pfa_warnings (pfa k)) ∧
  ∀ a, spared k a → spared k' a ∧ rd8 (ram k') a = rd8 (ram k) a.

#[export] Instance spares_preorder : PreOrder spares.
Proof.
  split; [by intros k|]. intros k1 k2 k3 [[R12 W12] H12] [[R23 W23] H23]. split; [split; congruence|]. intros a Ha.
  destruct (H12 a Ha) as [H2 E2]. destruct (H23 a H2) as [H3 E3]. split; [done|congruence].
Qed.

Definition same_reports (p p' : Pfa) : Prop := pfa_warnings p' = pfa_warnings p.

#[export] Instance same_reports_preorder : PreOrder same_reports.
Proof. unfold same_reports. split; [by intros p|]. intros p1 p2 p3. congruence. Qed.

Lemma request_reports p a p' : src_ok p → requestPage p = Done (a, p') → same_reports p p'.
Proof.
  intros Hok Hr. apply requestPage_Done in Hr as (i & _ & _ & Hl & _); [|done].
  apply (same_warnings _ _ (lp_same _ _ _ Hl)).
Qed.

Lemma map_to_spares k v f k' : machine_ok k → map_to k v f = Done k' → spares k k'.
Proof.
  intros [_ Hok] Hd. unfold map_to in Hd. apply bind_Done_inv in Hd as ([m p] & E & Hd).
  apply Done_inj in Hd as <-.
  split; [split; [done|exact (MapMemory_source same_reports _ _ _ _ _ _ _ request_reports Hok E)]|].
  intros a Ha. exact (MapMemory_untouched _ _ _ _ _ _ _ a Hok E Ha).
Qed.

Lemma map_plan_spares l k k' :
  machine_ok k → Forall (λ vp, 0 <= vp.2 < 2^52) l → map_plan l k = Done k' → spares k k'.
Proof.
  revert k. unfold map_plan. induction l as [|vp l IH]; intros k Hk Hl Hd.
  { apply Done_inj in Hd as <-. done. }
  apply Forall_cons in Hl as [Hf Hl]. cbn [foldM] in Hd. apply bind_Done_inv in Hd as (k1 & E1 & Hd).
  transitivity k1; [by eapply map_to_spares|]. apply IH; [|done|done].
  destruct (map_to_spec k vp.1 vp.2 Hk Hf) as [E|(k2 & E & [O _ _ _])]; rewrite E1 in E; [discriminate|].
  by apply Done_inj in E as ->.
Qed.

Lemma request_spares k a p :
  src_ok (pfa k) → requestPage (pfa k) = Done (a, p) → spares k (mkMachine (ram k) p (globalPageTable k)).
Proof.
  intros Hok Hr. split; [split; [done|exact (request_reports _ _ _ Hok Hr)]|]. intros b (B1 & B2 & T & B3 & B4). split; [|done]. split; [done|]. split.
  - apply (request_allocated (pfa k) a p); [done|done|zlia|zlia|by right].
  - exists T. split; [|done]. cbn [globalPageTable ram pfa]. by eapply tree_request.
Qed.

Lemma map_new_page_spares k v k' : machine_ok k → machine_map_new_page k v = Done k' → spares k k'.
Proof.
  intros [Hpt Hok] Hd. unfold machine_map_new_page in Hd.
  apply bind_Done_inv in Hd as ([a p] & Hr & Hd).
  change (mem_pageframeallocator_requestPage (pfa k)) with (requestPage (pfa k)) in Hr.
  transitivity (mkMachine (ram k) p (globalPageTable k)); [by eapply request_spares|].
  apply (map_to_spares _ v a); [|exact Hd]. split; [by eapply pt_ok_request|by eapply request_ok].
Qed.

Lemma paged_map_spares (k k' : Paged) v :
  mapper_ok k → heap_page Paged v → map_new_page k v = Done k' → spares k k'.
Proof.
  intros [T Hre] Hv Hd. destruct (paged_map_machine T k v Hre Hv) as [(m & p & a & _ & _ & E & Em & _)|[E _]];
    cbn in Hd; rewrite Hd in E; [|discriminate]. apply Done_inj in E as ->.
  eapply map_new_page_spares; [by eapply reachable_ok|exact Em].
Qed.

Lemma map_pages_spares (k : Paged) pos n r :
  mapper_ok k → pos mod 4096 = 0 → HEAP_BASE <= pos → pos + 4096 * n <= LOW_END →
  map_pages k pos n = Done r → spares k r.2.
Proof.
  intros Hok Hal Hpos Hmax Hd. unfold map_pages in Hd. unfold HEAP_BASE, LOW_END in *.
  destruct (decide (n <= 0)) as [Hn|Hn].
  { replace (Z.to_nat n) with 0%nat in Hd by lia. by apply Done_inj in Hd as <-. }
  eapply (for_loop_inv_partial (λ i (pw : Z * Paged), pw.1 = pos + 4096 * i ∧ mapper_ok pw.2 ∧ spares k pw.2))
    in Hd as (_ & _ & ?); [done|cbn [fst snd]; split; [lia|done]|].
  intros i [q w1] s Hi (E & O & F) Hs. cbn [fst snd] in *. subst q. apply bind_Done_inv in Hs as (w2 & Hm & Hs).
  apply Done_inj in Hs as <-. cbn [fst snd]. assert (heap_page Paged (pos + 4096 * i)) as Hv.
  { split; [split; [zlia|lia]|]. cbn. unfold HEAP_BASE, LOW_END. lia. }
  rewrite to_u64_id by (znorm; lia). split; [lia|]. split; [exact (map_ok w1 _ w2 O Hv Hm)|].
  transitivity w1; [done|]. by eapply paged_map_spares.
Qed.

(** A frame that was in use before the root table was made is spared. *)
Lemma init_paging_spares off kv mm m p k a :
  memmap_ok mm → boot_layout off kv (mm_entries mm) → src_ok p → init_paging off kv mm m p = Done k →
  0 <= a → PageSource.allocated p (a / 4096 * 4096) → spared k a ∧ rd8 (ram k) a = rd8 m a.
Proof.
  intros Hmm Hl Hok Hd Ha Hal. unfold init_paging in Hd. apply bind_Done_inv in Hd as ([root p'] & Hr & Hd).
  change (mem_pageframeallocator_requestPage p) with (requestPage p) in Hr. cbn zeta in Hd.
  rewrite boot_loops_plan in Hd by done. set (k0 := mkMachine _ _ _) in *.
  destruct (root_machine m p root p' Hok Hr) as [Hk0 _]. destruct (request_frame _ _ _ Hok Hr) as [F1 F2].
  assert (¬ (root <= a < root + 4096)) as Hno.
  { intros Hin. apply (request_fresh _ _ _ Hok Hr). by replace root with (a / 4096 * 4096) by zlia. }
  assert (spared k0 a) as Hsp.
  { split; [done|]. split; [apply (request_allocated _ _ _ _ Hok Hr); [zlia|zlia|by right]|].
    exists {[ [] := root ]}. split; [by apply (root_tree m p)|].
    intros (q & t & Hq & Ht). apply lookup_singleton_Some in Hq as [_ <-]. done. }
  destruct (proj2 (map_plan_spares _ _ _ Hk0 (boot_plan_phys off kv mm Hl) Hd) a Hsp) as [H1 H2].
  split; [done|]. rewrite H2. cbn [ram k0]. rewrite rd8_memset, decide_False by lia. done.
Qed.

Lemma init_paging_reports off kv mm m p k :
  memmap_ok mm → boot_layout off kv (mm_entries mm) → src_ok p → init_paging off kv mm m p = Done k →
  same_reports p (pfa k).
Proof.
  intros Hmm Hl Hok Hd. unfold init_paging in Hd. apply bind_Done_inv in Hd as ([root p'] & Hr & Hd).
  change (mem_pageframeallocator_requestPage p) with (requestPage p) in Hr. cbn zeta in Hd.
  rewrite boot_loops_plan in Hd by done. destruct (root_machine m p root p' Hok Hr) as [Hk0 _].
  transitivity p'; [exact (request_reports _ _ _ Hok Hr)|].
  apply (map_plan_spares _ _ _ Hk0 (boot_plan_phys off kv mm Hl) Hd).
Qed.

(** The fresh root has no entries. *)
Lemma root_empty m p root p' i :
  src_ok p → requestPage p = Done (root, p') → 0 <= i < 512 →
  let k := mkMachine (memset m root 0 0x1000).2 p' root in
  pdp_present (ram k) (globalPageTable k) i = false.
Proof.
  intros Hok Hr Hi k. change (globalPageTable k) with root. apply not_true_is_false.
  rewrite (pdp_present_tree root (ram k) p' {[ [] := root ]} i).
  - rewrite lookup_singleton_ne by done. by intros [? ?].
  - by apply (root_tree m p).
  - done.
Qed.

(** Memory that the memory map does not call usable. *)
Definition set_aside (mm : limine_memmap_response) (a : Z) : Prop :=
  0 <= a ∧ a / 4096 < total_pages mm ∧ usable_page mm (a / 4096) = false.

Lemma set_aside_allocated mm off seg p a :
  init_post mm off seg p → set_aside mm a → PageSource.allocated p (a / 4096 * 4096).
Proof.
  intros HI (H1 & H2 & H3). cbn. rewrite Z.div_mul by lia. rewrite (ip_locked _ _ _ _ HI) by zlia. by rewrite H3.
Qed.

(** ** Paging and heap together *)

(** [initHeap(0x800000, mb(1) / kb(4))] on the tables that were loaded into
    CR3; [hm] is what the heap's pages hold. *)
Definition init_memory (off kv : Z) (memmap : limine_memmap_response) (m hm : mem) (region : list Z)
  : outcome (Heap Paged) :=
  p ← mem_pageframeallocator_init pfa_boot memmap off region;
  k ← init_paging off kv memmap m p;
  initHeap (mkHeap hm 0 0 0 (mkPaged k)) 0x800000 (1 * 1024 * 1024 / (4 * 1024)).

(** The virtual memory from [a] to [b], and page zero, which a store through a
    null header reaches, lie on frames in use that hold no table; nor does
    memory that is not usable, where the kernel's image, the screen and the
    firmware's tables are. *)
Definition apart_from_tables (mm : limine_memmap_response) (k : Machine) (a b : Z) : Prop :=
  (∀ va, a <= va < b ∨ 0 <= va < 4096 → ∃ pa, space k va = Some pa ∧ spared k pa) ∧
  (∀ pa, set_aside mm pa → spared k pa).

(** The state after [initHeap]. *)
Record memory_up (off kv : Z) (mm : limine_memmap_response) (l : list (Z * Z)) (m hm : mem) (p : Pfa)
    (k : Machine) (h : Heap Paged) : Prop := {
  mu_range : heapStart h = 0x800000 ∧ heapEnd h = 0x900000;
  mu_inv : heap_inv h [mkSeg 0x800000 (0x100000 - 29) true];
  mu_supplied : ∃ T, paged_supplied (plan_tables (boot_plan off kv (mm_entries mm) ++ l)) 0 T (h_world h);
  mu_spared a : 0 <= a → PageSource.allocated p (a / 4096 * 4096) →
    spared (h_world h) a ∧ rd8 (ram (h_world h)) a = rd8 m a;
  mu_space va : page_no va < 2048 ∨ 2304 <= page_no va →
    space (h_world h) va = planned (boot_plan off kv (mm_entries mm)) va;
  mu_frames va : 0x800000 <= va < 0x900000 → ∃ pa, space (h_world h) va = Some pa ∧ spared (h_world h) pa;
  mu_mem x : x < 0x800000 ∨ 0x80001d <= x → rd8 (h_mem h) x = rd8 hm x;
  mu_root : globalPageTable (h_world h) = globalPageTable k;
  mu_reports : same_reports p (pfa (h_world h))
}.

Lemma machine_supplied_ok S r k : machine_supplied S r k → machine_ok k.
Proof. intros [Hok (T & HT & _)]. split; [by exists T|done]. Qed.

(** The pages of the heap, byte by byte. *)
Lemma heap_frames T (k : Machine) n va :
  reachable T k → n <= 2048 → (∀ i, 0 <= i < n → off_tables T k (0x800000 + 4096 * i)) →
  0x800000 <= va < 0x800000 + 4096 * n → ∃ pa, space k va = Some pa ∧ spared k pa.
Proof.
  intros Hre Hmax Ho Hva. set (i := (va - 0x800000) / 4096).
  destruct (Ho i ltac:(unfold i; zlia)) as (f & Ef & (F1 & F2 & F3) & Hn).
  exists (f + va mod 4096). split.
  - rewrite space_page. replace (page_no va * 4096) with (0x800000 + 4096 * i); [by rewrite Ef|]. unfold page_no, i. zlia.
  - split; [zlia|]. split; [by replace ((f + va mod 4096) / 4096 * 4096) with f by zlia|].
    exists T. split; [apply Hre|]. apply Hn. zlia.
Qed.

Lemma heap_up off kv mm l m hm p k :
  memmap_ok mm → boot_layout off kv (mm_entries mm) → src_ok p → init_paging off kv mm m p = Done k →
  machine_supplied (plan_tables (boot_plan off kv (mm_entries mm) ++ l)) 256 k →
  (∀ va, space k va = planned (boot_plan off kv (mm_entries mm)) va) →
  ∃ h, initHeap (mkHeap hm 0 0 0 (mkPaged k)) 0x800000 256 = Done h ∧ memory_up off kv mm l m hm p k h.
Proof.
  intros Hmm Hl Hok Ek Hsup Hs.
  destruct (paged_supplied_intro _ _ k Hsup) as [T HT].
  { intros va Hva. rewrite Hs. unfold boot_plan, LOW_END in *. by rewrite planned_app, planned_low. }
  set (h0 := mkHeap hm 0 0 0 (mkPaged k)). assert (mapper_ok (h_world h0)) as Hk0 by (exists T; apply HT).
  destruct (map_pages_live _ 0 T (mkPaged k) 0x800000 256 HT ltac:(done) ltac:(done) ltac:(done)) as (q & Eq & Hq & Ho).
  change (Z.of_nat 256) with 256 in Eq, Ho.
  destruct (initHeap_inv h0 0x800000 256 Hk0 ltac:(by split; [|lia]) ltac:(lia) ltac:(done) ltac:(lia) ltac:(done))
    as [E|(h & E & H1 & H2 & H3)].
  { unfold initHeap in E. cbn [h_world h0] in E. rewrite Eq in E. by destruct q. }
  assert (h_world h = q.2) as Ew.
  { unfold initHeap in E. cbn [h_world h0] in E. rewrite Eq in E. destruct q. rewrite bind_Done in E.
    apply Done_inj in E. by subst h. }
  destruct (map_pages_spares (mkPaged k) 0x800000 256 q Hk0 ltac:(done) ltac:(done) ltac:(done) Eq) as [[Hroot Hrep] Hsp].
  exists h. split; [done|]. split; [done|done|exists T; by rewrite Ew| | | | |by rewrite Ew|].
  - intros a Ha Hal. destruct (init_paging_spares off kv mm m p k a Hmm Hl Hok Ek Ha Hal) as [S1 S2].
    rewrite Ew. destruct (Hsp a S1) as [S3 S4]. split; [done|exact (eq_trans S4 S2)].
  - intros va Hv. rewrite <- Hs. change k with (machine (h_world h0)).
    eapply (initHeap_others h0 h 0x800000 256); try done; lia.
  - rewrite Ew. intros va. apply (heap_frames T q.2 256); [apply Hq|lia|done].
  - intros x Hx. apply (initHeap_frame h0 _ _ _ _ E). lia.
  - rewrite Ew. transitivity (pfa k); [by eapply init_paging_reports|exact Hrep].
Qed.

(** The first 16 MiB but the heap, the direct map and the kernel's pages. *)
Lemma memory_up_low off kv mm l m hm p k h va :
  memory_up off kv mm l m hm p k h → 0 <= va < 0x800000 ∨ 0x900000 <= va < 2^24 →
  space (h_world h) va = Some va.
Proof.
  intros Hu Hva. rewrite (mu_space _ _ _ _ _ _ _ _ _ Hu) by (unfold page_no; zlia). unfold boot_plan.
  by rewrite planned_app, planned_low by lia.
Qed.

Lemma memory_up_direct off kv mm l m hm p k h e a :
  memory_up off kv mm l m hm p k h → boot_layout off kv (mm_entries mm) →
  e ∈ mm_entries mm → e_type e ≠ LIMINE_MEMMAP_KERNEL_AND_MODULES →
  e_base e mod 4096 = 0 → e_base e <= a < e_base e + e_length e → space (h_world h) (toVirt off a) = Some a.
Proof.
  intros Hu Hl He Ht Hal Ha. rewrite (mu_space _ _ _ _ _ _ _ _ _ Hu); [by eapply plan_direct|].
  pose proof (layout_entry _ _ _ Hl e He) as [(?&?&?) ?].
  pose proof (bl_low _ _ _ Hl). pose proof (bl_direct _ _ _ Hl).
  rewrite (direct_page_no _ _ _ Hl) by lia. right. zlia.
Qed.

Lemma memory_up_kernel off kv mm l m hm p k h e a :
  memory_up off kv mm l m hm p k h → boot_layout off kv (mm_entries mm) →
  last_kernel_entry (mm_entries mm) e → e_base e mod 4096 = 0 →
  e_base e <= a < e_base e + e_length e → space (h_world h) (to_u64 (kv + (a - e_base e))) = Some a.
Proof.
  intros Hu Hl (pre & post & E' & Ht & Hpost) Hal Ha.
  rewrite (mu_space _ _ _ _ _ _ _ _ _ Hu); [by eapply plan_kernel|].
  assert (e ∈ mm_entries mm) as He by (rewrite E'; apply elem_of_middle).
  pose proof (bl_low _ _ _ Hl). pose proof (bl_direct _ _ _ Hl).
  destruct (kernel_page_no _ _ _ Hl e a He Ht Ha) as [Hi ->].
  pose proof (memory_top_nonneg (mm_entries mm)). right. lia.
Qed.

Lemma memory_up_apart off kv mm l m hm p k h region seg :
  memory_up off kv mm l m hm p k h → boot_ok mm region → init_post mm off seg p →
  apart_from_tables mm (h_world h) 0x800000 0x900000.
Proof.
  intros Hu Hb HI. split.
  - intros va [Hva|Hva]; [by apply (mu_frames _ _ _ _ _ _ _ _ _ Hu)|]. exists va. split; [eapply memory_up_low; [done|lia]|].
    apply (mu_spared _ _ _ _ _ _ _ _ _ Hu); [lia|]. replace (va / 4096 * 4096) with 0 by zlia.
    by eapply init_zero_locked.
  - intros pa Hpa. apply (mu_spared _ _ _ _ _ _ _ _ _ Hu); [apply Hpa|by eapply set_aside_allocated].
Qed.

(** Paging on a machine with enough memory. *)
Lemma paging_up l off kv mm m region :
  boot_ok mm region → boot_layout off kv (mm_entries mm) → enough_memory_for l off kv mm →
  ∃ seg p k, mem_pageframeallocator_init pfa_boot mm off region = Done p ∧ init_post mm off seg p ∧
    init_paging off kv mm m p = Done k ∧
    machine_supplied (plan_tables (boot_plan off kv (mm_entries mm) ++ l)) 256 k ∧
    ∀ va, space k va = planned (boot_plan off kv (mm_entries mm)) va.
Proof.
  intros Hb Hl Hmem. pose proof (bo_memmap _ _ Hb) as Hmm.
  destruct (init_spec mm off region Hb) as (seg & p & E & HI). pose proof (ip_ok _ _ _ _ HI) as Hok.
  destruct (init_paging_live off kv mm m p l 256 Hmm Hok (boot_can_serve _ _ _ _ _ _ _ Hb HI Hmem)) as (k & Ek & Hsup).
  exists seg, p, k. split_and!; try done.
  destruct (init_paging_spec off kv mm Hmm Hl m p Hok) as [?|(k' & Ek' & Hk & Hs)]; [congruence|].
  by assert (k' = k) as -> by congruence.
Qed.

(** C3: memory management comes up.  From the allocator's reset state, on
    every machine that meets the boot loader's promises (its memory map, the
    reserved entries included, ends below 2 GiB) and has usable memory for the
    bitmap, the page tables and the heap below 8 MiB, no call fails and the
    kernel ends up with a heap of one free segment of a megabyte at 0x800000,
    every page of it with a frame of its own, the rest of the first 16 MiB
    mapped to itself, and the direct map and the kernel's pages as the paging
    code left them.  The heap is mapped on the kernel's own tables, over pages
    through which the code could reach memory below 16 MiB; no table lies
    there, behind a byte of the heap or of page zero, or in memory that is not
    usable. *)
Theorem init_memory_correct off kv mm m hm region :
  boot_ok mm region → boot_layout off kv (mm_entries mm) → enough_memory off kv mm →
  ∃ h, init_memory off kv mm m hm region = Done h ∧
    heapStart h = 0x800000 ∧ heapEnd h = 0x900000 ∧
    heap_inv h [mkSeg 0x800000 (0x100000 - 29) true] ∧
    apart_from_tables mm (h_world h) 0x800000 0x900000 ∧
    (∀ va, 0 <= va < 0x800000 ∨ 0x900000 <= va < 2^24 → space (h_world h) va = Some va) ∧
    (∀ e a, e ∈ mm_entries mm → e_type e ≠ LIMINE_MEMMAP_KERNEL_AND_MODULES →
       e_base e mod 4096 = 0 → e_base e <= a < e_base e + e_length e →
       space (h_world h) (toVirt off a) = Some a) ∧
    (∀ e a, last_kernel_entry (mm_entries mm) e → e_base e mod 4096 = 0 →
       e_base e <= a < e_base e + e_length e →
       space (h_world h) (to_u64 (kv + (a - e_base e))) = Some a).
Proof.
  intros Hb Hl Hmem. unfold init_memory.
  destruct (paging_up [] off kv mm m region Hb Hl Hmem) as (seg & p & k & -> & HI & Ek & Hsup & Hs).
  rewrite bind_Done, Ek, bind_Done. change (1 * 1024 * 1024 / (4 * 1024)) with 256.
  destruct (heap_up off kv mm [] m hm p k (bo_memmap _ _ Hb) Hl (ip_ok _ _ _ _ HI) Ek Hsup Hs) as (h & -> & Hu).
  exists h. split; [done|]. split_and!; try apply Hu.
  - by eapply memory_up_apart.
  - intros va. by eapply memory_up_low.
  - intros e a. by eapply memory_up_direct.
  - intros e a. by eapply memory_up_kernel.
Qed.

Lemma init_memory_correct_witness :
  ∃ h, init_memory boot_hhdm boot_kernel boot_memmap ∅ ∅ boot_region = Done h ∧
    space (h_world h) 0x7ff123 = Some 0x7ff123 ∧
    space (h_world h) 0xffff800000001234 = Some 0x1234 ∧
    space (h_world h) 0xffffffff80000042 = Some 0x2f0042.
Proof.
  destruct (init_memory_correct boot_hhdm boot_kernel boot_memmap ∅ ∅ boot_region
    boot_memmap_boot_ok boot_memmap_layout boot_enough) as (h & E & _ & _ & _ & _ & H1 & H2 & H3).
  exists h. split; [exact E|]. split; [apply H1; left; lia|]. split.
  - change 0xffff800000001234 with (toVirt boot_hhdm 0x1234).
    apply (H2 (mkEntry 4096 (155 * 4096) 0)); [by apply elem_of_cons; left|done|done|cbn; lia].
  - change 0xffffffff80000042 with (to_u64 (boot_kernel + (0x2f0042 - e_base boot_kernel_entry))).
    apply H3; [exact boot_kernel_last|done|cbn; lia].
Defined.
