(* ===== verification/MemorySamples.v ===== *)
(** * A booted machine: concrete states for the paging and heap theorems

    The page frame allocator as [init] leaves it on the sample memory map, a
    cleared root table in the first page it hands out, and the heap on top of
    it at the address the kernel uses (kernel.cpp, [_start]). *)

From S2P Require Import Prelude Memory Bitmap MemUtils PageFrameAllocator PfaInit.
From S2P Require Import PageEntry PageSource Paging PageMapper.
From S2P Require Import Heap HeapSpec HeapRefine HeapMalloc HeapGrow HeapClient HeapRun.

Definition root_pfa : Pfa := Eval vm_compute in
  match mem_pageframeallocator_requestPage sample_pfa with Done (_, p) => p | _ => sample_pfa end.

Lemma root_request : requestPage sample_pfa = Done (8192, root_pfa).
Proof. vm_compute. reflexivity. Qed.

Lemma root_pfa_ok : src_ok root_pfa.
Proof. exact (@request_ok Pfa pfa_source pfa_source_laws _ _ _ sample_pfa_ok root_request). Qed.

Lemma root_allocated : allocated root_pfa 8192.
Proof.
  apply (@request_allocated Pfa pfa_source pfa_source_laws sample_pfa 8192 root_pfa 8192 sample_pfa_ok root_request); [done|lia|by left].
Qed.

Definition root_tree : gmap (list Z) Z := {[ [] := 8192 ]}.

Lemma root_tree_inv : tree_inv 8192 ∅ root_pfa root_tree.
Proof.
  apply root_tree_ok; [done|lia|exact root_allocated|done].
Qed.

Lemma root_ok : pt_ok 8192 ∅ root_pfa.
Proof. exists root_tree. exact root_tree_inv. Qed.

Definition sample_machine : Machine := mkMachine ∅ root_pfa 8192.

Lemma sample_machine_ok : mapper_ok sample_machine.
Proof. split; [exact root_ok|exact root_pfa_ok]. Qed.

(** ** Paging *)

Lemma sample_map :
  { r | PageTable_MapMemory ∅ root_pfa 8192 0x800000 0x5000 = Done r }.
Proof. apply is_done_Done. vm_compute. reflexivity. Qed.

Lemma MapMemory_translates_witness :
  ∃ m p, PageTable_MapMemory ∅ root_pfa 8192 0x800000 0x5000 = Done (m, p) ∧
    translate m 8192 0x800123 = Some 0x5123.
Proof.
  destruct sample_map as [[m p] E]. exists m, p. split; [exact E|].
  destruct (MapMemory_translates 8192 ∅ root_pfa 0x800000 0x5000 m p
    root_ok root_pfa_ok ltac:(lia) E) as (_ & _ & H & _).
  apply H. vm_compute. reflexivity.
Defined.

Lemma MapMemory_failure_witness :
  (∃ r, PageTable_MapMemory ∅ root_pfa 8192 0 0 = Done r) ∨
  PageTable_MapMemory ∅ root_pfa 8192 0 0 = Panicked "Out of memory".
Proof. apply (MapMemory_failure 8192 ∅ root_pfa 0 0 root_ok root_pfa_ok). Defined.

Lemma MapMemory_memory_safe_witness :
  ∃ m p, PageTable_MapMemory ∅ root_pfa 8192 0x800000 0x5000 = Done (m, p) ∧
    rd8 m 17 = rd8 ∅ 17.
Proof.
  destruct sample_map as [[m p] E]. exists m, p. split; [exact E|].
  apply (MapMemory_memory_safe 8192 ∅ root_pfa root_tree 0x800000 0x5000
    m p 17 root_tree_inv root_pfa_ok E).
  - lia.
  - intros (q & t & Hq & Ht). unfold root_tree in Hq.
    apply lookup_singleton_Some in Hq as [_ <-]. lia.
  - vm_compute. reflexivity.
Defined.

(** ** The heap *)

Definition heap0 : Heap Machine := mkHeap ∅ 0 0 0 sample_machine.

Definition heap_segs : list seg := [mkSeg 0x800000 (4096 * 2 - 29) true].

Lemma sample_initHeap :
  { h | initHeap heap0 0x800000 2 = Done h ∧ heapStart h = 0x800000 ∧
        heapEnd h = 0x802000 ∧ heap_inv h heap_segs }.
Proof.
  destruct (is_done_Done (initHeap heap0 0x800000 2)) as [h E]; [vm_compute; reflexivity|].
  exists h. split; [exact E|].
  destruct (initHeap_inv heap0 0x800000 2 sample_machine_ok ltac:(by split; [|lia])
    ltac:(lia) ltac:(cbn; lia) ltac:(lia) ltac:(cbn; lia)) as [E'|(h' & E' & H)]; rewrite E in E'; [discriminate|].
  apply Done_inj in E' as ->. exact H.
Qed.

(** The heap after [malloc(24)] on the fresh heap. *)
Definition heap_segs' : list seg :=
  [mkSeg 0x800000 32 false; mkSeg 0x80003d (4096 * 2 - 29 - 32 - 29) true].

Lemma sample_malloc_returns h :
  initHeap heap0 0x800000 2 = Done h → is_done (malloc 3 10 h 24) = true.
Proof.
  intros E. assert (is_done (h ← initHeap heap0 0x800000 2; malloc 3 10 h 24) = true) as H
    by (vm_compute; reflexivity).
  rewrite E in H. exact H.
Qed.

Lemma malloc_correct_witness :
  ∃ h a h' l', initHeap heap0 0x800000 2 = Done h ∧ malloc 3 10 h 24 = Done (a, h') ∧
    heap_inv h' l' ∧ a + 24 <= heapEnd h'.
Proof.
  destruct sample_initHeap as (h & E & _ & Ee & Hi).
  destruct (malloc_correct 3 10 h heap_segs 24 Hi ltac:(lia)
    ltac:(rewrite Ee; vm_compute; done) ltac:(lia) ltac:(cbn; lia))
    as [Em|(a & h' & l' & Em & _ & Hi' & _ & Ha & _)].
  - pose proof (sample_malloc_returns h E) as Hd. rewrite Em in Hd. discriminate Hd.
  - exists h, a, h', l'. split; [exact E|]. split; [exact Em|]. split; [exact Hi'|exact Ha].
Defined.

Lemma sample_malloc : { h | heap_inv (W := Machine) h heap_segs' ∧ heapEnd h = 0x802000 }.
Proof.
  destruct sample_initHeap as (h & E & _ & Ee & Hi).
  destruct (is_done_Done _ (sample_malloc_returns h E)) as [[a h'] Em].
  exists h'.
  destruct (malloc_spec 3 10 h heap_segs 24 Hi ltac:(lia)
    ltac:(rewrite Ee; vm_compute; done) ltac:(lia) ltac:(cbn; lia))
    as (a1 & l' & e' & Es & [Em'|(h1 & Em' & Eh & [M1 _ _ _])]);
    rewrite Em in Em'; [discriminate|].
  apply Done_inj in Em' as [= -> ->]. rewrite Ee in Es.
  assert (spec_malloc 2 (align16 24) 0x802000 heap_segs = Some (0x80001d, heap_segs', 0x802000))
    as Es' by (vm_compute; reflexivity).
  rewrite Es' in Es. injection Es as <- <- <-. split; [exact M1|exact Eh].
Qed.

Definition used_seg : seg := mkSeg 0x800000 32 false.

Lemma free_correct_witness :
  ∃ h : Heap Machine, heap_inv h heap_segs' ∧ heap_inv (free h 0x80001d) heap_segs.
Proof.
  destruct sample_malloc as (h & Hi & _). exists h. split; [exact Hi|].
  destruct (free_correct h heap_segs' used_seg Hi ltac:(by apply elem_of_cons; left) eq_refl)
    as [Hf _]. exact Hf.
Defined.

Lemma sfree_correct_witness :
  ∃ h : Heap Machine, heap_inv h heap_segs' ∧ rd8 (h_mem (sfree h 0x80001d 24)) 0x800020 = 0.
Proof.
  destruct sample_malloc as (h & Hi & _). exists h. split; [exact Hi|].
  destruct (sfree_correct h heap_segs' used_seg 24 Hi ltac:(by apply elem_of_cons; left) eq_refl
    ltac:(cbn; lia)) as (_ & Hz & _).
  apply (Hz 0x800020). unfold block. cbn. lia.
Defined.

Lemma malloc_free_roundtrip_witness :
  ∃ h a h', initHeap heap0 0x800000 2 = Done h ∧ malloc 3 10 h 24 = Done (a, h') ∧
    heap_inv (free h' a) heap_segs.
Proof.
  destruct sample_initHeap as (h & E & _ & Ee & Hi).
  destruct (malloc_free_roundtrip 3 10 h heap_segs 24 Hi ltac:(lia)
    ltac:(rewrite Ee; vm_compute; done) ltac:(lia) ltac:(cbn; lia)
    ltac:(eexists; vm_compute; reflexivity)) as (a & h' & Em & Hi').
  exists h, a, h'. split; [exact E|]. split; [exact Em|exact Hi'].
Defined.

Lemma getUsedMem_correct_witness :
  ∃ h : Heap Machine, heap_inv h heap_segs' ∧ getUsedMem 2 h = Done 61.
Proof.
  destruct sample_malloc as (h & Hi & _). exists h. split; [exact Hi|].
  rewrite (getUsedMem_correct 2 h heap_segs' Hi); [reflexivity|cbn; lia].
Defined.

Lemma malloc_block_not_cleared_witness :
  ∃ h a h', initHeap heap0 0x800000 2 = Done h ∧ malloc 1 10 h 24 = Done (a, h') ∧
    rd8 (h_mem h') (a + 5) = rd8 (h_mem h) (a + 5).
Proof.
  destruct sample_initHeap as (h & E & _ & Ee & Hi).
  assert (is_done (h ← initHeap heap0 0x800000 2; malloc 1 10 h 24) = true) as H
    by (vm_compute; reflexivity).
  rewrite E in H. cbn [mbind outcome_bind] in H. apply is_done_Done in H as [[a h'] Em].
  exists h, a, h'. split; [exact E|]. split; [exact Em|].
  apply (malloc_block_not_cleared 10 h heap_segs 24 a h' (a + 5) Hi); [lia|cbn; lia| |exact Em|lia].
  eexists. vm_compute. reflexivity.
Defined.

Lemma split_last_stores_through_null_witness :
  ∃ h : Heap Machine, heap_inv h heap_segs ∧ rd64 (h_mem (split h 0x800000 32).2) 20 = 0x80003d.
Proof.
  destruct sample_initHeap as (h & E & Es & _ & Hi). exists h. split; [exact Hi|].
  apply (split_last_stores_through_null h [] (mkSeg 0x800000 (4096 * 2 - 29) true) 32 (hi_rep _ _ Hi));
    [rewrite Es|..]; cbn; lia.
Defined.

(** ** A run: allocate, write, free *)

Lemma sample_run :
  { h : Heap Machine & { h1 : Heap Machine & { a |
    heap_inv h heap_segs ∧ rtc heap_run_step (h, ∅) (h1, {[ a := 24 ]}) ∧
    rtc heap_run_step (h, ∅) (free h1 a, ∅) } } }.
Proof.
  destruct sample_initHeap as (h & E & Es & Ee & Hi).
  assert (is_done (h ← initHeap heap0 0x800000 2; malloc 3 (search_fuel h) h 24) = true) as H
    by (vm_compute; reflexivity).
  rewrite E in H. cbn [mbind outcome_bind] in H. apply is_done_Done in H as [[a h'] Em].
  assert (heap_run_step (h, ∅) (h', <[a := 24]> ∅)) as St.
  { apply run_malloc; [lia|rewrite Ee; vm_compute; done|exact Em]. }
  exists h, (with_mem h' (wr8 (h_mem h') (a + 3) 65)), a. split; [exact Hi|].
  assert (heap_run_step (h', <[a := 24]> ∅) (with_mem h' (wr8 (h_mem h') (a + 3) 65), <[a := 24]> ∅)) as St2.
  { apply (run_write _ _ a 24); [apply lookup_insert_eq|lia]. }
  assert (rtc heap_run_step (h, ∅) (with_mem h' (wr8 (h_mem h') (a + 3) 65), <[a := 24]> ∅)) as R.
  { eapply rtc_l; [exact St|]. by apply rtc_once. }
  split; [exact R|]. eapply rtc_r; [exact R|].
  pose proof (run_free (with_mem h' (wr8 (h_mem h') (a + 3) 65)) (<[a := 24]> ∅) a 24
    (lookup_insert_eq _ _ _)) as St3.
  rewrite delete_insert_id in St3 by apply lookup_empty. exact St3.
Qed.

Lemma heap_run_safe_witness :
  ∃ (h : Heap Machine) a, heapStart h <= a ∧ a + 24 <= heapEnd h.
Proof.
  destruct sample_run as (h & h1 & a & Hi & R & _). exists h1, a.
  destruct (heap_run_safe h _ _ h1 {[ a := 24 ]} a a 24 24 Hi R
    (lookup_singleton_eq _ _) (lookup_singleton_eq _ _)) as (H1 & H2 & _).
  split; [exact H1|exact H2].
Defined.

Lemma heap_run_no_leak_witness :
  ∃ h : Heap Machine, heap_inv h [mkSeg (heapStart h) (heapEnd h - heapStart h - 29) true].
Proof.
  destruct sample_run as (h & h1 & a & Hi & _ & R). exists (free h1 a).
  exact (heap_run_no_leak h _ _ (free h1 a) Hi R).
Defined.
