(* ===== verification/CString.v ===== *)
(** * lib/string.cpp and lib/math.cpp: numbers as text, and comparing strings

    [itoa] and [uitoa] write the digits of a number backwards into a buffer
    and then turn them around in place; [strncmp] compares two strings.  The
    reference for the former is a reader of numerals. *)

From S2P Require Import Prelude Memory.

(** ** Operations *)

Definition digit_table : list Z := Eval vm_compute in
  bytes_of_string "zyxwvutsrqponmlkjihgfedcba9876543210123456789abcdefghijklmnopqrstuvwxyz".

(** The [do ... while(value)] loop of both routines.  C's [%] and [/] round
    towards zero.  64 rounds are enough for every 64-bit value. *)
Fixpoint digits_loop (fuel : nat) (m : mem) (ptr value base : Z) : outcome (mem * Z) :=
  match fuel with
  | O => NoFuel
  | S f =>
      c ← or_undef "digit table" (digit_table !! Z.to_nat (35 + Z.rem value base));
      let m := wr8 m ptr c in
      let ptr := ptr + 1 in
      let value := Z.quot value base in
      if value =? 0 then Done (m, ptr) else digits_loop f m ptr value base
  end.

(** [while (low < ptr)]: exchange the ends and move inwards. *)
Fixpoint invert_loop (fuel : nat) (m : mem) (low ptr : Z) : outcome mem :=
  match fuel with
  | O => NoFuel
  | S f =>
      if low <? ptr then
        let tmp := rd8 m low in
        let m := wr8 m low (rd8 m ptr) in
        let m := wr8 m ptr tmp in
        invert_loop f m (low + 1) (ptr - 1)
      else Done m
  end.

(** The end of both routines: convert, terminate, invert. *)
Definition put_number (m : mem) (low value base : Z) : outcome mem :=
  '(m, ptr) ← digits_loop 64 m low value base;
  let m := wr8 m ptr 0 in
  invert_loop 64 m low (ptr - 1).

Definition itoa (m : mem) (value str base : Z) : outcome (Z * mem) :=
  if (base <? 2) || (36 <? base) then Done (str, wr8 m str 0)
  else
    let '(m, low) :=
      if (value <? 0) && (base =? 10) then (wr8 m str 45, str + 1) else (m, str) in
    m ← put_number m low value base;
    Done (str, m).

Definition uitoa (m : mem) (value str base : Z) : outcome (Z * mem) :=
  if (base <? 2) || (36 <? base) then Done (str, wr8 m str 0)
  else
    m ← put_number m str value base;
    Done (str, m).

(** [*(unsigned char* )str1 - *(unsigned char* )str2] at the first difference,
    the end of [str1] or after [num] bytes.  [num] bounds the loop. *)
Fixpoint strncmp (m : mem) (str1 str2 : Z) (num : nat) : Z :=
  match num with
  | O => 0
  | S n =>
      if negb (rd8 m str1 =? 0) && (rd8 m str1 =? rd8 m str2)
      then strncmp m (str1 + 1) (str2 + 1) n
      else rd8 m str1 - rd8 m str2
  end.

(** lib/math.cpp; the negation of the least [i64] overflows. *)
Definition abs (val : Z) : outcome Z :=
  if val <? 0 then (if val =? -2^63 then Undef "val * -1" else Done (val * -1)) else Done val.

Lemma abs_correct val :
  is_i64 val → abs val = if decide (val = -2^63) then Undef "val * -1" else Done (Z.abs val).
Proof.
  intros Hv. unfold abs. destruct (Z.ltb_spec val 0).
  - destruct (Z.eqb_spec val (-2^63)); [by rewrite decide_True|]. rewrite decide_False by done. f_equal. lia.
  - rewrite decide_False by lia. f_equal. lia.
Qed.

(** ** Numerals *)

Definition digit_char (d : Z) : Z := if d <? 10 then 48 + d else 87 + d.
Definition char_digit (c : Z) : Z := if c <? 58 then c - 48 else c - 87.

(** Reads a numeral, most significant digit first. *)
Definition read_number (base : Z) (s : list Z) : Z :=
  fold_left (λ acc c, acc * base + char_digit c) s 0.

(** The digits of a number, least significant first. *)
Fixpoint digits (fuel : nat) (base v : Z) : list Z :=
  match fuel with
  | O => []
  | S f => v mod base :: (if v / base =? 0 then [] else digits f base (v / base))
  end.

Definition numeral (base v : Z) : list Z := rev (digit_char <$> digits 64 base v).

Lemma digit_table_lookup d :
  -35 <= d <= 35 → digit_table !! Z.to_nat (35 + d) = Some (digit_char (Z.abs d)).
Proof.
  intros Hd.
  assert (forallb (λ d, bool_decide (digit_table !! Z.to_nat (35 + d) = Some (digit_char (Z.abs d))))
    (seqZ (-35) 71) = true) as H by (vm_compute; reflexivity).
  rewrite forallb_forall in H. specialize (H d).
  rewrite bool_decide_eq_true in H. apply H. apply list_elem_of_In, elem_of_seqZ. lia.
Qed.

Lemma char_digit_char d : 0 <= d < 36 → char_digit (digit_char d) = d.
Proof. intros. unfold char_digit, digit_char. repeat case_cmp; lia. Qed.

Lemma digit_char_range d : 0 <= d < 36 → 48 <= digit_char d < 123.
Proof. intros. unfold digit_char. case_cmp; lia. Qed.

Lemma digits_range fuel base v : 2 <= base <= 36 → 0 <= v → Forall (λ d, 0 <= d < 36) (digits fuel base v).
Proof.
  intros Hb. revert v. induction fuel as [|f IH]; intros v Hv; cbn; constructor.
  - pose proof (Z.mod_pos_bound v base). lia.
  - case_cmp; [constructor|]. apply IH. apply Z.div_pos; lia.
Qed.

Lemma div_lt_pow base v k : 2 <= base → 0 <= v < base ^ (1 + k) → 0 <= k → 0 <= v / base < base ^ k.
Proof.
  intros Hb Hv Hk. rewrite Z.pow_add_r, Z.pow_1_r in Hv by lia.
  split; [apply Z.div_pos; lia|apply Z.div_lt_upper_bound; lia].
Qed.

Lemma digits_value fuel base v :
  2 <= base → 0 <= v < base ^ Z.of_nat fuel →
  foldr (λ d acc, acc * base + d) 0 (digits fuel base v) = v.
Proof.
  intros Hb. revert v. induction fuel as [|f IH]; intros v Hv; [cbn in *; lia|].
  replace (Z.of_nat (S f)) with (1 + Z.of_nat f) in Hv by lia.
  pose proof (div_lt_pow _ _ _ Hb Hv ltac:(lia)).
  cbn [digits foldr]. pose proof (Z.div_mod v base ltac:(lia)).
  destruct (Z.eqb_spec (v / base) 0); [cbn; lia|]. rewrite IH by done. lia.
Qed.

Lemma digits_length fuel base v k :
  2 <= base → 0 <= v < base ^ k → 1 <= k → Z.of_nat (length (digits fuel base v)) <= k.
Proof.
  intros Hb. revert v k. induction fuel as [|f IH]; intros v k Hv Hk; [cbn; lia|].
  cbn [digits length]. destruct (Z.eqb_spec (v / base) 0) as [|Hne]; [cbn; lia|].
  replace k with (1 + (k - 1)) in Hv by lia.
  pose proof (div_lt_pow _ _ _ Hb Hv ltac:(lia)) as Hd.
  destruct (decide (k = 1)) as [->|]; [cbn in Hd; lia|].
  specialize (IH (v / base) (k - 1) Hd ltac:(lia)). lia.
Qed.

Lemma pow_64 base : 2 <= base → 2^64 <= base ^ 64.
Proof. intros. apply Z.pow_le_mono_l. lia. Qed.

Lemma read_numeral base v :
  2 <= base <= 36 → 0 <= v < 2^64 → read_number base (numeral base v) = v.
Proof.
  intros Hb Hv. unfold read_number, numeral. rewrite <- fold_left_rev_right, rev_involutive.
  pose proof (digits_range 64 base v Hb ltac:(lia)) as Hr.
  transitivity (foldr (λ d acc, acc * base + d) 0 (digits 64 base v)).
  - induction Hr as [|d l Hd Hl IH]; [done|]. cbn. cbn in IH. rewrite IH, char_digit_char by done. done.
  - apply digits_value; [lia|]. pose proof (pow_64 base ltac:(lia)). change (Z.of_nat 64) with 64. lia.
Qed.

Lemma numeral_chars base v :
  2 <= base <= 36 → 0 <= v → Forall (λ c, 48 <= c < 123) (numeral base v).
Proof.
  intros Hb Hv. unfold numeral. apply Forall_rev, Forall_fmap.
  eapply Forall_impl; [by apply digits_range|]. intros d Hd. by apply digit_char_range.
Qed.

Lemma length_numeral base v k :
  2 <= base → 0 <= v < base ^ k → 1 <= k → Z.of_nat (length (numeral base v)) <= k.
Proof.
  intros. unfold numeral. rewrite length_rev, length_fmap. by apply digits_length.
Qed.

(** ** The buffer *)

Definition bytes_at (m : mem) (p : Z) (l : list Z) : Prop :=
  ∀ i c, l !! i = Some c → rd8 m (p + Z.of_nat i) = c.

(** The memories agree outside [lo, hi). *)
Definition same_outside (m m' : mem) (lo hi : Z) : Prop :=
  ∀ a, a < lo ∨ hi <= a → rd8 m' a = rd8 m a.

Lemma same_outside_trans m1 m2 m3 lo hi :
  same_outside m1 m2 lo hi → same_outside m2 m3 lo hi → same_outside m1 m3 lo hi.
Proof. intros H1 H2 a Ha. by rewrite H2, H1. Qed.

Lemma same_outside_mono m m' lo hi lo' hi' :
  same_outside m m' lo hi → lo' <= lo → hi <= hi' → same_outside m m' lo' hi'.
Proof. intros H1 Hlo Hhi a Ha. apply H1. lia. Qed.

Lemma bytes_at_kept m m' p l :
  bytes_at m p l → (∀ a, p <= a < p + Z.of_nat (length l) → rd8 m' a = rd8 m a) → bytes_at m' p l.
Proof.
  intros Hb Hm i c Hi. rewrite Hm; [by apply Hb|]. apply lookup_lt_Some in Hi. lia.
Qed.

Lemma bytes_at_cons m p c l : bytes_at m p (c :: l) ↔ rd8 m p = c ∧ bytes_at m (p + 1) l.
Proof.
  split.
  - intros Hb. split; [specialize (Hb 0%nat c eq_refl); by rewrite Z.add_0_r in Hb|].
    intros i d Hi. specialize (Hb (S i) d Hi). rewrite <- Hb. f_equal. lia.
  - intros [H1 H2] [|i] d Hi; [injection Hi as <-; by rewrite Z.add_0_r|].
    specialize (H2 i d Hi). rewrite <- H2. f_equal. lia.
Qed.

Lemma bytes_at_snoc m p c l :
  bytes_at m p (l ++ [c]) ↔ bytes_at m p l ∧ rd8 m (p + Z.of_nat (length l)) = c.
Proof.
  revert p. induction l as [|d l IH]; intros p; cbn [app length].
  - rewrite bytes_at_cons, Z.add_0_r. split; [by intros [? _]|by intros [_ ?]].
  - rewrite !bytes_at_cons, IH. replace (p + 1 + Z.of_nat (length l)) with (p + Z.of_nat (S (length l))) by lia.
    tauto.
Qed.

Lemma bytes_at_cstr m p l :
  bytes_at m p l → Forall (λ c, c ≠ 0) l → rd8 m (p + Z.of_nat (length l)) = 0 → cstr m p l.
Proof.
  intros Hb Hnz H0. split; [|done]. intros i c Hi. split; [by apply Hb|].
  by eapply Forall_lookup_1 in Hnz.
Qed.

(** The conversion loop writes the digits, least significant first; on a
    negative value it writes those of its absolute value. *)
Lemma digits_loop_spec fuel m p v base :
  2 <= base <= 36 → (1 <= fuel)%nat → Z.abs v < base ^ Z.of_nat fuel →
  let ds := digit_char <$> digits fuel base (Z.abs v) in
  ∃ m', digits_loop fuel m p v base = Done (m', p + Z.of_nat (length ds)) ∧
    bytes_at m' p ds ∧ same_outside m m' p (p + Z.of_nat (length ds)).
Proof.
  intros Hb. revert m p v. induction fuel as [|f IH]; intros m p v Hf Hv; [lia|].
  assert (Z.abs (Z.rem v base) = Z.abs v mod base) as Erem.
  { rewrite <- Z.rem_abs by lia. rewrite (Z.abs_eq base) by lia. apply Z.rem_mod_nonneg; lia. }
  assert (Z.abs (Z.quot v base) = Z.abs v / base) as Equot.
  { rewrite <- Z.quot_abs by lia. rewrite (Z.abs_eq base) by lia. apply Z.quot_div_nonneg; lia. }
  pose proof (Z.mod_pos_bound (Z.abs v) base ltac:(lia)) as Hm.
  cbn [digits_loop digits]. rewrite digit_table_lookup by lia. cbn [or_undef mbind outcome_bind].
  rewrite Erem. set (c := digit_char (Z.abs v mod base)).
  assert (48 <= c < 123) by (apply digit_char_range; lia).
  assert (rd8 (wr8 m p c) p = c) as Hc by (rewrite rd8_wr8_eq; apply to_u8_id; znorm; lia).
  destruct (Z.eqb_spec (Z.quot v base) 0) as [E|E]; rewrite <- Equot.
  - rewrite E. cbn [Z.abs Z.eqb fmap list_fmap length]. eexists. split; [done|]. split.
    + apply bytes_at_cons. split; [done|]. by intros i d Hi.
    + intros a Ha. apply rd8_wr8_ne. lia.
  - destruct (Z.eqb_spec (Z.abs (Z.quot v base)) 0); [lia|].
    assert (Z.abs (Z.quot v base) < base ^ Z.of_nat f) as Hlt.
    { rewrite Equot. replace (Z.of_nat (S f)) with (1 + Z.of_nat f) in Hv by lia.
      apply div_lt_pow; [lia|split; [lia|done]|lia]. }
    destruct f as [|f]; [change (Z.of_nat 0) with 0 in Hlt; rewrite Z.pow_0_r in Hlt; lia|].
    destruct (IH (wr8 m p c) (p + 1) (Z.quot v base) ltac:(lia) Hlt) as (m' & -> & B & S').
    rewrite !fmap_cons. cbn [length]. rewrite !length_fmap in *.
    exists m'. split; [do 2 f_equal; lia|]. split.
    + apply bytes_at_cons. split; [|done]. rewrite S' by lia. done.
    + intros a Ha. rewrite S' by lia. apply rd8_wr8_ne. lia.
Qed.

(** The second loop turns the bytes of a range around. *)
Lemma invert_loop_spec fuel m p l :
  bytes_at m p l → Forall is_u8 l → (length l <= 2 * fuel - 1)%nat → (1 <= fuel)%nat →
  ∃ m', invert_loop fuel m p (p + Z.of_nat (length l) - 1) = Done m' ∧
    bytes_at m' p (rev l) ∧ same_outside m m' p (p + Z.of_nat (length l)).
Proof.
  revert m p l. induction fuel as [|f IH]; intros m p l Hb Hu Hlen Hf; [lia|].
  cbn [invert_loop]. destruct (Z.ltb_spec p (p + Z.of_nat (length l) - 1)) as [Hlt|Hge].
  - destruct l as [|x l]; [cbn in Hlt; lia|].
    destruct (list_snoc_inv l) as [->|(l' & y & ->)]; [cbn in Hlt; lia|].
    cbn [length] in *. rewrite length_app in *. cbn [length] in *.
    apply bytes_at_cons in Hb as [Hx Hb]. apply bytes_at_snoc in Hb as [Hb Hy].
    apply Forall_cons in Hu as [Ux Hu]. apply Forall_app in Hu as [Ul Uy].
    apply Forall_cons in Uy as [Uy _].
    set (q := p + Z.of_nat (S (length l' + 1)) - 1).
    replace (p + 1 + Z.of_nat (length l')) with q in Hy by lia.
    rewrite Hx, Hy. set (m1 := wr8 (wr8 m p y) q x).
    destruct f as [|f]; [lia|].
    destruct (IH m1 (p + 1) l') as (m' & E & B & S'); [|done|lia|lia|].
    { eapply bytes_at_kept; [exact Hb|]. intros a Ha. unfold m1. by rewrite !rd8_wr8_ne by lia. }
    exists m'. replace (q - 1) with (p + 1 + Z.of_nat (length l') - 1) by lia.
    split; [done|]. split.
    + cbn [rev]. rewrite rev_app_distr. cbn [rev app]. apply bytes_at_cons. split.
      * rewrite S' by lia. unfold m1. rewrite rd8_wr8_ne, rd8_wr8_eq by lia. by apply to_u8_id.
      * apply bytes_at_snoc. split; [done|]. rewrite length_rev, S' by lia.
        replace (p + 1 + Z.of_nat (length l')) with q by lia.
        unfold m1. rewrite rd8_wr8_eq. by apply to_u8_id.
    + intros a Ha. rewrite S' by lia. unfold m1. by rewrite !rd8_wr8_ne by lia.
  - exists m. split; [done|]. split; [|done].
    destruct l as [|x [|y l]]; cbn in *; try done; lia.
Qed.

Lemma put_number_spec m p v base :
  2 <= base <= 36 → Z.abs v < 2^64 →
  let s := numeral base (Z.abs v) in
  ∃ m', put_number m p v base = Done m' ∧ cstr m' p s ∧
    same_outside m m' p (p + Z.of_nat (length s) + 1).
Proof.
  intros Hb Hv. cbn zeta. unfold put_number.
  pose proof (pow_64 base ltac:(lia)) as Hp. change 64 with (Z.of_nat 64) in Hp at 2.
  destruct (digits_loop_spec 64 m p v base Hb ltac:(lia) ltac:(lia)) as (m1 & -> & B1 & S1).
  cbn [mbind outcome_bind]. unfold numeral. set (ds := digit_char <$> _) in *.
  assert (Forall (λ c, 48 <= c < 123) ds) as Hds.
  { apply Forall_fmap. eapply Forall_impl; [apply digits_range; lia|]. apply digit_char_range. }
  assert (Z.of_nat (length ds) <= 64) as Hlen.
  { unfold ds. rewrite length_fmap. apply digits_length; lia. }
  set (m2 := wr8 m1 _ 0).
  destruct (invert_loop_spec 64 m2 p ds) as (m3 & -> & B3 & S3); [| |lia|lia|].
  { eapply bytes_at_kept; [exact B1|]. intros a Ha. unfold m2. by rewrite rd8_wr8_ne by lia. }
  { eapply Forall_impl; [exact Hds|]. intros c Hc. znorm. lia. }
  exists m3. split; [done|]. rewrite length_rev. split.
  - apply bytes_at_cstr; [done| |].
    + apply Forall_rev. eapply Forall_impl; [exact Hds|]. cbn. lia.
    + rewrite length_rev, S3 by lia. unfold m2. by rewrite rd8_wr8_eq.
  - intros a Ha. rewrite S3 by lia. unfold m2. rewrite rd8_wr8_ne by lia. apply S1. lia.
Qed.

(** C31: [uitoa] writes a NUL-terminated numeral that reads back as the value
    it was given, in every supported base and for every 64-bit value; it
    writes nothing outside the numeral and its terminator. *)
Theorem uitoa_roundtrip m value str base :
  2 <= base <= 36 → is_u64 value →
  ∃ m' s, uitoa m value str base = Done (str, m') ∧ cstr m' str s ∧
    read_number base s = value ∧
    same_outside m m' str (str + Z.of_nat (length s) + 1).
Proof.
  intros Hb Hv. unfold uitoa.
  destruct (Z.ltb_spec base 2), (Z.ltb_spec 36 base); try lia. cbn [orb].
  destruct (put_number_spec m str value base Hb) as (m' & -> & Hc & Hs); [znorm; lia|].
  rewrite Z.abs_eq in * by (znorm; lia).
  exists m', (numeral base value). split_and!; try done. by apply read_numeral.
Qed.

(** The reader of signed decimal numerals. *)
Definition read_signed (s : list Z) : Z :=
  match s with
  | [] => 0
  | c :: s' => if c =? 45 then - read_number 10 s' else read_number 10 s
  end.

Lemma read_signed_pos s : Forall (λ c, 48 <= c < 123) s → read_signed s = read_number 10 s.
Proof.
  intros H. destruct H as [|c l Hc _]; [done|]. unfold read_signed.
  by destruct (Z.eqb_spec c 45); [lia|].
Qed.

(** C32: [itoa] writes a signed decimal numeral that reads back as the value
    it was given, the smallest 64-bit value included; numeral, sign and
    terminator fit in 21 bytes. *)
Theorem itoa_decimal_roundtrip m value str :
  is_i64 value →
  ∃ m' s, itoa m value str 10 = Done (str, m') ∧ cstr m' str s ∧ read_signed s = value ∧
    Z.of_nat (length s) <= 20 ∧ same_outside m m' str (str + Z.of_nat (length s) + 1).
Proof.
  intros Hv. unfold itoa. cbn [Z.ltb Z.compare Pos.compare Pos.compare_cont orb Z.eqb Pos.eqb].
  assert (0 <= Z.abs value < 10 ^ 19) as Habs by (znorm; lia).
  pose proof (length_numeral 10 (Z.abs value) 19 ltac:(lia) Habs ltac:(lia)) as Hlen.
  pose proof (numeral_chars 10 (Z.abs value) ltac:(lia) ltac:(lia)) as Hch.
  pose proof (read_numeral 10 (Z.abs value) ltac:(lia) ltac:(lia)) as Hrd.
  destruct (Z.ltb_spec value 0) as [Hneg|Hpos]; cbn [andb].
  - destruct (put_number_spec (wr8 m str 45) (str + 1) value 10 ltac:(lia) ltac:(lia)) as (m' & -> & Hc & Hs).
    exists m', (45 :: numeral 10 (Z.abs value)). split; [done|]. cbn [length]. split_and!.
    + apply cstr_cons. split; [|done]. rewrite Hs, rd8_wr8_eq by lia. done.
    + change (- read_number 10 (numeral 10 (Z.abs value)) = value). lia.
    + lia.
    + intros a Ha. rewrite Hs by lia. apply rd8_wr8_ne. lia.
  - destruct (put_number_spec m str value 10 ltac:(lia) ltac:(lia)) as (m' & -> & Hc & Hs).
    exists m', (numeral 10 (Z.abs value)). split; [done|]. split; [done|]. split; [|split; [lia|done]].
    rewrite read_signed_pos by done. lia.
Qed.

(** [itoa] in a base other than ten drops the sign: it writes the numeral
    of the absolute value. *)
Theorem itoa_other_base m value str base :
  2 <= base <= 36 → base ≠ 10 → is_i64 value →
  ∃ m' s, itoa m value str base = Done (str, m') ∧ cstr m' str s ∧
    read_number base s = Z.abs value ∧ same_outside m m' str (str + Z.of_nat (length s) + 1).
Proof.
  intros Hb Hne Hv. unfold itoa.
  destruct (Z.ltb_spec base 2), (Z.ltb_spec 36 base), (Z.eqb_spec base 10); try lia. cbn [orb].
  rewrite andb_false_r.
  destruct (put_number_spec m str value base Hb) as (m' & -> & Hc & Hs); [znorm; lia|].
  exists m', (numeral base (Z.abs value)). split_and!; try done.
  apply read_numeral; [done|znorm; lia].
Qed.

(** [strncmp] on two strings is zero exactly when their first [num]
    characters agree. *)
Theorem strncmp_correct m p1 p2 s1 s2 num :
  cstr m p1 s1 → cstr m p2 s2 →
  strncmp m p1 p2 num = 0 ↔ take num s1 = take num s2.
Proof.
  revert p1 p2 s1 s2. induction num as [|n IH]; intros p1 p2 s1 s2 H1 H2; [done|].
  cbn [strncmp]. destruct s1 as [|c1 s1], s2 as [|c2 s2].
  - destruct H1 as [_ Z1], H2 as [_ Z2]. cbn in Z1, Z2. rewrite Z.add_0_r in Z1, Z2.
    rewrite Z1, Z2. done.
  - destruct H1 as [_ Z1]. apply cstr_cons in H2 as [[E2 N2] _]. cbn in Z1. rewrite Z.add_0_r in Z1.
    rewrite Z1, E2. cbn. split; [lia|done].
  - destruct H2 as [_ Z2]. apply cstr_cons in H1 as [[E1 N1] _]. cbn in Z2. rewrite Z.add_0_r in Z2.
    rewrite E1, Z2. destruct (Z.eqb_spec c1 0); [lia|]. cbn. split; [lia|done].
  - apply cstr_cons in H1 as [[E1 N1] H1], H2 as [[E2 N2] H2]. rewrite E1, E2.
    destruct (Z.eqb_spec c1 0); [lia|]. cbn [negb andb take].
    destruct (Z.eqb_spec c1 c2) as [->|Hne].
    + rewrite (IH _ _ s1 s2) by done. split; [by intros ->|by intros [= ->]].
    + split; [lia|]. intros [= ? _]. done.
Qed.

(** ** Examples *)

Lemma uitoa_roundtrip_witness :
  ∃ m' s, uitoa ∅ 0xdeadbeef 64 16 = Done (64, m') ∧ cstr m' 64 s ∧ read_number 16 s = 0xdeadbeef.
Proof.
  destruct (uitoa_roundtrip ∅ 0xdeadbeef 64 16) as (m' & s & H1 & H2 & H3 & _); [lia|znorm; lia|].
  exists m', s. split; [exact H1|]. split; [exact H2|exact H3].
Defined.

Lemma itoa_decimal_roundtrip_witness :
  ∃ m' s, itoa ∅ (- 2^63) 64 10 = Done (64, m') ∧ cstr m' 64 s ∧ read_signed s = - 2^63.
Proof.
  destruct (itoa_decimal_roundtrip ∅ (- 2^63) 64) as (m' & s & H1 & H2 & H3 & _); [znorm; lia|].
  exists m', s. split; [exact H1|]. split; [exact H2|exact H3].
Defined.

Lemma itoa_other_base_witness :
  ∃ m' s, itoa ∅ (-10) 64 8 = Done (64, m') ∧ cstr m' 64 s ∧ read_number 8 s = 10.
Proof.
  destruct (itoa_other_base ∅ (-10) 64 8) as (m' & s & H1 & H2 & H3 & _); [lia|lia|znorm; lia|].
  exists m', s. split; [exact H1|]. split; [exact H2|exact H3].
Defined.

Lemma strncmp_correct_witness : strncmp sample_mem 256 256 9 = 0.
Proof. apply (strncmp_correct _ _ _ _ _ 9 sample_cstr sample_cstr). reflexivity. Defined.
