(* ===== verification/KList.v ===== *)
(** * lib/list.h: the growable array [List<T>]

    The array behind [items] is a list of cells as long as the capacity; the
    list a client sees is its first [length] cells.  The element type is an
    integer type, as in the kernel's own use ([List<u16>]).  An access
    outside the array is [Undef].

    What [malloc] returns is [fresh n]: [n] cells of unspecified content. *)

From S2P Require Import Prelude.
From Stdlib Require Import Sorted.

Record List := mkList { items : list Z; length : Z; capacity : Z }.

Definition item (its : list Z) (i : Z) : outcome Z := or_undef "items[i]" (its !! Z.to_nat i).
Definition put (its : list Z) (i v : Z) : outcome (list Z) :=
  if i <? Z.of_nat (base.length its) then Done (<[Z.to_nat i := v]> its) else Undef "items[i] =".

Section List.
Context (fresh : Z → list Z).

Definition List_new : List := mkList (fresh 4) 0 4.
Definition List_new_capacity (capacity : Z) : List := mkList (fresh capacity) 0 capacity.

(** The array and capacity [add] goes on with: twice the size if it is full. *)
Definition make_room (l : List) : outcome (list Z * Z) :=
  if length l =? capacity l then
    let cap := to_u64 (capacity l * 2) in
    new_items ← for_loop (Z.to_nat (length l)) 0
      (λ i its, x ← item (items l) i; put its i x) (fresh cap);
    Done (new_items, cap)
  else Done (items l, capacity l).

Definition add (l : List) (x : Z) : outcome List :=
  '(its, cap) ← make_room l;
  its ← put its (length l) x;
  Done (mkList its (to_u64 (length l + 1)) cap).
End List.

Definition remove_index (l : List) (index : Z) : outcome List :=
  if length l <=? index then Done l
  else
    its ← for_loop (Z.to_nat (length l - 1 - index)) index
      (λ i its, x ← item its (i + 1); put its i x) (items l);
    Done (mkList its (length l - 1) (capacity l)).

(** The scan shared by [remove(T)], [contains] and [indexOf]. *)
Fixpoint find (n : nat) (i : Z) (its : list Z) (x : Z) : outcome (option Z) :=
  match n with
  | O => Done None
  | S n' =>
      y ← item its i;
      if y =? x then Done (Some i) else find n' (i + 1) its x
  end.

Definition remove_item (l : List) (x : Z) : outcome List :=
  found ← find (Z.to_nat (length l)) 0 (items l) x;
  match found with Some i => remove_index l i | None => Done l end.

Definition clear (l : List) : List := mkList (items l) 0 (capacity l).

Definition get (l : List) (index : Z) : outcome Z :=
  if length l <=? index then Done 0 else item (items l) index.

Definition set (l : List) (index x : Z) : outcome List :=
  if length l <=? index then Done l
  else its ← put (items l) index x; Done (mkList its (length l) (capacity l)).

Definition contains (l : List) (x : Z) : outcome bool :=
  found ← find (Z.to_nat (length l)) 0 (items l) x;
  Done (match found with Some _ => true | None => false end).

Definition indexOf (l : List) (x : Z) : outcome Z :=
  found ← find (Z.to_nat (length l)) 0 (items l) x;
  Done (match found with Some i => i | None => to_u64 (-1) end).

Definition sort_inner (j : Z) (its : list Z) : outcome (list Z) :=
  a ← item its j;
  b ← item its (j + 1);
  if b <? a then its ← put its j b; put its (j + 1) a else Done its.

Definition sort (l : List) : outcome List :=
  its ← for_loop (Z.to_nat (length l)) 0
    (λ i its, for_loop (Z.to_nat (length l - i - 1)) 0 sort_inner its) (items l);
  Done (mkList its (length l) (capacity l)).

Definition reverse (l : List) : outcome List :=
  its ← for_loop (Z.to_nat (length l / 2)) 0
    (λ i its,
       temp ← item its i;
       x ← item its (length l - i - 1);
       its ← put its i x;
       put its (length l - i - 1) temp) (items l);
  Done (mkList its (length l) (capacity l)).

(** ** The list a client sees *)

Definition contents (l : List) : list Z := take (Z.to_nat (length l)) (items l).

Record list_ok (l : List) : Prop := {
  lk_cap : Z.of_nat (base.length (items l)) = capacity l;
  lk_len : 0 <= length l <= capacity l;
  lk_pos : 1 <= capacity l < 2^62
}.

(** [contents] as a prefix of the cells. *)
Lemma contents_split l : list_ok l →
  ∃ rest, items l = contents l ++ rest ∧ Z.of_nat (base.length (contents l)) = length l.
Proof.
  intros [H1 H2 H3]. exists (drop (Z.to_nat (length l)) (items l)).
  unfold contents. rewrite take_drop, length_take. split; [done|]. lia.
Qed.

Lemma contents_make c rest n cap :
  Z.of_nat (base.length c) = n → contents (mkList (c ++ rest) n cap) = c.
Proof. intros <-. unfold contents. cbn. rewrite Nat2Z.id. apply take_app_length. Qed.

Lemma list_ok_make c rest n cap :
  Z.of_nat (base.length c) = n → Z.of_nat (base.length (c ++ rest)) = cap →
  1 <= cap < 2^62 → list_ok (mkList (c ++ rest) n cap).
Proof. intros H1 H2 H3. split; cbn; [done| |done]. rewrite length_app in H2. lia. Qed.

Lemma item_at pre x post i :
  i = Z.of_nat (base.length pre) → item (pre ++ x :: post) i = Done x.
Proof. intros ->. unfold item. rewrite Nat2Z.id, list_lookup_middle; done. Qed.

Lemma put_at pre x post i y :
  i = Z.of_nat (base.length pre) → put (pre ++ x :: post) i y = Done (pre ++ y :: post).
Proof.
  intros ->. unfold put. rewrite length_app. cbn [base.length].
  destruct (Z.ltb_spec (Z.of_nat (base.length pre)) (Z.of_nat (base.length pre + S (base.length post))));
    [|lia].
  rewrite Nat2Z.id, insert_app_r_alt, Nat.sub_diag by lia. done.
Qed.

(** The same for the cell behind. *)
Lemma item_at_next pre x y post i :
  i = Z.of_nat (base.length pre) → item (pre ++ x :: y :: post) (i + 1) = Done y.
Proof.
  intros ->. rewrite (cons_middle x), app_assoc. apply item_at. rewrite length_app. cbn. lia.
Qed.

Lemma put_at_next pre x y post i z :
  i = Z.of_nat (base.length pre) → put (pre ++ x :: y :: post) (i + 1) z = Done (pre ++ x :: z :: post).
Proof.
  intros ->. rewrite !(cons_middle x), !app_assoc. apply put_at. rewrite length_app. cbn. lia.
Qed.

(** ** The loops *)

Lemma copy_loop i s spost pre d rest srcpre :
  i = Z.of_nat (base.length pre) → base.length srcpre = base.length pre →
  base.length d = base.length s →
  for_loop (base.length s) i (λ i its, x ← item (srcpre ++ s ++ spost) i; put its i x) (pre ++ d ++ rest)
  = Done (pre ++ s ++ rest).
Proof.
  revert i pre d srcpre. induction s as [|x s IH]; intros i pre d srcpre Hi Hsp Hd;
    destruct d as [|y d]; try discriminate Hd; cbn [base.length for_loop app]; [done|].
  rewrite item_at by lia. rewrite bind_Done, put_at by lia. rewrite bind_Done.
  specialize (IH (i + 1) (pre ++ [x]) d (srcpre ++ [x])). rewrite <- !app_assoc in IH. cbn [app] in IH.
  apply IH; [rewrite length_app; cbn; lia|rewrite !length_app; cbn; lia|by injection Hd].
Qed.

Lemma shift_loop i pre x s post :
  i = Z.of_nat (base.length pre) →
  ∃ z, for_loop (base.length s) i (λ i its, x ← item its (i + 1); put its i x) (pre ++ x :: s ++ post)
    = Done (pre ++ s ++ z :: post).
Proof.
  revert i pre x. induction s as [|y s IH]; intros i pre x Hi; cbn [base.length for_loop app].
  { by exists x. }
  rewrite item_at_next by done. rewrite bind_Done, put_at by done. rewrite bind_Done.
  destruct (IH (i + 1) (pre ++ [y]) y) as [z Hz]; [rewrite length_app; cbn; lia|].
  exists z. rewrite <- !app_assoc in Hz. exact Hz.
Qed.

Lemma find_loop i pre l post x :
  i = Z.of_nat (base.length pre) →
  find (base.length l) i (pre ++ l ++ post) x =
  Done ((λ p, i + Z.of_nat p.1) <$> list_find (λ y, y = x) l).
Proof.
  revert i pre. induction l as [|y l IH]; intros i pre Hi; cbn [base.length find app list_find]; [done|].
  rewrite item_at by done. rewrite bind_Done.
  destruct (Z.eqb_spec y x) as [->|Hne].
  - rewrite decide_True by done. cbn. do 2 f_equal. lia.
  - rewrite decide_False by done. specialize (IH (i + 1) (pre ++ [y])).
    rewrite <- app_assoc in IH. cbn [app] in IH.
    rewrite IH by (rewrite length_app; cbn; lia). f_equal.
    destruct (list_find (λ y, y = x) l) as [[k z]|]; cbn; [|done]. f_equal. lia.
Qed.

Lemma reverse_loop k i n pre l post :
  i = Z.of_nat (base.length pre) → n = 2 * i + Z.of_nat (base.length l) →
  Z.of_nat k = Z.of_nat (base.length l) / 2 →
  for_loop k i (λ i its,
     temp ← item its i; x ← item its (n - i - 1); its ← put its i x; put its (n - i - 1) temp)
    (pre ++ l ++ post)
  = Done (pre ++ rev l ++ post).
Proof.
  revert i pre l post. induction k as [|k IH]; intros i pre l post Hi Hn Hk; cbn [for_loop].
  { destruct l as [|x [|y l]]; [done|done|]. cbn [base.length] in Hk. zlia. }
  destruct l as [|x l]; [cbn [base.length] in Hk; zlia|].
  destruct (list_snoc_inv l) as [->|(l' & y & ->)]; [cbn [base.length] in Hk; zlia|].
  cbn [base.length] in *. rewrite length_app in *. cbn [base.length] in *.
  assert (∀ a b, pre ++ (a :: l' ++ [b]) ++ post = (pre ++ a :: l') ++ b :: post) as Eq.
  { intros. rewrite <- ?app_assoc; cbn; by rewrite <- ?app_assoc. }
  assert (∀ a b, pre ++ (a :: l' ++ [b]) ++ post = pre ++ a :: (l' ++ [b] ++ post)) as Ep.
  { intros. rewrite <- ?app_assoc; cbn; by rewrite <- ?app_assoc. }
  rewrite Ep at 1. rewrite item_at by done. rewrite bind_Done.
  rewrite Eq at 1. rewrite item_at by (rewrite length_app; cbn; lia). rewrite bind_Done.
  rewrite Ep, put_at by done. rewrite bind_Done, <- Ep, Eq.
  rewrite put_at by (rewrite length_app; cbn; lia). rewrite bind_Done.
  specialize (IH (i + 1) (pre ++ [y]) l' (x :: post)).
  rewrite <- !app_assoc in IH |- *. cbn [app] in IH |- *.
  rewrite IH; [|rewrite length_app; cbn; lia|lia|zlia].
  cbn [rev]. rewrite rev_app_distr. cbn. by rewrite <- !app_assoc.
Qed.

(** ** Sorting *)

(** One pass of the inner loop. *)
Fixpoint bubble (x : Z) (l : list Z) : list Z :=
  match l with
  | [] => [x]
  | y :: l' => if y <? x then y :: bubble x l' else x :: bubble y l'
  end.

Lemma inner_loop i pre x l post :
  i = Z.of_nat (base.length pre) →
  for_loop (base.length l) i sort_inner (pre ++ x :: l ++ post) = Done (pre ++ bubble x l ++ post).
Proof.
  revert i pre x. induction l as [|y l IH]; intros i pre x Hi; cbn [base.length for_loop bubble app]; [done|].
  assert (sort_inner i (pre ++ x :: y :: l ++ post) =
    Done (if y <? x then pre ++ y :: x :: l ++ post else pre ++ x :: y :: l ++ post)) as ->.
  { unfold sort_inner. rewrite (item_at pre x _ i) by done. rewrite bind_Done, item_at_next by done.
    rewrite bind_Done. case_cmp; [|done].
    rewrite put_at by done. rewrite bind_Done. by apply put_at_next. }
  rewrite bind_Done. destruct (y <? x).
  - specialize (IH (i + 1) (pre ++ [y]) x). rewrite <- !app_assoc in IH. cbn [app] in IH |- *.
    rewrite IH; [done|]. rewrite length_app. cbn. lia.
  - specialize (IH (i + 1) (pre ++ [x]) y). rewrite <- !app_assoc in IH. cbn [app] in IH |- *.
    rewrite IH; [done|]. rewrite length_app. cbn. lia.
Qed.

Lemma bubble_spec x l :
  ∃ a mx, bubble x l = a ++ [mx] ∧ Permutation (a ++ [mx]) (x :: l) ∧
    base.length a = base.length l ∧ Forall (λ z, z <= mx) a.
Proof.
  revert x. induction l as [|y l IH]; intros x; cbn [bubble].
  { exists [], x. by split_and!. }
  destruct (Z.ltb_spec y x) as [Hlt|Hge].
  - destruct (IH x) as (a & mx & -> & P & L & F). exists (y :: a), mx. split_and!; cbn; try lia; [done| |].
    + rewrite P. apply Permutation_swap.
    + constructor; [|done].
      assert (x ∈ a ++ [mx]) as Hx by (rewrite P; apply elem_of_cons; by left).
      apply elem_of_app in Hx as [Hx|Hx%list_elem_of_singleton]; [|lia].
      eapply Forall_forall in F; [|exact Hx]. cbn in F. lia.
  - destruct (IH y) as (a & mx & -> & P & L & F). exists (x :: a), mx. split_and!; cbn; try lia; [done| |].
    + by rewrite P.
    + constructor; [|done].
      assert (y ∈ a ++ [mx]) as Hx by (rewrite P; apply elem_of_cons; by left).
      apply elem_of_app in Hx as [Hx|Hx%list_elem_of_singleton]; [|lia].
      eapply Forall_forall in F; [|exact Hx]. cbn in F. lia.
Qed.

(** The state of the outer loop: [a] still to sort, [s] the largest, sorted. *)
Definition sort_inv (c rest : list Z) (i : Z) (its : list Z) : Prop :=
  ∃ a s, its = a ++ s ++ rest ∧ Permutation (a ++ s) c ∧ Z.of_nat (base.length s) = i ∧
    StronglySorted Z.le s ∧ Forall (λ x, Forall (λ y, x <= y) s) a.

Lemma outer_loop_step c rest n i its :
  Z.of_nat (base.length c) = n → 0 <= i < n → sort_inv c rest i its →
  ∃ its', for_loop (Z.to_nat (n - i - 1)) 0 sort_inner its = Done its' ∧ sort_inv c rest (i + 1) its'.
Proof.
  intros Hn Hi (a & s & -> & P & Ls & Ss & Fa).
  pose proof (Permutation_length P) as Hl. rewrite length_app in Hl.
  destruct a as [|x a]; [cbn in Hl; lia|]. cbn [base.length] in Hl.
  replace (Z.to_nat (n - i - 1)) with (base.length a) by lia.
  pose proof (inner_loop 0 [] x a (s ++ rest) eq_refl) as E. cbn [app] in E |- *. rewrite E.
  eexists. split; [done|]. destruct (bubble_spec x a) as (a' & mx & Eb & Pb & Lb & Fb). rewrite Eb.
  exists a', (mx :: s). rewrite <- app_assoc. split; [done|].
  assert (∀ z, z ∈ a' ++ [mx] → Forall (λ y, z <= y) s) as Hall.
  { intros z Hz. rewrite Pb in Hz. rewrite Forall_forall in Fa. by apply Fa. }
  split_and!.
  - rewrite cons_middle, app_assoc, Pb. exact P.
  - cbn [base.length]. lia.
  - constructor; [done|]. apply Hall. apply elem_of_app. right. by apply list_elem_of_singleton.
  - apply Forall_forall. intros z Hz. constructor.
    + rewrite Forall_forall in Fb. by apply Fb.
    + apply Hall. apply elem_of_app. by left.
Qed.

(** ** The operations on the contents *)

Lemma make_room_ok fresh l :
  (∀ n, 0 <= n → Z.of_nat (base.length (fresh n)) = n) →
  list_ok l → capacity l < 2^61 →
  ∃ y post cap, make_room fresh l = Done (contents l ++ y :: post, cap) ∧
    Z.of_nat (base.length (contents l ++ y :: post)) = cap ∧ 1 <= cap < 2^62.
Proof.
  intros Hfresh Hok Hc. pose proof Hok as [H1 H2 H3].
  destruct (contents_split l Hok) as (rest & Ei & El). set (c := contents l) in *.
  unfold make_room. destruct (Z.eqb_spec (length l) (capacity l)) as [Efull|Hne].
  - rewrite to_u64_id by (znorm; lia). cbn zeta.
    pose proof (Hfresh (capacity l * 2) ltac:(lia)) as Hf.
    set (new := fresh (capacity l * 2)) in *. rewrite <- (take_drop (Z.to_nat (length l)) new).
    rewrite Ei. replace (Z.to_nat (length l)) with (base.length c) by lia.
    pose proof (copy_loop 0 c rest [] (take (base.length c) new) (drop (base.length c) new) []) as E.
    cbn [app] in E. rewrite E; [|done|done|rewrite length_take; lia]. rewrite bind_Done.
    pose proof (length_drop new (base.length c)) as Hd.
    destruct (drop _ new) as [|y post]; [cbn in Hd; lia|].
    exists y, post, (capacity l * 2). split; [done|]. rewrite length_app. cbn in Hd |- *. lia.
  - destruct rest as [|y post]; [rewrite Ei, app_nil_r in H1; lia|].
    exists y, post, (capacity l). rewrite Ei in H1 |- *. done.
Qed.

Lemma add_ok fresh l x :
  (∀ n, 0 <= n → Z.of_nat (base.length (fresh n)) = n) →
  list_ok l → capacity l < 2^61 →
  ∃ l', add fresh l x = Done l' ∧ list_ok l' ∧ contents l' = contents l ++ [x].
Proof.
  intros Hfresh Hok Hc. pose proof Hok as [H1 H2 H3]. unfold add.
  destruct (contents_split l Hok) as (rest & Ei & El).
  destruct (make_room_ok fresh l Hfresh Hok Hc) as (y & post & cap & -> & Hl & Hcap).
  rewrite bind_Done, put_at by done. rewrite bind_Done, to_u64_id by (znorm; lia).
  eexists. split; [done|]. rewrite (cons_middle x), app_assoc.
  split; [apply list_ok_make|apply contents_make]; rewrite ?length_app in *; cbn in *; lia.
Qed.

Lemma remove_index_ok l i :
  list_ok l → 0 <= i →
  ∃ l', remove_index l i = Done l' ∧ list_ok l' ∧ contents l' = delete (Z.to_nat i) (contents l).
Proof.
  intros Hok Hi. pose proof Hok as [H1 H2 H3].
  destruct (contents_split l Hok) as (rest & Ei & El). unfold remove_index.
  destruct (Z.leb_spec (length l) i) as [Hle|Hlt].
  { exists l. split; [done|]. split; [done|]. rewrite delete_take_drop, take_ge, drop_ge, app_nil_r by lia. done. }
  destruct (lookup_lt_is_Some_2 (contents l) (Z.to_nat i)) as [x Hx]; [lia|].
  pose proof (take_drop_middle _ _ _ Hx) as Hc.
  pose proof (delete_take_drop (contents l) (Z.to_nat i)) as ->.
  set (pre := take _ (contents l)) in *. set (s := drop _ (contents l)) in *.
  assert (Z.of_nat (base.length pre) = i) as Hpre by (unfold pre; rewrite length_take; lia).
  assert (Z.of_nat (base.length s) = length l - 1 - i) as Hs by (unfold s; rewrite length_drop; lia).
  rewrite Ei, <- Hc, <- app_assoc. cbn [app].
  replace (Z.to_nat (length l - 1 - i)) with (base.length s) by lia.
  destruct (shift_loop i pre x s rest) as [z ->]; [lia|]. rewrite bind_Done.
  eexists. split; [done|]. rewrite app_assoc.
  split; [apply list_ok_make|apply contents_make]; try done.
  - rewrite length_app. lia.
  - rewrite Ei, <- Hc in H1. rewrite !length_app in *. cbn in *. lia.
  - rewrite length_app. lia.
Qed.

Lemma find_ok l x :
  list_ok l →
  find (Z.to_nat (length l)) 0 (items l) x =
  Done ((λ p, Z.of_nat p.1) <$> list_find (λ y, y = x) (contents l)).
Proof.
  intros Hok. destruct (contents_split l Hok) as (rest & Ei & El). rewrite Ei.
  replace (Z.to_nat (length l)) with (base.length (contents l)) by lia.
  apply (find_loop 0 [] (contents l) rest x). done.
Qed.

Lemma remove_item_ok l x :
  list_ok l →
  ∃ l', remove_item l x = Done l' ∧ list_ok l' ∧
     contents l' = match list_find (λ y, y = x) (contents l) with
                   | Some (k, _) => delete k (contents l)
                   | None => contents l
                   end.
Proof.
  intros Hok. unfold remove_item. rewrite find_ok by done. rewrite bind_Done.
  destruct (list_find _ _) as [[k y]|]; cbn; [|by exists l].
  destruct (remove_index_ok l (Z.of_nat k) Hok ltac:(lia)) as (l' & E & Hl & Hc).
  exists l'. by rewrite Nat2Z.id in Hc.
Qed.

Lemma set_ok l i x :
  list_ok l → 0 <= i →
  ∃ l', set l i x = Done l' ∧ list_ok l' ∧ contents l' = <[Z.to_nat i := x]> (contents l).
Proof.
  intros Hok Hi. pose proof Hok as [H1 H2 H3].
  destruct (contents_split l Hok) as (rest & Ei & El). unfold set.
  destruct (Z.leb_spec (length l) i) as [Hle|Hlt].
  { exists l. split; [done|]. split; [done|]. by rewrite list_insert_ge by lia. }
  unfold put. destruct (Z.ltb_spec i (Z.of_nat (base.length (items l)))); [|lia].
  rewrite bind_Done, Ei. eexists. split; [done|]. rewrite insert_app_l by lia.
  split; [apply list_ok_make|apply contents_make]; rewrite ?length_app, ?length_insert; try done.
  rewrite <- H1, Ei, length_app. done.
Qed.

Lemma get_ok l i :
  list_ok l → 0 <= i → get l i = Done (default 0 (contents l !! Z.to_nat i)).
Proof.
  intros Hok Hi. destruct (contents_split l Hok) as (rest & Ei & El). unfold get.
  destruct (Z.leb_spec (length l) i) as [Hle|Hlt].
  { by rewrite lookup_ge_None_2 by lia. }
  unfold item. rewrite Ei, lookup_app_l by lia.
  destruct (lookup_lt_is_Some_2 (contents l) (Z.to_nat i)) as [x ->]; [lia|]. done.
Qed.

(** ** The contract *)

Section Contract.
Context (fresh : Z → list Z).
Hypothesis fresh_length : ∀ n, 0 <= n → Z.of_nat (base.length (fresh n)) = n.

(** [List] implements a sequence.  [add] appends, growing the array when
    it is full; [remove(index)] and [remove(item)] delete one element;
    [set] and [get] access by index; none of them touches memory outside the
    array, and the array stays consistent. *)
Theorem list_ops_refine l x i :
  list_ok l → capacity l < 2^61 → 0 <= i →
  (∃ l', add fresh l x = Done l' ∧ list_ok l' ∧ contents l' = contents l ++ [x]) ∧
  (∃ l', remove_index l i = Done l' ∧ list_ok l' ∧
     contents l' = delete (Z.to_nat i) (contents l)) ∧
  (∃ l', remove_item l x = Done l' ∧ list_ok l' ∧
     contents l' = match list_find (λ y, y = x) (contents l) with
                   | Some (k, _) => delete k (contents l)
                   | None => contents l
                   end) ∧
  (∃ l', set l i x = Done l' ∧ list_ok l' ∧
     contents l' = <[Z.to_nat i := x]> (contents l)) ∧
  get l i = Done (default 0 (contents l !! Z.to_nat i)).
Proof.
  intros Hok Hc Hi. split_and!.
  - by apply add_ok.
  - by apply remove_index_ok.
  - by apply remove_item_ok.
  - by apply set_ok.
  - by apply get_ok.
Qed.
End Contract.

Lemma sort_ok l :
  list_ok l →
  ∃ l', sort l = Done l' ∧ list_ok l' ∧
    StronglySorted Z.le (contents l') ∧ Permutation (contents l') (contents l).
Proof.
  intros Hok. pose proof Hok as [H1 H2 H3].
  destruct (contents_split l Hok) as (rest & Ei & El). unfold sort.
  destruct (for_loop_inv (sort_inv (contents l) rest) (Z.to_nat (length l)) 0
    (λ i its, for_loop (Z.to_nat (length l - i - 1)) 0 sort_inner its) (items l))
    as (its & -> & a & s & -> & P & Ls & Ss & _).
  - exists (contents l), []. rewrite app_nil_r. split_and!; try done; [constructor|].
    apply Forall_forall. intros. constructor.
  - intros i its Hi HI. apply outer_loop_step; [lia|lia|done].
  - rewrite bind_Done. pose proof (Permutation_length P) as Hl. rewrite length_app in Hl.
    destruct a as [|x a]; [|cbn in Hl; lia]. cbn [app] in *.
    eexists. split; [done|]. rewrite contents_make by lia. split_and!; try done.
    apply list_ok_make; [lia| |done]. rewrite <- H1, Ei, !length_app. lia.
Qed.

(** C28: [sort] leaves the elements of the list in ascending order: the result
    is a sorted permutation of what was there. *)
Theorem list_sort_correct l :
  list_ok l →
  ∃ l', sort l = Done l' ∧ list_ok l' ∧
    StronglySorted Z.le (contents l') ∧ Permutation (contents l') (contents l).
Proof. apply sort_ok. Qed.

(** [reverse] reverses the list; [contains] and [indexOf] answer for the
    first occurrence, [indexOf] with [-1] as a [u64] when there is none. *)
Theorem list_reverse_search l x :
  list_ok l →
  (∃ l', reverse l = Done l' ∧ list_ok l' ∧ contents l' = rev (contents l)) ∧
  contains l x = Done (bool_decide (x ∈ contents l)) ∧
  indexOf l x = Done (match list_find (λ y, y = x) (contents l) with
                      | Some (k, _) => Z.of_nat k
                      | None => 2^64 - 1
                      end).
Proof.
  intros Hok. pose proof Hok as [H1 H2 H3].
  destruct (contents_split l Hok) as (rest & Ei & El). split; [|split].
  - unfold reverse. rewrite Ei.
    pose proof (reverse_loop (Z.to_nat (length l / 2)) 0 (length l) [] (contents l) rest) as E.
    cbn [app] in E. rewrite E; [|done|lia|rewrite El; zlia]. rewrite bind_Done.
    eexists. split; [done|]. rewrite contents_make by (rewrite length_rev; lia). split; [|done].
    apply list_ok_make; [rewrite length_rev; lia| |done].
    rewrite <- H1, Ei, !length_app, length_rev. done.
  - unfold contains. rewrite find_ok by done. rewrite bind_Done. f_equal.
    destruct (list_find _ _) as [[k y]|] eqn:E; cbn.
    + apply list_find_Some in E as (Hk & -> & _). symmetry. apply bool_decide_eq_true.
      by eapply list_elem_of_lookup_2.
    + apply list_find_None in E. symmetry. apply bool_decide_eq_false. intros Hx.
      rewrite Forall_forall in E. by apply (E x).
  - unfold indexOf. rewrite find_ok by done. rewrite bind_Done.
    by destruct (list_find _ _) as [[k y]|].
Qed.

(** A list made with capacity 0 never grows: twice nothing is nothing. *)
Lemma zero_capacity_add fresh x :
  fresh 0 = [] → add fresh (List_new_capacity fresh 0) x = Undef "items[i] =".
Proof.
  intros E. unfold add, make_room, List_new_capacity. cbn [length capacity items Z.eqb].
  change (to_u64 (0 * 2)) with 0. by rewrite E.
Qed.

(** ** Examples *)

Definition sample_fresh (n : Z) : list Z := replicate (Z.to_nat n) 0xAA.

Lemma sample_fresh_length n : 0 <= n → Z.of_nat (base.length (sample_fresh n)) = n.
Proof. intros. unfold sample_fresh. rewrite length_replicate. lia. Qed.

Definition sample_list : List := mkList [34; 12; 56; 90] 4 4.

Lemma sample_list_ok : list_ok sample_list.
Proof. split; cbn; lia. Qed.

Lemma list_ops_refine_witness :
  ∃ l', add sample_fresh sample_list 78 = Done l' ∧ contents l' = [34; 12; 56; 90; 78].
Proof.
  destruct (list_ops_refine sample_fresh sample_fresh_length sample_list 78 0 sample_list_ok)
    as [(l' & E & _ & H) _]; [cbn; lia|lia|].
  exists l'. split; [exact E|exact H].
Defined.

Lemma list_sort_correct_witness :
  ∃ l', sort sample_list = Done l' ∧ StronglySorted Z.le (contents l').
Proof.
  destruct (list_sort_correct sample_list sample_list_ok) as (l' & E & _ & H & _).
  exists l'. split; [exact E|exact H].
Defined.

Lemma list_reverse_search_witness : indexOf sample_list 56 = Done 2.
Proof. apply (list_reverse_search sample_list 56 sample_list_ok). Defined.
