(* ===== verification/HeapList.v ===== *)
(** * lib/list.h on the heap

    [List<T>] as it is in memory: an object of three words and an array, both
    blocks of the heap.  KList.v has the same operations on a list of cells; the
    operations here refine those, the array that [add] outgrows is given back,
    and over every run of operations the list holds two blocks and no more. *)

From Stdlib Require Import Sorted.
From stdpp Require Import sorting.
From S2P Require Import Prelude Memory PageMapper Heap HeapSpec HeapRefine.
From S2P Require Import HeapMalloc HeapGrow HeapClient HeapRun HeapFrame MemorySamples KList.

Definition SIZEOF_LIST : Z := 24.
Definition ls_items (m : mem) (this : Z) : Z := rd64 m this.
Definition ls_length (m : mem) (this : Z) : Z := rd64 m (this + 8).
Definition ls_capacity (m : mem) (this : Z) : Z := rd64 m (this + 16).

(** [for (u64 i = ...; cond; i++)], the condition read in every round. *)
Fixpoint while_loop (n : nat) (i : Z) (cond : Z → mem → bool) (body : Z → mem → outcome mem) (m : mem) : outcome mem :=
  match n with
  | O => NoFuel
  | S n => if cond i m then m ← body i m; while_loop n (i + 1) cond body m else Done m
  end.

Section Operations.
(** [sizeof(T)] for an unsigned integer type. *)
Context (w : nat) (tries fuel : nat).
Context {W : Type} `{PageMapper W}.

(** [p[i]] *)
Definition elem (m : mem) (p i : Z) : Z := rdN w m (to_u64 (p + Z.of_nat w * i)).
Definition set_elem (m : mem) (p i v : Z) : mem := wrN w m (to_u64 (p + Z.of_nat w * i)) v.

(** [new List<T>()] *)
Definition new_List (h : Heap W) : outcome (Z * Heap W) :=
  '(this, h) ← malloc tries fuel h SIZEOF_LIST;
  if this =? 0 then Done (this, h)
  else
    '(items, h) ← malloc tries fuel h (Z.of_nat w * 4);
    let m := wr64 (h_mem h) this items in
    let m := wr64 m (this + 8) 0 in
    let m := wr64 m (this + 16) 4 in
    Done (this, with_mem h m).

(** The array twice as large. *)
Definition grow (h : Heap W) (this : Z) : outcome (Heap W) :=
  let m := wr64 (h_mem h) (this + 16) (to_u64 (ls_capacity (h_mem h) this * 2)) in
  '(new_items, h) ← malloc tries fuel (with_mem h m) (to_u64 (Z.of_nat w * ls_capacity m this));
  m ← while_loop fuel 0 (λ i m, i <? ls_length m this)
        (λ i m, Done (set_elem m new_items i (elem m (ls_items m this) i))) (h_mem h);
  let h := free (with_mem h m) (ls_items m this) in
  Done (with_mem h (wr64 (h_mem h) this new_items)).

Definition list_add (h : Heap W) (this item : Z) : outcome (Heap W) :=
  h ← (if ls_length (h_mem h) this =? ls_capacity (h_mem h) this then grow h this else Done h);
  let m := set_elem (h_mem h) (ls_items (h_mem h) this) (ls_length (h_mem h) this) item in
  Done (with_mem h (wr64 m (this + 8) (to_u64 (ls_length m this + 1)))).

Definition list_remove (m : mem) (this index : Z) : outcome mem :=
  if ls_length m this <=? index then Done m
  else
    m ← while_loop fuel index (λ i m, i <? to_u64 (ls_length m this - 1))
          (λ i m, Done (set_elem m (ls_items m this) i (elem m (ls_items m this) (i + 1)))) m;
    Done (wr64 m (this + 8) (to_u64 (ls_length m this - 1))).

Definition list_clear (m : mem) (this : Z) : mem := wr64 m (this + 8) 0.

Definition list_get (m : mem) (this index : Z) : Z :=
  if ls_length m this <=? index then 0 else elem m (ls_items m this) index.

Definition list_set (m : mem) (this index item : Z) : mem :=
  if ls_length m this <=? index then m else set_elem m (ls_items m this) index item.

(** The body of the inner loop of [sort]. *)
Definition swap_if (this j : Z) (m : mem) : mem :=
  let items := ls_items m this in
  if elem m items (j + 1) <? elem m items j then
    let temp := elem m items j in
    let m := set_elem m (ls_items m this) j (elem m items (j + 1)) in
    set_elem m (ls_items m this) (j + 1) temp
  else m.

Definition list_sort (m : mem) (this : Z) : outcome mem :=
  while_loop fuel 0 (λ i m, i <? ls_length m this)
    (λ i m, while_loop fuel 0 (λ j m, j <? to_u64 (ls_length m this - i - 1)) (λ j m, Done (swap_if this j m)) m) m.

Definition list_reverse (m : mem) (this : Z) : outcome mem :=
  while_loop fuel 0 (λ i m, i <? ls_length m this / 2)
    (λ i m,
       let temp := elem m (ls_items m this) i in
       let m := set_elem m (ls_items m this) i (elem m (ls_items m this) (ls_length m this - i - 1)) in
       Done (set_elem m (ls_items m this) (ls_length m this - i - 1) temp)) m.
End Operations.

(** A loop on memory follows a counted loop on cells. *)
Lemma while_sim (R : mem → list Z → Prop) k e i cond body f its its' m n :
  e = i + Z.of_nat k → (k < n)%nat → for_loop k i f its = Done its' → R m its →
  (∀ j m its, i <= j <= e → R m its → cond j m = (j <? e)) →
  (∀ j m its its1, i <= j < e → R m its → f j its = Done its1 → ∃ m1, body j m = Done m1 ∧ R m1 its1) →
  ∃ m', while_loop n i cond body m = Done m' ∧ R m' its'.
Proof.
  revert i its m n. induction k as [|k IH]; intros i its m n He Hn E HR Hc Hb; (destruct n as [|n]; [lia|]);
    cbn [while_loop for_loop] in *; rewrite (Hc i m its) by (done || lia).
  - injection E as <-. destruct (Z.ltb_spec i e); [lia|]. by exists m.
  - destruct (Z.ltb_spec i e); [|lia]. destruct (f i its) as [its1| | |] eqn:Ef; try done.
    destruct (Hb i m its its1) as (m1 & -> & HR1); [lia|done|done|]. rewrite bind_Done in *.
    eapply IH; [lia|lia|exact E|done| |]; intros j m2 its2; [|intros its3]; intros Hj; [apply Hc|apply Hb]; lia.
Qed.

(** ** The object *)

Section Object.
Context (w : nat).
Hypothesis width : (1 <= w <= 8)%nat.

Definition in_T (x : Z) : Prop := 0 <= x < 2^(8 * Z.of_nat w).

(** The list [v] of KList.v, its object in block [s1] and its array in block [s2]. *)
Record hlist (m : mem) (s1 s2 : seg) (v : List) : Prop := {
  hl_object : SIZEOF_LIST <= s_len s1 ∧ 0 <= block s1;
  hl_array : Z.of_nat w * capacity v <= s_len s2 ∧ 0 <= block s2 ∧ seg_end s2 <= 2^47;
  hl_apart : seg_end s1 <= block s2 ∨ seg_end s2 <= block s1;
  hl_items : ls_items m (block s1) = block s2;
  hl_length : ls_length m (block s1) = length v;
  hl_capacity : ls_capacity m (block s1) = capacity v;
  hl_ok : list_ok v;
  hl_elem i x : items v !! i = Some x → rdN w m (block s2 + Z.of_nat w * Z.of_nat i) = x
}.

(** Memories that differ in the array only, or in the two blocks. *)
Definition only_in (s : seg) (m m' : mem) : Prop := ∀ a, ¬ (block s <= a < seg_end s) → rd8 m' a = rd8 m a.
Definition only_in2 (s1 s2 : seg) (m m' : mem) : Prop :=
  ∀ a, ¬ (block s1 <= a < seg_end s1) → ¬ (block s2 <= a < seg_end s2) → rd8 m' a = rd8 m a.

Lemma seg_end_len s : seg_end s = block s + s_len s.
Proof. done. Qed.

Lemma elem_at m s1 s2 v i :
  hlist m s1 s2 v → 0 <= i < capacity v → elem w m (block s2) i = rdN w m (block s2 + Z.of_nat w * i).
Proof.
  intros [_ (A1 & A2 & A3) _ _ _ _ _ _] Hi. unfold elem. rewrite seg_end_len in A3. rewrite to_u64_id by (znorm; nia). done.
Qed.

Lemma hl_item m s1 s2 v i x :
  hlist m s1 s2 v → 0 <= i → item (items v) i = Done x → elem w m (ls_items m (block s1)) i = x ∧ in_T x.
Proof.
  intros H Hi E. unfold item in E. destruct (items v !! Z.to_nat i) as [y|] eqn:Ey; [|done]. injection E as ->.
  pose proof (lookup_lt_Some _ _ _ Ey). pose proof (lk_cap _ (hl_ok _ _ _ _ H)).
  rewrite (hl_items _ _ _ _ H), (elem_at _ _ _ _ _ H) by lia.
  pose proof (hl_elem _ _ _ _ H _ _ Ey) as Ex. rewrite Z2Nat.id in Ex by lia. split; [done|].
  rewrite <- Ex. apply rdN_range.
Qed.

Lemma list_ok_put its n c i x its' :
  list_ok (mkList its n c) → put its i x = Done its' → list_ok (mkList its' n c).
Proof.
  intros [H1 H2 H3] E. unfold put in E. destruct (_ <? _); [|done]. injection E as <-.
  split; cbn in *; rewrite ?length_insert; done.
Qed.

Lemma hl_put m s1 s2 its n c i x its' :
  hlist m s1 s2 (mkList its n c) → 0 <= i → in_T x → put its i x = Done its' →
  let m' := set_elem w m (ls_items m (block s1)) i x in
  hlist m' s1 s2 (mkList its' n c) ∧ only_in s2 m m'.
Proof.
  intros H Hi Hx Ep m'. pose proof H as [[B1 B1'] (A1 & A2 & A3) A4 A5 A6 A7 A8 A9].
  pose proof (lk_cap _ A8) as Hc. unfold SIZEOF_LIST in B1. cbn [capacity items length] in *.
  pose proof (list_ok_put _ _ _ _ _ _ A8 Ep) as Hok.
  unfold put in Ep. destruct (Z.ltb_spec i (Z.of_nat (base.length its))); [|done]. injection Ep as <-.
  rewrite seg_end_len in *. rewrite seg_end_len in A4.
  assert (m' = wrN w m (block s2 + Z.of_nat w * i) x) as Em.
  { unfold m', set_elem. rewrite A5, to_u64_id by (znorm; nia). done. }
  rewrite Em. split.
  - split; cbn [capacity items length]; try done; try (rewrite <- ?A5, <- ?A6, <- ?A7; apply rdN_wrN_ne; nia).
    intros j y Hj. apply list_lookup_insert_Some in Hj as [(<- & <- & _)|(Hne & Hj)].
    + rewrite Z2Nat.id, rdN_wrN_eq by lia. by apply Z.mod_small.
    + rewrite rdN_wrN_ne by nia. by apply A9.
  - intros a Ha. apply rd8_wrN_ne. rewrite seg_end_len in Ha. nia.
Qed.

Lemma hl_set_length m s1 s2 its n c n' :
  hlist m s1 s2 (mkList its n c) → 0 <= n' <= c →
  let m' := wr64 m (block s1 + 8) n' in hlist m' s1 s2 (mkList its n' c) ∧ only_in s1 m m'.
Proof.
  intros [[B1 B1'] (A1 & A2 & A3) A4 A5 A6 A7 [K1 K2 K3] A9] Hn m'. unfold SIZEOF_LIST in B1. cbn [capacity items length] in *.
  rewrite seg_end_len in *. rewrite seg_end_len in A4. split.
  - split; cbn [capacity items length]; try done.
    + rewrite <- A5. apply rdN_wrN_ne. lia.
    + unfold ls_length, m'. rewrite rd64_wr64_eq. apply to_u64_id. znorm. lia.
    + rewrite <- A7. apply rdN_wrN_ne. lia.
    + intros i x Hi. rewrite <- (A9 i x Hi). apply rdN_wrN_ne. pose proof (lookup_lt_Some _ _ _ Hi). nia.
  - intros a Ha. apply rd8_wrN_ne. rewrite seg_end_len in Ha. lia.
Qed.

Lemma only_in2_trans s1 s2 m m1 m2 : only_in s2 m m1 → only_in s1 m1 m2 → only_in2 s1 s2 m m2.
Proof. intros H1 H2 a Ha Hb. rewrite H2, H1; done. Qed.

(** ** The operations on memory *)

(** The cells of a list in memory, while its array is worked on. *)
Definition working (s1 s2 : seg) (n c : Z) (m0 m : mem) (its : list Z) : Prop :=
  hlist m s1 s2 (mkList its n c) ∧ only_in s2 m0 m.

Lemma working_refl s1 s2 v m : hlist m s1 s2 v → working s1 s2 (length v) (capacity v) m m (items v).
Proof. intros H. split; [by destruct v|done]. Qed.

Lemma working_put s1 s2 n c m0 m its i x its' :
  working s1 s2 n c m0 m its → 0 <= i → in_T x → put its i x = Done its' →
  working s1 s2 n c m0 (set_elem w m (ls_items m (block s1)) i x) its'.
Proof.
  intros [H1 H2] Hi Hx E. destruct (hl_put _ _ _ _ _ _ _ _ _ H1 Hi Hx E) as [H3 H4]. split; [done|].
  intros a Ha. rewrite H4 by done. by apply H2.
Qed.

Context (fuel : nat).

Lemma list_remove_spec m s1 s2 v i v' :
  hlist m s1 s2 v → 0 <= i → (Z.to_nat (length v) < fuel)%nat → remove_index v i = Done v' →
  ∃ m', list_remove w fuel m (block s1) i = Done m' ∧ hlist m' s1 s2 v' ∧ only_in2 s1 s2 m m'.
Proof using width.
  intros H Hi Hf E. pose proof (hl_ok _ _ _ _ H) as [K1 K2 K3]. unfold list_remove, remove_index in *.
  rewrite (hl_length _ _ _ _ H). destruct (Z.leb_spec (length v) i); [injection E as <-; by exists m|].
  destruct (for_loop _ _ _ _) as [its| | |] eqn:El in E; try done. rewrite bind_Done in E. injection E as <-.
  destruct (while_sim (working s1 s2 (length v) (capacity v) m) (Z.to_nat (length v - 1 - i)) (length v - 1) i
    (λ i m, i <? to_u64 (ls_length m (block s1) - 1))
    (λ i m, Done (set_elem w m (ls_items m (block s1)) i (elem w m (ls_items m (block s1)) (i + 1)))) _ _ _ m fuel
    ltac:(lia) ltac:(lia) El (working_refl _ _ _ _ H)) as (m1 & -> & [H1 H2]).
  - intros j m1 its1 Hj [H1 _]. rewrite (hl_length _ _ _ _ H1). cbn [length]. rewrite to_u64_id by (znorm; lia). done.
  - intros j m1 its1 its2 Hj HR E. destruct (item its1 (j + 1)) as [x| | |] eqn:Ex; try done. rewrite bind_Done in E.
    destruct (hl_item _ _ _ _ (j + 1) _ (proj1 HR) ltac:(lia) Ex) as [-> Hx]. eexists. split; [done|].
    eapply working_put; [done|lia|done|done].
  - rewrite bind_Done, (hl_length _ _ _ _ H1). cbn [length]. rewrite to_u64_id by (znorm; lia).
    destruct (hl_set_length _ _ _ _ _ _ (length v - 1) H1) as [H3 H4]; [lia|].
    eexists. split; [done|]. split; [done|]. by eapply only_in2_trans.
Qed.

Lemma list_clear_spec m s1 s2 v :
  hlist m s1 s2 v → hlist (list_clear m (block s1)) s1 s2 (clear v) ∧ only_in2 s1 s2 m (list_clear m (block s1)).
Proof.
  intros H. pose proof (hl_ok _ _ _ _ H) as [K1 K2 K3]. destruct v as [its n c]. cbn in K2.
  destruct (hl_set_length _ _ _ _ _ _ 0 H) as [H1 H2]; [lia|]. split; [done|]. intros a Ha _. by apply H2.
Qed.

Lemma list_get_spec m s1 s2 v i x :
  hlist m s1 s2 v → 0 <= i → get v i = Done x → list_get w m (block s1) i = x.
Proof using width.
  intros H Hi E. unfold list_get, get in *. rewrite (hl_length _ _ _ _ H).
  destruct (length v <=? i); [by injection E|]. by destruct (hl_item _ _ _ _ _ _ H Hi E).
Qed.

Lemma list_set_spec m s1 s2 v i x v' :
  hlist m s1 s2 v → 0 <= i → in_T x → set v i x = Done v' →
  hlist (list_set w m (block s1) i x) s1 s2 v' ∧ only_in2 s1 s2 m (list_set w m (block s1) i x).
Proof using width.
  intros H Hi Hx E. unfold list_set, set in *. rewrite (hl_length _ _ _ _ H).
  destruct (length v <=? i); [injection E as <-; done|].
  destruct (put (items v) i x) as [its| | |] eqn:Ep; try done. rewrite bind_Done in E. injection E as <-.
  destruct (working_put _ _ _ _ _ _ _ _ _ _ (working_refl _ _ _ _ H) Hi Hx Ep) as [H1 H2].
  split; [done|]. intros a _ Ha. by apply H2.
Qed.

(** ** Sorting and reversing *)

Lemma swap_if_spec s1 s2 n c m0 m its j its' :
  working s1 s2 n c m0 m its → 0 <= j → sort_inner j its = Done its' →
  working s1 s2 n c m0 (swap_if w (block s1) j m) its'.
Proof using width.
  intros HR Hj E. unfold sort_inner in E.
  destruct (item its j) as [a| | |] eqn:Ea; try done. rewrite bind_Done in E.
  destruct (item its (j + 1)) as [b| | |] eqn:Eb; try done. rewrite bind_Done in E.
  destruct (hl_item _ _ _ _ _ _ (proj1 HR) Hj Ea) as [Xa Ta].
  destruct (hl_item _ _ _ _ (j + 1) _ (proj1 HR) ltac:(lia) Eb) as [Xb Tb].
  unfold swap_if. cbn zeta. rewrite Xa, Xb. destruct (b <? a); [|by injection E as <-].
  destruct (put its j b) as [its1| | |] eqn:Ep; try done. rewrite bind_Done in E.
  pose proof (working_put _ _ _ _ _ _ _ _ _ _ HR Hj Tb Ep) as HR1.
  exact (working_put _ _ _ _ _ _ _ (j + 1) _ _ HR1 ltac:(lia) Ta E).
Qed.

Lemma list_sort_spec m s1 s2 v v' :
  hlist m s1 s2 v → (Z.to_nat (length v) < fuel)%nat → KList.sort v = Done v' →
  ∃ m', list_sort w fuel m (block s1) = Done m' ∧ hlist m' s1 s2 v' ∧ only_in2 s1 s2 m m'.
Proof using width.
  intros H Hf E. pose proof (hl_ok _ _ _ _ H) as [K1 K2 K3]. unfold list_sort, KList.sort in *.
  destruct (for_loop _ _ _ _) as [its| | |] eqn:El in E; try done. rewrite bind_Done in E. injection E as <-.
  destruct (while_sim (working s1 s2 (length v) (capacity v) m) (Z.to_nat (length v)) (length v) 0
    (λ i m, i <? ls_length m (block s1))
    (λ i m, while_loop fuel 0 (λ j m, j <? to_u64 (ls_length m (block s1) - i - 1))
       (λ j m, Done (swap_if w (block s1) j m)) m) _ _ _ m fuel
    ltac:(lia) Hf El (working_refl _ _ _ _ H)) as (m1 & -> & [H1 H2]).
  - intros j m1 its1 _ [H1 _]. by rewrite (hl_length _ _ _ _ H1).
  - intros i m1 its1 its2 Hi HR Ei.
    apply (while_sim (working s1 s2 (length v) (capacity v) m) (Z.to_nat (length v - i - 1)) (length v - i - 1) 0
      (λ j m, j <? to_u64 (ls_length m (block s1) - i - 1)) _ _ _ _ m1 fuel ltac:(lia) ltac:(lia) Ei HR).
    + intros j m2 its3 _ [H1 _]. rewrite (hl_length _ _ _ _ H1). cbn [length]. rewrite to_u64_id by (znorm; lia). done.
    + intros j m2 its3 its4 Hj HR2 Ej. eexists. split; [done|]. eapply swap_if_spec; [done|lia|done].
  - exists m1. split; [done|]. split; [done|]. intros a _ Ha. by apply H2.
Qed.

Lemma list_reverse_spec m s1 s2 v v' :
  hlist m s1 s2 v → (Z.to_nat (length v) < fuel)%nat → reverse v = Done v' →
  ∃ m', list_reverse w fuel m (block s1) = Done m' ∧ hlist m' s1 s2 v' ∧ only_in2 s1 s2 m m'.
Proof using width.
  intros H Hf E. pose proof (hl_ok _ _ _ _ H) as [K1 K2 K3]. unfold list_reverse, reverse in *.
  destruct (for_loop _ _ _ _) as [its| | |] eqn:El in E; try done. rewrite bind_Done in E. injection E as <-.
  assert (length v / 2 <= length v) as Hhalf by zlia.
  destruct (while_sim (working s1 s2 (length v) (capacity v) m) (Z.to_nat (length v / 2)) (length v / 2) 0
    (λ i m, i <? ls_length m (block s1) / 2)
    (λ i m,
       let temp := elem w m (ls_items m (block s1)) i in
       let m := set_elem w m (ls_items m (block s1)) i
                  (elem w m (ls_items m (block s1)) (ls_length m (block s1) - i - 1)) in
       Done (set_elem w m (ls_items m (block s1)) (ls_length m (block s1) - i - 1) temp)) _ _ _ m fuel
    ltac:(zlia) ltac:(lia) El (working_refl _ _ _ _ H)) as (m1 & E1 & [H1 H2]).
  - intros j m1 its1 _ [H1 _]. by rewrite (hl_length _ _ _ _ H1).
  - intros i m1 its1 its2 Hi HR Ei.
    destruct (item its1 i) as [a| | |] eqn:Ea; try done. rewrite bind_Done in Ei.
    destruct (item its1 (length v - i - 1)) as [b| | |] eqn:Eb; try done. rewrite bind_Done in Ei.
    destruct (put its1 i b) as [its3| | |] eqn:Ep; try done. rewrite bind_Done in Ei.
    assert (0 <= length v - i - 1) as Hge by zlia.
    destruct (hl_item _ _ _ _ i _ (proj1 HR) ltac:(lia) Ea) as [Xa Ta].
    destruct (hl_item _ _ _ _ _ _ (proj1 HR) Hge Eb) as [Xb Tb].
    cbn zeta. rewrite Xa, (hl_length _ _ _ _ (proj1 HR)). cbn [length]. rewrite Xb.
    pose proof (working_put _ _ _ _ _ _ _ i _ _ HR ltac:(lia) Tb Ep) as HR1.
    rewrite (hl_length _ _ _ _ (proj1 HR1)). cbn [length]. eexists. split; [done|].
    exact (working_put _ _ _ _ _ _ _ _ _ _ HR1 Hge Ta Ei).
  - exists m1. split; [exact E1|]. split; [done|]. intros a _ Ha. by apply H2.
Qed.
End Object.

(** ** The list on the heap *)

(** A block that is freed may join with others; no free one gets smaller. *)
Abbreviation lens := (Forall (λ u, 0 <= s_len u)).

Lemma push_lens s l : lens (s :: l) → lens (push s l).
Proof.
  intros Hl. destruct l as [|x l]; [done|]. cbn [push]. destruct (s_free s && s_free x); [|done].
  rewrite !Forall_cons in Hl. destruct Hl as (L1 & L2 & L3). constructor; [cbn; lia|done].
Qed.

Lemma coalesce_lens l : lens l → lens (coalesce l).
Proof. induction 1 as [|s l Hs Hl IH]; [done|]. apply push_lens. by constructor. Qed.

Lemma room_push n s l : lens (s :: l) → room n (s :: l) → room n (push s l).
Proof.
  intros Hl (u & Hu & Hf & Hn). destruct l as [|x l]; [by exists u|]. cbn [push].
  destruct (s_free s && s_free x) eqn:E; [|by exists u]. apply andb_true_iff in E as [E1 E2].
  rewrite !Forall_cons in Hl. destruct Hl as (L1 & L2 & L3).
  apply elem_of_cons in Hu as [->|[->|Hu]%elem_of_cons].
  1-2: exists (join s x); split; [by apply elem_of_cons; left|cbn; split; [done|lia]].
  exists u. split; [by apply elem_of_cons; right|done].
Qed.

Lemma room_coalesce n l : lens l → room n l → room n (coalesce l).
Proof.
  induction 1 as [|s l Hs Hl IH]; intros Hr; [done|]. cbn [coalesce foldr].
  apply room_push; [constructor; [done|by apply coalesce_lens]|].
  destruct Hr as (u & [->|Hu]%elem_of_cons & Hf & Hn); [exists s; split; [by apply elem_of_cons; left|done]|].
  destruct IH as (u' & Hu' & Hf' & Hn'); [by exists u|]. exists u'. split; [by apply elem_of_cons; right|done].
Qed.

Lemma room_free n a l : lens l → room n l → room n (spec_free a l).
Proof.
  intros Hl (u & Hu & Hf & Hn). apply room_coalesce.
  - apply Forall_fmap. eapply Forall_impl; [exact Hl|]. intros x Hx. cbn. unfold mark. by destruct (block x =? a).
  - exists (mark a u). split; [by apply list_elem_of_fmap_2|]. unfold mark. by destruct (block u =? a).
Qed.

Section OnHeap.
Context (w tries fuel : nat).
Context {W : Type} `{PageMapperLaws W}.
Implicit Types h : Heap W.
Hypothesis width : (1 <= w <= 8)%nat.
Hypothesis try_once : (1 <= tries)%nat.

Lemma heap_lens h l : heap_inv h l → lens l.
Proof.
  clear try_once width. intros Hi. apply Forall_forall. intros u Hu.
  destruct (tiled_in _ _ _ _ (hr_tiled _ _ (hi_rep _ _ Hi)) Hu) as (? & ? & ?). lia.
Qed.

(** Stores into two blocks of a session. *)
Lemma session_write2 h0 l0 ss h l s1 s2 m' :
  session untracked h0 l0 ss h l → s1 ∈ ss → s2 ∈ ss → only_in2 s1 s2 (h_mem h) m' →
  session untracked h0 l0 ss (with_mem h m') l.
Proof.
  intros Sn H1 H2 Hm. set (mid := splice (block s1) (seg_end s1) m' (h_mem h)).
  assert (session untracked h0 l0 ss (with_mem h mid) l) as Sn1.
  { eapply session_write; [exact Sn|exact H1|]. intros x Hx. unfold mid. by rewrite rd8_splice, decide_False. }
  change (with_mem h m') with (with_mem (with_mem h mid) m').
  eapply session_write; [exact Sn1|exact H2|]. intros x Hx. cbn. unfold mid. rewrite rd8_splice.
  case_decide; [done|]. by apply Hm.
Qed.

(** The cells of a block. *)
Definition cells_in (m : mem) (s : seg) (n : Z) : list Z := (λ i, rdN w m (block s + Z.of_nat w * i)) <$> seqZ 0 n.

Lemma cells_in_length m s n : 0 <= n → Z.of_nat (base.length (cells_in m s n)) = n.
Proof. clear try_once width. intros Hn. unfold cells_in. rewrite length_fmap, length_seqZ. lia. Qed.

Lemma cells_in_lookup m s n i x : cells_in m s n !! i = Some x → rdN w m (block s + Z.of_nat w * Z.of_nat i) = x.
Proof. clear try_once width. intros (j & -> & [-> _]%lookup_seqZ)%list_lookup_fmap_Some. done. Qed.

Lemma new_List_spec h l r :
  heap_inv h l → 16 <= r → room (32 + 29 + (align16 (Z.of_nat w * 4) + 29 + r)) l → (search_fuel h <= fuel)%nat →
  ∃ h' l' s1 s2 v, new_List w tries fuel h = Done (block s1, h') ∧
    session untracked h l [s2; s1] h' l' ∧ s1 ≠ s2 ∧ hlist w (h_mem h') s1 s2 v ∧
    contents v = [] ∧ capacity v = 4 ∧ room r l'.
Proof using width try_once.
  intros Hi Hr Hroom Hf. destruct (align16_spec (Z.of_nat w * 4)) as (A1 & A2 & A3); [lia|].
  assert (align16 SIZEOF_LIST = 32) as E32 by done. rewrite <- E32 in Hroom.
  destruct (session_malloc tries fuel h l [] h l SIZEOF_LIST (session_refl untracked _ _ I Hi))
    as (h1 & l1 & s1 & E1 & Sn1 & Al1 & R1); [unfold SIZEOF_LIST; lia|eapply room_le; [exact Hroom|lia]|done|done|].
  apply R1 in Hroom; [|lia]. pose proof (al_seg _ _ _ _ _ _ Al1) as [U1 L1].
  pose proof (block_on_heap _ _ _ (session_inv _ _ _ _ _ Sn1) U1) as (O1 & O2 & O3 & O4 & O5).
  unfold new_List. rewrite E1, bind_Done. destruct (Z.eqb_spec (block s1) 0); [lia|].
  destruct (session_malloc tries fuel h l [s1] h1 l1 (Z.of_nat w * 4) Sn1) as (h2 & l2 & s2 & -> & Sn2 & Al2 & R2);
    [lia|eapply room_le; [exact Hroom|lia]|done|done|].
  apply R2 in Hroom; [|lia]. rewrite bind_Done. pose proof (al_seg _ _ _ _ _ _ Al2) as [U2 L2].
  pose proof (block_on_heap _ _ _ (session_inv _ _ _ _ _ Sn2) U2) as (P1 & P2 & P3 & P4 & P5).
  assert (s1 ≠ s2) as Hne. { intros ->. by apply (al_new _ _ _ _ _ _ Al2). }
  pose proof (blocks_apart h2 l2 s1 s2 (session_inv _ _ _ _ _ Sn2)
    ltac:(eapply session_in_use; [exact Sn2|by apply elem_of_cons; right; apply elem_of_cons; left]) U2 Hne) as Hap.
  unfold SIZEOF_LIST in L1. cbn zeta. set (m := wr64 _ _ 4).
  exists (with_mem h2 m), l2, s1, s2, (mkList (cells_in m s2 4) 0 4). split; [done|]. split.
  { eapply session_write; [done|by apply elem_of_cons; right; apply elem_of_cons; left|].
    intros x Hx. unfold m. rewrite !rd8_wrN_ne by lia. done. }
  split; [done|]. split; [|split; [done|split; [done|done]]].
  split; cbn [h_mem with_mem capacity length items]; unfold SIZEOF_LIST; try lia.
  - unfold ls_items, m. mem_simpl. apply to_u64_id. znorm. lia.
  - unfold ls_length, m. mem_simpl. done.
  - unfold ls_capacity, m. mem_simpl. done.
  - split; cbn [capacity length items]; [by apply cells_in_length|lia|lia].
  - intros i x Hx. by eapply cells_in_lookup.
Qed.

(** ** Growing *)

Definition disjoint_blocks (s u : seg) : Prop := seg_end s <= block u ∨ seg_end u <= block s.

(** The copy of an array [src] in block [s2] to block [s3], for the object in [s1]. *)
Lemma copy_items_spec M s1 s2 s3 src n c its' :
  disjoint_blocks s1 s3 → disjoint_blocks s2 s3 → 24 <= s_len s1 →
  Z.of_nat w * Z.of_nat (base.length src) <= s_len s2 → 0 <= block s2 → seg_end s2 <= 2^47 →
  Z.of_nat w * c <= s_len s3 → 0 <= block s3 → seg_end s3 <= 2^47 → 0 <= c →
  ls_items M (block s1) = block s2 → ls_length M (block s1) = n → 0 <= n → (Z.to_nat n < fuel)%nat →
  (∀ i x, src !! i = Some x → rdN w M (block s2 + Z.of_nat w * Z.of_nat i) = x) →
  for_loop (Z.to_nat n) 0 (λ i its, x ← item src i; put its i x) (cells_in M s3 c) = Done its' →
  ∃ m, while_loop fuel 0 (λ i m, i <? ls_length m (block s1))
         (λ i m, Done (set_elem w m (block s3) i (elem w m (ls_items m (block s1)) i))) M = Done m ∧
    only_in s3 M m ∧ Z.of_nat (base.length its') = c ∧
    ∀ i x, its' !! i = Some x → rdN w m (block s3 + Z.of_nat w * Z.of_nat i) = x.
Proof using width.
  clear try_once. intros D1 D2 L1 L2 B2 E2 L3 B3 E3 Hc Hit Hlen Hn Hf Hsrc El. unfold disjoint_blocks in *. rewrite !seg_end_len in *.
  set (R := λ m its, only_in s3 M m ∧ Z.of_nat (base.length its) = c ∧
    ∀ i x, its !! i = Some x → rdN w m (block s3 + Z.of_nat w * Z.of_nat i) = x).
  assert (∀ m its, R m its → ls_length m (block s1) = n ∧ ls_items m (block s1) = block s2) as Hobj.
  { intros m its [Ho _]. rewrite <- Hit, <- Hlen. split; apply rdN_ext; intros a Ha; apply Ho; rewrite seg_end_len; lia. }
  apply (while_sim R (Z.to_nat n) n 0 _ _ _ _ _ M fuel ltac:(lia) Hf El).
  - split; [done|]. split; [by apply cells_in_length|]. intros i x. apply cells_in_lookup.
  - intros j m its _ HR. by destruct (Hobj m its HR) as [-> _].
  - intros j m its its1 Hj HR E. destruct (Hobj m its HR) as [_ ->]. destruct HR as (Ho & Hl & He).
    unfold item in E. destruct (src !! Z.to_nat j) as [x|] eqn:Ex; [|done]. cbn [or_undef] in E. rewrite bind_Done in E.
    pose proof (lookup_lt_Some _ _ _ Ex) as Hlt. pose proof (Hsrc _ _ Ex) as Hx. rewrite Z2Nat.id in Hx by lia.
    unfold put in E. destruct (Z.ltb_spec j (Z.of_nat (base.length its))); [|done]. injection E as <-.
    assert (elem w m (block s2) j = x) as ->.
    { unfold elem. rewrite to_u64_id by (znorm; nia). rewrite <- Hx. apply rdN_ext. intros a Ha. apply Ho.
      rewrite seg_end_len. nia. }
    eexists. split; [done|]. unfold set_elem. rewrite to_u64_id by (znorm; nia). split; [|split].
    + intros a Ha. rewrite rd8_wrN_ne; [by apply Ho|]. rewrite seg_end_len in Ha. nia.
    + by rewrite length_insert.
    + intros i y Hi. apply list_lookup_insert_Some in Hi as [(<- & <- & _)|(Hne & Hi)].
      * rewrite Z2Nat.id, rdN_wrN_eq by lia. rewrite <- Hx. apply Z.mod_small, rdN_range.
      * rewrite rdN_wrN_ne by nia. by apply He.
Qed.

(** What a list needs to be worked on in a session. *)
Record held h0 l0 (ss : list seg) h l (s1 s2 : seg) (v : List) : Prop := {
  he_session : session untracked h0 l0 ss h l;
  he_object : s1 ∈ ss;
  he_array : s2 ∈ ss;
  he_apart : s1 ≠ s2;
  he_list : hlist w (h_mem h) s1 s2 v;
  he_fuel : (search_fuel h0 <= fuel)%nat ∧ (Z.to_nat (length v) < fuel)%nat
}.

Lemma session_disjoint {I} h0 l0 ss h l s u :
  session I h0 l0 ss h l → s ∈ ss → u ∈ ss → s ≠ u → disjoint_blocks s u.
Proof.
  clear try_once width. intros Sn H1 H2 Hne.
  destruct (blocks_apart h l s u (session_inv _ _ _ _ _ Sn) (session_in_use _ _ _ _ _ _ Sn H1)
    (session_in_use _ _ _ _ _ _ Sn H2) Hne); [left|right]; lia.
Qed.

(** The list [v] while its array moves from [s2] to the new block [s3]. *)
Record moving (M : mem) (s1 s2 s3 : seg) (v : List) (c : Z) : Prop := {
  mv_items : ls_items M (block s1) = block s2;
  mv_length : ls_length M (block s1) = length v;
  mv_capacity : ls_capacity M (block s1) = c;
  mv_src i x : items v !! i = Some x → rdN w M (block s2 + Z.of_nat w * Z.of_nat i) = x;
  mv_new : Z.of_nat w * c <= s_len s3 ∧ 0 <= block s3 ∧ seg_end s3 <= 2^47;
  mv_apart : disjoint_blocks s1 s3 ∧ disjoint_blocks s2 s3
}.

Lemma cell_bound n c i : 0 <= i < c → Z.of_nat w * c <= n → 0 <= Z.of_nat w * i ∧ Z.of_nat w * i + Z.of_nat w <= n.
Proof. clear try_once. intros Hi Hn. nia. Qed.

(** The new capacity and the new block. *)
Lemma grow_block h0 l0 ss h l s1 s2 v c r :
  held h0 l0 ss h l s1 s2 v → 0 < c → 0 < Z.of_nat w * c <= 2^47 →
  16 <= r → room (align16 (Z.of_nat w * c) + 29 + r) l →
  ∃ h2 l2 s3, malloc tries fuel (with_mem h (wr64 (h_mem h) (block s1 + 16) c)) (Z.of_nat w * c) = Done (block s3, h2) ∧
    session untracked h0 l0 (s3 :: ss) h2 l2 ∧ (s3 ∉ ss) ∧ moving (h_mem h2) s1 s2 s3 v c ∧ room r l2.
Proof using width try_once.
  intros [Sn I1 I2 Hne Hl [F1 F2]] Hc Hwc Hr Hroom.
  pose proof Hl as [[B1 B1'] (A1 & A2 & A3) A4 A5 A6 A7 [K1 K2 K3] A9]. unfold SIZEOF_LIST in B1.
  destruct (align16_spec (Z.of_nat w * c)) as (G1 & G2 & G3); [done|].
  set (m1 := wr64 (h_mem h) (block s1 + 16) c).
  assert (session untracked h0 l0 ss (with_mem h m1) l) as Sn1.
  { eapply session_write; [exact Sn|exact I1|]. intros x Hx. unfold m1. apply rd8_wrN_ne. rewrite seg_end_len in Hx. lia. }
  destruct (session_malloc tries fuel h0 l0 ss _ l (Z.of_nat w * c) Sn1) as (h2 & l2 & s3 & E & Sn2 & Al2 & R2);
    [done|eapply room_le; [exact Hroom|lia]|done|done|].
  apply R2 in Hroom; [|done]. destruct (al_seg _ _ _ _ _ _ Al2) as [U3 L3].
  pose proof (block_on_heap _ _ _ (session_inv _ _ _ _ _ Sn2) U3) as (P1 & P2 & P3 & P4 & P5).
  assert (s3 ∉ ss) as Hnew. { intros Hin. apply (al_new _ _ _ _ _ _ Al2). by eapply session_in_use. }
  assert (s3 ∈ s3 :: ss ∧ s1 ∈ s3 :: ss ∧ s2 ∈ s3 :: ss) as (J3 & J1 & J2) by (rewrite !elem_of_cons; tauto).
  assert (∀ s, s ∈ ss → ∀ a, block s <= a < seg_end s → rd8 (h_mem h2) a = rd8 m1 a) as Hkept.
  { intros s Hs a Ha. apply (allocated_kept _ _ _ _ _ _ _ Al2). right. exists s. split; [by eapply session_in_use|done]. }
  assert (∀ o, 0 <= o <= 16 → rd64 (h_mem h2) (block s1 + o) = rd64 m1 (block s1 + o)) as Hobj.
  { intros o Ho. apply rdN_ext. intros a Ha. apply (Hkept s1 I1). rewrite seg_end_len. lia. }
  exists h2, l2, s3. split; [done|]. split; [done|]. split; [done|]. split; [|done]. split.
  - rewrite <- A5. unfold ls_items. rewrite <- (Z.add_0_r (block s1)), Hobj by lia. unfold m1. apply rdN_wrN_ne. lia.
  - rewrite <- A6. unfold ls_length. rewrite Hobj by lia. unfold m1. apply rdN_wrN_ne. lia.
  - unfold ls_capacity. rewrite Hobj by lia. unfold m1. rewrite rd64_wr64_eq. apply to_u64_id. znorm. clear -Hc Hwc width. nia.
  - intros i x Hx. pose proof (lookup_lt_Some _ _ _ Hx). rewrite <- (A9 i x Hx).
    destruct (cell_bound (s_len s2) (capacity v) (Z.of_nat i)) as [C1 C2]; [lia|done|].
    apply rdN_ext. intros a Ha. rewrite (Hkept s2 I2) by (rewrite seg_end_len; lia). unfold m1. apply rd8_wrN_ne.
    destruct (session_disjoint _ _ _ _ _ _ _ Sn I1 I2 Hne) as [D|D]; rewrite seg_end_len in D; lia.
  - split_and!; lia.
  - split; eapply session_disjoint; [exact Sn2|done|done|by intros ->|exact Sn2|done|done|by intros ->].
Qed.

(** The old array is given back and the new one put in its place. *)
Lemma grow_switch h0 l0 ss h l s1 s2 s3 its n c r :
  session untracked h0 l0 (s3 :: ss) h l → s1 ∈ ss → s2 ∈ ss → s1 ≠ s2 → s3 ∉ ss → 24 <= s_len s1 → 0 <= block s1 →
  ls_length (h_mem h) (block s1) = n → ls_capacity (h_mem h) (block s1) = c → list_ok (mkList its n c) →
  Z.of_nat w * c <= s_len s3 ∧ 0 <= block s3 ∧ seg_end s3 <= 2^47 → disjoint_blocks s1 s3 →
  (∀ i x, its !! i = Some x → rdN w (h_mem h) (block s3 + Z.of_nat w * Z.of_nat i) = x) → room r l →
  let h' := free h (block s2) in
  let h' := with_mem h' (wr64 (h_mem h') (block s1) (block s3)) in
  ∃ l', session untracked h0 l0 (s3 :: filter (λ u, u ≠ s2) ss) h' l' ∧ s1 ∈ s3 :: filter (λ u, u ≠ s2) ss ∧
    hlist w (h_mem h') s1 s3 (mkList its n c) ∧ room r l'.
Proof using width.
  clear try_once. intros Sn I1 I2 Hne Hnew L1 B1 Elen Ecap Hok (W1 & W2 & W3) D1 Hel Hroom h1 h'.
  assert (s2 ∈ s3 :: ss ∧ s1 ∈ s3 :: ss) as [J2 J1] by (rewrite !elem_of_cons; tauto).
  pose proof (session_in_use _ _ _ _ _ _ Sn J2) as U2. pose proof (session_inv _ _ _ _ _ Sn) as Hi.
  pose proof (free_released h l s2 Hi U2) as Rl.
  assert (session untracked h0 l0 (s3 :: filter (λ u, u ≠ s2) ss) h1 (spec_free (block s2) l)) as Sn1.
  { pose proof (session_release _ _ _ _ _ _ _ _ Sn J2 Rl) as Sn1. rewrite filter_cons_True in Sn1; [done|]. by intros ->. }
  assert (s1 ∈ s3 :: filter (λ u, u ≠ s2) ss) as Hin.
  { apply elem_of_cons. right. apply list_elem_of_filter. done. }
  assert (∀ s a, s ∈ s3 :: ss → s ≠ s2 → block s <= a < seg_end s → rd8 (h_mem h1) a = rd8 (h_mem h) a) as Hk.
  { intros s a Hs Hn Ha. apply (rl_bytes _ _ _ _ _ Rl s); [by eapply session_in_use|done|done]. }
  assert (∀ o, 0 <= o <= 16 → rd64 (h_mem h1) (block s1 + o) = rd64 (h_mem h) (block s1 + o)) as Hobj.
  { intros o Ho. apply rdN_ext. intros a Ha. apply (Hk s1); [done|done|]. rewrite seg_end_len. lia. }
  unfold disjoint_blocks in D1. rewrite !seg_end_len in *.
  exists (spec_free (block s2) l). split; [|split; [done|split]].
  - eapply session_write; [exact Sn1|exact Hin|]. intros x Hx. rewrite seg_end_len in Hx. apply rd8_wrN_ne. lia.
  - destruct Hok as [K1 K2 K3]. cbn [items length capacity] in *.
    split; cbn [items length capacity h_mem with_mem h']; unfold SIZEOF_LIST; rewrite ?seg_end_len; try done.
    + unfold ls_items. rewrite rd64_wr64_eq. apply to_u64_id. znorm. lia.
    + unfold ls_length in *. rewrite rdN_wrN_ne by lia. by rewrite Hobj.
    + unfold ls_capacity in *. rewrite rdN_wrN_ne by lia. by rewrite Hobj.
    + intros i x Hx. pose proof (lookup_lt_Some _ _ _ Hx). rewrite <- (Hel i x Hx).
      destruct (cell_bound (s_len s3) c (Z.of_nat i)) as [C1 C2]; [lia|done|].
      rewrite rdN_wrN_ne by lia. apply rdN_ext. intros a Ha.
      apply (Hk s3); [by apply elem_of_cons; left|by intros ->|rewrite seg_end_len; lia].
  - apply room_free; [by eapply heap_lens|done].
Qed.

(** [grow] moves the list to an array twice as large and gives the old one back. *)
Lemma grow_spec h0 l0 ss h l s1 s2 v r :
  held h0 l0 ss h l s1 s2 v → length v = capacity v → Z.of_nat w * (capacity v * 2) <= 2^47 →
  16 <= r → room (align16 (Z.of_nat w * (capacity v * 2)) + 29 + r) l →
  ∃ h' l' s3 fresh its, grow w tries fuel h (block s1) = Done h' ∧
    make_room fresh v = Done (its, capacity v * 2) ∧ (∀ n, 0 <= n → Z.of_nat (base.length (fresh n)) = n) ∧
    held h0 l0 (s3 :: filter (λ u, u ≠ s2) ss) h' l' s1 s3 (mkList its (length v) (capacity v * 2)) ∧ room r l'.
Proof using width try_once.
  intros Hh Efull Hbig Hr Hroom. pose proof Hh as [Sn I1 I2 Hne Hl [F1 F2]].
  pose proof Hl as [[B1 B1'] (A1 & A2 & A3) A4 A5 A6 A7 Hok A9]. pose proof Hok as [K1 K2 K3]. unfold SIZEOF_LIST in B1.
  set (c := capacity v * 2) in *.
  assert (0 < c ∧ 0 < Z.of_nat w * c ∧ is_u64 c ∧ c < 2^62) as (C1 & C2 & C3 & C4).
  { clear -K3 Hbig width c. znorm. nia. }
  destruct (grow_block h0 l0 ss h l s1 s2 v c r Hh C1 (conj C2 Hbig) Hr Hroom)
    as (h2 & l2 & s3 & Em & Sn2 & Hnew & [M1 M2 M3 M4 M5 [M6 M7]] & Hr2).
  destruct (make_room_ok (cells_in (h_mem h2) s3) v (cells_in_length (h_mem h2) s3) Hok) as (y & post & cap & Emk & _);
    [unfold c in C4; lia|].
  pose proof Emk as El. unfold make_room in El. rewrite Efull, Z.eqb_refl in El. fold c in El.
  rewrite (to_u64_id c) in El by done. cbn zeta in El.
  destruct (for_loop _ _ _ _) as [its| | |] eqn:El2 in El; try done. rewrite bind_Done in El.
  apply Done_inj in El. injection El as Ei Ec. rewrite <- Ei, <- Ec in Emk.
  destruct (copy_items_spec (h_mem h2) s1 s2 s3 (items v) (length v) c its) as (m3 & Ew & O3 & L3 & E3); try done; try lia.
  { by rewrite Efull. }
  assert (∀ o, 0 <= o <= 16 → rd64 m3 (block s1 + o) = rd64 (h_mem h2) (block s1 + o)) as Hobj.
  { intros o Ho. apply rdN_ext. intros a Ha. apply O3. unfold disjoint_blocks in M6. rewrite !seg_end_len in *. lia. }
  assert (session untracked h0 l0 (s3 :: ss) (with_mem h2 m3) l2) as Sn3.
  { eapply session_write; [exact Sn2|by apply elem_of_cons; left|]. exact O3. }
  destruct (grow_switch h0 l0 ss (with_mem h2 m3) l2 s1 s2 s3 its (length v) c r Sn3 I1 I2 Hne Hnew B1 B1')
    as (l' & Sn4 & J1 & Hl4 & Hr4); try done.
  { unfold ls_length in *. cbn [h_mem with_mem]. by rewrite Hobj. }
  { unfold ls_capacity in *. cbn [h_mem with_mem]. by rewrite Hobj. }
  { split; cbn [items length capacity]; lia. }
  eexists _, l', s3, (cells_in (h_mem h2) s3), its. split; [|split; [exact Emk|split; [apply cells_in_length|split; [|exact Hr4]]]].
  - unfold grow. cbn zeta. rewrite A7. fold c. rewrite (to_u64_id c) by done.
    unfold ls_capacity at 1. rewrite rd64_wr64_eq, (to_u64_id c) by done.
    rewrite (to_u64_id (Z.of_nat w * c)) by (znorm; lia). rewrite Em, bind_Done, Ew, bind_Done.
    assert (ls_items m3 (block s1) = block s2) as ->; [|reflexivity].
    unfold ls_items in *. by rewrite <- (Z.add_0_r (block s1)), Hobj, Z.add_0_r by lia.
  - split; try done; [by apply elem_of_cons; left|]. intros ->. done.
Qed.

(** [add] refines [KList.add]; the list holds its two blocks as before. *)
Lemma list_add_spec h0 l0 ss h l s1 s2 v x r :
  let full := length v =? capacity v in
  let cost := if full then align16 (Z.of_nat w * (capacity v * 2)) + 29 else 0 in
  held h0 l0 ss h l s1 s2 v → in_T w x → (S (Z.to_nat (length v)) < fuel)%nat →
  Z.of_nat w * (capacity v * 2) <= 2^47 → 16 <= r → room (cost + r) l →
  ∃ h' l' s3 fresh v', list_add w tries fuel h (block s1) x = Done h' ∧
    add fresh v x = Done v' ∧ (∀ n, 0 <= n → Z.of_nat (base.length (fresh n)) = n) ∧
    held h0 l0 (if full then s3 :: filter (λ u, u ≠ s2) ss else ss) h' l' s1 s3 v' ∧
    capacity v' = (if full then capacity v * 2 else capacity v) ∧ room r l'.
Proof using width try_once.
  intros full cost Hh Hx Hf Hbig Hr Hroom.
  assert (∃ h1 l1 s3 fresh its cap,
    (if ls_length (h_mem h) (block s1) =? ls_capacity (h_mem h) (block s1) then grow w tries fuel h (block s1) else Done h)
      = Done h1 ∧
    make_room fresh v = Done (its, cap) ∧ (∀ n, 0 <= n → Z.of_nat (base.length (fresh n)) = n) ∧
    held h0 l0 (if full then s3 :: filter (λ u, u ≠ s2) ss else ss) h1 l1 s1 s3 (mkList its (length v) cap) ∧
    cap = (if full then capacity v * 2 else capacity v) ∧ length v < cap ∧ room r l1)
    as (h1 & l1 & s3 & fresh & its & cap & Eg & Emk & Hfr & Hh1 & Ecap & Hlt & Hr1).
  { rewrite (hl_length _ _ _ _ _ (he_list _ _ _ _ _ _ _ _ Hh)), (hl_capacity _ _ _ _ _ (he_list _ _ _ _ _ _ _ _ Hh)).
    pose proof (hl_ok _ _ _ _ _ (he_list _ _ _ _ _ _ _ _ Hh)) as [K1 K2 K3]. unfold full, cost in *.
    destruct (Z.eqb_spec (length v) (capacity v)) as [E|E].
    - destruct (grow_spec h0 l0 ss h l s1 s2 v r Hh E Hbig Hr Hroom) as (h1 & l1 & s3 & fresh & its & G).
      exists h1, l1, s3, fresh, its, (capacity v * 2). destruct G as (G1 & G2 & G3 & G4 & G5).
      split_and!; try done. lia.
    - exists h, l, s2, (λ n, replicate (Z.to_nat n) 0), (items v), (capacity v). split; [done|]. split.
      { unfold make_room. destruct (Z.eqb_spec (length v) (capacity v)); done. }
      split; [intros n Hn; rewrite length_replicate; lia|]. split; [by destruct v|]. split; [done|]. split; [lia|done]. }
  destruct Hh1 as [Sn1 J1 J3 N1 Hl1 [F1 F2]].
  destruct (put its (length v) x) as [its'| | |] eqn:Ep.
  2-4: exfalso; unfold put in Ep; pose proof (lk_cap _ (hl_ok _ _ _ _ _ Hl1)); cbn [items capacity] in *;
    destruct (Z.ltb_spec (length v) (Z.of_nat (base.length its))); [done|lia].
  pose proof (lk_len _ (hl_ok _ _ _ _ _ Hl1)) as Hk. pose proof (lk_pos _ (hl_ok _ _ _ _ _ Hl1)) as Hp. cbn [length capacity] in *.
  destruct (hl_put w width _ _ _ _ _ _ (length v) _ _ Hl1 ltac:(lia) Hx Ep) as [Hl2 O2].
  destruct (hl_set_length w width _ _ _ _ _ _ (length v + 1) Hl2) as [Hl3 O3]; [lia|].
  exists (with_mem h1 (wr64 (set_elem w (h_mem h1) (ls_items (h_mem h1) (block s1)) (length v) x) (block s1 + 8) (length v + 1))),
    l1, s3, fresh, (mkList its' (length v + 1) cap).
  split; [|split; [|split; [done|split; [|split; [done|done]]]]].
  - unfold list_add. rewrite Eg, bind_Done. cbn zeta. rewrite (hl_length _ _ _ _ _ Hl1). cbn [length].
    rewrite (hl_length _ _ _ _ _ Hl2). cbn [length]. rewrite to_u64_id by (znorm; lia). done.
  - unfold add. rewrite Emk, bind_Done, Ep, bind_Done, to_u64_id by (znorm; lia). done.
  - split; try done; [|split; [done|cbn [length]; lia]]. eapply session_write2; [exact Sn1|exact J1|exact J3|].
    by eapply only_in2_trans.
Qed.
End OnHeap.

(** ** Runs *)

Inductive list_op := Add (x : Z) | Remove (i : Z) | Assign (i x : Z) | Clear | Sort | Reverse.

(** What an operation does to the sequence. *)
Definition seq_op (c : list Z) (op : list_op) : list Z :=
  match op with
  | Add x => c ++ [x]
  | Remove i => delete (Z.to_nat i) c
  | Assign i x => <[Z.to_nat i := x]> c
  | Clear => []
  | Sort => merge_sort Z.le c
  | Reverse => rev c
  end.

Section Run.
Context (w tries fuel : nat).
Context {W : Type}.

Definition exec_op `{PageMapper W} (h : Heap W) (this : Z) (op : list_op) : outcome (Heap W) :=
  match op with
  | Add x => list_add w tries fuel h this x
  | Remove i => m ← list_remove w fuel (h_mem h) this i; Done (with_mem h m)
  | Assign i x => Done (with_mem h (list_set w (h_mem h) this i x))
  | Clear => Done (with_mem h (list_clear (h_mem h) this))
  | Sort => m ← list_sort w fuel (h_mem h) this; Done (with_mem h m)
  | Reverse => m ← list_reverse w fuel (h_mem h) this; Done (with_mem h m)
  end.

Fixpoint exec_ops `{PageMapper W} (h : Heap W) (this : Z) (ops : list list_op) : outcome (Heap W) :=
  match ops with
  | [] => Done h
  | op :: ops => h ← exec_op h this op; exec_ops h this ops
  end.

Definition op_ok (op : list_op) : Prop :=
  match op with
  | Add x => in_T w x
  | Remove i => 0 <= i
  | Assign i x => 0 <= i ∧ in_T w x
  | _ => True
  end.

(** The heap memory an operation takes for a list of [n] elements. *)
Definition grows (op : list_op) (n c : Z) : bool := match op with Add _ => n =? c | _ => false end.
Definition op_cost (op : list_op) (n c : Z) : Z :=
  if grows op n c then align16 (Z.of_nat w * (c * 2)) + 29 else 0.
Fixpoint memory_needed (ops : list list_op) (c : list Z) (cap : Z) : Z :=
  match ops with
  | [] => 0
  | op :: ops =>
      let n := Z.of_nat (base.length c) in
      op_cost op n cap + memory_needed ops (seq_op c op) (if grows op n cap then cap * 2 else cap)
  end.

Context `{PageMapperLaws W}.
Hypothesis width : (1 <= w <= 8)%nat.
Hypothesis try_once : (1 <= tries)%nat.
Implicit Types h : Heap W.

Lemma contents_length v : list_ok v → Z.of_nat (base.length (contents v)) = length v.
Proof. clear. intros Hok. by destruct (contents_split v Hok) as (_ & _ & ?). Qed.

Lemma seq_op_length c op : (base.length (seq_op c op) <= S (base.length c))%nat.
Proof.
  clear. destruct op; cbn [seq_op]; rewrite ?length_app, ?length_insert, ?length_rev; cbn [base.length]; try lia.
  - rewrite delete_take_drop, length_app, length_take, length_drop. lia.
  - by rewrite merge_sort_Permutation; auto.
Qed.

Abbreviation held_by := (held w fuel).

(** Operations that work in the two blocks the list has. *)
Lemma held_write h0 l0 h l s1 s2 v m' v' :
  held_by h0 l0 [s2; s1] h l s1 s2 v → hlist w m' s1 s2 v' → only_in2 s1 s2 (h_mem h) m' →
  (Z.to_nat (length v') < fuel)%nat → held_by h0 l0 [s2; s1] (with_mem h m') l s1 s2 v'.
Proof.
  intros [Sn J1 J2 Hne _ [F1 _]] Hl Hm Hf. split; try done. eapply session_write2; [exact Sn|exact J1|exact J2|exact Hm].
Qed.

(** An operation on the two blocks, given what it does on the cells. *)
Lemma in_place h0 l0 h l s1 s2 v m' v' c r :
  held_by h0 l0 [s2; s1] h l s1 s2 v → hlist w m' s1 s2 v' → only_in2 s1 s2 (h_mem h) m' →
  contents v' = c → capacity v' = capacity v → (base.length c < fuel)%nat → room (0 + r) l →
  ∃ h' l' s3 v', Done (with_mem h m') = Done h' ∧ held_by h0 l0 [s3; s1] h' l' s1 s3 v' ∧
    contents v' = c ∧ capacity v' = capacity v ∧ room r l'.
Proof.
  intros Hh Hl Hm Hc Hcap Hf Hr. exists (with_mem h m'), l, s2, v'. split; [done|]. split; [|done].
  eapply held_write; [exact Hh|exact Hl|exact Hm|].
  rewrite <- (contents_length v' (hl_ok _ _ _ _ _ Hl)), Hc. lia.
Qed.

Lemma sorted_merge l l' : StronglySorted Z.le l → Permutation l l' → l = merge_sort Z.le l'.
Proof.
  clear. intros Hs Hp. eapply (StronglySorted_unique Z.le); [done|apply StronglySorted_merge_sort; apply _|].
  by rewrite merge_sort_Permutation.
Qed.

Lemma remove_index_capacity v i v' : remove_index v i = Done v' → capacity v' = capacity v.
Proof. clear. unfold remove_index. destruct (_ <=? _); intros E; inv_done; by subst. Qed.
Lemma set_capacity v i x v' : set v i x = Done v' → capacity v' = capacity v.
Proof. clear. unfold set. destruct (_ <=? _); intros E; inv_done; by subst. Qed.

Lemma exec_op_spec h0 l0 h l s1 s2 v op r :
  let n := length v in
  held_by h0 l0 [s2; s1] h l s1 s2 v → op_ok op → (S (Z.to_nat n) < fuel)%nat →
  Z.of_nat w * (capacity v * 2) <= 2^47 → 16 <= r → room (op_cost op n (capacity v) + r) l →
  ∃ h' l' s3 v', exec_op h (block s1) op = Done h' ∧ held_by h0 l0 [s3; s1] h' l' s1 s3 v' ∧
    contents v' = seq_op (contents v) op ∧
    capacity v' = (if grows op n (capacity v) then capacity v * 2 else capacity v) ∧ room r l'.
Proof using width try_once.
  intros n Hh Hop Hf Hbig Hr Hroom. pose proof (he_list _ _ _ _ _ _ _ _ _ _ Hh) as Hl.
  pose proof (hl_ok _ _ _ _ _ Hl) as Hok. pose proof Hok as [K1 K2 K3]. pose proof (contents_length v Hok) as Hcl.
  pose proof (seq_op_length (contents v) op) as Hsl.
  assert (Z.to_nat (length v) < fuel)%nat as Hf' by lia.
  destruct op as [x|i|i x| | |]; cbn [op_ok exec_op grows] in *; unfold op_cost, grows in Hroom.
  - destruct (list_add_spec w tries fuel width try_once h0 l0 [s2; s1] h l s1 s2 v x r Hh Hop Hf Hbig Hr Hroom)
      as (h' & l' & s3 & fresh & v' & E & Ea & Hfr & Hh' & Ec & Hr').
    destruct (add_ok fresh v x Hfr Hok) as (v2 & Ea2 & _ & Hc); [clear -Hbig width K3; nia|].
    rewrite Ea in Ea2. apply Done_inj in Ea2 as <-.
    pose proof (he_apart _ _ _ _ _ _ _ _ _ _ Hh) as Hne. fold n in Ec |- *. unfold n in *.
    destruct (length v =? capacity v) eqn:Ef.
    + exists h', l', s3, v'. split; [exact E|]. split; [|done].
      rewrite filter_cons_False, filter_cons_True, filter_nil in Hh' by tauto. exact Hh'.
    + assert (s3 = s2) as ->.
      { pose proof (he_array _ _ _ _ _ _ _ _ _ _ Hh') as J. pose proof (he_apart _ _ _ _ _ _ _ _ _ _ Hh') as J2.
        rewrite !elem_of_cons, elem_of_nil in J. destruct J as [->|[->|[]]]; done. }
      exists h', l', s2, v'. done.
  - destruct (remove_index_ok v i Hok Hop) as (v' & E & _ & Hc).
    destruct (list_remove_spec w width fuel _ _ _ _ _ _ Hl Hop Hf' E) as (m' & -> & Hl' & Hm). rewrite bind_Done.
    eapply in_place; [done|done|done|done|by eapply remove_index_capacity|lia|done].
  - destruct Hop as [Hi Hx]. destruct (set_ok v i x Hok Hi) as (v' & E & _ & Hc).
    destruct (list_set_spec w width _ _ _ _ _ _ _ Hl Hi Hx E) as [Hl' Hm].
    eapply in_place; [done|done|done|done|by eapply set_capacity|lia|done].
  - destruct (list_clear_spec w width _ _ _ _ Hl) as [Hl' Hm].
    eapply in_place; [done|exact Hl'|exact Hm|done|done|cbn; lia|done].
  - destruct (sort_ok v Hok) as (v' & E & _ & Hs & Hp). pose proof (sorted_merge _ _ Hs Hp) as Hc.
    destruct (list_sort_spec w width fuel _ _ _ _ _ Hl Hf' E) as (m' & -> & Hl' & Hm). rewrite bind_Done.
    eapply in_place; [done|done|done|done| |lia|done]. unfold KList.sort in E. inv_done. by subst.
  - destruct (list_reverse_search v 0 Hok) as [(v' & E & _ & Hc) _].
    destruct (list_reverse_spec w width fuel _ _ _ _ _ Hl Hf' E) as (m' & -> & Hl' & Hm). rewrite bind_Done.
    eapply in_place; [done|done|done|done| |lia|done]. unfold reverse in E. inv_done. by subst.
Qed.

Lemma op_cost_nonneg op n c : 0 <= c → 0 <= op_cost op n c.
Proof.
  clear. intros Hc. unfold op_cost, align16. destruct (grows _ _ _); [|done]. destruct (0 <? _); [|lia].
  pose proof (Z.mod_pos_bound (to_u64 (Z.of_nat w * (c * 2) - (Z.of_nat w * (c * 2)) mod 16) + 16) (2^64) ltac:(lia)).
  unfold to_u64 at 1. lia.
Qed.

Lemma memory_needed_nonneg ops c cap : 0 <= cap → 0 <= memory_needed ops c cap.
Proof.
  clear. revert c cap. induction ops as [|op ops IH]; intros c cap Hc; [done|]. cbn [memory_needed].
  pose proof (op_cost_nonneg op (Z.of_nat (base.length c)) cap Hc).
  assert (0 <= if grows op (Z.of_nat (base.length c)) cap then cap * 2 else cap) as Hc' by (destruct (grows _ _ _); lia).
  specialize (IH (seq_op c op) _ Hc'). lia.
Qed.

(** [N] bounds the number of elements. *)
Lemma exec_ops_spec N h0 l0 ops h l s1 s2 v :
  held_by h0 l0 [s2; s1] h l s1 s2 v → Forall op_ok ops →
  (base.length (contents v) + base.length ops <= N)%nat → (N + 1 < fuel)%nat → Z.of_nat N <= 2^32 →
  capacity v <= 4 + 2 * Z.of_nat N → room (16 + memory_needed ops (contents v) (capacity v)) l →
  ∃ h' l' s3 v', exec_ops h (block s1) ops = Done h' ∧ held_by h0 l0 [s3; s1] h' l' s1 s3 v' ∧
    contents v' = fold_left seq_op ops (contents v).
Proof using width try_once.
  intros Hh Hops. revert h l s2 v Hh. induction Hops as [|op ops Hop Hops IH]; intros h l s2 v Hh Hn Hf HN Hcap Hroom.
  { by exists h, l, s2, v. }
  pose proof (hl_ok _ _ _ _ _ (he_list _ _ _ _ _ _ _ _ _ _ Hh)) as Hok. pose proof Hok as [K1 K2 K3].
  pose proof (contents_length v Hok) as Hcl. cbn [base.length exec_ops fold_left memory_needed] in *. rewrite Hcl in Hroom.
  set (r := 16 + memory_needed ops (seq_op (contents v) op) (if grows op (length v) (capacity v) then capacity v * 2 else capacity v)).
  assert (16 <= r) as Hr.
  { unfold r. assert (∀ x, 0 <= x → 16 <= 16 + x) as Hx by lia.
    apply Hx, memory_needed_nonneg. destruct (grows _ _ _); lia. }
  destruct (exec_op_spec h0 l0 h l s1 s2 v op r Hh Hop) as (h1 & l1 & s3 & v1 & -> & Hh1 & Hc1 & Ecap & Hr1);
    [lia|clear -width HN Hcap K3; nia|done|unfold r; eapply room_le; [exact Hroom|lia]|].
  rewrite bind_Done, <- Hc1. pose proof (seq_op_length (contents v) op) as Hsl.
  apply (IH h1 l1 s3 v1 Hh1); [rewrite Hc1; lia|done|done| |by rewrite Hc1, Ecap].
  rewrite Ecap. unfold grows. destruct op; [|lia..]. destruct (Z.eqb_spec (length v) (capacity v)); lia.
Qed.
End Run.

(** C29: [List] works on the heap and does not leak.  On a heap with room for
    it, [new List<T>()] and every run of [add], [remove(index)], [set], [clear],
    [sort] and [reverse] return; the elements that [get] reads are those of the
    sequence; of all the arrays the list has outgrown none is left: the heap
    holds what it held before, unchanged, the object and one array. *)
Theorem heap_list_run {W : Type} `{PageMapperLaws W} w tries fuel ops (h : Heap W) l :
  (1 <= w <= 8)%nat → (1 <= tries)%nat → (search_fuel h <= fuel)%nat → (base.length ops + 1 < fuel)%nat →
  Z.of_nat (base.length ops) <= 2^32 → heap_inv h l → Forall (op_ok w) ops →
  room (32 + 29 + (align16 (Z.of_nat w * 4) + 29 + (16 + memory_needed w ops [] 4))) l →
  let c := fold_left seq_op ops [] in
  ∃ h1 h' l' s1 s2,
    new_List w tries fuel h = Done (block s1, h1) ∧ exec_ops w tries fuel h1 (block s1) ops = Done h' ∧
    extends h l [s2; s1] h' l' ∧ s1 ≠ s2 ∧
    ls_length (h_mem h') (block s1) = Z.of_nat (base.length c) ∧
    ∀ i, 0 <= i → list_get w (h_mem h') (block s1) i = default 0 (c !! Z.to_nat i).
Proof.
  intros Hw Ht Hf Hn HN Hi Hops Hroom c.
  pose proof (memory_needed_nonneg w ops [] 4 ltac:(lia)) as Hm.
  destruct (new_List_spec w tries fuel Hw Ht h l (16 + memory_needed w ops [] 4) Hi ltac:(lia) Hroom Hf)
    as (h1 & l1 & s1 & s2 & v & E & Sn & Hne & Hl & Hc & Hcap & Hr).
  assert (length v = 0) as Hlen by (by rewrite <- (contents_length v (hl_ok _ _ _ _ _ Hl)), Hc).
  destruct (exec_ops_spec w tries fuel Hw Ht (base.length ops) h l ops h1 l1 s1 s2 v)
    as (h' & l' & s3 & v' & E' & [Sn' _ _ Hne' Hl' _] & Hc'); try done.
  - split; try done; rewrite ?elem_of_cons; try tauto. rewrite Hlen. lia.
  - rewrite Hc. cbn. lia.
  - lia.
  - by rewrite Hc, Hcap.
  - rewrite Hc in Hc'. pose proof (hl_ok _ _ _ _ _ Hl') as Hok. exists h1, h', l', s1, s3.
    split; [done|]. split; [done|]. split; [apply Sn'|]. split; [done|]. split.
    + by rewrite (hl_length _ _ _ _ _ Hl'), <- (contents_length v' Hok), Hc'.
    + intros i Hi0. eapply list_get_spec; [done|exact Hl'|done|]. rewrite get_ok by done. by rewrite Hc'.
Qed.

(** ** Example: the list test of kernel.cpp *)

(** The operations under DBG_TESTLISTS, on a [List<u16>]. *)
Definition test_lists : list list_op :=
  [Add 30; Add 60; Add 90; Remove 1; Clear; Add 34; Add 12; Add 56; Add 90; Add 78; Sort].

(** The elements at each check are the expected ones of its comments. *)
Example test_lists_expected :
  fold_left seq_op (take 3 test_lists) [] = [30; 60; 90] ∧
  fold_left seq_op (take 4 test_lists) [] = [30; 90] ∧
  fold_left seq_op test_lists [] = [12; 34; 56; 78; 90].
Proof. vm_compute. split_and!; reflexivity. Qed.

Lemma heap_list_run_witness :
  ∃ (h h1 h' : Heap Machine) this,
    new_List 2 1 200 h = Done (this, h1) ∧ exec_ops 2 1 200 h1 this test_lists = Done h' ∧
    list_get 2 (h_mem h') this 0 = 12 ∧ list_get 2 (h_mem h') this 4 = 90 ∧ list_get 2 (h_mem h') this 5 = 0.
Proof.
  destruct sample_initHeap as (h & _ & Es & Ee & Hi).
  destruct (heap_list_run 2 1 200 test_lists h heap_segs) as (h1 & h' & l' & s1 & s2 & E1 & E2 & _ & _ & _ & G).
  - lia.
  - lia.
  - unfold search_fuel. rewrite Es, Ee. apply Nat.leb_le. vm_compute. reflexivity.
  - vm_compute. lia.
  - vm_compute. discriminate.
  - exact Hi.
  - repeat constructor; vm_compute; discriminate.
  - eexists. split; [by apply elem_of_cons; left|]. split; [done|]. vm_compute. discriminate.
  - exists h, h1, h', (block s1). split; [exact E1|]. split; [exact E2|].
    split_and!; (rewrite G by lia); vm_compute; reflexivity.
Defined.
