(* ===== verification/PortIO.v ===== *)
(** * lib/io.cpp, lib/serial.cpp and idt/pic.cpp: port I/O

    The state is the history of port accesses, oldest first.  What a device
    answers to a read is outside the program: [device h port] is its answer
    after the history [h]. *)

From S2P Require Import Prelude Memory.

Inductive portop :=
  | Out8 (port value : Z)
  | In8 (port value : Z)
  | In16 (port value : Z).

Abbreviation ports := (list portop).

Definition PORT : Z := 0x3f8.

Definition outb (h : ports) (port value : Z) : ports := h ++ [Out8 port value].
Definition io_wait (h : ports) : ports := outb h 0x80 0.

Definition disablePIC (h : ports) : ports :=
  let h := outb h 0x20 0x11 in
  let h := outb h 0xA0 0x11 in
  let h := outb h 0x21 0x20 in
  let h := outb h 0xA1 0x28 in
  let h := outb h 0x21 0x04 in
  let h := outb h 0xA1 0x02 in
  let h := outb h 0x21 0x01 in
  let h := outb h 0xA1 0x01 in
  let h := outb h 0x21 0xFF in
  outb h 0xA1 0xFF.

Section Device.
Context (device : ports → Z → Z).

Definition inb (h : ports) (port : Z) : Z * ports :=
  let v := to_u8 (device h port) in (v, h ++ [In8 port v]).
Definition inw (h : ports) (port : Z) : Z * ports :=
  let v := to_u16 (device h port) in (v, h ++ [In16 port v]).

Definition serial_init (h : ports) : Z * ports :=
  let h := outb h (PORT + 1) 0x00 in
  let h := outb h (PORT + 3) 0x80 in
  let h := outb h (PORT + 0) 0x03 in
  let h := outb h (PORT + 1) 0x00 in
  let h := outb h (PORT + 3) 0x03 in
  let h := outb h (PORT + 2) 0xC7 in
  let h := outb h (PORT + 4) 0x0B in
  let h := outb h (PORT + 4) 0x1E in
  let h := outb h (PORT + 0) 0xAE in
  let '(v, h) := inb h (PORT + 0) in
  if negb (v =? 0xAE) then (1, h)
  else (0, outb h (PORT + 4) 0x0F).

Definition serial_received (h : ports) : Z * ports :=
  let '(v, h) := inb h (PORT + 5) in (Z.land v 1, h).

Definition is_transmit_empty (h : ports) : Z * ports :=
  let '(v, h) := inb h (PORT + 5) in (Z.land v 0x20, h).

(** [fuel] bounds the polls of the two waiting loops. *)
Fixpoint serial_read (fuel : nat) (h : ports) : outcome (Z * ports) :=
  match fuel with
  | O => NoFuel
  | S f =>
      let '(r, h) := serial_received h in
      if r =? 0 then serial_read f h else Done (inb h PORT)
  end.

Fixpoint serial_write (fuel : nat) (h : ports) (a : Z) : outcome ports :=
  match fuel with
  | O => NoFuel
  | S f =>
      let '(r, h) := is_transmit_empty h in
      if r =? 0 then serial_write f h a else Done (outb h PORT a)
  end.

(** The loop of [serial_writemany]; [len] bounds the string. *)
Fixpoint serial_writemany (len fuel : nat) (m : mem) (h : ports) (a : Z) : outcome ports :=
  match len with
  | O => NoFuel
  | S n =>
      if rd8 m a =? 0 then Done h
      else h ← serial_write fuel h (rd8 m a); serial_writemany n fuel m h (a + 1)
  end.
End Device.

(** ** The bytes on the line *)

(** The bytes that were sent out of COM1's data port, oldest first. *)
Fixpoint sent (h : ports) : list Z :=
  match h with
  | [] => []
  | Out8 port v :: h' => if port =? PORT then v :: sent h' else sent h'
  | _ :: h' => sent h'
  end.

Lemma sent_app h1 h2 : sent (h1 ++ h2) = sent h1 ++ sent h2.
Proof.
  induction h1 as [|[port v|port v|port v] h1 IH]; cbn; try done.
  case_cmp; cbn; by rewrite IH.
Qed.

Section Serial.
Context (device : ports → Z → Z).

(** The transmitter becomes empty within [fuel] polls of the status port,
    whatever happened before. *)
Fixpoint ready_within (fuel : nat) (h : ports) : bool :=
  match fuel with
  | O => false
  | S f =>
      let '(r, h) := is_transmit_empty device h in
      if r =? 0 then ready_within f h else true
  end.

Lemma serial_write_spec fuel h a :
  ready_within fuel h = true →
  ∃ h', serial_write device fuel h a = Done h' ∧ sent h' = sent h ++ [a].
Proof.
  revert h. induction fuel as [|f IH]; intros h; [done|].
  cbn [ready_within serial_write]. unfold is_transmit_empty, inb.
  set (v := to_u8 _). destruct (Z.eqb_spec (Z.land v 32) 0); intros Hr.
  - destruct (IH _ Hr) as (h' & -> & E). exists h'. split; [done|].
    rewrite E, sent_app. cbn. by rewrite app_nil_r.
  - eexists. split; [done|]. unfold outb. rewrite !sent_app. cbn. by rewrite app_nil_r.
Qed.

(** [serial_writemany] sends a string's bytes in order. *)
Lemma serial_writemany_spec len fuel m h a s :
  (∀ h, ready_within fuel h = true) → cstr m a s → (length s < len)%nat →
  ∃ h', serial_writemany device len fuel m h a = Done h' ∧ sent h' = sent h ++ s.
Proof.
  intros Hr. revert h a s. induction len as [|n IH]; intros h a s Hs Hlen; [lia|].
  cbn [serial_writemany]. destruct s as [|c s].
  - destruct Hs as [_ H0]. cbn in H0. rewrite Z.add_0_r in H0. rewrite H0. cbn.
    exists h. split; [done|]. by rewrite app_nil_r.
  - apply cstr_cons in Hs as [[-> Hc] Hs]. destruct (Z.eqb_spec c 0); [lia|].
    destruct (serial_write_spec fuel h c (Hr h)) as (h1 & -> & E1). rewrite bind_Done.
    destruct (IH h1 (a + 1) s Hs) as (h' & -> & E2); [cbn in Hlen; lia|].
    exists h'. split; [done|]. by rewrite E2, E1, <- app_assoc.
Qed.

(** The loopback test decides what [serial_init] returns. *)
Lemma serial_init_result h :
  (serial_init device h).1 = 0 ↔
  to_u8 (device (h ++ [Out8 (PORT + 1) 0; Out8 (PORT + 3) 0x80; Out8 (PORT + 0) 3;
    Out8 (PORT + 1) 0; Out8 (PORT + 3) 3; Out8 (PORT + 2) 0xC7; Out8 (PORT + 4) 0x0B;
    Out8 (PORT + 4) 0x1E; Out8 (PORT + 0) 0xAE]) PORT) = 0xAE.
Proof.
  unfold serial_init, inb, outb. rewrite <- !app_assoc. cbn [app].
  change (PORT + 0) with PORT. case_cmp; cbn [negb fst]; split; intros; try done; lia.
Qed.
End Serial.
