(* ===== verification/Pit.v ===== *)
(** * sched/pit.cpp and sched/timer.h: the interval timer

    The state is the clock [timeSinceBootNs], the divisor and the bytes sent
    to I/O ports, in order.  [hlt] waits for an interrupt; what the interrupt
    does to the state is an argument of [sleepNs]. *)

From S2P Require Import Prelude PortIO.

Definition baseFrequency : Z := 1193182.

Record Pit := mkPit {
  timeSinceBootNs : Z;
  divisor : Z;
  out : ports
}.

Definition pit_boot : Pit := mkPit 0 65535 [].

Definition setDivisor (p : Pit) (d : Z) : Pit :=
  let d := if d <? 100 then 100 else d in
  let h := outb (out p) 0x40 (to_u8 (Z.land d 0x00ff)) in
  let h := io_wait h in
  let h := outb h 0x40 (to_u8 (Z.shiftr (Z.land d 0xff00) 8)) in
  mkPit (timeSinceBootNs p) d h.

Definition getFrequency (p : Pit) : outcome Z :=
  if divisor p =? 0 then Undef "division by zero" else Done (baseFrequency / divisor p).

(** The quotient is passed as a [u16]. *)
Definition setFrequency (p : Pit) (frequency : Z) : outcome Pit :=
  if frequency =? 0 then Undef "division by zero"
  else Done (setDivisor p (to_u16 (baseFrequency / frequency))).

Definition tick (p : Pit) : outcome Pit :=
  f ← getFrequency p;
  if f =? 0 then Undef "division by zero"
  else Done (mkPit (to_u64 (timeSinceBootNs p + 1000000000 / f)) (divisor p) (out p)).

Section Sleep.
Context (interrupt : Pit → outcome Pit).

(** The loop of [sleepNs]; [until] is [startTime + ns] as a [u64]. *)
Fixpoint sleep_loop (fuel : nat) (until : Z) (p : Pit) : outcome Pit :=
  match fuel with
  | O => NoFuel
  | S f => if timeSinceBootNs p <? until then p ← interrupt p; sleep_loop f until p else Done p
  end.

Definition sleepNs (fuel : nat) (p : Pit) (ns : Z) : outcome Pit :=
  sleep_loop fuel (to_u64 (timeSinceBootNs p + ns)) p.

Definition sleepMicros (fuel : nat) (p : Pit) (micros : Z) : outcome Pit :=
  sleepNs fuel p (to_u64 (micros * 1000)).
Definition sleepMillis (fuel : nat) (p : Pit) (millis : Z) : outcome Pit :=
  sleepNs fuel p (to_u64 (millis * 1000000)).
Definition sleepSeconds (fuel : nat) (p : Pit) (seconds : Z) : outcome Pit :=
  sleepNs fuel p (to_u64 (seconds * 1000000000)).
End Sleep.

(** ** timer.h *)

Record Timer := mkTimer { startTime : Z; endTime : Z }.

Definition Timer_new (p : Pit) : Timer := mkTimer (timeSinceBootNs p) 0.
Definition start (t : Timer) (p : Pit) : Timer := mkTimer (timeSinceBootNs p) (endTime t).
Definition stop (t : Timer) (p : Pit) : Timer := mkTimer (startTime t) (timeSinceBootNs p).
Definition getElapsedNs (t : Timer) : Z := to_u64 (endTime t - startTime t).
Definition getElapsedMicros (t : Timer) : Z := getElapsedNs t / 1000.
Definition getElapsedMillis (t : Timer) : Z := getElapsedMicros t / 1000.
Definition getElapsedSeconds (t : Timer) : Z := getElapsedMillis t / 1000.

(** ** The divisor *)

Record pit_ok (p : Pit) : Prop := {
  po_divisor : 100 <= divisor p <= 65535;
  po_time : is_u64 (timeSinceBootNs p)
}.

Lemma pit_boot_ok : pit_ok pit_boot.
Proof. split; cbn; [lia|znorm; lia]. Qed.

Lemma setDivisor_ok p d : pit_ok p → is_u16 d → pit_ok (setDivisor p d).
Proof. intros [H1 H2] Hd. split; cbn; [|done]. case_cmp; znorm; lia. Qed.

Lemma low_byte d : Z.land d 0x00ff = d mod 256.
Proof. change 255 with (Z.ones 8). by rewrite Z.land_ones. Qed.

Lemma high_byte d : is_u16 d → Z.shiftr (Z.land d 0xff00) 8 = d / 256.
Proof.
  intros Hd. rewrite Z.shiftr_land. change (Z.shiftr 0xff00 8) with (Z.ones 8).
  rewrite Z.land_ones, Z.shiftr_div_pow2 by lia. change (2^8) with 256.
  apply Z.mod_small. zlia.
Qed.

(** For every frequency the divisor register can express, [setFrequency]
    programs the chip with the divisor (low byte, then high byte on port
    0x40) that gives at least that frequency, and the largest such divisor:
    the next one would fall short of it. *)
Theorem setFrequency_correct p f :
  pit_ok p → 19 <= f <= 11931 →
  ∃ p' g lo hi, setFrequency p f = Done p' ∧ pit_ok p' ∧ getFrequency p' = Done g ∧
    f <= g ∧ baseFrequency / (divisor p' + 1) < f ∧
    out p' = out p ++ [Out8 0x40 lo; Out8 0x80 0; Out8 0x40 hi] ∧ lo + 256 * hi = divisor p'.
Proof.
  intros Hp Hf. unfold setFrequency. destruct (Z.eqb_spec f 0); [lia|].
  assert (100 <= baseFrequency / f <= 65535) as Hd.
  { unfold baseFrequency. split; [apply Z.div_le_lower_bound; lia|].
    apply Z.lt_succ_r, Z.div_lt_upper_bound; lia. }
  set (d := baseFrequency / f) in *. rewrite to_u16_id by (znorm; lia).
  assert (d * f <= baseFrequency < (d + 1) * f) as Hdf.
  { pose proof (Z.mod_pos_bound baseFrequency f ltac:(lia)).
    pose proof (Z.div_mod baseFrequency f ltac:(lia)). subst d. lia. }
  eexists _, _, (d mod 256), (d / 256). split; [done|].
  split; [apply setDivisor_ok; [done|znorm; lia]|].
  unfold getFrequency, setDivisor, io_wait, outb. cbn [divisor out timeSinceBootNs].
  destruct (Z.ltb_spec d 100); [lia|]. destruct (Z.eqb_spec d 0); [lia|].
  split; [done|]. split; [apply Z.div_le_lower_bound; lia|].
  split; [apply Z.div_lt_upper_bound; lia|]. split.
  - rewrite low_byte, high_byte by (znorm; lia). rewrite !to_u8_id by zlia.
    by rewrite <- !app_assoc.
  - zlia.
Qed.

(** ** Ticks *)

Definition period (p : Pit) : Z := 1000000000 / (baseFrequency / divisor p).

Lemma frequency_pos p : pit_ok p → 18 <= baseFrequency / divisor p <= 11931.
Proof.
  intros [H1 _]. unfold baseFrequency. split; [apply Z.div_le_lower_bound; lia|].
  apply Z.lt_succ_r, Z.div_lt_upper_bound; lia.
Qed.

Lemma period_pos p : pit_ok p → 83815 <= period p <= 55555555.
Proof.
  intros Hp. pose proof (frequency_pos p Hp). unfold period.
  split; [apply Z.div_le_lower_bound; lia|]. apply Z.lt_succ_r, Z.div_lt_upper_bound; lia.
Qed.

Lemma tick_spec p :
  pit_ok p → tick p = Done (mkPit (to_u64 (timeSinceBootNs p + period p)) (divisor p) (out p)).
Proof.
  intros Hp. pose proof (frequency_pos p Hp) as Hf. pose proof (po_divisor p Hp).
  unfold tick, getFrequency, period. destruct (Z.eqb_spec (divisor p) 0); [lia|]. rewrite bind_Done.
  destruct (Z.eqb_spec (baseFrequency / divisor p) 0); [lia|done].
Qed.

Lemma sleep_loop_spec n p until :
  pit_ok p → until + period p < 2^64 → until <= timeSinceBootNs p + Z.of_nat n * period p →
  ∃ p', sleep_loop tick (S n) until p = Done p' ∧ divisor p' = divisor p ∧ out p' = out p ∧
    (timeSinceBootNs p' = timeSinceBootNs p ∧ until <= timeSinceBootNs p ∨
     until <= timeSinceBootNs p' < until + period p).
Proof.
  revert p. induction n as [|n IH]; intros p Hp Hmax Hn.
  - cbn [sleep_loop]. destruct (Z.ltb_spec (timeSinceBootNs p) until); [lia|]. exists p. split_and!; try done. by left.
  - cbn [sleep_loop]. destruct (Z.ltb_spec (timeSinceBootNs p) until) as [Hlt|Hge]; [|exists p; split_and!; try done; by left].
    pose proof (period_pos p Hp). pose proof (po_time p Hp) as Ht.
    rewrite tick_spec by done. rewrite bind_Done, to_u64_id by (znorm; lia).
    set (p1 := mkPit (timeSinceBootNs p + period p) (divisor p) (out p)).
    assert (period p1 = period p) as Ep by done.
    destruct (IH p1) as (p' & E & E1 & E2 & E3).
    + split; [apply Hp|cbn; znorm; lia].
    + by rewrite Ep.
    + rewrite Ep. cbn. lia.
    + exists p'. split; [exact E|]. split; [exact E1|]. split; [exact E2|]. right.
      rewrite Ep in E3. cbn in E3. lia.
Qed.

(** C33: driven by timer ticks, and as long as the clock's 64 bits do not
    overflow before the end of the sleep, [sleepNs] returns, after at most
    [ns / period + 1] ticks, and has waited at least the time it was asked
    for and less than one tick longer. *)
Theorem sleepNs_correct p ns fuel :
  pit_ok p → 0 <= ns → timeSinceBootNs p + ns + period p < 2^64 →
  ns / period p + 2 <= Z.of_nat fuel →
  ∃ p', sleepNs tick fuel p ns = Done p' ∧
    ns <= timeSinceBootNs p' - timeSinceBootNs p < ns + period p.
Proof.
  intros Hp Hns Hmax Hfuel. unfold sleepNs. pose proof (period_pos p Hp) as Hper.
  pose proof (po_time p Hp) as Ht. rewrite to_u64_id by (znorm; lia).
  pose proof (Z.mod_pos_bound ns (period p) ltac:(lia)).
  pose proof (Z.div_mod ns (period p) ltac:(lia)).
  assert (0 <= ns / period p) by (apply Z.div_pos; lia).
  destruct fuel as [|n]; [lia|].
  destruct (sleep_loop_spec n p (timeSinceBootNs p + ns)) as (p' & E & _ & _ & E3); [done|lia|nia|].
  exists p'. split; [done|]. lia.
Qed.

(** Nothing in the kernel calls [tick] ([interruptDispatch] only prints
    or panics), so an interrupt leaves the clock as it is, and a sleep of
    more than zero nanoseconds never ends. *)
Theorem sleepNs_never_ends fuel p ns :
  pit_ok p → 0 < ns → timeSinceBootNs p + ns < 2^64 → sleepNs Done fuel p ns = NoFuel.
Proof.
  intros Hp Hns Hmax. unfold sleepNs. pose proof (po_time p Hp).
  rewrite to_u64_id by (znorm; lia).
  induction fuel as [|f IH]; [done|]. cbn [sleep_loop].
  destruct (Z.ltb_spec (timeSinceBootNs p) (timeSinceBootNs p + ns)); [|lia].
  by rewrite bind_Done.
Qed.

(** A stopped timer reports the time between [start] and [stop], rounded
    down to the unit asked for. *)
Lemma timer_elapsed t p1 p2 :
  is_u64 (timeSinceBootNs p1) → is_u64 (timeSinceBootNs p2) →
  timeSinceBootNs p1 <= timeSinceBootNs p2 →
  let t' := stop (start t p1) p2 in
  getElapsedNs t' = timeSinceBootNs p2 - timeSinceBootNs p1 ∧
  getElapsedMillis t' = (timeSinceBootNs p2 - timeSinceBootNs p1) / 1000000 ∧
  getElapsedSeconds t' = (timeSinceBootNs p2 - timeSinceBootNs p1) / 1000000000.
Proof.
  intros H1 H2 Hle. cbn zeta.
  assert (getElapsedNs (stop (start t p1) p2) = timeSinceBootNs p2 - timeSinceBootNs p1) as E.
  { unfold getElapsedNs. cbn. apply to_u64_id. znorm. lia. }
  unfold getElapsedSeconds, getElapsedMillis, getElapsedMicros. rewrite E.
  by rewrite !Z.div_div by lia.
Qed.

(** ** Examples *)

Lemma setFrequency_correct_witness :
  ∃ p' g, setFrequency pit_boot 1000 = Done p' ∧ getFrequency p' = Done g ∧ 1000 <= g.
Proof.
  destruct (setFrequency_correct pit_boot 1000 pit_boot_ok) as (p' & g & lo & hi & H1 & _ & H2 & H3 & _);
    [lia|].
  exists p', g. split; [exact H1|]. split; [exact H2|exact H3].
Defined.

Lemma sleepNs_correct_witness :
  ∃ p', sleepNs tick 20 pit_boot 1000000000 = Done p' ∧ 1000000000 <= timeSinceBootNs p'.
Proof.
  destruct (sleepNs_correct pit_boot 1000000000 20 pit_boot_ok) as (p' & H1 & H2);
    [lia|vm_compute; reflexivity|vm_compute; discriminate|].
  exists p'. split; [exact H1|]. cbn in H2. lia.
Defined.

Lemma sleepNs_never_ends_witness : sleepNs Done 100 pit_boot 1 = NoFuel.
Proof. apply (sleepNs_never_ends 100 pit_boot 1 pit_boot_ok); cbn; lia. Defined.
