(* ===== verification/Layout.v ===== *)
(** * Data layout: the offsets at which the kernel's structs are read

    The other files read and write the kernel's objects byte by byte, at
    offsets.  Here the declarations of the sources are data, and the layout
    rules of the platform's ABI (x86-64 System V: natural alignment, or none
    with [__attribute__((packed))]) compute the offsets. *)

From S2P Require Import Prelude.

#[warnings="-register-all"]
Inductive ctype :=
  | Scalar (bytes : Z)
  | Array (t : ctype) (n : Z)
  | Struct (packed : bool) (fields : list (string * ctype)).

Definition u8_t : ctype := Scalar 1.
Definition u16_t : ctype := Scalar 2.
Definition u32_t : ctype := Scalar 4.
Definition u64_t : ctype := Scalar 8.
Definition ptr_t : ctype := Scalar 8.

Definition align_up (a off : Z) : Z := (off + a - 1) / a * a.

Fixpoint alignof (t : ctype) : Z :=
  match t with
  | Scalar n => n
  | Array t _ => alignof t
  | Struct true _ => 1
  | Struct false fs =>
      (fix go fs := match fs with [] => 1 | (_, t) :: fs => Z.max (alignof t) (go fs) end) fs
  end.

Fixpoint sizeof (t : ctype) : Z :=
  match t with
  | Scalar n => n
  | Array t n => n * sizeof t
  | Struct packed fs =>
      align_up (alignof t)
        ((fix go off fs :=
            match fs with
            | [] => off
            | (_, t) :: fs => go ((if packed then off else align_up (alignof t) off) + sizeof t) fs
            end) 0 fs)
  end.

(** Where the next field goes. *)
Definition field_start (packed : bool) (off : Z) (t : ctype) : Z :=
  if packed then off else align_up (alignof t) off.

(** The fields of a struct with their offsets and types, from [off] on. *)
Fixpoint place (packed : bool) (off : Z) (fs : list (string * ctype)) : list (string * Z * ctype) :=
  match fs with
  | [] => []
  | (name, t) :: fs =>
      let o := field_start packed off t in (name, o, t) :: place packed (o + sizeof t) fs
  end.

Definition fields_of (t : ctype) : list (string * Z * ctype) :=
  match t with Struct packed fs => place packed 0 fs | _ => [] end.

(** [offsetof(t, name)] *)
Definition offsetof (t : ctype) (name : string) : option Z :=
  head (omap (λ '(n, o, _), if decide (n = name) then Some o else None) (fields_of t)).

(** [sizeof] of a type declared with [__attribute__((aligned(a)))]. *)
Definition aligned_size (a : Z) (t : ctype) : Z := align_up (Z.max a (alignof t)) (sizeof t).

(** ** The declarations of the sources *)

(** gdt/gdt.h; [GDT] is also aligned to 0x1000. *)
Definition GDTEntry_struct : ctype := Struct true
  [("Limit0", u16_t); ("Base0", u16_t); ("Base1", u8_t); ("AccessByte", u8_t); ("Limit1_Flags", u8_t);
   ("Base2", u8_t)].
Definition GDT_struct : ctype := Struct true
  [("Null", GDTEntry_struct); ("KernelCode", GDTEntry_struct); ("KernelData", GDTEntry_struct);
   ("UserNull", GDTEntry_struct); ("UserCode", GDTEntry_struct); ("UserData", GDTEntry_struct);
   ("TSS", GDTEntry_struct)].

(** task/tss.h *)
Definition TSSEntry_struct : ctype := Struct true
  [("prev_tss", u32_t); ("rsp0", u64_t); ("rsp1", u64_t); ("rsp2", u64_t); ("reserved0", u64_t);
   ("ist", Array u64_t 7); ("reserved1", u64_t); ("reserved2", u16_t); ("iomap_base", u16_t)].

(** acpi/acpi.h *)
Definition ACPISDTHeader : ctype := Struct false
  [("Signature", Array u8_t 4); ("Length", u32_t); ("Revision", u8_t); ("Checksum", u8_t);
   ("OEMID", Array u8_t 6); ("OEMTableID", Array u8_t 8); ("OEMRevision", u32_t);
   ("CreatorID", u32_t); ("CreatorRevision", u32_t)].

(** The two structs take the attribute as an argument; the sources give none. *)
Definition gas_fields : list (string * ctype) :=
  [("AddressSpace", u8_t); ("BitWidth", u8_t); ("BitOffset", u8_t); ("AccessSize", u8_t); ("Address", u64_t)].
Definition GenericAddressStructure : ctype := Struct false gas_fields.

Definition fadt_fields (gas : ctype) : list (string * ctype) :=
  [("h", ACPISDTHeader); ("FirmwareCtrl", u32_t); ("Dsdt", u32_t); ("Reserved", u8_t);
   ("PreferredPowerManagementProfile", u8_t); ("SCI_Interrupt", u16_t); ("SMI_CommandPort", u32_t);
   ("AcpiEnable", u8_t); ("AcpiDisable", u8_t); ("S4BIOS_REQ", u8_t); ("PSTATE_Control", u8_t);
   ("PM1aEventBlock", u32_t); ("PM1bEventBlock", u32_t); ("PM1aControlBlock", u32_t);
   ("PM1bControlBlock", u32_t); ("PM2ControlBlock", u32_t); ("PMTimerBlock", u32_t);
   ("GPE0Block", u32_t); ("GPE1Block", u32_t); ("PM1EventLength", u8_t); ("PM1ControlLength", u8_t);
   ("PM2ControlLength", u8_t); ("PMTimerLength", u8_t); ("GPE0Length", u8_t); ("GPE1Length", u8_t);
   ("GPE1Base", u8_t); ("CStateControl", u8_t); ("WorstC2Latency", u16_t); ("WorstC3Latency", u16_t);
   ("FlushSize", u16_t); ("FlushStride", u16_t); ("DutyOffset", u8_t); ("DutyWidth", u8_t);
   ("DayAlarm", u8_t); ("MonthAlarm", u8_t); ("Century", u8_t); ("BootArchitectureFlags", u16_t);
   ("Reserved2", u8_t); ("Flags", u32_t); ("ResetReg", gas); ("ResetValue", u8_t);
   ("Reserved3", Array u8_t 3); ("X_FirmwareControl", u64_t); ("X_Dsdt", u64_t);
   ("X_PM1aEventBlock", gas); ("X_PM1bEventBlock", gas); ("X_PM1aControlBlock", gas);
   ("X_PM1bControlBlock", gas); ("X_PM2ControlBlock", gas); ("X_PMTimerBlock", gas);
   ("X_GPE0Block", gas); ("X_GPE1Block", gas)].
Definition FADT : ctype := Struct false (fadt_fields GenericAddressStructure).

(** acpi/rsdp.h *)
Definition RSDPDescriptor : ctype := Struct true
  [("Signature", Array u8_t 8); ("Checksum", u8_t); ("OEMID", Array u8_t 6); ("Revision", u8_t);
   ("RsdtAddress", u32_t)].
Definition RSDPDescriptor20 : ctype := Struct true
  [("firstPart", RSDPDescriptor); ("Length", u32_t); ("XsdtAddress", u64_t); ("ExtendedChecksum", u8_t);
   ("reserved", Array u8_t 3)].

(** mem/heap.h *)
Definition HeapSegHdr : ctype := Struct true
  [("magic", u32_t); ("length", u64_t); ("next", ptr_t); ("last", ptr_t); ("free", u8_t)].

(** lib/string.h *)
Definition FastStringBuilder : ctype := Struct false
  [("parts", ptr_t); ("nParts", u32_t); ("partOffset", u32_t); ("outputBuf", ptr_t); ("outputBufSize", u32_t)].

(** ** Sizes and alignments *)

(** Scalars of 1, 2, 4 or 8 bytes, arrays of a known length. *)
Fixpoint wf_type (t : ctype) : bool :=
  match t with
  | Scalar n => (n =? 1) || (n =? 2) || (n =? 4) || (n =? 8)
  | Array t n => (0 <=? n) && wf_type t
  | Struct _ fs => (fix go fs := match fs with [] => true | (_, t) :: fs => wf_type t && go fs end) fs
  end.

Lemma ctype_fields_ind (P : ctype → Prop) :
  (∀ n, P (Scalar n)) → (∀ t n, P t → P (Array t n)) →
  (∀ packed fs, Forall (λ f, P f.2) fs → P (Struct packed fs)) → ∀ t, P t.
Proof.
  intros HS HA HF. fix IH 1. intros [n|t n|packed fs]; [apply HS|apply HA, IH|]. apply HF.
  induction fs as [|[name t] fs IHfs]; constructor; [apply IH|exact IHfs].
Qed.

Fixpoint fields_end (packed : bool) (off : Z) (fs : list (string * ctype)) : Z :=
  match fs with
  | [] => off
  | (_, t) :: fs => fields_end packed (field_start packed off t + sizeof t) fs
  end.

Lemma sizeof_Struct packed fs :
  sizeof (Struct packed fs) = align_up (alignof (Struct packed fs)) (fields_end packed 0 fs).
Proof.
  cbn [sizeof]. f_equal. generalize 0 as off. induction fs as [|[name t] fs IH]; intros off; [done|].
  cbn [fields_end]. by rewrite <- IH.
Qed.

Lemma wf_fields packed fs : wf_type (Struct packed fs) = true → Forall (λ f, wf_type f.2 = true) fs.
Proof.
  induction fs as [|[name t] fs IH]; [constructor|]. intros [H1 H2]%andb_true_iff. constructor; [done|auto].
Qed.

Lemma align_up_spec a off : 0 < a → off <= align_up a off < off + a ∧ align_up a off mod a = 0.
Proof. intros Ha. unfold align_up. rewrite Z_mod_mult. split; [|done]. zlia. Qed.

Lemma alignof_range t : wf_type t = true → alignof t ∈ [1; 2; 4; 8].
Proof.
  rewrite !elem_of_cons. induction t as [n|t n IH|[] fs IH] using ctype_fields_ind; intros Hw.
  - cbn in *. lia.
  - apply andb_true_iff in Hw as [_ Hw]. by apply IH.
  - by left.
  - apply wf_fields in Hw. induction fs as [|[name t] fs IHfs]; [by left|].
    apply Forall_cons in IH as [H1 IH], Hw as [W1 Hw]. specialize (H1 W1). specialize (IHfs IH Hw).
    cbn [alignof snd] in *. rewrite !elem_of_nil in *. lia.
Qed.

Lemma alignof_pos t : wf_type t = true → 0 < alignof t.
Proof. intros H%alignof_range. rewrite !elem_of_cons, elem_of_nil in H. lia. Qed.

Lemma field_start_spec packed off t :
  wf_type t = true → 0 <= off →
  off <= field_start packed off t ∧ (packed = false → field_start packed off t mod alignof t = 0).
Proof.
  intros Hw Ho. destruct packed; cbn; [split; [lia|done]|].
  destruct (align_up_spec (alignof t) off (alignof_pos _ Hw)). split; [lia|done].
Qed.

Lemma sizeof_nonneg t : wf_type t = true → 0 <= sizeof t.
Proof.
  induction t as [n|t n IH|packed fs IH] using ctype_fields_ind; intros Hw.
  - cbn in *. lia.
  - apply andb_true_iff in Hw as [Hn%Z.leb_le Hw]. cbn. specialize (IH Hw). nia.
  - rewrite sizeof_Struct. pose proof (alignof_pos _ Hw) as Ha.
    assert (∀ off, 0 <= off → off <= fields_end packed off fs) as H.
    { apply wf_fields in Hw. clear Ha. induction fs as [|[name t] fs IHfs]; intros off Ho; [cbn; lia|].
      apply Forall_cons in IH as [H1 IH], Hw as [W1 Hw]. cbn [fields_end snd] in *.
      pose proof (H1 W1). destruct (field_start_spec packed off t W1 Ho).
      specialize (IHfs IH Hw (field_start packed off t + sizeof t)). lia. }
    destruct (align_up_spec (alignof (Struct packed fs)) (fields_end packed 0 fs) Ha). specialize (H 0). lia.
Qed.

(** The kernel's FADT is not the one of the ACPI tables.  Up to [Century]
    the fields lie where the packed table has them, among them the three that
    [ACPI::init] reads; but the struct is not packed, so every field from
    [BootArchitectureFlags] on lies at a larger offset, and the "12 byte
    structure" of the comment has 16 bytes. *)
Theorem fadt_layout :
  let table := Struct true (fadt_fields (Struct true gas_fields)) in
  take 36 (fields_of FADT).*1 = take 36 (fields_of table).*1 ∧
  (offsetof FADT "SMI_CommandPort", offsetof FADT "AcpiEnable", offsetof FADT "PM1aControlBlock")
    = (Some 48, Some 52, Some 64) ∧
  Forall2 (λ f g, f.1 = g.1 ∧ g.2 < f.2) (drop 36 (fields_of FADT).*1) (drop 36 (fields_of table).*1) ∧
  sizeof GenericAddressStructure = 16 ∧ sizeof FADT = 288 ∧ sizeof table = 244.
Proof.
  split_and!; try (vm_compute; reflexivity). cbv [fields_of FADT]. vm_compute place. cbn [fmap list_fmap drop].
  repeat constructor.
Qed.
