(* ===== verification/Descriptors.v ===== *)
(** * gdt/gdt.cpp, task/tss.h and idt/ints.cpp: descriptor tables

    The structures the processor reads, as records of their fields, the
    bytes of the packed structures where the code reinterprets one as
    another, and the functions that fill them.  The references are the
    processor's own decoders of a segment descriptor and of a gate. *)

From S2P Require Import Prelude Layout.

(** ** idt/ints.cpp *)

Record InterruptDescriptor := mkGate {
  addressLow : Z;
  selector : Z;
  ist : Z;
  flags : Z;
  addressMid : Z;
  addressHigh : Z;
  reserved : Z
}.

Definition setIdtEntry (idt : list InterruptDescriptor) (vector handler dpl : Z)
  : outcome (list InterruptDescriptor) :=
  let handlerAddr := handler in
  entry ← or_undef "idt[vector]" (idt !! Z.to_nat vector);
  Done (<[Z.to_nat vector :=
    mkGate (to_u16 (Z.land handlerAddr 0xFFFF)) 0x8 0
      (to_u8 (Z.lor (Z.lor 14 (Z.shiftl (Z.land dpl 3) 5)) (Z.shiftl 1 7)))
      (to_u16 (Z.land (Z.shiftr handlerAddr 16) 0xFFFF))
      (to_u32 (Z.shiftr handlerAddr 32))
      (reserved entry)]> idt).

(** [vector_0_handler] is the address of the first stub; stubs are 16 bytes
    apart. *)
Definition initInts (idt : list InterruptDescriptor) (vector_0_handler : Z)
  : outcome (list InterruptDescriptor) :=
  for_loop 256 0
    (λ i idt, setIdtEntry idt (to_u8 i) (to_u64 (vector_0_handler + i * 16)) 0) idt.

(** What the processor reads from a gate. *)
Definition gate_handler (e : InterruptDescriptor) : Z :=
  addressLow e + 2^16 * addressMid e + 2^32 * addressHigh e.
Definition gate_type (e : InterruptDescriptor) : Z := flags e mod 2^4.
Definition gate_dpl (e : InterruptDescriptor) : Z := (flags e / 2^5) mod 2^2.
Definition gate_present (e : InterruptDescriptor) : bool := Z.testbit (flags e) 7.

Lemma gate_address_split a :
  is_u64 a →
  to_u16 (Z.land a 0xFFFF) + 2^16 * to_u16 (Z.land (Z.shiftr a 16) 0xFFFF)
    + 2^32 * to_u32 (Z.shiftr a 32) = a.
Proof.
  intros Ha. change 0xFFFF with (Z.ones 16).
  rewrite !Z.land_ones, !Z.shiftr_div_pow2 by lia. unfold to_u16, to_u32. zlia.
Qed.

Lemma setIdtEntry_spec idt vector handler dpl :
  0 <= vector < Z.of_nat (length idt) → is_u64 handler → is_u8 dpl →
  ∃ e, setIdtEntry idt vector handler dpl = Done (<[Z.to_nat vector := e]> idt) ∧
    gate_handler e = handler ∧ selector e = 8 ∧ ist e = 0 ∧ gate_type e = 14 ∧
    gate_dpl e = dpl mod 4 ∧ gate_present e = true.
Proof.
  intros Hv Hh Hd. unfold setIdtEntry.
  destruct (lookup_Z_Some idt vector Hv) as [old ->]. cbn [or_undef]. rewrite bind_Done.
  eexists. split; [done|]. cbn [selector ist]. unfold gate_handler, gate_type, gate_dpl, gate_present.
  cbn [addressLow addressMid addressHigh flags]. rewrite gate_address_split by done.
  change 3 with (Z.ones 2). rewrite Z.land_ones by lia. change (2^2) with 4.
  assert (dpl mod 4 = 0 ∨ dpl mod 4 = 1 ∨ dpl mod 4 = 2 ∨ dpl mod 4 = 3) as Hc by zlia.
  by destruct Hc as [-> |[-> |[-> | ->]]].
Qed.

(** After [initInts] every one of the 256 vectors has a present ring-0
    interrupt gate in the kernel code segment whose scattered address bits
    reassemble to the stub of that vector. *)
Theorem initInts_correct idt vector_0_handler :
  length idt = 256%nat → 0 <= vector_0_handler → vector_0_handler + 4096 <= 2^64 →
  ∃ idt', initInts idt vector_0_handler = Done idt' ∧ length idt' = 256%nat ∧
    ∀ v, 0 <= v < 256 → ∃ e, idt' !! Z.to_nat v = Some e ∧
      gate_handler e = vector_0_handler + 16 * v ∧ gate_present e = true ∧
      gate_dpl e = 0 ∧ gate_type e = 14 ∧ selector e = 8 ∧ ist e = 0.
Proof.
  intros Hlen H0 Hmax. unfold initInts.
  destruct (for_loop_inv (λ i idt', length idt' = 256%nat ∧
    ∀ v, 0 <= v < i → ∃ e, idt' !! Z.to_nat v = Some e ∧
      gate_handler e = vector_0_handler + 16 * v ∧ gate_present e = true ∧
      gate_dpl e = 0 ∧ gate_type e = 14 ∧ selector e = 8 ∧ ist e = 0)
    256 0 (λ i idt, setIdtEntry idt (to_u8 i) (to_u64 (vector_0_handler + i * 16)) 0) idt)
    as (idt' & E & HI); [split; [done|lia]| |by exists idt'].
  intros k idt1 Hk [Hl Hall]. rewrite to_u8_id, to_u64_id by (znorm; lia).
  destruct (setIdtEntry_spec idt1 k (vector_0_handler + k * 16) 0)
    as (e & -> & G1 & G2 & G3 & G4 & G5 & G6); [lia|znorm; lia|znorm; lia|].
  eexists. split; [done|]. rewrite length_insert. split; [done|]. intros v Hv.
  destruct (decide (v = k)) as [->|Hne].
  - exists e. rewrite list_lookup_insert_eq by lia. split_and!; try done. lia.
  - rewrite list_lookup_insert_ne by lia. apply Hall. lia.
Qed.

(** ** gdt/gdt.cpp *)

Record GDTEntry := mkSegment {
  Limit0 : Z;
  Base0 : Z;
  Base1 : Z;
  AccessByte : Z;
  Limit1_Flags : Z;
  Base2 : Z
}.

Record GDT := mkGDT {
  Null : GDTEntry;
  KernelCode : GDTEntry;
  KernelData : GDTEntry;
  UserNull : GDTEntry;
  UserCode : GDTEntry;
  UserData : GDTEntry;
  TSS : GDTEntry
}.

Record GDTDescriptor := mkGDTDescriptor { Size : Z; Offset : Z }.

(** The seven entries take 56 bytes; the alignment of the struct rounds its
    size up to a page, and what follows the entries is padding, zero in an
    initialized global. *)
Definition SIZEOF_GDT : Z := aligned_size 0x1000 GDT_struct.
Definition SIZEOF_TSSEntry : Z := sizeof TSSEntry_struct.

Example descriptor_sizes : SIZEOF_GDT = 4096 ∧ SIZEOF_TSSEntry = 104 ∧ offsetof GDT_struct "TSS" = Some 0x30.
Proof. vm_compute. split_and!; reflexivity. Qed.

Record TSSDescriptor := mkTSSDescriptor {
  limit_low : Z;
  base_low : Z;
  base_mid : Z;
  type : Z;
  zero : Z;
  dpl : Z;
  p : Z;
  limit_high : Z;
  avl : Z;
  l : Z;
  db : Z;
  g : Z;
  base_high : Z;
  base_upper : Z;
  tss_reserved : Z
}.

Definition TSS_ENTRY (base limit : Z) : TSSDescriptor :=
  mkTSSDescriptor
    (to_u16 (Z.land limit 0xFFFF))
    (to_u16 (Z.land base 0xFFFF))
    (to_u8 (Z.land (Z.shiftr base 16) 0xFF))
    9 0 0 1
    (to_u8 (Z.land (Z.shiftr limit 16) 0x0F))
    0 0 0 1
    (to_u8 (Z.land (Z.shiftr base 24) 0xFF))
    (to_u32 (Z.land (Z.shiftr base 32) 0xFFFFFFFF))
    0.

(** The first eight bytes of a [TSSDescriptor], as its packed layout puts
    them; bit fields fill a byte from its low end. *)
Definition TSSDescriptor_low (d : TSSDescriptor) : list Z :=
  [limit_low d mod 256; limit_low d / 256;
   base_low d mod 256; base_low d / 256;
   base_mid d;
   type d + 2^4 * zero d + 2^5 * dpl d + 2^7 * p d;
   limit_high d + 2^4 * avl d + 2^5 * l d + 2^6 * db d + 2^7 * g d;
   base_high d].

(** [*(struct GDTEntry* )&tssDesc] *)
Definition GDTEntry_of_bytes (b : list Z) : option GDTEntry :=
  match b with
  | [b0; b1; b2; b3; b4; b5; b6; b7] =>
      Some (mkSegment (b0 + 256 * b1) (b2 + 256 * b3) b4 b5 b6 b7)
  | _ => None
  end.

Definition defaultGDT : GDT := mkGDT
  (mkSegment 0 0 0 0x00 0x00 0)
  (mkSegment 0 0 0 0x9a 0xa0 0)
  (mkSegment 0 0 0 0x92 0xa0 0)
  (mkSegment 0 0 0 0x00 0x00 0)
  (mkSegment 0 0 0 0x9a 0xa0 0)
  (mkSegment 0 0 0 0x92 0xa0 0)
  (mkSegment 0 0 0 0x00 0x00 0).

Definition TSS_SELECTOR : Z := 0x30.

(** The table and the register [lgdt] loads; [tss] and [gdt_addr] are the
    addresses of the two globals. *)
Definition gdt_init (gdt : GDT) (gdt_addr tss : Z) : outcome (GDT * GDTDescriptor) :=
  let tssDesc := TSS_ENTRY tss SIZEOF_TSSEntry in
  entry ← or_undef "cast" (GDTEntry_of_bytes (TSSDescriptor_low tssDesc));
  Done (mkGDT (Null gdt) (KernelCode gdt) (KernelData gdt) (UserNull gdt)
          (UserCode gdt) (UserData gdt) entry,
        mkGDTDescriptor (SIZEOF_GDT - 1) gdt_addr).

(** What the processor reads from the first eight bytes of a descriptor. *)
Definition seg_base (e : GDTEntry) : Z := Base0 e + 2^16 * Base1 e + 2^24 * Base2 e.
Definition seg_limit (e : GDTEntry) : Z := Limit0 e + 2^16 * (Limit1_Flags e mod 2^4).
Definition seg_present (e : GDTEntry) : bool := Z.testbit (AccessByte e) 7.
Definition seg_dpl (e : GDTEntry) : Z := (AccessByte e / 2^5) mod 2^2.
Definition seg_long (e : GDTEntry) : bool := Z.testbit (Limit1_Flags e) 5.
Definition seg_executable (e : GDTEntry) : bool := Z.testbit (AccessByte e) 3 && Z.testbit (AccessByte e) 4.
Definition seg_writable (e : GDTEntry) : bool := negb (Z.testbit (AccessByte e) 3) && Z.testbit (AccessByte e) 1.

Lemma TSS_ENTRY_base tss limit :
  is_u64 tss → 0 <= limit < 2^20 →
  ∃ e, GDTEntry_of_bytes (TSSDescriptor_low (TSS_ENTRY tss limit)) = Some e ∧
    seg_base e = tss mod 2^32 ∧ seg_limit e = limit ∧ seg_present e = true ∧ seg_dpl e = 0 ∧
    AccessByte e mod 16 = 9.
Proof.
  intros Ht Hl. eexists. split; [done|].
  unfold seg_base, seg_limit, seg_present, seg_dpl. cbn [Base0 Base1 Base2 Limit0 Limit1_Flags AccessByte
    TSS_ENTRY limit_low base_low base_mid type zero dpl p limit_high avl l db g base_high].
  change 0xFFFF with (Z.ones 16). change 0xFF with (Z.ones 8). change 0x0F with (Z.ones 4).
  rewrite !Z.land_ones, !Z.shiftr_div_pow2 by lia. unfold to_u16, to_u8.
  split_and!; try done; zlia.
Qed.

(** [gdt_init] leaves the kernel's code and data segments as 64-bit
    ring-0 segments at selectors 8 and 16, and fills the TSS slot with a
    present system descriptor of the TSS's size; of the TSS's address the
    slot keeps the low 32 bits. *)
Theorem gdt_init_correct gdt_addr tss :
  is_u64 tss →
  ∃ gdt r, gdt_init defaultGDT gdt_addr tss = Done (gdt, r) ∧
    Size r = SIZEOF_GDT - 1 ∧ Offset r = gdt_addr ∧
    (seg_present (KernelCode gdt) && seg_executable (KernelCode gdt) && seg_long (KernelCode gdt)) = true ∧
    (seg_present (KernelData gdt) && seg_writable (KernelData gdt)) = true ∧
    seg_dpl (KernelCode gdt) = 0 ∧ seg_dpl (KernelData gdt) = 0 ∧
    seg_present (TSS gdt) = true ∧ seg_limit (TSS gdt) = SIZEOF_TSSEntry ∧
    seg_base (TSS gdt) = tss mod 2^32.
Proof.
  intros Ht. unfold gdt_init.
  destruct (TSS_ENTRY_base tss SIZEOF_TSSEntry Ht) as (e & -> & E1 & E2 & E3 & _);
    [vm_compute; split; [discriminate|reflexivity]|].
  cbn [or_undef]. rewrite bind_Done. eexists _, _. split; [done|].
  cbn [Size Offset KernelCode KernelData TSS defaultGDT]. by split_and!.
Qed.

(** The bytes of the table in memory, the padding included. *)
Definition entry_bytes (e : GDTEntry) : list Z :=
  [Limit0 e mod 256; Limit0 e / 256; Base0 e mod 256; Base0 e / 256; Base1 e; AccessByte e; Limit1_Flags e; Base2 e].
Definition GDT_bytes (g : GDT) : list Z :=
  concat (entry_bytes <$> [Null g; KernelCode g; KernelData g; UserNull g; UserCode g; UserData g; TSS g])
  ++ replicate (Z.to_nat (SIZEOF_GDT - 56)) 0.

Lemma GDT_bytes_length g : length (GDT_bytes g) = 4096%nat.
Proof. unfold GDT_bytes. rewrite length_app, length_replicate. reflexivity. Qed.

Lemma gdt_init_entries gdt_addr tss :
  is_u64 tss →
  ∃ gdt r, gdt_init defaultGDT gdt_addr tss = Done (gdt, r) ∧
    Size r = SIZEOF_GDT - 1 ∧ Offset r = gdt_addr ∧
    KernelCode gdt = KernelCode defaultGDT ∧ KernelData gdt = KernelData defaultGDT.
Proof.
  intros Ht. unfold gdt_init.
  destruct (TSS_ENTRY_base tss SIZEOF_TSSEntry Ht) as (e & -> & _); [vm_compute; split; [discriminate|reflexivity]|].
  cbn [or_undef]. rewrite bind_Done. by eexists _, _.
Qed.

(** The base the processor takes from a TSS descriptor of long mode, which has
    sixteen bytes: the low half of the entry, the high half of the four bytes
    behind it. *)
Definition tss_base (g : GDT) : Z :=
  seg_base (TSS g) + 2^32 * foldr (λ b r, b + 256 * r) 0 (take 4 (drop 56 (GDT_bytes g))).

(** In long mode a TSS descriptor takes sixteen bytes, of which [gdt_init]
    copies eight; the processor finds the padding of the table behind them.
    The limit covers it, but the upper half of the TSS's address is lost,
    which for a kernel in the upper half of the address space is not zero. *)
Theorem tss_descriptor_truncated gdt_addr tss :
  2^63 <= tss < 2^64 →
  ∃ gdt r, gdt_init defaultGDT gdt_addr tss = Done (gdt, r) ∧
    TSS_SELECTOR + 15 <= Size r ∧ tss_base gdt = tss mod 2^32 ∧ tss_base gdt ≠ tss.
Proof.
  intros Ht. unfold gdt_init.
  destruct (TSS_ENTRY_base tss SIZEOF_TSSEntry) as (e & -> & E1 & _);
    [znorm; lia|vm_compute; split; [discriminate|reflexivity]|].
  cbn [or_undef]. rewrite bind_Done. eexists _, _. split; [done|].
  cbn [Size TSS]. split; [vm_compute; discriminate|].
  assert (tss_base (mkGDT (Null defaultGDT) (KernelCode defaultGDT) (KernelData defaultGDT) (UserNull defaultGDT)
    (UserCode defaultGDT) (UserData defaultGDT) e) = tss mod 2^32) as ->.
  { unfold tss_base. cbn [TSS]. rewrite E1. change (take 4 _) with [0; 0; 0; 0]. cbn [foldr]. lia. }
  split; [done|zlia].
Qed.

(** ** Examples *)

Definition sample_stubs : Z := 0xffffffff80010000.

Lemma initInts_correct_witness :
  ∃ idt' e, initInts (replicate 256 (mkGate 0 0 0 0 0 0 0)) sample_stubs = Done idt' ∧
    idt' !! 14%nat = Some e ∧ gate_handler e = 0xffffffff800100e0.
Proof.
  destruct (initInts_correct (replicate 256 (mkGate 0 0 0 0 0 0 0)) sample_stubs)
    as (idt' & H1 & _ & H2); [apply length_replicate|vm_compute; discriminate|vm_compute; discriminate|].
  destruct (H2 14) as (e & H3 & H4 & _); [lia|].
  exists idt', e. split; [exact H1|]. split; [exact H3|exact H4].
Defined.

Lemma gdt_init_correct_witness :
  ∃ gdt r, gdt_init defaultGDT 0x1000 0xffffffff80012340 = Done (gdt, r) ∧
    seg_base (TSS gdt) = 0x80012340.
Proof.
  destruct (gdt_init_correct 0x1000 0xffffffff80012340) as (gdt & r & H1 & H2); [znorm; lia|].
  exists gdt, r. split; [exact H1|apply H2].
Defined.

Lemma tss_descriptor_truncated_witness :
  ∃ gdt r, gdt_init defaultGDT 0x1000 0xffffffff80012340 = Done (gdt, r) ∧ tss_base gdt = 0x80012340.
Proof.
  destruct (tss_descriptor_truncated 0x1000 0xffffffff80012340) as (gdt & r & H1 & _ & H2 & _); [lia|].
  exists gdt, r. split; [exact H1|exact H2].
Defined.
