(* ===== verification/Framebuffer.v ===== *)
(** * graphics/framebuffer.cpp: pixels and glyphs

    The framebuffer is a range of the byte memory; a pixel is four bytes.
    The font is the linked binary [_binary_font_incbin]: its bytes are a
    parameter. *)

From S2P Require Import Prelude Memory.

Record limine_framebuffer := mkFramebuffer {
  fb_address : Z;
  fb_width : Z;
  fb_height : Z;
  fb_pitch : Z;
  fb_bpp : Z
}.

(** A mask with one bit set. *)
Lemma Z_land_pow2 v k : 0 <= k → (Z.land v (2 ^ k) =? 0) = negb (Z.testbit v k).
Proof.
  intros Hk. destruct (Z.testbit v k) eqn:E; cbn.
  - apply Z.eqb_neq. intros H. apply (f_equal (λ z, Z.testbit z k)) in H.
    rewrite Z.land_spec, testbit_pow2, bool_decide_true, E, Z.testbit_0_l in H by lia. done.
  - apply Z.eqb_eq. bitwise. subst. by rewrite E.
Qed.

Section Framebuffer.
Context (fb : limine_framebuffer) (font : list Z).

Definition translateToOffset (x y : Z) : Z :=
  to_u32 (to_u64 (to_u64 (y * (fb_pitch fb / 4)) + x)).

Definition drawPoint (m : mem) (x y color : Z) : mem :=
  wr32 m (fb_address fb + 4 * translateToOffset x y) color.

Definition drawHorizontalLine (m : mem) (x0 y0 x1 color : Z) : mem :=
  for_pure (Z.to_nat (x1 - x0)) x0 (λ x m, drawPoint m x y0 color) m.

Definition drawLine (m : mem) (x0 y0 x1 y1 color : Z) : mem :=
  if negb (x0 =? x1) then
    if negb (y0 =? y1) then m
    else if x1 <? x0 then drawHorizontalLine m x1 y0 x0 color
    else drawHorizontalLine m x0 y0 x1 color
  else m.

(** One row of a glyph: the loop over [cx]. *)
Definition drawRow (m : mem) (v x y fgColor bgColor : Z) : mem :=
  for_pure 8 0
    (λ cx m,
       let mv := Z.land v (Z.shiftl 1 cx) in
       drawPoint m (to_u32 (to_u32 (x + 16) - cx)) y
         (if negb (mv =? 0) then fgColor else bgColor)) m.

(** The loop over [cy], from row [cy] on; it returns where the font ends. *)
Fixpoint drawRows (n : nat) (m : mem) (c x y cy fgColor bgColor : Z) : mem :=
  match n with
  | O => m
  | S n' =>
      match font !! Z.to_nat (c * 16 + cy) with
      | None => m
      | Some v =>
          drawRows n' (drawRow m v x (to_u32 (y + cy)) fgColor bgColor)
            c x y (cy + 1) fgColor bgColor
      end
  end.

Definition drawCharBg (m : mem) (c x y fgColor bgColor : Z) : mem :=
  drawRows 16 m c x y 0 fgColor bgColor.

Definition drawChar (m : mem) (c x y fgColor : Z) : mem := drawCharBg m c x y fgColor 0.

(** [len] bounds the string. *)
Fixpoint drawStringBg_loop (len : nat) (m : mem) (str x offX y fgColor bgColor : Z) : outcome mem :=
  match len with
  | O => NoFuel
  | S n =>
      if rd8 m str =? 0 then Done m
      else
        drawStringBg_loop n (drawCharBg m (rd8 m str) (to_u32 (x + offX)) y fgColor bgColor)
          (str + 1) x (to_u32 (offX + 8)) y fgColor bgColor
  end.

Definition drawStringBg (len : nat) (m : mem) (str x y fgColor bgColor : Z) : outcome mem :=
  drawStringBg_loop len m str x 0 y fgColor bgColor.
Definition drawString (len : nat) (m : mem) (str x y fgColor : Z) : outcome mem :=
  drawStringBg len m str x y fgColor 0.

(** ** Pixels *)

Definition ppl : Z := fb_pitch fb / 4.
Definition pixel (x y : Z) : Z := fb_address fb + 4 * (y * ppl + x).

Lemma drawPoint_pixel m x y color :
  0 <= x → 0 <= y → 0 <= fb_pitch fb → y * ppl + x < 2^32 →
  drawPoint m x y color = wr32 m (pixel x y) color.
Proof.
  intros Hx Hy Hp Hb. unfold drawPoint, translateToOffset, pixel. fold ppl.
  assert (0 <= ppl) by (unfold ppl; apply Z.div_pos; lia).
  assert (0 <= y * ppl) by (apply Z.mul_nonneg_nonneg; lia).
  by rewrite (to_u64_id (y * ppl)), to_u64_id, to_u32_id by (znorm; lia).
Qed.

Lemma rd32_wr32_eq m a v : rd32 (wr32 m a v) a = to_u32 v.
Proof. apply (rdN_wrN_eq 4). Qed.

(** A row of eight pixels, right to left from [x + 16]. *)
Definition row_cell (x y cx : Z) : Z := pixel (x + 16 - cx) y.

Lemma row_cell_eq x y cx : row_cell x y cx = row_cell x y 0 - 4 * cx.
Proof. unfold row_cell, pixel. lia. Qed.

Lemma drawRow_spec m v x y fg bg :
  0 <= x → 0 <= y → 0 <= fb_pitch fb → y * ppl + x + 16 < 2^32 → x + 16 < 2^32 →
  is_u32 fg → is_u32 bg →
  let m' := drawRow m v x y fg bg in
  (∀ cx, 0 <= cx < 8 → rd32 m' (row_cell x y cx) = if Z.testbit v cx then fg else bg) ∧
  (∀ a, a < row_cell x y 7 ∨ row_cell x y 0 + 4 <= a → rd8 m' a = rd8 m a).
Proof.
  intros Hx Hy Hp Hb Hx16 Hfg Hbg. cbn zeta. unfold drawRow.
  pose proof (for_pure_inv (λ k m',
    (∀ cx, 0 <= cx < k → rd32 m' (row_cell x y cx) = if Z.testbit v cx then fg else bg) ∧
    (∀ a, a < row_cell x y 7 ∨ row_cell x y 0 + 4 <= a → rd8 m' a = rd8 m a)) 8 0
    (λ cx m, let mv := Z.land v (Z.shiftl 1 cx) in
       drawPoint m (to_u32 (to_u32 (x + 16) - cx)) y
         (if negb (mv =? 0) then fg else bg)) m) as H.
  apply H; clear H; [split; [lia|done]|].
  intros k m1 Hk [H1 H2]. cbn zeta. rewrite (to_u32_id (x + 16)) by (znorm; lia).
  rewrite to_u32_id by (znorm; lia). rewrite drawPoint_pixel by lia.
  change (pixel (x + 16 - k) y) with (row_cell x y k).
  rewrite Z.shiftl_1_l.
  assert ((if negb (Z.land v (2 ^ k) =? 0) then fg else bg) = if Z.testbit v k then fg else bg) as ->.
  { rewrite Z_land_pow2 by lia. by destruct (Z.testbit v k). }
  split.
  - intros cx Hcx. destruct (decide (cx = k)) as [->|Hne].
    + rewrite rd32_wr32_eq. apply to_u32_id. by destruct (Z.testbit v k).
    + rewrite rdN_wrN_ne by (rewrite (row_cell_eq x y cx), (row_cell_eq x y k); lia).
      apply H1. lia.
  - intros a Ha. rewrite rd8_wrN_ne; [by apply H2|].
    rewrite (row_cell_eq x y k). rewrite (row_cell_eq x y 7) in Ha. lia.
Qed.

Lemma row_apart x y y' cx :
  8 <= ppl → y < y' → 0 <= cx < 8 →
  row_cell x y cx + 4 <= row_cell x y' 7.
Proof. intros Hp Hy Hc. unfold row_cell, pixel. nia. Qed.

Definition glyph_row (c r : Z) : Z := default 0 (font !! Z.to_nat (c * 16 + r)).

Lemma drawRows_spec n m c x y cy fg bg :
  0 <= x → 0 <= y → 0 <= cy → 0 <= c → 8 <= ppl → 0 <= fb_pitch fb →
  (y + cy + Z.of_nat n) * ppl + x + 16 < 2^32 → is_u32 fg → is_u32 bg →
  c * 16 + cy + Z.of_nat n <= Z.of_nat (length font) →
  let m' := drawRows n m c x y cy fg bg in
  (∀ r cx, cy <= r < cy + Z.of_nat n → 0 <= cx < 8 →
     rd32 m' (row_cell x (y + r) cx) = if Z.testbit (glyph_row c r) cx then fg else bg) ∧
  (∀ a, (∀ r, cy <= r < cy + Z.of_nat n →
           a < row_cell x (y + r) 7 ∨ row_cell x (y + r) 0 + 4 <= a) → rd8 m' a = rd8 m a).
Proof.
  intros Hx Hy Hcy Hc Hp Hpitch Hb Hfg Hbg Hfont. cbn zeta. revert m cy Hcy Hb Hfont.
  induction n as [|n IH]; intros m cy Hcy Hb Hfont; [split; [lia|done]|].
  cbn [drawRows]. destruct (lookup_Z_Some font (c * 16 + cy)) as [v Hv]; [lia|].
  assert (glyph_row c cy = v) as Hg by (unfold glyph_row; by rewrite Hv). rewrite Hv.
  assert (y + cy < 2^32) as Hyc by nia. rewrite to_u32_id by (znorm; lia).
  destruct (drawRow_spec m v x (y + cy) fg bg) as [R1 R2]; try done; try lia; try nia.
  set (m1 := drawRow m v x (y + cy) fg bg) in *.
  destruct (IH m1 (cy + 1)) as [I1 I2]; [lia| |lia|].
  { replace (y + (cy + 1) + Z.of_nat n) with (y + cy + Z.of_nat (S n)) by lia. done. }
  split.
  - intros r cx Hr Hcx. destruct (decide (r = cy)) as [->|Hne]; [|apply I1; lia].
    rewrite Hg, <- (R1 cx Hcx). apply rdN_ext. intros a Ha. apply I2. intros r Hr'. left.
    pose proof (row_apart x (y + cy) (y + r) cx Hp ltac:(lia) Hcx). lia.
  - intros a Ha. rewrite I2 by (intros r Hr; apply Ha; lia). apply R2. apply Ha. lia.
Qed.

Lemma drawCharBg_correct_pixels m c x y fg bg :
  0 <= x → 0 <= y → 0 <= c → 8 <= ppl → 0 <= fb_pitch fb →
  (y + 16) * ppl + x + 16 < 2^32 → is_u32 fg → is_u32 bg →
  (c + 1) * 16 <= Z.of_nat (length font) →
  let m' := drawCharBg m c x y fg bg in
  (∀ r cx, 0 <= r < 16 → 0 <= cx < 8 →
     rd32 m' (pixel (x + 16 - cx) (y + r)) = if Z.testbit (glyph_row c r) cx then fg else bg) ∧
  (∀ a, (∀ r, 0 <= r < 16 →
           a < pixel (x + 9) (y + r) ∨ pixel (x + 17) (y + r) <= a) → rd8 m' a = rd8 m a).
Proof.
  intros Hx Hy Hc Hp Hpitch Hb Hfg Hbg Hfont. cbn zeta. unfold drawCharBg.
  destruct (drawRows_spec 16 m c x y 0 fg bg) as [D1 D2]; try done; try lia.
  split; [exact D1|]. intros a Ha. apply D2. intros r Hr. specialize (Ha r ltac:(lia)).
  unfold row_cell, pixel in *. lia.
Qed.
(** [drawCharBg] draws the glyph: each of its 8 by 16 pixels gets the
    foreground colour where the font has a one and the background colour
    elsewhere, the eight columns ending at [x + 16], and no byte outside
    those pixels changes. *)
Theorem drawCharBg_correct m c x y fg bg :
  0 <= x → 0 <= y → 0 <= c → 8 <= ppl → 0 <= fb_pitch fb →
  (y + 16) * ppl + x + 16 < 2^32 → is_u32 fg → is_u32 bg →
  (c + 1) * 16 <= Z.of_nat (length font) →
  let m' := drawCharBg m c x y fg bg in
  (∀ r cx, 0 <= r < 16 → 0 <= cx < 8 →
     rd32 m' (pixel (x + 16 - cx) (y + r)) = if Z.testbit (glyph_row c r) cx then fg else bg) ∧
  (∀ a, (∀ r, 0 <= r < 16 →
           a < pixel (x + 9) (y + r) ∨ pixel (x + 17) (y + r) <= a) → rd8 m' a = rd8 m a).
Proof. apply drawCharBg_correct_pixels. Qed.
End Framebuffer.

(** ** Example *)

Definition sample_fb : limine_framebuffer := mkFramebuffer 0x100000 64 32 256 32.
Definition sample_font : list Z := replicate 1600 0x18.

Lemma drawCharBg_correct_witness :
  rd32 (drawCharBg sample_fb sample_font ∅ 65 8 0 0xFFFFFF 0) (pixel sample_fb 21 2) = 0xFFFFFF.
Proof.
  destruct (drawCharBg_correct sample_fb sample_font ∅ 65 8 0 0xFFFFFF 0) as [H _];
    try (znorm; lia); try (vm_compute; discriminate).
  - vm_compute. reflexivity.
  - apply (H 2 3); lia.
Defined.
