(* ===== verification/Console.v ===== *)
(** * terminal/terminal.cpp and debug.cpp: formatted output

    The state of the console: the memory (the framebuffer and the strings
    that arguments point to), the terminal's cursor, the history of port
    accesses and the two flags with which [__writeChar] reads colour escapes.

    [Terminal::writechar] reports a cleared screen with
    [kprintf_serial("clear")], so the two files call each other; with
    [terminal] false the formatter never reaches the terminal, which is why
    it can be defined first, for any terminal. *)

From S2P Require Import Prelude Memory CString PortIO Framebuffer.

Record Terminal := mkTerminal {
  charX : Z;
  charY : Z;
  charsPerLine : Z;
  maxLines : Z;
  fgColor : Z
}.

Definition terminal_boot : Terminal := mkTerminal 0 0 0 0 0xFFFFFF.

Definition Terminal_init (fb : limine_framebuffer) (t : Terminal) : Terminal :=
  let cpl := to_u32 (to_u64 (fb_pitch fb / 4 / 8 - 1)) in
  let lines := to_u32 (to_u64 (fb_height fb / 16 - 1)) in
  mkTerminal (charX t) (charY t)
    (if 256 <? cpl then 256 else cpl) (if 128 <? lines then 128 else lines) (fgColor t).

Record Console := mkConsole {
  k_mem : mem;
  gTerminal : Terminal;
  k_ports : ports;
  currentlyReadingAnything : bool;
  currentlyReadingColor : bool
}.

Definition with_terminal (k : Console) (t : Terminal) : Console :=
  mkConsole (k_mem k) t (k_ports k) (currentlyReadingAnything k) (currentlyReadingColor k).
Definition with_ports (k : Console) (h : ports) : Console :=
  mkConsole (k_mem k) (gTerminal k) h (currentlyReadingAnything k) (currentlyReadingColor k).
Definition with_kmem (k : Console) (m : mem) : Console :=
  mkConsole m (gTerminal k) (k_ports k) (currentlyReadingAnything k) (currentlyReadingColor k).
Definition with_flags (k : Console) (anything color : bool) : Console :=
  mkConsole (k_mem k) (gTerminal k) (k_ports k) anything color.

Definition set_fg (k : Console) (c : Z) : Console :=
  let t := gTerminal k in
  with_terminal k (mkTerminal (charX t) (charY t) (charsPerLine t) (maxLines t) c).

(** The chain of tests on the colour letter: Y G R B F 7 8. *)
Definition set_color (k : Console) (c : Z) : Console :=
  if c =? 89 then set_fg k 0xFFFF20
  else if c =? 71 then set_fg k 0x00FF00
  else if c =? 82 then set_fg k 0xFF0000
  else if c =? 66 then set_fg k 0x0000FF
  else if c =? 70 then set_fg k 0xFFFFFF
  else if c =? 55 then set_fg k 0xAAAAAA
  else if c =? 56 then set_fg k 0x555555
  else k.

(** The part both [__write] and [__writeChar] do while an escape is read. *)
Definition read_escape (k : Console) (c : Z) : Console :=
  if negb (currentlyReadingColor k) then
    if c =? 99 then with_flags k (currentlyReadingAnything k) true else k
  else with_flags (set_color k c) false false.

Section Format.
Context (device : ports → Z → Z) (poll : nat).
(** [gTerminal.writechar] *)
Context (writechar : Console → Z → outcome Console).

Definition emit (k : Console) (c : Z) (serial terminal : bool) : outcome Console :=
  k ← (if serial then
         h ← serial_write device poll (k_ports k) c; Done (with_ports k h)
       else Done k);
  if terminal then writechar k c else Done k.

Definition __writeChar (k : Console) (c : Z) (serial terminal : bool) : outcome Console :=
  if c =? 36 then Done (with_flags k true (currentlyReadingColor k))
  else if currentlyReadingAnything k then Done (read_escape k c)
  else emit k c serial terminal.

(** [rd k a] is the byte the string pointer reads at [a].  Note that neither
    [continue] advances [str]. *)
Fixpoint __write (fuel : nat) (k : Console) (rd : Console → Z → Z) (str : Z)
    (serial terminal : bool) : outcome Console :=
  match fuel with
  | O => NoFuel
  | S f =>
      let c := rd k str in
      if c =? 0 then Done k
      else if c =? 36 then
        __write f (with_flags k true (currentlyReadingColor k)) rd str serial terminal
      else if currentlyReadingAnything k then
        __write f (read_escape k c) rd str serial terminal
      else k ← emit k c serial terminal; __write f k rd (str + 1) serial terminal
  end.

(** Strings in objects of their own: literals and the buffers of the stack. *)
Definition in_object (m : mem) : Console → Z → Z := λ _ a, rd8 m a.
Definition in_memory : Console → Z → Z := λ k a, rd8 (k_mem k) a.

Fixpoint store (p : Z) (s : list Z) (m : mem) : mem :=
  match s with [] => m | c :: s' => store (p + 1) s' (wr8 m p c) end.
Definition literal (s : string) : mem := store 0 (bytes_of_string s) ∅.

Definition va_arg (args : list Z) : outcome (Z * list Z) :=
  match args with a :: args' => Done (a, args') | [] => Undef "va_arg" end.

(** [%x]: sixteen digits, padded with zeros. *)
Definition hex_buffer (fuel : nat) (v : Z) : outcome mem :=
  '(_, buf) ← uitoa ∅ v 0 16;
  len ← strlen fuel buf 0;
  let newBuf := store 0 (replicate 16 48 ++ [0]) ∅ in
  (* memcpy between the two objects *)
  Done (for_pure (Z.to_nat len) 0 (λ i m, wr8 m (16 - len + i) (rd8 buf i)) newBuf).

(** The [switch] on the specifier. *)
Definition specifier (fuel : nat) (k : Console) (c : Z) (serial terminal : bool)
    (args : list Z) : outcome (Console * list Z) :=
  if c =? 99 (* c *) then
    '(a, args) ← va_arg args;
    k ← __writeChar k (to_u8 (to_u32 a)) serial terminal; Done (k, args)
  else if (c =? 101) || (c =? 69) (* e, E *) then
    k ← __write fuel k (in_object (literal "<formatter e/E not implemented>")) 0 serial terminal;
    Done (k, args)
  else if c =? 102 (* f *) then
    k ← __write fuel k (in_object (literal "<formatter f not implemented>")) 0 serial terminal;
    Done (k, args)
  else if c =? 111 (* o *) then
    '(a, args) ← va_arg args;
    '(_, buf) ← itoa ∅ (to_i64 a) 0 8;
    k ← __write fuel k (in_object buf) 0 serial terminal; Done (k, args)
  else if (c =? 100) || (c =? 105) (* d, i *) then
    '(a, args) ← va_arg args;
    '(_, buf) ← itoa ∅ (to_i64 a) 0 10;
    k ← __write fuel k (in_object buf) 0 serial terminal; Done (k, args)
  else if c =? 115 (* s *) then
    '(a, args) ← va_arg args;
    k ← __write fuel k in_memory a serial terminal; Done (k, args)
  else if c =? 117 (* u *) then
    '(a, args) ← va_arg args;
    '(_, buf) ← uitoa ∅ a 0 10;
    k ← __write fuel k (in_object buf) 0 serial terminal; Done (k, args)
  else if (c =? 120) || (c =? 88) (* x, X *) then
    '(a, args) ← va_arg args;
    newBuf ← hex_buffer fuel a;
    k ← __write fuel k (in_object newBuf) 0 serial terminal; Done (k, args)
  else if c =? 37 (* the percent sign *) then
    k ← __writeChar k 37 serial terminal; Done (k, args)
  else Done (k, args).

(** The loop of [_kprintf]: [n] bounds the format, [fuel] every [__write]. *)
Fixpoint kprintf_loop (n fuel : nat) (k : Console) (rd : Console → Z → Z) (str : Z)
    (isParsingSpecifier serial terminal : bool) (args : list Z) : outcome Console :=
  match n with
  | O => NoFuel
  | S n' =>
      let c := rd k str in
      if c =? 0 then Done k
      else if c =? 37 then kprintf_loop n' fuel k rd (str + 1) true serial terminal args
      else if isParsingSpecifier then
        '(k, args) ← specifier fuel k c serial terminal args;
        kprintf_loop n' fuel k rd (str + 1) false serial terminal args
      else
        k ← __writeChar k c serial terminal;
        kprintf_loop n' fuel k rd (str + 1) false serial terminal args
  end.

Definition _kprintf (n fuel : nat) (k : Console) (rd : Console → Z → Z) (str : Z)
    (serial terminal : bool) (args : list Z) : outcome Console :=
  kprintf_loop n fuel k rd str false serial terminal args.
End Format.

Section Console.
Context (device : ports → Z → Z) (poll : nat) (fb : limine_framebuffer) (font : list Z).

Definition vakprintf_serial (n fuel : nat) (k : Console) (rd : Console → Z → Z) (str : Z)
    (args : list Z) : outcome Console :=
  _kprintf device poll (λ _ _, Undef "terminal") n fuel k rd str true false args.

(** [if (this->charX > this->charsPerLine || c == '\n')] and what follows. *)
Definition next_line (k : Console) : outcome Console :=
  let t := gTerminal k in
  let y := to_u32 (charY t + 1) in
  if maxLines t <? y then
    let k := with_terminal k (mkTerminal 0 y (charsPerLine t) (maxLines t) (fgColor t)) in
    k ← vakprintf_serial 6 6 k (in_object (literal "clear")) 0 [];
    let m := (memset (k_mem k) (fb_address fb) 0
                (to_u64 (to_u64 (fb_width fb * fb_height fb) * fb_bpp fb) / 8)).2 in
    let t := gTerminal k in
    Done (with_terminal (with_kmem k m)
            (mkTerminal 0 0 (charsPerLine t) (maxLines t) (fgColor t)))
  else Done (with_terminal k (mkTerminal 0 y (charsPerLine t) (maxLines t) (fgColor t))).

(** [c] is a byte; [c > 31] compares a signed [char]. *)
Definition Terminal_writechar (k : Console) (c : Z) : outcome Console :=
  let t := gTerminal k in
  let m :=
    if (31 <? c) && (c <? 128)
    then drawChar fb font (k_mem k) c (to_u32 (charX t * 8)) (to_u32 (charY t * 16)) (fgColor t)
    else k_mem k in
  let x := to_u32 (charX t + 1) in
  let k := with_terminal (with_kmem k m)
             (mkTerminal x (charY t) (charsPerLine t) (maxLines t) (fgColor t)) in
  if (charsPerLine t <? x) || (c =? 10) then next_line k else Done k.

Fixpoint Terminal_write (fuel : nat) (k : Console) (str : Z) : outcome Console :=
  match fuel with
  | O => NoFuel
  | S f =>
      if rd8 (k_mem k) str =? 0 then Done k
      else k ← Terminal_writechar k (rd8 (k_mem k) str); Terminal_write f k (str + 1)
  end.

Definition Terminal_writeln (fuel : nat) (k : Console) (str : Z) : outcome Console :=
  k ← Terminal_write fuel k str; Terminal_writechar k 10.

Definition vakprintf (n fuel : nat) (k : Console) (rd : Console → Z → Z) (str : Z)
    (args : list Z) : outcome Console :=
  _kprintf device poll Terminal_writechar n fuel k rd str false true args.

Definition vakprintf_both (n fuel : nat) (k : Console) (rd : Console → Z → Z) (str : Z)
    (args : list Z) : outcome Console :=
  _kprintf device poll Terminal_writechar n fuel k rd str true true args.

(** The variadic functions, called with a literal as their format: an object
    of its own, which also bounds the loop. *)
Definition kprintf (fuel : nat) (k : Console) (str : list Z) (args : list Z) : outcome Console :=
  vakprintf (S (length str)) fuel k (in_object (store 0 str ∅)) 0 args.
Definition kprintf_both (fuel : nat) (k : Console) (str : list Z) (args : list Z) : outcome Console :=
  vakprintf_both (S (length str)) fuel k (in_object (store 0 str ∅)) 0 args.
Definition kprintf_serial (fuel : nat) (k : Console) (str : list Z) (args : list Z) : outcome Console :=
  vakprintf_serial (S (length str)) fuel k (in_object (store 0 str ∅)) 0 args.
End Console.
