(* ===== verification/Kprintf.v ===== *)
(** * debug.cpp: what the formatter prints

    A format is described by a list of items; [fmt_of] and [args_of] are the
    format string and the arguments the caller passes, [text_of] the bytes
    that should come out.  The theorem is that [kprintf_serial] sends exactly
    these bytes. *)

From S2P Require Import Prelude Memory CString PortIO Framebuffer Console.

(** ** Strings of objects *)

Lemma rd8_store p s m a :
  Forall is_u8 s →
  rd8 (store p s m) a =
  if decide (p <= a < p + Z.of_nat (length s)) then default 0 (s !! Z.to_nat (a - p)) else rd8 m a.
Proof.
  intros Hs. revert p m. induction Hs as [|c s Hc Hs IH]; intros p m; cbn [store length].
  - case_decide; [lia|done].
  - rewrite IH. destruct (decide (a = p)) as [->|Hne].
    + rewrite decide_False by lia. rewrite decide_True by lia. rewrite rd8_wr8_eq, Z.sub_diag.
      by apply to_u8_id.
    + rewrite rd8_wr8_ne by lia. repeat case_decide; try lia.
      replace (Z.to_nat (a - p)) with (S (Z.to_nat (a - (p + 1)))) by lia. done.
Qed.

(** A string as a reader sees it. *)
Record string_at (rd : Console → Z → Z) (k : Console) (p : Z) (s : list Z) : Prop := {
  st_bytes i c : s !! i = Some c → rd k (p + Z.of_nat i) = c ∧ c ≠ 0;
  st_end : rd k (p + Z.of_nat (length s)) = 0
}.

Lemma string_in_object m k p s : cstr m p s → string_at (in_object m) k p s.
Proof. by intros [H1 H2]. Qed.
Lemma string_in_memory k p s : cstr (k_mem k) p s → string_at in_memory k p s.
Proof. by intros [H1 H2]. Qed.

Lemma string_at_cons rd k p c s :
  string_at rd k p (c :: s) → (rd k p = c ∧ c ≠ 0) ∧ string_at rd k (p + 1) s.
Proof.
  intros [H1 H2]. split; [|split].
  - rewrite <- (Z.add_0_r p) at 1. apply (H1 0%nat). done.
  - intros i d Hi. replace (p + 1 + Z.of_nat i) with (p + Z.of_nat (S i)) by lia. by apply H1.
  - rewrite <- H2. f_equal. cbn [length]. lia.
Qed.

Lemma string_at_nil rd k p : string_at rd k p [] → rd k p = 0.
Proof. intros [_ H]. cbn in H. by rewrite Z.add_0_r in H. Qed.

Lemma store_literal_cstr s :
  Forall is_u8 s → Forall (λ c, c ≠ 0) s → cstr (store 0 s ∅) 0 s.
Proof.
  intros H8 Hnz. split.
  - intros i c Hi. pose proof (lookup_lt_Some _ _ _ Hi). rewrite rd8_store by done.
    rewrite decide_True by lia. replace (Z.to_nat (0 + Z.of_nat i - 0)) with i by lia.
    rewrite Hi. split; [done|]. by eapply Forall_lookup_1 in Hnz.
  - rewrite rd8_store by done. rewrite decide_False by lia. done.
Qed.

(** ** Numerals in buffers *)

Lemma uitoa_numeral m v p base :
  2 <= base <= 36 → is_u64 v →
  ∃ m', uitoa m v p base = Done (p, m') ∧ cstr m' p (numeral base v).
Proof.
  intros Hb Hv. unfold uitoa.
  destruct (Z.ltb_spec base 2), (Z.ltb_spec 36 base); try lia. cbn [orb].
  destruct (put_number_spec m p v base Hb) as (m' & -> & Hc & _); [znorm; lia|].
  rewrite Z.abs_eq in Hc by (znorm; lia). by exists m'.
Qed.

Definition signed_numeral (v : Z) : list Z :=
  if v <? 0 then 45 :: numeral 10 (- v) else numeral 10 v.

Lemma itoa_numeral m v p :
  is_i64 v → ∃ m', itoa m v p 10 = Done (p, m') ∧ cstr m' p (signed_numeral v).
Proof.
  intros Hv. unfold itoa, signed_numeral.
  cbn [Z.ltb Z.compare Pos.compare Pos.compare_cont orb Z.eqb Pos.eqb].
  destruct (Z.ltb_spec v 0) as [Hneg|Hpos]; cbn [andb].
  - destruct (put_number_spec (wr8 m p 45) (p + 1) v 10) as (m' & -> & Hc & Hs); [lia|znorm; lia|].
    exists m'. split; [done|]. apply cstr_cons. rewrite Z.abs_neq in Hc by lia. split; [|done].
    rewrite Hs, rd8_wr8_eq by lia. done.
  - destruct (put_number_spec m p v 10) as (m' & -> & Hc & Hs); [lia|znorm; lia|].
    rewrite Z.abs_eq in Hc by lia. by exists m'.
Qed.

Definition hex16 (v : Z) : list Z :=
  replicate (16 - length (numeral 16 v)) 48 ++ numeral 16 v.

Lemma hex_length v : is_u64 v → (length (numeral 16 v) <= 16)%nat.
Proof.
  intros Hv. pose proof (length_numeral 16 v 16 ltac:(lia)) as H.
  change (16 ^ 16) with (2^64) in H. specialize (H Hv ltac:(lia)). lia.
Qed.

Lemma numeral_plain base v :
  2 <= base <= 36 → 0 <= v → Forall (λ c, is_u8 c ∧ c ≠ 0 ∧ c ≠ 36) (numeral base v).
Proof.
  intros Hb Hv. eapply Forall_impl; [by apply numeral_chars|]. cbn. znorm. lia.
Qed.

Lemma hex_buffer_spec fuel v :
  is_u64 v → (17 <= fuel)%nat → ∃ m, hex_buffer fuel v = Done m ∧ cstr m 0 (hex16 v).
Proof.
  intros Hv Hf. unfold hex_buffer.
  destruct (uitoa_numeral ∅ v 0 16 ltac:(lia) Hv) as (buf & -> & Hbuf). rewrite bind_Done.
  pose proof (hex_length v Hv) as Hlen. unfold strlen.
  rewrite (strlen_loop_spec fuel buf 0 (numeral 16 v)) by (done || lia || (znorm; lia)).
  rewrite bind_Done, Z.add_0_l, to_u32_id by (znorm; lia).
  set (s := numeral 16 v) in *. set (n := length s) in *. rewrite Nat2Z.id.
  set (init := store 0 _ ∅). eexists. split; [done|].
  pose proof (for_pure_inv (λ i m, ∀ a, rd8 m a =
    if decide (16 - Z.of_nat n <= a < 16 - Z.of_nat n + i)
    then rd8 buf (a - (16 - Z.of_nat n)) else rd8 init a)
    n 0 (λ i m, wr8 m (16 - Z.of_nat n + i) (rd8 buf i)) init) as Hcopy.
  cbn beta in Hcopy. set (m' := for_pure n 0 _ init) in *.
  assert (∀ a, rd8 m' a = if decide (16 - Z.of_nat n <= a < 16 - Z.of_nat n + (0 + Z.of_nat n))
    then rd8 buf (a - (16 - Z.of_nat n)) else rd8 init a) as Hm.
  { apply Hcopy.
    - intros a. case_decide; [lia|done].
    - intros i m Hi IH a. rewrite rd8_wr8, IH. repeat case_decide; subst; try lia; try done.
      replace (16 - Z.of_nat n + i - (16 - Z.of_nat n)) with i by lia.
      apply to_u8_id, rd8_range. }
  assert (∀ a, rd8 init a = if decide (0 <= a < 16) then 48 else 0) as Hinit.
  { intros a. unfold init. rewrite rd8_store.
    - rewrite length_app, length_replicate. cbn [length].
      repeat case_decide; try lia; try done.
      + rewrite lookup_app_l by (rewrite length_replicate; lia).
        rewrite lookup_replicate_2 by lia. done.
      + rewrite lookup_app_r by (rewrite length_replicate; lia). rewrite length_replicate.
        replace (Z.to_nat (a - 0) - 16)%nat with 0%nat by lia. done.
    - apply Forall_app. split; [apply Forall_replicate; znorm; lia|]. constructor; [znorm; lia|done]. }
  unfold hex16. fold s n. split.
  - intros i c Hi. rewrite Hm. apply lookup_app_Some in Hi as [Hi|[Hge Hi]].
    + apply lookup_replicate in Hi as [-> Hi]. rewrite decide_False, Hinit, decide_True by lia. done.
    + rewrite length_replicate in Hge, Hi. pose proof (lookup_lt_Some _ _ _ Hi) as Hil. fold n in Hil.
      rewrite decide_True by lia. destruct Hbuf as [Hb _].
      specialize (Hb _ _ Hi). rewrite <- (proj1 Hb). split; [f_equal; lia|]. rewrite (proj1 Hb). apply Hb.
  - rewrite length_app, length_replicate. fold n. rewrite Hm, decide_False by lia.
    rewrite Hinit, decide_False by lia. done.
Qed.

(** ** Formats *)

Inductive fitem :=
  | Text (s : list Z)
  | Color (c : Z)
  | Char (c : Z)
  | Dec (v : Z)
  | Udec (v : Z)
  | Hex (v : Z)
  | Str (p : Z) (s : list Z).

Definition item_fmt (i : fitem) : list Z :=
  match i with
  | Text s => s
  | Color c => [36; 99; c]
  | Char _ => [37; 99]
  | Dec _ => [37; 100]
  | Udec _ => [37; 117]
  | Hex _ => [37; 120]
  | Str _ _ => [37; 115]
  end.

Definition item_args (i : fitem) : list Z :=
  match i with
  | Text _ | Color _ => []
  | Char c => [c]
  | Dec v => [to_u64 v]
  | Udec v | Hex v => [v]
  | Str p _ => [p]
  end.

Definition item_text (i : fitem) : list Z :=
  match i with
  | Text s => s
  | Color _ => []
  | Char c => [c]
  | Dec v => signed_numeral v
  | Udec v => numeral 10 v
  | Hex v => hex16 v
  | Str _ s => s
  end.

Definition fmt_of (l : list fitem) : list Z := concat (item_fmt <$> l).
Definition args_of (l : list fitem) : list Z := concat (item_args <$> l).
Definition text_of (l : list fitem) : list Z := concat (item_text <$> l).

(** What a caller may pass: no [%], [$] or NUL in literal text, no [$] in
    strings and characters. *)
Definition item_ok (fuel : nat) (k : Console) (i : fitem) : Prop :=
  match i with
  | Text s => Forall (λ c, c ≠ 36 ∧ c ≠ 37) s
  | Color c => c ≠ 36 ∧ c ≠ 37
  | Char c => is_u8 c ∧ c ≠ 36
  | Dec v => is_i64 v
  | Udec v | Hex v => is_u64 v
  | Str p s => cstr (k_mem k) p s ∧ Forall (λ c, c ≠ 36) s ∧ (length s < fuel)%nat
  end.

(** No colour escape is being read. *)
Definition idle (k : Console) : Prop :=
  currentlyReadingAnything k = false ∧ currentlyReadingColor k = false.

(** The console after the escape [$c] and the letter [c]. *)
Definition colored (k : Console) (c : Z) : Console :=
  with_flags (set_color (with_flags k true true) c) false false.

(** Where formatted output goes.  [serial] and [terminal] select the targets;
    [good] is what the console must meet, [safe] the addresses that output
    leaves alone, and [shows k s k'] says that the console shows the text [s]
    between [k] and [k']. *)
Record sink (device : ports → Z → Z) (poll : nat) (writechar : Console → Z → outcome Console)
    (serial terminal : bool) (good : Console → Prop) (safe : Z → Prop)
    (shows : Console → list Z → Console → Prop) : Prop := {
  sk_emit k c : idle k → good k →
    ∃ k', emit device poll writechar k c serial terminal = Done k' ∧ idle k' ∧ shows k [c] k';
  sk_nil k : good k → shows k [] k;
  sk_app k s1 k1 s2 k2 : shows k s1 k1 → shows k1 s2 k2 → shows k (s1 ++ s2) k2;
  sk_color k c : idle k → good k → shows k [] (colored k c);
  sk_good k s k' : shows k s k' → good k';
  sk_safe k s k' a : shows k s k' → safe a → rd8 (k_mem k') a = rd8 (k_mem k) a
}.

Section Print.
Context (device : ports → Z → Z) (poll : nat) (writechar : Console → Z → outcome Console).
Context (serial terminal : bool) (good : Console → Prop) (safe : Z → Prop).
Context (shows : Console → list Z → Console → Prop).
Hypothesis out : sink device poll writechar serial terminal good safe shows.

(** A reader whose bytes at [p .. p + n] survive the output. *)
Definition steady (rd : Console → Z → Z) (p : Z) (n : nat) : Prop :=
  ∀ k k' i, (∀ a, safe a → rd8 (k_mem k') a = rd8 (k_mem k) a) →
    0 <= i <= Z.of_nat n → rd k' (p + i) = rd k (p + i).

Lemma in_object_steady m p n : steady (in_object m) p n.
Proof. done. Qed.

Lemma in_memory_steady p n :
  (∀ i, 0 <= i <= Z.of_nat n → safe (p + i)) → steady in_memory p n.
Proof. intros Hs k k' i Hk Hi. unfold in_memory. by apply Hk, Hs. Qed.

Lemma steady_tail rd p n j : steady rd p (j + n) → steady rd (p + Z.of_nat j) n.
Proof.
  intros Hst k k' i Hk Hi. rewrite <- Z.add_assoc. apply (Hst k k'); [done|lia].
Qed.

Lemma string_at_shows rd k t k' p s :
  steady rd p (length s) → shows k t k' → string_at rd k p s → string_at rd k' p s.
Proof.
  intros Hst Hk [H1 H2].
  assert (∀ a, safe a → rd8 (k_mem k') a = rd8 (k_mem k) a) as Hm by (intros a; by eapply sk_safe).
  split.
  - intros i c Hi. rewrite (Hst k k') by (done || (apply lookup_lt_Some in Hi; lia)). auto.
  - by rewrite (Hst k k') by (done || lia).
Qed.

Definition item_safe (i : fitem) : Prop :=
  match i with Str p s => ∀ j, 0 <= j <= Z.of_nat (length s) → safe (p + j) | _ => True end.

(** [k] is ready, and a step from [k] shows [s]. *)
Record prints (k : Console) (s : list Z) (k' : Console) : Prop := {
  pr_idle : idle k';
  pr_shows : shows k s k'
}.

Lemma prints_good k s k' : prints k s k' → idle k' ∧ good k'.
Proof. intros [H1 H2]. split; [done|]. by eapply sk_good. Qed.

Lemma prints_nil k : idle k → good k → prints k [] k.
Proof. intros. split; [done|]. by eapply sk_nil. Qed.

Lemma prints_trans k s1 k1 s2 k2 : prints k s1 k1 → prints k1 s2 k2 → prints k (s1 ++ s2) k2.
Proof. intros [A1 A2] [B1 B2]. split; [done|]. by eapply sk_app. Qed.

Lemma emit_prints k c :
  idle k → good k →
  ∃ k', emit device poll writechar k c serial terminal = Done k' ∧ prints k [c] k'.
Proof. intros Hi Hg. destruct (sk_emit _ _ _ _ _ _ _ _ out k c Hi Hg) as (k' & E & H1 & H2). by exists k'. Qed.

Lemma writeChar_prints k c :
  idle k → good k → c ≠ 36 →
  ∃ k', __writeChar device poll writechar k c serial terminal = Done k' ∧ prints k [c] k'.
Proof.
  intros Hi Hg Hc. unfold __writeChar. destruct (Z.eqb_spec c 36); [done|].
  rewrite (proj1 Hi). by apply emit_prints.
Qed.

Lemma write_prints fuel k rd p s :
  idle k → good k → steady rd p (length s) → string_at rd k p s → Forall (λ c, c ≠ 36) s →
  (length s < fuel)%nat →
  ∃ k', __write device poll writechar fuel k rd p serial terminal = Done k' ∧ prints k s k'.
Proof.
  revert k p s. induction fuel as [|f IH]; intros k p s Hi Hg Hst Hs Hd Hf; [lia|].
  cbn [__write]. destruct Hd as [|c s Hc Hd].
  - rewrite (string_at_nil _ _ _ Hs). exists k. split; [done|]. by apply prints_nil.
  - pose proof Hs as [[E Hc0] Hs']%string_at_cons. rewrite E.
    destruct (Z.eqb_spec c 0); [done|]. destruct (Z.eqb_spec c 36); [done|].
    rewrite (proj1 Hi). destruct (emit_prints k c Hi Hg) as (k1 & -> & P1). rewrite bind_Done.
    pose proof (steady_tail rd p (length s) 1 Hst) as Hst'.
    destruct (IH k1 (p + 1) s) as (k2 & E2 & P2); try apply (prints_good _ _ _ P1); try done.
    + eapply string_at_shows; [done|apply P1|done].
    + cbn in Hf. lia.
    + exists k2. split; [done|]. by apply (prints_trans _ [c] k1).
Qed.

(** Once a dollar sign is next, the loop stays where it is. *)
Lemma write_stuck fuel k rd p :
  (∀ k k', k_mem k' = k_mem k → rd k' p = rd k p) → rd k p = 36 →
  __write device poll writechar fuel k rd p serial terminal = NoFuel.
Proof.
  intros Hst. revert k. induction fuel as [|f IH]; intros k E; [done|]. cbn [__write]. rewrite E.
  cbn [Z.eqb Pos.eqb]. apply IH. by rewrite (Hst k).
Qed.

Lemma write_hangs fuel k rd p pre post :
  idle k → good k → steady rd p (length (pre ++ 36 :: post)) → string_at rd k p (pre ++ 36 :: post) →
  Forall (λ c, c ≠ 36) pre →
  __write device poll writechar fuel k rd p serial terminal = NoFuel.
Proof.
  intros Hi Hg Hst Hs Hpre. revert k p fuel Hi Hg Hst Hs.
  induction Hpre as [|c pre Hc Hpre IH]; intros k p fuel Hi Hg Hst Hs; cbn [app] in *;
    pose proof Hs as [[E Hc0] Hs']%string_at_cons.
  - apply write_stuck; [|done]. intros k1 k2 Hm. rewrite <- (Z.add_0_r p).
    apply (Hst k1 k2); [|lia]. intros a _. by rewrite Hm.
  - destruct fuel as [|f]; [done|]. cbn [__write]. rewrite E.
    destruct (Z.eqb_spec c 0), (Z.eqb_spec c 36); try done. rewrite (proj1 Hi).
    destruct (emit_prints k c Hi Hg) as (k1 & -> & P1). rewrite bind_Done.
    pose proof (steady_tail rd p (length (pre ++ 36 :: post)) 1 Hst) as Hst'.
    apply IH; try apply (prints_good _ _ _ P1); try done. eapply string_at_shows; [done|apply P1|done].
Qed.

Lemma write_object fuel k m s :
  idle k → good k → cstr m 0 s → Forall (λ c, c ≠ 36) s → (length s < fuel)%nat →
  ∃ k', __write device poll writechar fuel k (in_object m) 0 serial terminal = Done k' ∧ prints k s k'.
Proof.
  intros Hi Hg Hs Hd Hf. apply write_prints; try done. by apply string_in_object.
Qed.

Lemma numeral_no_dollar base v :
  2 <= base <= 36 → 0 <= v → Forall (λ c, c ≠ 36) (numeral base v).
Proof. intros. eapply Forall_impl; [by apply numeral_plain|]. cbn. tauto. Qed.

(** Every specifier prints its item. *)
Lemma specifier_prints fuel k i c args :
  idle k → good k → (22 <= fuel)%nat → item_ok fuel k i → item_safe i → item_fmt i = [37; c] →
  ∃ k', specifier device poll writechar fuel k c serial terminal (item_args i ++ args) = Done (k', args) ∧
    prints k (item_text i) k'.
Proof.
  intros Hi Hg Hf Hok Hsafe Hc. destruct i as [s|c'|c'|v|v|v|p s]; cbn in Hc;
    try (injection Hc as <-); cbn [item_args item_text item_ok app] in *; unfold specifier;
    cbn [Z.eqb Pos.eqb orb va_arg]; rewrite ?bind_Done.
  - destruct s as [|x [|y [|]]]; try discriminate. injection Hc as -> ->.
    apply Forall_cons in Hok as [[_ ?] _]. done.
  - discriminate.
  - destruct Hok as [Hu Hd]. rewrite to_u32_id, to_u8_id by (znorm; lia).
    destruct (writeChar_prints k c' Hi Hg Hd) as (k' & -> & P). by exists k'.
  - rewrite to_i64_to_u64 by done.
    destruct (itoa_numeral ∅ v 0 Hok) as (m & -> & Hm). rewrite bind_Done.
    pose proof (length_numeral 10 (Z.abs v) 20 ltac:(lia) ltac:(znorm; lia) ltac:(lia)).
    destruct (write_object fuel k m (signed_numeral v) Hi Hg Hm) as (k' & -> & P); [| |by exists k'].
    + unfold signed_numeral. case_cmp; [constructor; [lia|]|]; apply numeral_no_dollar; lia.
    + unfold signed_numeral. case_cmp; cbn [length]; rewrite ?Z.abs_neq, ?Z.abs_eq in * by lia; lia.
  - pose proof (length_numeral 10 v 20 ltac:(lia) ltac:(znorm; lia) ltac:(lia)).
    destruct (uitoa_numeral ∅ v 0 10 ltac:(lia) Hok) as (m & -> & Hm). rewrite bind_Done.
    destruct (write_object fuel k m (numeral 10 v) Hi Hg Hm) as (k' & -> & P); [| |by exists k'].
    + apply numeral_no_dollar; [lia|apply Hok].
    + lia.
  - destruct (hex_buffer_spec fuel v Hok ltac:(lia)) as (m & -> & Hm). rewrite bind_Done.
    pose proof (hex_length v Hok).
    destruct (write_object fuel k m (hex16 v) Hi Hg Hm) as (k' & -> & P); [| |by exists k'].
    + apply Forall_app. split; [apply Forall_replicate; lia|apply numeral_no_dollar; [lia|apply Hok]].
    + unfold hex16. rewrite length_app, length_replicate. lia.
  - destruct Hok as (Hs & Hd & Hl).
    destruct (write_prints fuel k in_memory p s Hi Hg (in_memory_steady _ _ Hsafe) (string_in_memory _ _ _ Hs) Hd Hl)
      as (k' & -> & P). by exists k'.
Qed.

Abbreviation loop n fuel k rd p b args :=
  (kprintf_loop device poll writechar n fuel k rd p b serial terminal args).

Lemma text_step s n fuel k rd p r args :
  idle k → good k → steady rd p (length (s ++ r)) → string_at rd k p (s ++ r) →
  Forall (λ c, c ≠ 36 ∧ c ≠ 37) s →
  ∃ k1, loop (length s + n) fuel k rd p false args = loop n fuel k1 rd (p + Z.of_nat (length s)) false args ∧
    prints k s k1.
Proof.
  intros Hi Hg Hst Hs Hok. revert k p Hi Hg Hst Hs.
  induction Hok as [|c s [Hc1 Hc2] Hok IH]; intros k p Hi Hg Hst Hs.
  - exists k. cbn. rewrite Z.add_0_r. split; [done|]. by apply prints_nil.
  - cbn [app] in Hs, Hst. apply string_at_cons in Hs as [[E Hc0] Hs]. cbn [length plus kprintf_loop].
    rewrite E. destruct (Z.eqb_spec c 0), (Z.eqb_spec c 37); try done.
    destruct (writeChar_prints k c Hi Hg Hc1) as (k1 & -> & P1). rewrite bind_Done.
    pose proof (steady_tail rd p _ 1 Hst) as Hst'.
    destruct (IH k1 (p + 1)) as (k2 & -> & P2); try apply (prints_good _ _ _ P1); try done.
    { by eapply string_at_shows; [|apply P1|]. }
    exists k2. split; [f_equal; lia|]. by apply (prints_trans _ [c] k1).
Qed.

Lemma loop_char n fuel k rd p c args :
  rd k p = c → c ≠ 0 → c ≠ 37 →
  loop (S n) fuel k rd p false args =
  (k ← __writeChar device poll writechar k c serial terminal; loop n fuel k rd (p + 1) false args).
Proof.
  intros E H0 H37. cbn [kprintf_loop]. rewrite E.
  by destruct (Z.eqb_spec c 0), (Z.eqb_spec c 37).
Qed.

Lemma color_step c n fuel k rd p r args :
  idle k → good k → steady rd p (length (36 :: 99 :: c :: r)) →
  string_at rd k p (36 :: 99 :: c :: r) → c ≠ 36 ∧ c ≠ 37 →
  ∃ k1, loop (3 + n) fuel k rd p false args = loop n fuel k1 rd (p + 3) false args ∧ prints k [] k1.
Proof.
  intros Hi Hg Hst Hs [Hc1 Hc2].
  assert (∀ k', k_mem k' = k_mem k → ∀ i, 0 <= i <= 2 → rd k' (p + i) = rd k (p + i)) as Hrd.
  { intros k' E i Hj. apply Hst; [by rewrite E|cbn [length]; lia]. }
  apply string_at_cons in Hs as [[E1 _] Hs]. apply string_at_cons in Hs as [[E2 _] Hs].
  apply string_at_cons in Hs as [[E3 Hc0] _]. rewrite <- Z.add_assoc in E3.
  change (3 + n)%nat with (S (S (S n))). rewrite (loop_char _ _ _ _ _ 36) by done.
  assert (__writeChar device poll writechar k 36 serial terminal = Done (with_flags k true false)) as ->.
  { unfold __writeChar. by rewrite (proj2 Hi). }
  rewrite bind_Done, (loop_char _ _ _ _ _ 99); [|by rewrite Hrd by (done || lia)|done|done].
  assert (__writeChar device poll writechar (with_flags k true false) 99 serial terminal
    = Done (with_flags k true true)) as -> by done.
  rewrite bind_Done, <- Z.add_assoc, (loop_char _ _ _ _ _ c); [|by rewrite Hrd by (done || lia)|done|done].
  assert (__writeChar device poll writechar (with_flags k true true) c serial terminal
    = Done (colored k c)) as ->.
  { unfold __writeChar. by destruct (Z.eqb_spec c 36). }
  rewrite bind_Done. eexists. split; [f_equal; lia|]. split; [done|]. by eapply sk_color.
Qed.

Lemma item_step i n fuel k rd p r args :
  idle k → good k → steady rd p (length (item_fmt i ++ r)) → (22 <= fuel)%nat →
  item_ok fuel k i → item_safe i → string_at rd k p (item_fmt i ++ r) →
  ∃ k1, loop (length (item_fmt i) + n) fuel k rd p false (item_args i ++ args)
        = loop n fuel k1 rd (p + Z.of_nat (length (item_fmt i))) false args ∧
    prints k (item_text i) k1.
Proof.
  intros Hi Hg Hst Hf Hok Hsafe Hs.
  assert ((∃ s, i = Text s) ∨ (∃ c, i = Color c) ∨ (∃ c, item_fmt i = [37; c] ∧ c ≠ 0 ∧ c ≠ 37))
    as [[s ->]|[[c ->]|(c & Ec & Hc0 & Hc37)]].
  { destruct i; eauto; right; right; eexists; (split; [done|lia]). }
  - exact (text_step s n fuel k rd p r args Hi Hg Hst Hs Hok).
  - exact (color_step c n fuel k rd p r args Hi Hg Hst Hs Hok).
  - rewrite Ec in *. cbn [length app] in *.
    apply string_at_cons in Hs as [[E1 _] Hs]. apply string_at_cons in Hs as [[E2 _] _].
    change (2 + n)%nat with (S (S n)). cbn [kprintf_loop]. rewrite E1. cbn [Z.eqb Pos.eqb]. rewrite E2.
    destruct (Z.eqb_spec c 0), (Z.eqb_spec c 37); try done.
    destruct (specifier_prints fuel k i c args Hi Hg Hf Hok Hsafe Ec) as (k1 & -> & P). rewrite bind_Done.
    exists k1. split; [f_equal; lia|done].
Qed.

(** What is left of the arguments is still there after an item. *)
Lemma item_ok_shows fuel k s k' i : shows k s k' → item_safe i → item_ok fuel k i → item_ok fuel k' i.
Proof.
  intros Hk Hs. destruct i as [| | | | | |p t]; try done. intros ((H1 & H2) & Hd & Hl).
  assert (∀ j, 0 <= j <= Z.of_nat (length t) → rd8 (k_mem k') (p + j) = rd8 (k_mem k) (p + j)) as Hm.
  { intros j Hj. by eapply sk_safe; [| |apply Hs]. }
  split; [|done]. split.
  - intros j c Hj. rewrite Hm by (apply lookup_lt_Some in Hj; lia). auto.
  - by rewrite Hm by lia.
Qed.

Lemma kprintf_items n fuel k rd p l :
  idle k → good k → steady rd p (length (fmt_of l)) → (22 <= fuel)%nat →
  Forall (item_ok fuel k) l → Forall item_safe l → string_at rd k p (fmt_of l) →
  (length (fmt_of l) < n)%nat →
  ∃ k', _kprintf device poll writechar n fuel k rd p serial terminal (args_of l) = Done k' ∧
    prints k (text_of l) k'.
Proof.
  unfold _kprintf. revert n k p. induction l as [|i l IH]; intros n k p Hi Hg Hst Hf Hok Hsafe Hs Hn.
  - exists k. destruct n as [|n]; [cbn in Hn; lia|]. cbn [kprintf_loop].
    rewrite (string_at_nil _ _ _ Hs). split; [done|]. by apply prints_nil.
  - unfold fmt_of, args_of, text_of in *. rewrite !fmap_cons in *. cbn [concat] in *.
    apply Forall_cons in Hok as [Hok1 Hok], Hsafe as [Hsafe1 Hsafe]. rewrite length_app in Hn.
    replace n with (length (item_fmt i) + (n - length (item_fmt i)))%nat by lia.
    destruct (item_step i (n - length (item_fmt i)) fuel k rd p _ (concat (item_args <$> l))
      Hi Hg Hst Hf Hok1 Hsafe1 Hs) as (k1 & -> & P1). pose proof Hst as Hst0. rewrite length_app in Hst.
    apply steady_tail in Hst.
    destruct (IH (n - length (item_fmt i))%nat k1 (p + Z.of_nat (length (item_fmt i)))) as (k2 & E & P2);
      try apply (prints_good _ _ _ P1); try done.
    + rewrite Forall_forall in Hok, Hsafe |- *. intros j Hj.
      eapply item_ok_shows; [apply P1|by apply Hsafe|by apply Hok].
    + eapply (string_at_shows rd k); [done|apply P1|]. destruct Hs as [S1 S2]. split.
      * intros j c Hj. replace (p + _ + Z.of_nat j) with (p + Z.of_nat (length (item_fmt i) + j)) by lia.
        apply S1. by rewrite lookup_app_r, Nat.add_comm, Nat.add_sub by lia.
      * rewrite <- S2, length_app. f_equal. lia.
    + lia.
    + exists k2. split; [exact E|]. by eapply prints_trans.
Qed.
End Print.

(** ** The serial line *)

Abbreviation no_terminal := (λ (_ : Console) (_ : Z), Undef "terminal" : outcome Console).

(** The terminal's state without its colour. *)
Definition cursor (k : Console) : Z * Z * Z * Z :=
  let t := gTerminal k in (charX t, charY t, charsPerLine t, maxLines t).

Record sends (k : Console) (s : list Z) (k' : Console) : Prop := {
  se_sent : sent (k_ports k') = sent (k_ports k) ++ s;
  se_mem : k_mem k' = k_mem k;
  se_cursor : cursor k' = cursor k;
  se_color : is_u32 (fgColor (gTerminal k)) → is_u32 (fgColor (gTerminal k'))
}.

Lemma set_color_ok k c :
  is_u32 (fgColor (gTerminal k)) → is_u32 (fgColor (gTerminal (set_color k c))).
Proof. intros. unfold set_color. repeat case_cmp; cbn; znorm; lia. Qed.

Section Serial.
Context (device : ports → Z → Z) (poll : nat).
Hypothesis uart_ready : ∀ h, ready_within device poll h = true.

Lemma serial_sink : sink device poll no_terminal true false (λ _, True) (λ _, True) sends.
Proof.
  split.
  - intros k c Hi _. unfold emit.
    destruct (serial_write_spec device poll (k_ports k) c (uart_ready _)) as (h & -> & Hs).
    by exists (with_ports k h).
  - intros k _. split; [by rewrite app_nil_r|done..].
  - intros k s1 k1 s2 k2 [A1 A2 A3 A4] [B1 B2 B3 B4]. split; [|congruence|congruence|auto].
    by rewrite B1, A1, app_assoc.
  - intros k c _ _. assert (∀ k', sends k [] k' → sends k [] (with_flags k' false false)) as Hf.
    { intros k' []. by split. }
    apply Hf. split; [..|apply (set_color_ok (with_flags k true true))]; unfold set_color; repeat case_cmp; try done;
      cbn; by rewrite app_nil_r.
  - done.
  - intros k s k' a [_ -> _ _] _. done.
Qed.

Lemma kprintf_serial_items n fuel k rd p l :
  idle k → steady (λ _, True) rd p (length (fmt_of l)) → (22 <= fuel)%nat →
  Forall (item_ok fuel k) l → string_at rd k p (fmt_of l) → (length (fmt_of l) < n)%nat →
  ∃ k', vakprintf_serial device poll n fuel k rd p (args_of l) = Done k' ∧
    idle k' ∧ sends k (text_of l) k'.
Proof.
  intros Hi Hst Hf Hok Hs Hn.
  destruct (kprintf_items _ _ _ _ _ _ _ _ serial_sink n fuel k rd p l Hi I Hst Hf Hok) as (k' & E & [P1 P2]);
    try done.
  - apply Forall_forall. intros [] _; done.
  - by exists k'.
Qed.
End Serial.

(** [kprintf_serial] prints what its format says.  On every format built
    of literal text, colour escapes and the specifiers c, d, u, x and s, with
    matching arguments, it returns and sends over the serial line exactly the
    text: decimal numerals with sign, sixteen-digit hexadecimal numerals, the
    strings and characters, and nothing for colour escapes; and it leaves
    memory and the escape state as they were. *)
Theorem kprintf_serial_correct device poll n fuel k l fmt_mem p :
  (∀ h, ready_within device poll h = true) →
  idle k → (22 <= fuel)%nat → Forall (item_ok fuel k) l → cstr fmt_mem p (fmt_of l) →
  (length (fmt_of l) < n)%nat →
  ∃ k', vakprintf_serial device poll n fuel k (in_object fmt_mem) p (args_of l) = Done k' ∧
    sent (k_ports k') = sent (k_ports k) ++ text_of l ∧ k_mem k' = k_mem k ∧ idle k'.
Proof.
  intros Hr Hi Hf Hok Hs Hn.
  destruct (kprintf_serial_items device poll Hr n fuel k (in_object fmt_mem) p l Hi
    (in_object_steady _ _ _ _) Hf Hok (string_in_object _ _ _ _ Hs) Hn) as (k' & E & Hi' & [P1 P2 _ _]).
  by exists k'.
Qed.

(** ** Examples *)

Definition ready_device : ports → Z → Z := λ _ _, 0x20.

Lemma ready_device_ok h : ready_within ready_device 1 h = true.
Proof. done. Qed.

Definition sample_console : Console := mkConsole sample_mem terminal_boot [] false false.

Definition sample_items : list fitem :=
  [Color 56; Text (bytes_of_string "name: "); Str 256 (bytes_of_string "okeOS");
   Text (bytes_of_string " free: "); Udec 4096; Text (bytes_of_string " at "); Hex 0xB000].

Lemma kprintf_serial_correct_witness :
  ∃ k', vakprintf_serial ready_device 1 60 30 sample_console
          (in_object (store 0 (fmt_of sample_items) ∅)) 0 (args_of sample_items) = Done k' ∧
    sent (k_ports k') = bytes_of_string "name: okeOS free: 4096 at 000000000000b000".
Proof.
  destruct (kprintf_serial_correct ready_device 1 60 30 sample_console sample_items
    (store 0 (fmt_of sample_items) ∅) 0) as (k' & E & S & _).
  - exact ready_device_ok.
  - by split.
  - lia.
  - unfold sample_items. rewrite !Forall_cons, Forall_nil. cbn [item_ok].
    repeat match goal with |- _ ∧ _ => split end; try exact sample_cstr; try done; try (znorm; lia);
      vm_compute; repeat constructor; discriminate.
  - apply store_literal_cstr; vm_compute; repeat constructor; discriminate.
  - vm_compute. lia.
  - exists k'. split; [exact E|]. rewrite S. vm_compute. reflexivity.
Defined.
