(* ===== verification/Screen.v ===== *)
(** * terminal/terminal.cpp: the cursor and the screen *)

From S2P Require Import Prelude Memory CString PortIO Framebuffer Console Kprintf.

(** Where the next character goes. *)
Definition cursor_next (t : Terminal) (c : Z) : Z * Z :=
  if (charsPerLine t <? charX t + 1) || (c =? 10)
  then if maxLines t <? charY t + 1 then (0, 0) else (0, charY t + 1)
  else (charX t + 1, charY t).

Record terminal_ok (t : Terminal) : Prop := {
  to_x : 0 <= charX t <= charsPerLine t;
  to_y : 0 <= charY t <= maxLines t;
  to_cpl : charsPerLine t <= 256;
  to_lines : maxLines t <= 128
}.

Lemma Terminal_init_ok fb :
  is_u64 (fb_pitch fb) → is_u64 (fb_height fb) → terminal_ok (Terminal_init fb terminal_boot).
Proof.
  intros Hp Hh. unfold Terminal_init. cbn zeta.
  pose proof (to_u32_range (to_u64 (fb_pitch fb / 4 / 8 - 1))).
  pose proof (to_u32_range (to_u64 (fb_height fb / 16 - 1))). znorm.
  split; cbn; repeat case_cmp; lia.
Qed.

Section Screen.
Context (device : ports → Z → Z) (poll : nat) (fb : limine_framebuffer) (font : list Z).
Hypothesis uart_ready : ∀ h, ready_within device poll h = true.

(** The message of a cleared screen. *)
Lemma clear_message k :
  idle k →
  ∃ k', vakprintf_serial device poll 6 6 k (in_object (literal "clear")) 0 [] = Done k' ∧
    idle k' ∧ sends k (bytes_of_string "clear") k'.
Proof.
  intros Hi. pose proof (text_step _ _ _ _ _ _ _ _ (serial_sink device poll uart_ready)
    (bytes_of_string "clear") 1 6 k (in_object (literal "clear")) 0 [] [] Hi I) as H.
  destruct H as (k1 & E & [P1 P2]).
  - done.
  - apply string_in_object, store_literal_cstr; vm_compute; repeat constructor; discriminate.
  - vm_compute. repeat constructor; discriminate.
  - exists k1. split; [|done]. unfold vakprintf_serial, _kprintf.
    change 6%nat with (length (bytes_of_string "clear") + 1)%nat at 1. rewrite E. done.
Qed.

(** Does this character clear the screen? *)
Definition wraps (t : Terminal) (c : Z) : bool :=
  ((charsPerLine t <? charX t + 1) || (c =? 10)) && (maxLines t <? charY t + 1).

(** What the serial line gets to see of a character on the terminal. *)
Definition clear_log (t : Terminal) (c : Z) : list Z :=
  if wraps t c then bytes_of_string "clear" else [].

(** The memory after a character: glyph, and screen when it is cleared. *)
Definition drawn (k : Console) (c : Z) : mem :=
  let t := gTerminal k in
  if (31 <? c) && (c <? 128)
  then drawChar fb font (k_mem k) c (to_u32 (charX t * 8)) (to_u32 (charY t * 16)) (fgColor t)
  else k_mem k.

Definition cleared (m : mem) : mem :=
  (memset m (fb_address fb) 0 (to_u64 (to_u64 (fb_width fb * fb_height fb) * fb_bpp fb) / 8)).2.

(** The console after a character. *)
Record moved_cursor (k k' : Console) (c : Z) : Prop := {
  mc_ok : terminal_ok (gTerminal k');
  mc_idle : idle k';
  mc_pos : (charX (gTerminal k'), charY (gTerminal k')) = cursor_next (gTerminal k) c;
  mc_size : charsPerLine (gTerminal k') = charsPerLine (gTerminal k) ∧
            maxLines (gTerminal k') = maxLines (gTerminal k);
  mc_color : is_u32 (fgColor (gTerminal k)) → is_u32 (fgColor (gTerminal k'));
  mc_sent : sent (k_ports k') = sent (k_ports k) ++ clear_log (gTerminal k) c;
  mc_mem : k_mem k' = if wraps (gTerminal k) c then cleared (drawn k c) else drawn k c
}.

Lemma writechar_moves k c :
  idle k → terminal_ok (gTerminal k) →
  ∃ k', Terminal_writechar device poll fb font k c = Done k' ∧ moved_cursor k k' c.
Proof.
  intros Hi Ht. pose proof Ht as [T1 T2 T3 T4]. unfold Terminal_writechar. fold (drawn k c).
  rewrite (to_u32_id (charX (gTerminal k) + 1)) by (znorm; lia).
  set (t := gTerminal k) in *. set (k1 := with_terminal _ _).
  destruct ((charsPerLine t <? charX t + 1) || (c =? 10)) eqn:El.
  - unfold next_line. cbn [gTerminal k1 with_terminal charY charsPerLine maxLines fgColor].
    rewrite to_u32_id by (znorm; lia).
    destruct (maxLines t <? charY t + 1) eqn:Ef.
    + set (k2 := with_terminal k1 _). destruct (clear_message k2 Hi) as (k3 & -> & Hi3 & [S1 S2 Hc S4]).
      rewrite bind_Done. eexists. split; [done|]. unfold cursor in Hc. cbn in Hc. injection Hc as C1 C2 C3 C4.
      split; cbn; unfold cursor_next, clear_log, wraps; fold t; rewrite ?El, ?Ef; try done.
      * split; cbn; lia.
      * by rewrite S2.
    + pose proof Ef as Hroom%Z.ltb_ge. eexists. split; [done|].
      split; cbn; unfold cursor_next, clear_log, wraps; fold t; rewrite ?El, ?Ef, ?app_nil_r; try done.
      split; cbn; lia.
  - exists k1. split; [done|]. pose proof El as [Hx _]%orb_false_iff. apply Z.ltb_ge in Hx.
    split; cbn; unfold cursor_next, clear_log, wraps; fold t; rewrite ?El, ?app_nil_r; try done.
    split; cbn; lia.
Qed.

(** C27: the terminal's cursor stays on the screen.  Every character is
    accepted, moves the cursor one column, to the next line at the end of a
    line or at a line feed, and back to the top when the screen is full, and
    leaves it within the columns and lines that [init] computed. *)
Theorem writechar_cursor k c :
  idle k → terminal_ok (gTerminal k) →
  ∃ k', Terminal_writechar device poll fb font k c = Done k' ∧
    terminal_ok (gTerminal k') ∧ idle k' ∧
    (charX (gTerminal k'), charY (gTerminal k')) = cursor_next (gTerminal k) c.
Proof.
  intros Hi Ht. destruct (writechar_moves k c Hi Ht) as (k' & E & [M1 M2 M3 _ _ _ _]). by exists k'.
Qed.

(** The last cell of the screen is drawn past the end of the framebuffer:
    [drawCharBg] puts the eight columns of a glyph at [x + 9] to [x + 16], so
    in the last column of the last line it writes behind the last pixel. *)
Theorem writechar_past_framebuffer k c :
  idle k → terminal_ok (gTerminal k) → 31 < c < 128 → (c + 1) * 16 <= Z.of_nat (length font) →
  let t := gTerminal k in
  charX t = charsPerLine t → charY t = maxLines t → 0 <= fgColor t < 2^32 →
  fb_pitch fb = 32 * (charsPerLine t + 1) → fb_height fb = 16 * (maxLines t + 1) →
  0 <= fb_width fb <= fb_pitch fb / 4 → fb_bpp fb = 32 →
  ∃ k', Terminal_writechar device poll fb font k c = Done k' ∧
    rd32 (k_mem k') (fb_address fb + fb_pitch fb * fb_height fb + 32)
    = if Z.testbit (glyph_row font c 15) 0 then fgColor t else 0.
Proof.
  cbn zeta. intros Hi Ht Hc Hfont Ex Ey Hfg Hpitch Hheight Hw Hbpp.
  pose proof Ht as [T1 T2 T3 T4]. destruct (writechar_moves k c Hi Ht) as (k' & E & M).
  exists k'. split; [exact E|]. rewrite (mc_mem _ _ _ M). unfold wraps, cleared, drawn.
  set (t := gTerminal k) in *.
  destruct (Z.ltb_spec (charsPerLine t) (charX t + 1)), (Z.ltb_spec (maxLines t) (charY t + 1)),
    (Z.ltb_spec 31 c), (Z.ltb_spec c 128); try lia. cbn [andb orb]. clear M E.
  set (m1 := drawChar _ _ _ _ _ _ _).
  assert (ppl fb = 8 * (charsPerLine t + 1)) as Hppl.
  { unfold ppl. rewrite Hpitch. zlia. }
  assert (fb_pitch fb / 4 = ppl fb) as Hp4 by done. rewrite Hp4 in Hw.
  assert (0 <= fb_width fb * fb_height fb <= ppl fb * fb_height fb) as Hwh by nia.
  assert (ppl fb * fb_height fb <= 2056 * 2064) as Hbig by nia.
  rewrite (to_u64_id (fb_width fb * fb_height fb)) by (znorm; lia).
  rewrite Hbpp, to_u64_id by (znorm; lia).
  replace (fb_width fb * fb_height fb * 32 / 8) with (4 * (fb_width fb * fb_height fb)) by zlia.
  assert (fb_pitch fb * fb_height fb = 4 * (ppl fb * fb_height fb)) as -> by nia.
  rewrite (rdN_ext 4 _ m1) by (intros a Ha; rewrite rd8_memset, decide_False by lia; done).
  unfold m1, drawChar. rewrite !to_u32_id by (znorm; lia).
  destruct (drawCharBg_correct_pixels fb font (k_mem k) c (charX t * 8) (charY t * 16) (fgColor t) 0) as [D _];
    try (znorm; lia); try nia.
  specialize (D 15 0 ltac:(lia) ltac:(lia)). rewrite <- D. f_equal. unfold pixel. nia.
Qed.
End Screen.

(** ** Examples: a screen of eight columns and two lines *)

Definition screen_fb : limine_framebuffer := mkFramebuffer 0x100000 64 32 256 32.

Definition last_cell : Console :=
  mkConsole ∅ (mkTerminal 7 1 7 1 0xFFFFFF) [] false false.

Lemma last_cell_ok : terminal_ok (gTerminal last_cell).
Proof. split; cbn; lia. Qed.

Lemma writechar_cursor_witness :
  ∃ k', Terminal_writechar ready_device 1 screen_fb sample_font last_cell 65 = Done k' ∧
    charX (gTerminal k') = 0 ∧ charY (gTerminal k') = 0.
Proof.
  destruct (writechar_cursor ready_device 1 screen_fb sample_font ready_device_ok last_cell 65)
    as (k' & E & _ & _ & Hp); [by split|exact last_cell_ok|].
  exists k'. split; [exact E|]. cbn in Hp. injection Hp as H1 H2. split; [exact H1|exact H2].
Defined.

Lemma writechar_past_framebuffer_witness :
  ∃ k', Terminal_writechar ready_device 1 screen_fb (replicate 1600 255) last_cell 65 = Done k' ∧
    rd32 (k_mem k') (0x100000 + 256 * 32 + 32) = 0xFFFFFF.
Proof.
  apply (writechar_past_framebuffer ready_device 1 screen_fb (replicate 1600 255) ready_device_ok last_cell 65);
    try exact last_cell_ok; try (cbn; lia); vm_compute; done.
Defined.
