(* ===== verification/Output.v ===== *)
(** * debug.cpp on the terminal: kprintf and kprintf_both

    The terminal as a target of formatted output.  Text moves the cursor
    character by character; when the screen is full it is cleared, which the
    terminal reports on the serial line.  [screen_log] is what the serial
    line carries: with [serial] the text itself, and a report for every
    cleared screen in its place in the text. *)

From S2P Require Import Prelude Memory CString PortIO Framebuffer Console Kprintf Screen.

(** The terminal without its colour, and after a character. *)
Definition plain (t : Terminal) : Terminal :=
  mkTerminal (charX t) (charY t) (charsPerLine t) (maxLines t) 0.

Definition advance (t : Terminal) (c : Z) : Terminal :=
  let '(x, y) := cursor_next t c in mkTerminal x y (charsPerLine t) (maxLines t) (fgColor t).

Fixpoint screen_log (serial : bool) (t : Terminal) (s : list Z) : list Z :=
  match s with
  | [] => []
  | c :: s' => (if serial then [c] else []) ++ clear_log t c ++ screen_log serial (advance t c) s'
  end.

Lemma screen_log_app serial t s1 s2 :
  screen_log serial t (s1 ++ s2) =
  screen_log serial t s1 ++ screen_log serial (fold_left advance s1 t) s2.
Proof.
  revert t. induction s1 as [|c s1 IH]; intros t; cbn [app screen_log fold_left]; [done|].
  by rewrite IH, <- !app_assoc.
Qed.

(** Without room problems the log is the text. *)
Lemma screen_log_quiet t s :
  (∀ s1 c s2, s = s1 ++ c :: s2 → wraps (fold_left advance s1 t) c = false) →
  screen_log true t s = s ∧ screen_log false t s = [].
Proof.
  revert t. induction s as [|c s IH]; intros t H; [done|]. cbn [screen_log]. unfold clear_log.
  pose proof (H [] c s eq_refl) as Hw. cbn [fold_left] in Hw. rewrite Hw. destruct (IH (advance t c)) as [-> ->]; [|done].
  intros s1 d s2 ->. by apply (H (c :: s1) d s2).
Qed.

Section Output.
Context (device : ports → Z → Z) (poll : nat) (fb : limine_framebuffer) (font : list Z) (serial : bool).
Hypothesis uart_ready : ∀ h, ready_within device poll h = true.

(** The terminal's size fits the framebuffer, as [Terminal::init] makes it. *)
Record fits (t : Terminal) : Prop := {
  ft_cols : 8 * (charsPerLine t + 1) <= ppl fb;
  ft_lines : 16 * (maxLines t + 1) <= fb_height fb;
  ft_size : ppl fb * fb_height fb < 2^31;
  ft_row : 0 <= fb_width fb ∧ 0 <= fb_bpp fb ∧ fb_width fb * fb_bpp fb <= 8 * fb_pitch fb;
  ft_font : 2048 <= Z.of_nat (length font)
}.

(** Addresses that drawing leaves alone: all outside the framebuffer and the
    few pixels behind its end that the last column reaches. *)
Definition off_screen (a : Z) : Prop :=
  a < fb_address fb ∨ fb_address fb + fb_pitch fb * fb_height fb + 36 <= a.

Definition screen_ready (k : Console) : Prop :=
  terminal_ok (gTerminal k) ∧ fits (gTerminal k) ∧ is_u32 (fgColor (gTerminal k)).

Lemma fits_size t t' :
  charsPerLine t' = charsPerLine t → maxLines t' = maxLines t → fits t → fits t'.
Proof. intros E1 E2 []. split; rewrite ?E1, ?E2; done. Qed.

Lemma drawn_off_screen k c a :
  screen_ready k → off_screen a → rd8 (drawn fb font k c) a = rd8 (k_mem k) a.
Proof.
  intros ([T1 T2 T3 T4] & [F1 F2 F3 F4 F5] & Hc) Ha. unfold drawn.
  destruct (Z.ltb_spec 31 c), (Z.ltb_spec c 128); try done. cbn [andb]. unfold drawChar.
  set (t := gTerminal k) in *. rewrite !to_u32_id by (znorm; lia).
  assert (4 * ppl fb <= fb_pitch fb < 4 * ppl fb + 4) as Hp by (unfold ppl; zlia).
  destruct (drawCharBg_correct_pixels fb font (k_mem k) c (charX t * 8) (charY t * 16) (fgColor t) 0)
    as [_ D]; try (znorm; lia); try nia.
  apply D. intros r Hr. unfold pixel, off_screen in *. nia.
Qed.

Lemma cleared_off_screen m t a :
  fits t → terminal_ok t → off_screen a → rd8 (cleared fb m) a = rd8 m a.
Proof.
  intros [F1 F2 F3 F4 F5] [T1 T2 T3 T4] Ha. unfold cleared. rewrite rd8_memset.
  assert (4 * ppl fb <= fb_pitch fb < 4 * ppl fb + 4) as Hp by (unfold ppl; zlia).
  rewrite decide_False; [done|]. unfold off_screen in Ha.
  assert (0 <= fb_width fb * fb_height fb) by nia.
  assert (to_u64 (fb_width fb * fb_height fb) <= fb_width fb * fb_height fb) by (apply Z.mod_le; lia).
  pose proof (to_u64_range (fb_width fb * fb_height fb)).
  assert (to_u64 (to_u64 (fb_width fb * fb_height fb) * fb_bpp fb)
    <= to_u64 (fb_width fb * fb_height fb) * fb_bpp fb) by (apply Z.mod_le; znorm; nia).
  assert (to_u64 (fb_width fb * fb_height fb) * fb_bpp fb <= 8 * (fb_pitch fb * fb_height fb)) by nia.
  zlia.
Qed.

(** The console has shown the text [s] on the terminal. *)
Record displays (k : Console) (s : list Z) (k' : Console) : Prop := {
  ds_ready : screen_ready k';
  ds_terminal : plain (gTerminal k') = fold_left advance s (plain (gTerminal k));
  ds_sent : sent (k_ports k') = sent (k_ports k) ++ screen_log serial (plain (gTerminal k)) s;
  ds_mem a : off_screen a → rd8 (k_mem k') a = rd8 (k_mem k) a
}.

Lemma writechar_displays k c :
  idle k → screen_ready k →
  ∃ k', Terminal_writechar device poll fb font k c = Done k' ∧ idle k' ∧ screen_ready k' ∧
    plain (gTerminal k') = advance (plain (gTerminal k)) c ∧
    sent (k_ports k') = sent (k_ports k) ++ clear_log (gTerminal k) c ∧
    ∀ a, off_screen a → rd8 (k_mem k') a = rd8 (k_mem k) a.
Proof.
  intros Hi Hr. pose proof Hr as (Ht & Hf & Hc).
  destruct (writechar_moves device poll fb font uart_ready k c Hi Ht)
    as (k' & E & [M1 M2 M3 [M4 M4'] M5 M6 M7]). exists k'. split; [done|]. split; [done|].
  split; [split; [done|]; split; [by eapply fits_size|auto]|]. split_and!; [|done|].
  - unfold advance. change (cursor_next (plain (gTerminal k)) c) with (cursor_next (gTerminal k) c).
    rewrite <- M3. unfold plain. by rewrite M4, M4'.
  - intros a Ha. rewrite M7. destruct (wraps _ _).
    + rewrite (cleared_off_screen _ (gTerminal k)) by done. by apply drawn_off_screen.
    + by apply drawn_off_screen.
Qed.

Lemma screen_sink :
  sink device poll (Terminal_writechar device poll fb font) serial true screen_ready off_screen displays.
Proof.
  split.
  - intros k c Hi Hr. unfold emit.
    assert (∃ k1, (if serial then h ← serial_write device poll (k_ports k) c; Done (with_ports k h) else Done k)
      = Done k1 ∧ idle k1 ∧ screen_ready k1 ∧ gTerminal k1 = gTerminal k ∧ k_mem k1 = k_mem k ∧
      sent (k_ports k1) = sent (k_ports k) ++ (if serial then [c] else [])) as (k1 & -> & Hi1 & Hr1 & Et & Em & Es).
    { destruct serial; [|exists k; by rewrite app_nil_r].
      destruct (serial_write_spec device poll (k_ports k) c (uart_ready _)) as (h & -> & Hs).
      by exists (with_ports k h). }
    rewrite bind_Done.
    destruct (writechar_displays k1 c Hi1 Hr1) as (k' & -> & Hi' & Hr' & H1 & H2 & H3).
    exists k'. split; [done|]. split; [done|]. split; [done| | |].
    + cbn [fold_left]. by rewrite H1, Et.
    + rewrite H2, Es, Et. cbn [screen_log]. by rewrite app_nil_r, <- app_assoc.
    + intros a Ha. by rewrite H3, Em.
  - intros k Hr. split; [done|done|by rewrite app_nil_r|done].
  - intros k s1 k1 s2 k2 [A1 A2 A3 A4] [B1 B2 B3 B4]. split; [done| | |].
    + by rewrite B2, A2, fold_left_app.
    + by rewrite B3, A3, A2, screen_log_app, app_assoc.
    + intros a Ha. by rewrite B4, A4.
  - intros k c Hi (Ht & Hf & Hc). unfold colored.
    assert (∀ k', displays k [] k' → displays k [] (with_flags k' false false)) as Hfl by (by intros k' []).
    assert (is_u32 (fgColor (gTerminal (set_color (with_flags k true true) c)))) as Hc'
      by (by apply set_color_ok).
    apply Hfl. revert Hc'. unfold set_color. repeat case_cmp; intros Hc';
      (split; [split; [by destruct Ht|]; split; [by apply (fits_size (gTerminal k))|done]
              |done|cbn; by rewrite app_nil_r|done]).
  - by intros k s k' [].
  - intros k s k' a [_ _ _ H]. apply H.
Qed.

Lemma kprintf_screen_items n fuel k rd p l :
  idle k → screen_ready k → steady off_screen rd p (length (fmt_of l)) → (22 <= fuel)%nat →
  Forall (item_ok fuel k) l → Forall (item_safe off_screen) l → string_at rd k p (fmt_of l) →
  (length (fmt_of l) < n)%nat →
  ∃ k', _kprintf device poll (Terminal_writechar device poll fb font) n fuel k rd p serial true (args_of l)
      = Done k' ∧ idle k' ∧ displays k (text_of l) k'.
Proof.
  intros Hi Hr Hst Hf Hok Hsafe Hs Hn.
  destruct (kprintf_items _ _ _ _ _ _ _ _ screen_sink n fuel k rd p l Hi Hr Hst Hf Hok Hsafe Hs Hn)
    as (k' & E & [P1 P2]). by exists k'.
Qed.
End Output.


(** C39: [__write] hangs on a dollar sign.  Neither [continue] of its escape
    branches advances the string: whichever of the three functions is printing
    (terminal, serial line or both), on a string argument with a dollar sign,
    outside the screen, the loop runs out of any number of rounds. *)
Theorem write_dollar_hangs device poll fb font fuel k p pre post :
  (∀ h, ready_within device poll h = true) →
  idle k → screen_ready fb font k →
  cstr (k_mem k) p (pre ++ 36 :: post) → Forall (λ c, c ≠ 36) pre →
  (∀ i, 0 <= i <= Z.of_nat (length (pre ++ 36 :: post)) → off_screen fb (p + i)) →
  (∀ serial, __write device poll (Terminal_writechar device poll fb font) fuel k in_memory p serial true = NoFuel) ∧
  __write device poll (λ _ _, Undef "terminal") fuel k in_memory p true false = NoFuel.
Proof.
  intros Hu Hi Hr Hs Hpre Hoff. apply string_in_memory in Hs. split.
  - intros serial. eapply write_hangs; [by apply screen_sink|done|done| |exact Hs|done].
    by apply in_memory_steady.
  - eapply write_hangs; [by apply (serial_sink device poll)|done|done| |exact Hs|done].
    by apply in_memory_steady.
Qed.

(** ** Calls with a literal format *)

(** The bytes a C string literal can have. *)
Definition literal_ok (s : list Z) : bool := forallb (λ c, (0 <? c) && (c <? 256)) s.

Lemma literal_ok_cstr s : literal_ok s = true → cstr (store 0 s ∅) 0 s.
Proof.
  intros H. apply store_literal_cstr; eapply forallb_forall_list; try exact H; intros c Hc; znorm; lia.
Qed.

(** Text without specifiers and escapes. *)
Definition plain_text (s : list Z) : bool := forallb (λ c, negb (c =? 36) && negb (c =? 37)) s.

Lemma plain_text_ok s : plain_text s = true → Forall (λ c, c ≠ 36 ∧ c ≠ 37) s.
Proof.
  apply forallb_forall_list. intros c Hc. lia.
Qed.

(** Discharges the conditions on the items of a format. *)
Ltac items :=
  rewrite !Forall_cons, Forall_nil; cbn [item_ok item_safe];
  split_and!; try done; try (by apply plain_text_ok).

Section Calls.
Context (device : ports → Z → Z) (poll : nat) (fb : limine_framebuffer) (font : list Z).
Hypothesis uart_ready : ∀ h, ready_within device poll h = true.

Lemma kprintf_serial_sends fuel k l :
  idle k → (22 <= fuel)%nat → Forall (item_ok fuel k) l → literal_ok (fmt_of l) = true →
  ∃ k', kprintf_serial device poll fuel k (fmt_of l) (args_of l) = Done k' ∧
    idle k' ∧ sends k (text_of l) k'.
Proof.
  intros Hi Hf Hok Hl. unfold kprintf_serial.
  apply kprintf_serial_items; try done; [|lia]. by apply string_in_object, literal_ok_cstr.
Qed.

Lemma kprintf_displays fuel k l :
  idle k → screen_ready fb font k → (22 <= fuel)%nat → Forall (item_ok fuel k) l →
  Forall (item_safe (off_screen fb)) l → literal_ok (fmt_of l) = true →
  ∃ k', kprintf device poll fb font fuel k (fmt_of l) (args_of l) = Done k' ∧
    idle k' ∧ displays fb font false k (text_of l) k'.
Proof.
  intros Hi Hr Hf Hok Hsafe Hl. unfold kprintf.
  apply kprintf_screen_items; try done; [|lia]. by apply string_in_object, literal_ok_cstr.
Qed.

Lemma kprintf_both_displays fuel k l :
  idle k → screen_ready fb font k → (22 <= fuel)%nat → Forall (item_ok fuel k) l →
  Forall (item_safe (off_screen fb)) l → literal_ok (fmt_of l) = true →
  ∃ k', kprintf_both device poll fb font fuel k (fmt_of l) (args_of l) = Done k' ∧
    idle k' ∧ displays fb font true k (text_of l) k'.
Proof.
  intros Hi Hr Hf Hok Hsafe Hl. unfold kprintf_both.
  apply kprintf_screen_items; try done; [|lia]. by apply string_in_object, literal_ok_cstr.
Qed.
End Calls.

(** Output on the serial line leaves the terminal alone. *)
Lemma sends_plain k s k' : sends k s k' → plain (gTerminal k') = plain (gTerminal k).
Proof. intros [_ _ E _]. unfold cursor in E. injection E as E1 E2 E3 E4. unfold plain. by rewrite E1, E2, E3, E4. Qed.

Lemma sends_ready fb font k s k' : sends k s k' → screen_ready fb font k → screen_ready fb font k'.
Proof.
  intros [_ _ E Hc] ([A1 A2 A3 A4] & R2 & R3). unfold cursor in E. injection E as E1 E2 E3 E4.
  split; [split; rewrite ?E1, ?E2, ?E3, ?E4; done|]. split; [by apply (fits_size _ _ (gTerminal k))|auto].
Qed.

(** [Terminal::init] sets up a terminal that fits, on every framebuffer with
    room for a character cell. *)
Lemma Terminal_init_ready fb font m h :
  32 <= fb_pitch fb → 16 <= fb_height fb → ppl fb * fb_height fb < 2^31 →
  0 <= fb_width fb ∧ 0 <= fb_bpp fb ∧ fb_width fb * fb_bpp fb <= 8 * fb_pitch fb →
  2048 <= Z.of_nat (length font) →
  screen_ready fb font (mkConsole m (Terminal_init fb terminal_boot) h false false).
Proof.
  intros Hp Hh Hs Hrow Hfont. assert (8 <= ppl fb) by (unfold ppl; zlia).
  assert (fb_height fb < 2^31 ∧ ppl fb < 2^31) as [] by nia.
  assert (fb_pitch fb < 2^34) by (unfold ppl in *; zlia).
  split; [apply Terminal_init_ok; znorm; lia|]. split; [|cbn; znorm; lia].
  unfold Terminal_init. cbn zeta. fold (ppl fb).
  rewrite (to_u64_id (ppl fb / 8 - 1)), (to_u64_id (fb_height fb / 16 - 1)) by zlia.
  rewrite !to_u32_id by zlia. split; cbn [gTerminal charsPerLine maxLines]; try done.
  - case_cmp; zlia.
  - case_cmp; zlia.
Qed.

(** ** Example: a screen of eight columns and two lines *)

Definition text_font : list Z := replicate 2048 0x18.

Definition text_console : Console :=
  mkConsole sample_mem (Terminal_init screen_fb terminal_boot) [] false false.

Lemma text_console_ready : screen_ready screen_fb text_font text_console.
Proof.
  apply Terminal_init_ready; try (vm_compute; done); vm_compute; split_and!; done.
Qed.


Lemma write_dollar_hangs_witness :
  __write ready_device 1 (Terminal_writechar ready_device 1 screen_fb text_font) 1000
    (with_kmem text_console (store 0 [53; 36] ∅)) in_memory 0 true true = NoFuel.
Proof.
  destruct (write_dollar_hangs ready_device 1 screen_fb text_font 1000 (with_kmem text_console (store 0 [53; 36] ∅))
    0 [53] []) as [H _]; [..|exact (H true)].
  - exact ready_device_ok.
  - by split.
  - exact text_console_ready.
  - apply store_literal_cstr; repeat constructor; znorm; lia.
  - repeat constructor; lia.
  - intros i Hi. left. cbn in Hi |- *. lia.
Defined.
