(* ===== verification/Limine.v ===== *)
(** * limine.h: the declarations of the boot protocol

    The structs of the boot loader's header, for x86-64, as declarations of
    Layout.v, and the identifiers of the requests.  A request is found by its
    identifier in the kernel's image, and answered by a pointer that is written
    into it. *)

From S2P Require Import Prelude Layout MemUtils.

(** ** Files *)

Definition limine_uuid : ctype := Struct false [("a", u32_t); ("b", u16_t); ("c", u16_t); ("d", Array u8_t 8)].

Definition limine_file : ctype := Struct false
  [("revision", u64_t); ("address", ptr_t); ("size", u64_t); ("path", ptr_t); ("cmdline", ptr_t);
   ("media_type", u32_t); ("unused", u32_t); ("tftp_ip", u32_t); ("tftp_port", u32_t);
   ("partition_index", u32_t); ("mbr_disk_id", u32_t);
   ("gpt_disk_uuid", limine_uuid); ("gpt_part_uuid", limine_uuid); ("part_uuid", limine_uuid)].

(** ** Responses *)

Definition limine_bootloader_info_response : ctype := Struct false
  [("revision", u64_t); ("name", ptr_t); ("version", ptr_t)].

Definition limine_stack_size_response : ctype := Struct false [("revision", u64_t)].

Definition limine_hhdm_response : ctype := Struct false [("revision", u64_t); ("offset", u64_t)].

Definition limine_video_mode : ctype := Struct false
  [("pitch", u64_t); ("width", u64_t); ("height", u64_t); ("bpp", u16_t); ("memory_model", u8_t);
   ("red_mask_size", u8_t); ("red_mask_shift", u8_t); ("green_mask_size", u8_t); ("green_mask_shift", u8_t);
   ("blue_mask_size", u8_t); ("blue_mask_shift", u8_t)].

Definition framebuffer_struct : ctype := Struct false
  [("address", ptr_t); ("width", u64_t); ("height", u64_t); ("pitch", u64_t); ("bpp", u16_t);
   ("memory_model", u8_t); ("red_mask_size", u8_t); ("red_mask_shift", u8_t); ("green_mask_size", u8_t);
   ("green_mask_shift", u8_t); ("blue_mask_size", u8_t); ("blue_mask_shift", u8_t);
   ("unused", Array u8_t 7); ("edid_size", u64_t); ("edid", ptr_t); ("mode_count", u64_t); ("modes", ptr_t)].

Definition limine_framebuffer_response : ctype := Struct false
  [("revision", u64_t); ("framebuffer_count", u64_t); ("framebuffers", ptr_t)].

Definition limine_terminal : ctype := Struct false
  [("columns", u64_t); ("rows", u64_t); ("framebuffer", ptr_t)].

Definition limine_terminal_response : ctype := Struct false
  [("revision", u64_t); ("terminal_count", u64_t); ("terminals", ptr_t); ("write", ptr_t)].

Definition limine_paging_mode_response : ctype := Struct false
  [("revision", u64_t); ("mode", u64_t); ("flags", u64_t)].

Definition limine_5_level_paging_response : ctype := Struct false [("revision", u64_t)].

Definition limine_smp_info : ctype := Struct false
  [("processor_id", u32_t); ("lapic_id", u32_t); ("reserved", u64_t); ("goto_address", ptr_t);
   ("extra_argument", u64_t)].

Definition limine_smp_response : ctype := Struct false
  [("revision", u64_t); ("flags", u32_t); ("bsp_lapic_id", u32_t); ("cpu_count", u64_t); ("cpus", ptr_t)].

Definition memmap_entry_struct : ctype := Struct false [("base", u64_t); ("length", u64_t); ("type", u64_t)].

Definition memmap_response_struct : ctype := Struct false
  [("revision", u64_t); ("entry_count", u64_t); ("entries", ptr_t)].

Definition limine_entry_point_response : ctype := Struct false [("revision", u64_t)].

Definition limine_kernel_file_response : ctype := Struct false [("revision", u64_t); ("kernel_file", ptr_t)].

Definition limine_internal_module : ctype := Struct false
  [("path", ptr_t); ("cmdline", ptr_t); ("flags", u64_t)].

Definition limine_module_response : ctype := Struct false
  [("revision", u64_t); ("module_count", u64_t); ("modules", ptr_t)].

Definition limine_rsdp_response : ctype := Struct false [("revision", u64_t); ("address", ptr_t)].

Definition limine_smbios_response : ctype := Struct false
  [("revision", u64_t); ("entry_32", ptr_t); ("entry_64", ptr_t)].

Definition limine_efi_system_table_response : ctype := Struct false [("revision", u64_t); ("address", ptr_t)].

(** [int64_t boot_time] *)
Definition limine_boot_time_response : ctype := Struct false [("revision", u64_t); ("boot_time", Scalar 8)].

Definition limine_kernel_address_response : ctype := Struct false
  [("revision", u64_t); ("physical_base", u64_t); ("virtual_base", u64_t)].

Definition limine_dtb_response : ctype := Struct false [("revision", u64_t); ("dtb_ptr", ptr_t)].

(** ** Requests *)

Definition limine_bootloader_info_request : ctype := Struct false
  [("id", Array u64_t 4); ("revision", u64_t); ("response", ptr_t)].

Definition limine_stack_size_request : ctype := Struct false
  [("id", Array u64_t 4); ("revision", u64_t); ("response", ptr_t); ("stack_size", u64_t)].

Definition limine_hhdm_request : ctype := Struct false
  [("id", Array u64_t 4); ("revision", u64_t); ("response", ptr_t)].

Definition limine_framebuffer_request : ctype := Struct false
  [("id", Array u64_t 4); ("revision", u64_t); ("response", ptr_t)].

Definition limine_terminal_request : ctype := Struct false
  [("id", Array u64_t 4); ("revision", u64_t); ("response", ptr_t); ("callback", ptr_t)].

Definition limine_paging_mode_request : ctype := Struct false
  [("id", Array u64_t 4); ("revision", u64_t); ("response", ptr_t); ("mode", u64_t); ("flags", u64_t)].

Definition limine_5_level_paging_request : ctype := Struct false
  [("id", Array u64_t 4); ("revision", u64_t); ("response", ptr_t)].

Definition limine_smp_request : ctype := Struct false
  [("id", Array u64_t 4); ("revision", u64_t); ("response", ptr_t); ("flags", u64_t)].

Definition limine_memmap_request : ctype := Struct false
  [("id", Array u64_t 4); ("revision", u64_t); ("response", ptr_t)].

Definition limine_entry_point_request : ctype := Struct false
  [("id", Array u64_t 4); ("revision", u64_t); ("response", ptr_t); ("entry", ptr_t)].

Definition limine_kernel_file_request : ctype := Struct false
  [("id", Array u64_t 4); ("revision", u64_t); ("response", ptr_t)].

Definition limine_module_request : ctype := Struct false
  [("id", Array u64_t 4); ("revision", u64_t); ("response", ptr_t);
   ("internal_module_count", u64_t); ("internal_modules", ptr_t)].

Definition limine_rsdp_request : ctype := Struct false
  [("id", Array u64_t 4); ("revision", u64_t); ("response", ptr_t)].

Definition limine_smbios_request : ctype := Struct false
  [("id", Array u64_t 4); ("revision", u64_t); ("response", ptr_t)].

Definition limine_efi_system_table_request : ctype := Struct false
  [("id", Array u64_t 4); ("revision", u64_t); ("response", ptr_t)].

Definition limine_boot_time_request : ctype := Struct false
  [("id", Array u64_t 4); ("revision", u64_t); ("response", ptr_t)].

Definition limine_kernel_address_request : ctype := Struct false
  [("id", Array u64_t 4); ("revision", u64_t); ("response", ptr_t)].

Definition limine_dtb_request : ctype := Struct false
  [("id", Array u64_t 4); ("revision", u64_t); ("response", ptr_t)].

(** ** Identifiers *)

Definition LIMINE_COMMON_MAGIC : list Z := [0xc7b1dd30df4c8b88; 0x0a82e883a194f07b].

Definition LIMINE_BOOTLOADER_INFO_REQUEST := LIMINE_COMMON_MAGIC ++ [0xf55038d8e2a1202f; 0x279426fcf5f59740].
Definition LIMINE_STACK_SIZE_REQUEST := LIMINE_COMMON_MAGIC ++ [0x224ef0460a8e8926; 0xe1cb0fc25f46ea3d].
Definition LIMINE_HHDM_REQUEST := LIMINE_COMMON_MAGIC ++ [0x48dcf1cb8ad2b852; 0x63984e959a98244b].
Definition LIMINE_FRAMEBUFFER_REQUEST := LIMINE_COMMON_MAGIC ++ [0x9d5827dcd881dd75; 0xa3148604f6fab11b].
Definition LIMINE_TERMINAL_REQUEST := LIMINE_COMMON_MAGIC ++ [0xc8ac59310c2b0844; 0xa68d0c7265d38878].
Definition LIMINE_PAGING_MODE_REQUEST := LIMINE_COMMON_MAGIC ++ [0x95c1a0edab0944cb; 0xa4e5cb3842f7488a].
Definition LIMINE_5_LEVEL_PAGING_REQUEST := LIMINE_COMMON_MAGIC ++ [0x94469551da9b3192; 0xebe5e86db7382888].
Definition LIMINE_SMP_REQUEST := LIMINE_COMMON_MAGIC ++ [0x95a67b819a1b857e; 0xa0b61b723b6a73e0].
Definition LIMINE_MEMMAP_REQUEST := LIMINE_COMMON_MAGIC ++ [0x67cf3d9d378a806f; 0xe304acdfc50c3c62].
Definition LIMINE_ENTRY_POINT_REQUEST := LIMINE_COMMON_MAGIC ++ [0x13d86c035a1cd3e1; 0x2b0caa89d8f3026a].
Definition LIMINE_KERNEL_FILE_REQUEST := LIMINE_COMMON_MAGIC ++ [0xad97e90e83f1ed67; 0x31eb5d1c5ff23b69].
Definition LIMINE_MODULE_REQUEST := LIMINE_COMMON_MAGIC ++ [0x3e7e279702be32af; 0xca1c4f3bd1280cee].
Definition LIMINE_RSDP_REQUEST := LIMINE_COMMON_MAGIC ++ [0xc5e77b6b397e7b43; 0x27637845accdcf3c].
Definition LIMINE_SMBIOS_REQUEST := LIMINE_COMMON_MAGIC ++ [0x9e9046f11e095391; 0xaa4a520fefbde5ee].
Definition LIMINE_EFI_SYSTEM_TABLE_REQUEST := LIMINE_COMMON_MAGIC ++ [0x5ceba5163eaaf6d6; 0x0a6981610cf65fcc].
Definition LIMINE_BOOT_TIME_REQUEST := LIMINE_COMMON_MAGIC ++ [0x502746e184c088aa; 0xfbc5ec83e6327893].
Definition LIMINE_KERNEL_ADDRESS_REQUEST := LIMINE_COMMON_MAGIC ++ [0x71ba76863cc55f63; 0xb2644a48c516a487].
Definition LIMINE_DTB_REQUEST := LIMINE_COMMON_MAGIC ++ [0xb40ddb48fb54bac7; 0x545081493f81ffb7].

Definition protocol : list (list Z * ctype) :=
  [(LIMINE_BOOTLOADER_INFO_REQUEST, limine_bootloader_info_request);
   (LIMINE_STACK_SIZE_REQUEST, limine_stack_size_request);
   (LIMINE_HHDM_REQUEST, limine_hhdm_request);
   (LIMINE_FRAMEBUFFER_REQUEST, limine_framebuffer_request);
   (LIMINE_TERMINAL_REQUEST, limine_terminal_request);
   (LIMINE_PAGING_MODE_REQUEST, limine_paging_mode_request);
   (LIMINE_5_LEVEL_PAGING_REQUEST, limine_5_level_paging_request);
   (LIMINE_SMP_REQUEST, limine_smp_request);
   (LIMINE_MEMMAP_REQUEST, limine_memmap_request);
   (LIMINE_ENTRY_POINT_REQUEST, limine_entry_point_request);
   (LIMINE_KERNEL_FILE_REQUEST, limine_kernel_file_request);
   (LIMINE_MODULE_REQUEST, limine_module_request);
   (LIMINE_RSDP_REQUEST, limine_rsdp_request);
   (LIMINE_SMBIOS_REQUEST, limine_smbios_request);
   (LIMINE_EFI_SYSTEM_TABLE_REQUEST, limine_efi_system_table_request);
   (LIMINE_BOOT_TIME_REQUEST, limine_boot_time_request);
   (LIMINE_KERNEL_ADDRESS_REQUEST, limine_kernel_address_request);
   (LIMINE_DTB_REQUEST, limine_dtb_request)].

(** ** The protocol is uniform *)

(** The two words that tell a request apart. *)
Definition request_key (id : list Z) : list Z := drop 2 id.

Lemma u64_list l : forallb (λ z, (0 <=? z) && (z <? 2^64)) l = true → Forall is_u64 l.
Proof.
  intros Hl. apply Forall_forall. intros z Hz. rewrite forallb_forall in Hl.
  apply list_elem_of_In, Hl in Hz. apply andb_true_iff in Hz as [?%Z.leb_le ?%Z.ltb_lt]. split; lia.
Qed.

(** Requests cannot be mistaken for each other.  Each identifier is the
    common magic and two words of its own, all of 64 bits, no two requests
    share even one of those words, and every request has its identifier first,
    the revision behind it and the pointer for the response at byte 40: whatever
    the loader finds by its identifier it can answer the same way. *)
Theorem protocol_uniform :
  Forall (λ '(id, t),
    take 2 id = LIMINE_COMMON_MAGIC ∧ length id = 4%nat ∧ Forall is_u64 id ∧ wf_type t = true ∧
    offsetof t "id" = Some 0 ∧ offsetof t "revision" = Some 32 ∧ offsetof t "response" = Some 40) protocol ∧
  NoDup (concat ((λ x, request_key x.1) <$> protocol)).
Proof.
  split.
  - apply Forall_forall. intros [id t] Hin. unfold protocol in Hin. rewrite !elem_of_cons, elem_of_nil in Hin.
    repeat (destruct Hin as [[= -> ->]|Hin]; [split_and!; first [apply u64_list; vm_compute; reflexivity|vm_compute; reflexivity]|]).
    done.
  - apply (bool_decide_unpack _). vm_compute. exact I.
Qed.
