(* ===== verification/Objects.v ===== *)
(** * Objects in memory

    A declaration of Layout.v is a sequence of cells, one for each scalar in
    it.  Objects are written cell by cell and read member by member; objects
    that do not overlap keep their values, whatever the order in which they are
    written. *)

From S2P Require Import Prelude Memory Layout.

(** ** Cells *)

(** The scalars of a type at [off]: where they are and how many bytes they take. *)
Fixpoint cells (t : ctype) (off : Z) : list (Z * Z) :=
  match t with
  | Scalar n => [(off, n)]
  | Array t n => concat ((λ i, cells t (off + i * sizeof t)) <$> seqZ 0 n)
  | Struct packed fs =>
      (fix go o fs :=
         match fs with
         | [] => []
         | (_, t) :: fs => let s := field_start packed o t in cells t (off + s) ++ go (s + sizeof t) fs
         end) 0 fs
  end.

(** Cells one behind the other, between [lo] and [hi]. *)
Fixpoint in_order (lo : Z) (cs : list (Z * Z)) (hi : Z) : Prop :=
  match cs with
  | [] => lo <= hi
  | (o, w) :: cs => lo <= o ∧ 0 < w ∧ in_order (o + w) cs hi
  end.

Lemma cells_mono lo lo' cs hi hi' : in_order lo cs hi → lo' <= lo → hi <= hi' → in_order lo' cs hi'.
Proof.
  revert lo lo'. induction cs as [|[o w] cs IH]; cbn; intros lo lo' H Hl Hh; [lia|].
  destruct H as (H1 & H2 & H3). split_and!; [lia|done|]. by eapply IH.
Qed.

Lemma cells_app lo cs mid cs' hi : in_order lo cs mid → in_order mid cs' hi → in_order lo (cs ++ cs') hi.
Proof.
  revert lo. induction cs as [|[o w] cs IH]; cbn; intros lo H H'; [by eapply cells_mono|].
  destruct H as (H1 & H2 & H3). split_and!; auto.
Qed.

Lemma cells_le lo cs hi : in_order lo cs hi → lo <= hi.
Proof.
  revert lo. induction cs as [|[o w] cs IH]; cbn; intros lo H; [done|]. destruct H as (? & ? & H%IH). lia.
Qed.

Lemma cells_lookup lo cs hi i o w : in_order lo cs hi → cs !! i = Some (o, w) → lo <= o ∧ 0 < w ∧ o + w <= hi.
Proof.
  revert lo i. induction cs as [|[o' w'] cs IH]; cbn; intros lo i H E; [done|]. destruct H as (H1 & H2 & H3).
  destruct i as [|i]; cbn in E.
  - injection E as -> ->. apply cells_le in H3. lia.
  - destruct (IH _ _ H3 E). lia.
Qed.

(** The cells of an array. *)
Lemma cells_repeat t n k off :
  (∀ off, in_order off (cells t off) (off + sizeof t)) → 0 <= n →
  in_order (off + k * sizeof t) (concat ((λ i, cells t (off + i * sizeof t)) <$> seqZ k n)) (off + (k + n) * sizeof t).
Proof.
  intros Ht Hn. revert k. pattern n. apply natlike_ind; [|clear n Hn; intros n Hn IH|done]; intros k.
  - rewrite Z.add_0_r. rewrite seqZ_nil by lia. apply Z.le_refl.
  - rewrite seqZ_cons by lia. cbn [fmap list_fmap concat]. eapply cells_app; [apply Ht|]. rewrite Z.pred_succ.
    replace (off + k * sizeof t + sizeof t) with (off + Z.succ k * sizeof t) by lia.
    replace (k + Z.succ n) with (Z.succ k + n) by lia. apply IH.
Qed.

(** The cells of a well-formed type fill a part of it, in order. *)
Lemma cells_chain t off : wf_type t = true → in_order off (cells t off) (off + sizeof t).
Proof.
  revert off. induction t as [n|t n IH|packed fs IH] using ctype_fields_ind; intros off Hw.
  - cbn in *. lia.
  - apply andb_true_iff in Hw as [Hn%Z.leb_le Hw]. cbn [cells sizeof].
    pose proof (cells_repeat t n 0 off (λ off, IH off Hw) Hn) as H. by rewrite Z.mul_0_l, Z.add_0_r, Z.add_0_l in H.
  - rewrite sizeof_Struct. pose proof (align_up_spec _ (fields_end packed 0 fs) (alignof_pos _ Hw)) as [Ha _].
    apply wf_fields in Hw.
    eapply (cells_mono (off + 0) _ _ (off + fields_end packed 0 fs)); [|lia|lia]. cbn [cells].
    assert (0 <= 0) as H0 by lia. revert H0. generalize 0 at 2 3 4 5 as o. clear Ha.
    induction fs as [|[name t] fs IHfs]; intros o Ho; cbn [fields_end]; [cbn; lia|].
    apply Forall_cons in IH as [H1 IH], Hw as [W1 Hw]. cbn [snd] in *.
    destruct (field_start_spec packed o t W1 Ho) as [F1 _]. pose proof (sizeof_nonneg t W1).
    eapply cells_app.
    + eapply cells_mono; [apply (H1 (off + field_start packed o t) W1)|lia|reflexivity].
    + rewrite <- Z.add_assoc. apply IHfs; [done|done|lia].
Qed.

(** ** Writing and reading *)

Fixpoint write_cells (cs : list (Z * Z)) (vs : list Z) (a : Z) (m : mem) : mem :=
  match cs, vs with
  | (o, w) :: cs, v :: vs => write_cells cs vs a (wrN (Z.to_nat w) m (a + o) v)
  | _, _ => m
  end.

Lemma write_cells_outside lo cs hi vs a m x :
  in_order lo cs hi → x < a + lo ∨ a + hi <= x → rd8 (write_cells cs vs a m) x = rd8 m x.
Proof.
  revert lo vs m. induction cs as [|[o w] cs IH]; intros lo vs m H Hx; [done|]. destruct vs as [|v vs]; [done|].
  cbn [write_cells]. destruct H as (H1 & H2 & H3). pose proof (cells_le _ _ _ H3).
  rewrite (IH (o + w)) by (done || lia). apply rd8_wrN_ne. lia.
Qed.

Lemma write_cells_read lo cs hi vs a m i o w v :
  in_order lo cs hi → cs !! i = Some (o, w) → vs !! i = Some v →
  rdN (Z.to_nat w) (write_cells cs vs a m) (a + o) = v mod 2^(8 * w).
Proof.
  revert lo vs i m. induction cs as [|[o' w'] cs IH]; intros lo vs i m H Ec Ev; [done|].
  destruct vs as [|v' vs]; [done|]. cbn [write_cells]. destruct H as (H1 & H2 & H3). destruct i as [|i]; cbn in Ec, Ev.
  - injection Ec as -> ->. injection Ev as ->.
    rewrite (rdN_ext _ _ (wrN (Z.to_nat w) m (a + o) v)).
    + rewrite rdN_wrN_eq. by rewrite Z2Nat.id by lia.
    + intros x Hx. eapply write_cells_outside; [exact H3|]. lia.
  - by eapply IH.
Qed.

(** ** Objects *)

Record object := mkObject { ob_addr : Z; ob_type : ctype; ob_values : list Z }.

Definition write_object (o : object) (m : mem) : mem :=
  write_cells (cells (ob_type o) 0) (ob_values o) (ob_addr o) m.

Definition write_objects (os : list object) (m : mem) : mem := fold_left (λ m o, write_object o m) os m.

Definition ob_end (o : object) : Z := ob_addr o + sizeof (ob_type o).
Definition apart (o o' : object) : Prop := ob_end o <= ob_addr o' ∨ ob_end o' <= ob_addr o.

#[export] Instance apart_dec o o' : Decision (apart o o').
Proof. unfold apart. apply _. Defined.

Fixpoint disjoint (os : list object) : Prop :=
  match os with [] => True | o :: os => Forall (apart o) os ∧ disjoint os end.

#[export] Instance disjoint_dec os : Decision (disjoint os).
Proof. induction os; cbn; apply _. Defined.

Definition well_typed (os : list object) : Prop := Forall (λ o, wf_type (ob_type o) = true) os.

#[export] Instance well_typed_dec os : Decision (well_typed os).
Proof. unfold well_typed. apply _. Defined.

Lemma write_object_outside o m x :
  wf_type (ob_type o) = true → x < ob_addr o ∨ ob_end o <= x → rd8 (write_object o m) x = rd8 m x.
Proof.
  intros Hw Hx. eapply write_cells_outside; [by apply cells_chain|]. unfold ob_end in Hx. lia.
Qed.

Lemma write_objects_outside os m x :
  well_typed os → Forall (λ o, x < ob_addr o ∨ ob_end o <= x) os → rd8 (write_objects os m) x = rd8 m x.
Proof.
  intros Hw. revert m. induction Hw as [|o os Hw _ IH]; intros m; [done|].
  intros [H1 H2]%Forall_cons. cbn. change (rd8 (write_objects os (write_object o m)) x = rd8 m x).
  rewrite IH by done. by apply write_object_outside.
Qed.

(** A cell of an object that overlaps no other keeps the value written. *)
Lemma write_objects_read os m o i c w v :
  well_typed os → disjoint os → o ∈ os → cells (ob_type o) 0 !! i = Some (c, w) → ob_values o !! i = Some v →
  rdN (Z.to_nat w) (write_objects os m) (ob_addr o + c) = v mod 2^(8 * w).
Proof.
  intros Hw. revert m. induction Hw as [|o' os Hw Hws IH]; intros m Hd Hin Ec Ev; [by apply elem_of_nil in Hin|].
  destruct Hd as [Ha Hd]. cbn.
  change (rdN (Z.to_nat w) (write_objects os (write_object o' m)) (ob_addr o + c) = v mod 2^(8 * w)).
  apply elem_of_cons in Hin as [->|Hin]; [|by apply IH].
  destruct (cells_lookup _ _ _ _ _ _ (cells_chain _ 0 Hw) Ec) as (B1 & B2 & B3).
  rewrite (rdN_ext _ _ (write_object o' m)).
  - eapply write_cells_read; [by apply cells_chain|done|done].
  - intros x Hx. apply write_objects_outside; [done|]. eapply Forall_impl; [exact Ha|]. intros o. unfold apart, ob_end in *. lia.
Qed.

(** ** Members *)

(** [offsetof] with the type of the member. *)
Definition field_of (t : ctype) (name : string) : option (Z * ctype) :=
  head (omap (λ '(n, o, t), if decide (n = name) then Some (o, t) else None) (fields_of t)).

(** [p->name], for a scalar member of [*p]. *)
Definition member (t : ctype) (name : string) (m : mem) (p : Z) : outcome Z :=
  match field_of t name with
  | Some (o, Scalar w) => Done (rdN (Z.to_nat w) m (p + o))
  | _ => Undef name
  end.

(** The position of a scalar member among the cells. *)
Definition cell_index (t : ctype) (name : string) : option (nat * Z) :=
  match field_of t name with
  | Some (o, Scalar w) => (λ x, (x.1, w)) <$> list_find (λ c, c = (o, w)) (cells t 0)
  | _ => None
  end.

(** Members read back what was written. *)
Lemma member_written os m o name i w v :
  well_typed os → disjoint os → o ∈ os → cell_index (ob_type o) name = Some (i, w) → ob_values o !! i = Some v →
  0 <= v < 2^(8 * w) → member (ob_type o) name (write_objects os m) (ob_addr o) = Done v.
Proof.
  intros Hw Hd Hin Hi Hv Hr. unfold cell_index, member in *. destruct (field_of _ name) as [[c [u| |]]|]; try done.
  apply fmap_Some in Hi as ([j x] & Hj & [= <- <-]). apply list_find_Some in Hj as (Hj & -> & _).
  rewrite (write_objects_read os m o i c w v) by done. by rewrite Z.mod_small.
Qed.
