(* ===== verification/StringBuilder.v ===== *)
(** * lib/string.cpp: FastStringBuilder

    A builder is an object on the heap: [parts] at offset 0, [nParts] at 8,
    [partOffset] at 12, [outputBuf] at 16 and [outputBufSize] at 24; 32 bytes
    in all.  It keeps an array of string pointers and concatenates the strings
    into a heap block of its own.  The literals of the source lie somewhere in
    memory, at [out_of_bounds] and [unable]. *)

From S2P Require Import Prelude Memory PageMapper Heap HeapSpec HeapRefine.
From S2P Require Import HeapMalloc HeapGrow HeapClient HeapRun HeapFrame MemorySamples Console Kprintf Layout.

Definition SIZEOF_BUILDER : Z := 32.
Definition SIZEOF_INT : Z := 4.

Definition sb_parts (m : mem) (this : Z) : Z := rd64 m this.
Definition sb_nParts (m : mem) (this : Z) : Z := to_i32 (rd32 m (this + 8)).
Definition sb_partOffset (m : mem) (this : Z) : Z := to_i32 (rd32 m (this + 12)).
Definition sb_outputBuf (m : mem) (this : Z) : Z := rd64 m (this + 16).
Definition sb_outputBufSize (m : mem) (this : Z) : Z := rd32 m (this + 24).

(** The offsets here and in Heap.v are those of the declarations. *)
Example builder_layout :
  (sizeof FastStringBuilder, (λ '(_, o, _), o) <$> fields_of FastStringBuilder) = (SIZEOF_BUILDER, [0; 8; 12; 16; 24]) ∧
  (sizeof HeapSegHdr, (λ '(_, o, _), o) <$> fields_of HeapSegHdr) = (SIZEOF_HDR, [0; 4; 12; 20; 28]).
Proof. vm_compute. split; reflexivity. Qed.

(** [parts[i]] *)
Definition sb_part (m : mem) (this i : Z) : Z := rd64 m (to_u64 (sb_parts m this + 8 * i)).
Definition set_part (m : mem) (this i v : Z) : mem := wr64 m (to_u64 (sb_parts m this + 8 * i)) v.

Section Builder.
Context {W : Type} `{PageMapper W}.
Context (tries fuel : nat) (out_of_bounds unable : Z).

(** The member initialisers, then the body of the constructor. *)
Definition FastStringBuilder_init (h : Heap W) (this parts : Z) : outcome (Heap W) :=
  let m := wr32 (h_mem h) (this + 12) 0 in
  let m := wr64 m (this + 16) 0 in
  let m := wr32 m (this + 24) 0 in
  '(p, h) ← malloc tries fuel (with_mem h m) (to_u64 (8 * parts));
  let m := wr64 (h_mem h) this p in
  Done (with_mem h (wr32 m (this + 8) parts)).

(** [new FastStringBuilder(parts)]; [operator new] is [malloc] and declared
    [noexcept], so a null result is not initialised. *)
Definition new_FastStringBuilder (h : Heap W) (parts : Z) : outcome (Z * Heap W) :=
  '(this, h) ← malloc tries fuel h SIZEOF_BUILDER;
  if this =? 0 then Done (this, h)
  else h ← FastStringBuilder_init h this parts; Done (this, h).

Definition FastStringBuilder_append (h : Heap W) (this ptr : Z) : Heap W :=
  let m := h_mem h in
  if sb_nParts m this <=? sb_partOffset m this then
    with_mem h (set_part m this (sb_nParts m this - 1) out_of_bounds)
  else
    let m := set_part m this (sb_partOffset m this) ptr in
    with_mem h (wr32 m (this + 12) (sb_partOffset m this + 1)).

(** The first loop of [build]: [strlen] gives a [u32]. *)
Definition full_size (m : mem) (this : Z) : outcome Z :=
  for_loop (Z.to_nat (sb_nParts m this)) 0
    (λ i fullSize,
       len ← strlen fuel m (sb_part m this i);
       Done (to_u64 (fullSize + to_u32 (len + 1)))) 0.

(** The second loop; it reads the object again in every round. *)
Fixpoint copy_parts (n : nat) (i off : Z) (m : mem) (this : Z) : outcome mem :=
  match n with
  | O => NoFuel
  | S n' =>
      if i <? sb_nParts m this then
        partLen ← strlen fuel m (sb_part m this i);
        let m := (memcpy m (to_u64 (sb_outputBuf m this + off)) (sb_part m this i) partLen).2 in
        copy_parts n' (i + 1) (to_u64 (off + partLen)) m this
      else Done m
  end.

(** The allocation of the output and the second loop. *)
Definition fill_output (h : Heap W) (this fullSize : Z) : outcome (Z * Heap W) :=
  '(p, h) ← malloc tries fuel h fullSize;
  let h := with_mem h (wr64 (h_mem h) (this + 16) p) in
  if sb_outputBuf (h_mem h) this =? 0 then Done (unable, h)
  else
    m ← copy_parts fuel 0 0 (h_mem h) this;
    let m := wr32 m (this + 24) fullSize in
    Done (sb_outputBuf m this, with_mem h m).

Definition FastStringBuilder_build (h : Heap W) (this : Z) : outcome (Z * Heap W) :=
  fullSize ← full_size (h_mem h) this;
  let h :=
    if negb (sb_outputBuf (h_mem h) this =? 0) then free h (sb_outputBuf (h_mem h) this) else h in
  fill_output h this fullSize.

Definition FastStringBuilder_destroy (h : Heap W) (this : Z) : Heap W :=
  let h := sfree h (sb_parts (h_mem h) this) SIZEOF_INT in
  sfree h (sb_outputBuf (h_mem h) this) (sb_outputBufSize (h_mem h) this).

(** [delete builder] *)
Definition delete_FastStringBuilder (h : Heap W) (this : Z) : Heap W :=
  if this =? 0 then h else free (FastStringBuilder_destroy h this) this.

Definition FastStringBuilder_buildAndDestroy (h : Heap W) (this : Z) : outcome (Z * Heap W) :=
  '(ptr, h) ← FastStringBuilder_build h this;
  Done (ptr, delete_FastStringBuilder h this).
End Builder.

(** ** The object *)

(** The builder in block [s1] with its array in block [s2] holds [ptrs]. *)
Record builder (m : mem) (s1 s2 : seg) (n : Z) (ptrs : list Z) (buf size : Z) : Prop := {
  bd_object : 32 <= s_len s1 ∧ 0 <= block s1;
  bd_array : 8 * n <= s_len s2 ∧ 0 <= block s2 ∧ seg_end s2 <= 2^47;
  bd_count : 0 < n < 2^31 ∧ Z.of_nat (length ptrs) <= n;
  bd_parts : sb_parts m (block s1) = block s2;
  bd_nParts : sb_nParts m (block s1) = n;
  bd_offset : sb_partOffset m (block s1) = Z.of_nat (length ptrs);
  bd_buf : sb_outputBuf m (block s1) = buf;
  bd_size : sb_outputBufSize m (block s1) = size;
  bd_ptr i p : ptrs !! i = Some p → rd64 m (block s2 + 8 * Z.of_nat i) = p
}.

Lemma seg_end_block s : seg_end s = block s + s_len s.
Proof. done. Qed.

Lemma sb_part_eq m s1 s2 n ptrs buf size i :
  builder m s1 s2 n ptrs buf size → 0 <= i <= n →
  to_u64 (sb_parts m (block s1) + 8 * i) = block s2 + 8 * i.
Proof.
  intros B Hi. destruct (bd_array _ _ _ _ _ _ _ B) as (B1 & B2 & B3). rewrite seg_end_block in B3.
  rewrite (bd_parts _ _ _ _ _ _ _ B). apply to_u64_id. znorm. lia.
Qed.

Lemma builder_part m s1 s2 n ptrs buf size i p :
  builder m s1 s2 n ptrs buf size → ptrs !! i = Some p → sb_part m (block s1) (Z.of_nat i) = p.
Proof.
  intros B Hi. unfold sb_part. destruct (bd_count _ _ _ _ _ _ _ B) as [Hn Hc].
  pose proof (lookup_lt_Some _ _ _ Hi).
  rewrite (sb_part_eq _ _ _ _ _ _ _ _ B) by lia. by apply (bd_ptr _ _ _ _ _ _ _ B).
Qed.

Lemma builder_ext m m' s1 s2 n ptrs buf size :
  (∀ a, block s1 <= a < seg_end s1 ∨ block s2 <= a < seg_end s2 → rd8 m' a = rd8 m a) →
  builder m s1 s2 n ptrs buf size → builder m' s1 s2 n ptrs buf size.
Proof.
  intros Hm [[B1 B1'] B2 B3 B4 B5 B6 B7 B8 B9]. rewrite !seg_end_block in Hm.
  assert (∀ k a, block s1 <= a → a + Z.of_nat k <= block s1 + 32 → rdN k m' a = rdN k m a) as Hobj.
  { intros k a Ha Hk. apply rdN_ext. intros j Hj. apply Hm. left. lia. }
  split; try done.
  - rewrite <- B4. apply Hobj; lia.
  - rewrite <- B5. unfold sb_nParts. rewrite Hobj by lia. done.
  - rewrite <- B6. unfold sb_partOffset. rewrite Hobj by lia. done.
  - rewrite <- B7. apply Hobj; lia.
  - rewrite <- B8. apply Hobj; lia.
  - intros i p Hi. rewrite <- (B9 i p Hi). apply rdN_ext. intros j Hj. apply Hm. right.
    pose proof (lookup_lt_Some _ _ _ Hi). lia.
Qed.

(** The object of a builder survives a change that leaves two blocks alone. *)
Lemma to_i32_rd32_wr32 m a v : is_i32 v → to_i32 (rd32 (wr32 m a v) a) = v.
Proof.
  intros Hv. rewrite rdN_wrN_eq. change (2 ^ (8 * Z.of_nat 4)) with (2^32).
  unfold to_i32. rewrite Z.add_mod_idemp_l by lia. fold (to_i32 v). by apply to_i32_id.
Qed.

(** ** The two loops of [build] *)

Definition build_size (strs : list (list Z)) : Z := Z.of_nat (length (concat strs) + length strs).

Lemma build_size_snoc strs s :
  build_size (strs ++ [s]) = build_size strs + Z.of_nat (length s) + 1.
Proof. unfold build_size. rewrite concat_app, !length_app. cbn. rewrite length_app. cbn. lia. Qed.

Lemma build_size_take strs i : build_size (take i strs) <= build_size strs.
Proof.
  rewrite <- (take_drop i strs) at 2. unfold build_size. rewrite concat_app, !length_app. lia.
Qed.

(** [strs] are the strings the pointers lead to. *)
Definition texts (fuel : nat) (m : mem) (ptrs : list Z) (strs : list (list Z)) : Prop :=
  Forall2 (λ p s, cstr m p s ∧ (length s < fuel)%nat) ptrs strs.

Lemma full_size_spec fuel m s1 s2 n ptrs buf size strs :
  builder m s1 s2 n ptrs buf size → Z.of_nat (length ptrs) = n → texts fuel m ptrs strs →
  build_size strs < 2^32 → full_size fuel m (block s1) = Done (build_size strs).
Proof.
  intros B Hn Ht Hs. unfold full_size. rewrite (bd_nParts _ _ _ _ _ _ _ B), <- Hn, Nat2Z.id.
  destruct (for_loop_inv (λ i acc, acc = build_size (take (Z.to_nat i) strs)) (length ptrs) 0
    (λ i fullSize, len ← strlen fuel m (sb_part m (block s1) i); Done (to_u64 (fullSize + to_u32 (len + 1)))) 0)
    as (r & -> & ->); [done| |].
  - intros i acc Hi ->. destruct (lookup_lt_is_Some_2 ptrs (Z.to_nat i)) as [p Hp]; [lia|].
    destruct (Forall2_lookup_l _ _ _ _ _ Ht Hp) as (s & Hs' & Hc & Hf).
    pose proof (builder_part _ _ _ _ _ _ _ _ _ B Hp) as Ep. rewrite Z2Nat.id in Ep by lia. rewrite Ep.
    rewrite (strlen_correct _ _ _ _ Hc Hf), bind_Done. eexists. split; [done|].
    replace (Z.to_nat (i + 1)) with (S (Z.to_nat i)) by lia. rewrite (take_S_r _ _ _ Hs'), build_size_snoc.
    pose proof (build_size_take strs (S (Z.to_nat i))) as Hle.
    rewrite (take_S_r _ _ _ Hs'), build_size_snoc in Hle.
    assert (0 <= build_size (take (Z.to_nat i) strs)) by (unfold build_size; lia).
    rewrite (to_u32_id (Z.of_nat (length s))), to_u32_id, to_u64_id by (znorm; lia). lia.
  - rewrite (Forall2_length _ _ _ Ht). f_equal. replace (Z.to_nat _) with (length strs) by lia. by rewrite take_ge.
Qed.

(** Memory in which the first [i] strings have been copied to [buf]. *)
Definition copied (m0 : mem) (buf : Z) (strs : list (list Z)) (i : nat) (m : mem) : Prop :=
  (∀ a, ¬ (buf <= a < buf + Z.of_nat (length (concat (take i strs)))) → rd8 m a = rd8 m0 a) ∧
  (∀ j c, concat (take i strs) !! j = Some c → rd8 m (buf + Z.of_nat j) = c).

Lemma concat_take_le (strs : list (list Z)) i : (length (concat (take i strs)) <= length (concat strs))%nat.
Proof. rewrite <- (take_drop i strs) at 2. rewrite concat_app, length_app. lia. Qed.

Lemma interval_apart p n lo hi :
  lo < hi → 0 <= n → (∀ i, 0 <= i <= n → p + i < lo ∨ hi <= p + i) → p + n < lo ∨ hi <= p.
Proof.
  intros H1 Hn H2. destruct (decide (p + n < lo)); [by left|]. destruct (decide (hi <= p)); [by right|].
  destruct (decide (p < lo)).
  - destruct (H2 (lo - p)); lia.
  - destruct (H2 0); lia.
Qed.

(** One round: the next string lies apart from the block it is copied to. *)
Lemma copied_step m0 buf strs i m p s :
  copied m0 buf strs i m → strs !! i = Some s → cstr m0 p s →
  p + Z.of_nat (length s) < buf ∨ buf + Z.of_nat (length (concat strs)) <= p →
  copied m0 buf strs (S i)
    (memcpy m (buf + Z.of_nat (length (concat (take i strs)))) p (Z.of_nat (length s))).2.
Proof.
  intros [C1 C2] Hs [Hc _] Hap. pose proof (concat_take_le strs (S i)) as Hle.
  unfold copied. rewrite (take_S_r _ _ _ Hs), concat_app, length_app in *. cbn [concat] in *.
  rewrite app_nil_r in *. set (off := length (concat (take i strs))) in *.
  assert (∀ a, rd8 (memcpy m (buf + Z.of_nat off) p (Z.of_nat (length s))).2 a =
    moved m (buf + Z.of_nat off) p (Z.of_nat (length s)) a) as Hm by (intros a; apply memcpy_moved; lia).
  unfold moved in Hm. split.
  - intros a Ha. rewrite Hm, decide_False by lia. apply C1. lia.
  - intros j c [Hj|[Hge Hj]]%lookup_app_Some; rewrite Hm; [|fold off in Hge, Hj].
    + pose proof (lookup_lt_Some _ _ _ Hj). rewrite decide_False by lia. by apply C2.
    + pose proof (lookup_lt_Some _ _ _ Hj). rewrite decide_True by lia.
      rewrite C1 by lia. destruct (Hc _ _ Hj) as [<- _]. f_equal. lia.
Qed.

Lemma cstr_concat m p (strs : list (list Z)) :
  Forall (λ s, ∀ c, c ∈ s → c ≠ 0) strs →
  (∀ j c, concat strs !! j = Some c → rd8 m (p + Z.of_nat j) = c) →
  rd8 m (p + Z.of_nat (length (concat strs))) = 0 → cstr m p (concat strs).
Proof.
  intros Hnz Hb He. split; [|done]. intros j c Hj. split; [by apply Hb|].
  apply list_elem_of_lookup_2, elem_of_concat in Hj as (s & Hc & Hs).
  rewrite Forall_forall in Hnz. by eapply Hnz.
Qed.

Section Copy.
Context (fuel : nat) (m0 : mem) (s1 s2 : seg) (n : Z) (ptrs : list Z) (buf size : Z) (strs : list (list Z)).
Hypothesis B : builder m0 s1 s2 n ptrs buf size.
Hypothesis full : Z.of_nat (length ptrs) = n.
Hypothesis Ht : texts fuel m0 ptrs strs.
Let total := Z.of_nat (length (concat strs)).
Hypothesis buf_range : 0 <= buf ∧ buf + total <= 2^47.
Hypothesis small : total < 2^31.
Hypothesis apart1 : seg_end s1 <= buf ∨ buf + total <= block s1.
Hypothesis apart2 : seg_end s2 <= buf ∨ buf + total <= block s2.
Hypothesis apart : ∀ p s, (p, s) ∈ zip ptrs strs → p + Z.of_nat (length s) < buf ∨ buf + total <= p.

Lemma copied_object i m : copied m0 buf strs i m → builder m s1 s2 n ptrs buf size.
Proof using B apart1 apart2.
  intros [C _]. apply (builder_ext m0); [|done]. intros a Ha. apply C.
  pose proof (concat_take_le strs i). rewrite !seg_end_block in *. unfold total in *. lia.
Qed.

Lemma copied_text i m j p s :
  copied m0 buf strs i m → ptrs !! j = Some p → strs !! j = Some s → cstr m p s.
Proof using Ht apart.
  intros [C _] Hp Hs. destruct (Forall2_lookup_lr _ _ _ _ _ _ Ht Hp Hs) as [[H1 H2] _].
  assert (p + Z.of_nat (length s) < buf ∨ buf + total <= p) as Hap.
  { apply apart. apply list_elem_of_lookup. exists j. apply lookup_zip_Some. done. }
  pose proof (concat_take_le strs i). unfold total in *. split.
  - intros x c Hx. pose proof (lookup_lt_Some _ _ _ Hx). rewrite C by lia. by apply H1.
  - rewrite C by lia. done.
Qed.

Lemma copy_parts_spec k i m :
  copied m0 buf strs i m → (i <= length ptrs)%nat → (length ptrs - i < k)%nat →
  ∃ m', copy_parts fuel k (Z.of_nat i) (Z.of_nat (length (concat (take i strs)))) m (block s1) = Done m' ∧
    copied m0 buf strs (length strs) m'.
Proof using B Ht apart apart1 apart2 buf_range full small.
  revert i m. induction k as [|k IH]; intros i m C Hi Hk; [lia|].
  pose proof (copied_object _ _ C) as Bm. cbn [copy_parts]. rewrite (bd_nParts _ _ _ _ _ _ _ Bm).
  destruct (Z.ltb_spec (Z.of_nat i) n) as [Hlt|Hge].
  - destruct (lookup_lt_is_Some_2 ptrs i) as [p Hp]; [lia|].
    destruct (Forall2_lookup_l _ _ _ _ _ Ht Hp) as (s & Hs & Hc & Hf).
    pose proof (concat_take_le strs (S i)) as Hle.
    rewrite (take_S_r _ _ _ Hs), concat_app, length_app in Hle. cbn [concat] in Hle. rewrite app_nil_r in Hle.
    rewrite (builder_part _ _ _ _ _ _ _ _ _ Bm Hp), (bd_buf _ _ _ _ _ _ _ Bm).
    rewrite (strlen_correct _ _ _ _ (copied_text _ _ _ _ _ C Hp Hs) Hf), bind_Done. cbn zeta.
    unfold total in *. rewrite (to_u32_id (Z.of_nat (length s))) by (znorm; lia). rewrite !to_u64_id by (znorm; lia).
    destruct (IH (S i) (memcpy m (buf + Z.of_nat (length (concat (take i strs)))) p (Z.of_nat (length s))).2)
      as (m' & E & C'); [|lia|lia|].
    + eapply copied_step; try done. apply apart. apply list_elem_of_lookup. exists i. by apply lookup_zip_Some.
    + exists m'. split; [|done]. rewrite <- E. f_equal; [lia|].
      rewrite (take_S_r _ _ _ Hs), concat_app, length_app. cbn [concat]. rewrite app_nil_r. lia.
  - exists m. split; [done|]. assert (i = length strs) as -> by (rewrite <- (Forall2_length _ _ _ Ht); lia). done.
Qed.
End Copy.

Section Correct.
Context {W : Type} `{PageMapperLaws W}.
Context (tries fuel : nat) (out_of_bounds unable : Z).
Context (I : Heap W → list seg → Prop) (F : Z → Prop) `{!Tracked I F}.
Implicit Types h : Heap W.
Hypothesis try_once : (1 <= tries)%nat.

Lemma new_spec h l n r :
  I h l → heap_inv h l → 0 < n < 2^31 → 16 <= r → room (32 + 29 + (align16 (8 * n) + 29 + r)) l →
  (search_fuel h <= fuel)%nat →
  ∃ h' l' s1 s2, new_FastStringBuilder tries fuel h n = Done (block s1, h') ∧
    session I h l [s2; s1] h' l' ∧ s1 ≠ s2 ∧ builder (h_mem h') s1 s2 n [] 0 0 ∧ room r l' ∧
    ∀ size b l2, spec_alloc (align16 size) l' = Some (b, l2) →
      spec_allocs [32; 8 * n; size] l = Some ([block s1; block s2; b], l2).
Proof.
  intros Hc Hi Hn Hr Hroom Hf. destruct (align16_spec (8 * n)) as (A1 & A2 & A3); [lia|].
  change 32 with (align16 32) in Hroom. assert (align16 32 = 32) as E32 by done.
  destruct (session_malloc tries fuel h l [] h l 32 (session_refl _ _ _ Hc Hi)) as (h1 & l1 & s1 & E1 & Sn1 & Al1 & R1);
    [lia|eapply room_le; [exact Hroom|lia]|done|done|].
  apply R1 in Hroom; [|lia].
  pose proof (al_seg _ _ _ _ _ _ Al1) as [U1 L1].
  pose proof (block_on_heap _ _ _ (session_inv _ _ _ _ _ Sn1) U1) as (O1 & O2 & O3 & O4 & O5).
  unfold new_FastStringBuilder, SIZEOF_BUILDER. rewrite E1, bind_Done. destruct (Z.eqb_spec (block s1) 0); [lia|].
  unfold FastStringBuilder_init.
  set (m1 := wr32 (wr64 (wr32 (h_mem h1) (block s1 + 12) 0) (block s1 + 16) 0) (block s1 + 24) 0).
  assert (session I h l [s1] (with_mem h1 m1) l1) as Sn1'.
  { eapply session_write; [done|by apply elem_of_cons; left|]. intros x Hx. unfold m1. mem_simpl. done. }
  rewrite to_u64_id by (znorm; lia).
  destruct (session_malloc tries fuel h l [s1] _ l1 (8 * n) Sn1') as (h2 & l2 & s2 & -> & Sn2 & Al2 & R2);
    [lia|eapply room_le; [exact Hroom|lia]|done|done|].
  apply R2 in Hroom; [|lia]. rewrite bind_Done.
  pose proof (al_seg _ _ _ _ _ _ Al2) as [U2 L2].
  pose proof (block_on_heap _ _ _ (session_inv _ _ _ _ _ Sn2) U2) as (P1 & P2 & P3 & P4 & P5).
  assert (s1 ≠ s2) as Hne. { intros ->. by apply (al_new _ _ _ _ _ _ Al2). }
  eexists _, l2, s1, s2. split; [done|]. split.
  { eapply session_write; [done|by apply elem_of_cons; right; apply elem_of_cons; left|].
    intros x Hx. rewrite !rd8_wrN_ne by lia. done. }
  split; [done|]. split; [|split; [done|]].
  2: { intros size b l3 E3. eapply spec_allocs_cons; [apply (al_spec _ _ _ _ _ _ Al1)|].
    eapply spec_allocs_cons; [apply (al_spec _ _ _ _ _ _ Al2)|]. eapply spec_allocs_cons; [done|done]. }
  assert (∀ k a, block s1 <= a → a + Z.of_nat k <= block s1 + 32 → rdN k (h_mem h2) a = rdN k m1 a) as Hobj.
  { intros k a Ha Hk. apply rdN_ext. intros j Hj. apply (allocated_kept _ _ _ _ _ _ _ Al2).
    right. exists s1. split; [done|lia]. }
  split; cbn [h_mem with_mem length]; try (split_and!; lia); try done;
    unfold sb_parts, sb_nParts, sb_partOffset, sb_outputBuf, sb_outputBufSize.
  - mem_simpl. apply to_u64_id. znorm. lia.
  - apply to_i32_rd32_wr32. znorm. lia.
  - rewrite !rdN_wrN_ne, Hobj by lia. unfold m1. rewrite !rdN_wrN_ne by lia. by apply to_i32_rd32_wr32.
  - rewrite !rdN_wrN_ne, Hobj by lia. unfold m1. mem_simpl. done.
  - rewrite !rdN_wrN_ne, Hobj by lia. unfold m1. by rewrite rdN_wrN_eq.
Qed.

(** [append] stores one pointer; when the array is full the last one becomes
    the literal. *)
Lemma builder_append_spec h0 l0 ss h l s1 s2 n ptrs buf size p :
  session I h0 l0 ss h l → s1 ∈ ss → s2 ∈ ss → s1 ≠ s2 → is_u64 p → is_u64 out_of_bounds →
  builder (h_mem h) s1 s2 n ptrs buf size →
  let h' := FastStringBuilder_append out_of_bounds h (block s1) p in
  session I h0 l0 ss h' l ∧
  builder (h_mem h') s1 s2 n
    (if Z.of_nat (length ptrs) <? n then ptrs ++ [p] else <[Z.to_nat (n - 1) := out_of_bounds]> ptrs) buf size.
Proof.
  clear try_once.
  intros Sn H1 H2 Hne Hp Ho B. pose proof B as [[B1 B1'] B2 B3 B4 B5 B6 B7 B8 B9].
  pose proof (session_inv _ _ _ _ _ Sn) as Hi.
  assert (block s1 + s_len s1 <= block s2 ∨ block s2 + s_len s2 <= block s1) as Hap.
  { destruct (blocks_apart h l s1 s2 Hi); [by eapply session_in_use..|done| |]; unfold seg_end, block in *; lia. }
  assert (∀ i v, 0 <= i < n → set_part (h_mem h) (block s1) i v = wr64 (h_mem h) (block s2 + 8 * i) v) as Hset.
  { intros i v Hi'. unfold set_part. by rewrite (sb_part_eq _ _ _ _ _ _ _ _ B) by lia. }
  assert (∀ i v, 0 <= i < n → session I h0 l0 ss (with_mem h (wr64 (h_mem h) (block s2 + 8 * i) v)) l) as Hsn.
  { intros i v Hi'. eapply session_write; [exact Sn|exact H2|]. intros x Hx. rewrite seg_end_block in Hx.
    apply rd8_wrN_ne. lia. }
  cbn zeta. unfold FastStringBuilder_append. rewrite B5, B6.
  destruct (Z.leb_spec n (Z.of_nat (length ptrs))), (Z.ltb_spec (Z.of_nat (length ptrs)) n); try lia.
  - rewrite Hset by lia. split; [apply Hsn; lia|]. cbn [h_mem with_mem].
    split; unfold sb_parts, sb_nParts, sb_partOffset, sb_outputBuf, sb_outputBufSize;
      rewrite ?length_insert; try (rewrite rdN_wrN_ne by lia); try done.
    intros i q Hq. apply list_lookup_insert_Some in Hq as [(<- & <- & Hq)|(Hni & Hq)].
    + rewrite Z2Nat.id by lia. rewrite rd64_wr64_eq. by apply to_u64_id.
    + pose proof (lookup_lt_Some _ _ _ Hq). rewrite rdN_wrN_ne by lia. by apply B9.
  - rewrite Hset by lia. set (m1 := wr64 _ _ p).
    assert (sb_partOffset m1 (block s1) = Z.of_nat (length ptrs)) as ->.
    { unfold m1, sb_partOffset. rewrite rdN_wrN_ne by lia. done. }
    split.
    + change (with_mem h _) with
        (with_mem (with_mem h m1) (wr32 (h_mem (with_mem h m1)) (block s1 + 12) (Z.of_nat (length ptrs) + 1))).
      eapply session_write; [apply Hsn; lia|exact H1|]. intros x Hx. rewrite seg_end_block in Hx.
      apply rd8_wrN_ne. lia.
    + cbn [h_mem with_mem].
      split; unfold sb_parts, sb_nParts, sb_partOffset, sb_outputBuf, sb_outputBufSize, m1;
        rewrite ?length_app; cbn [length]; rewrite ?Nat2Z.inj_add;
        try (rewrite !rdN_wrN_ne by lia); try done; try lia.
      * apply to_i32_rd32_wr32. znorm. lia.
      * intros i q Hq. apply lookup_app_Some in Hq as [Hq|[Hge Hq]].
        -- pose proof (lookup_lt_Some _ _ _ Hq). rewrite !rdN_wrN_ne by lia. by apply B9.
        -- apply list_lookup_singleton_Some in Hq as [Hi0 <-].
           replace (Z.of_nat i) with (Z.of_nat (length ptrs)) by lia.
           rewrite rdN_wrN_ne, rd64_wr64_eq by lia. by apply to_u64_id.
Qed.

Lemma set_buf_builder m s1 s2 n ptrs buf size p :
  builder m s1 s2 n ptrs buf size → is_u64 p → seg_end s1 <= block s2 ∨ seg_end s2 <= block s1 →
  builder (wr64 m (block s1 + 16) p) s1 s2 n ptrs p size.
Proof.
  clear try_once.
  intros [[B1 B1'] B2 B3 B4 B5 B6 B7 B8 B9] Hp Hap. rewrite !seg_end_block in *.
  split; unfold sb_parts, sb_nParts, sb_partOffset, sb_outputBuf, sb_outputBufSize in *;
    try (rewrite rdN_wrN_ne by lia); try done.
  - mem_simpl. by apply to_u64_id.
  - intros i q Hq. pose proof (lookup_lt_Some _ _ _ Hq). rewrite rdN_wrN_ne by lia. by apply B9.
Qed.

Lemma set_size_builder m s1 s2 n ptrs buf size z :
  builder m s1 s2 n ptrs buf size → is_u32 z → seg_end s1 <= block s2 ∨ seg_end s2 <= block s1 →
  builder (wr32 m (block s1 + 24) z) s1 s2 n ptrs buf z.
Proof.
  clear try_once.
  intros [[B1 B1'] B2 B3 B4 B5 B6 B7 B8 B9] Hp Hap. rewrite !seg_end_block in *.
  split; unfold sb_parts, sb_nParts, sb_partOffset, sb_outputBuf, sb_outputBufSize in *;
    try (rewrite rdN_wrN_ne by lia); try done.
  - rewrite rdN_wrN_eq. by apply to_u32_id.
  - intros i q Hq. pose proof (lookup_lt_Some _ _ _ Hq). rewrite rdN_wrN_ne by lia. by apply B9.
Qed.

(** The strings lie where no call of the heap changes them. *)
Definition texts_kept h (l : list seg) (ptrs : list Z) (strs : list (list Z)) : Prop :=
  ∀ p s i, (p, s) ∈ zip ptrs strs → 0 <= i <= Z.of_nat (length s) → kept h l (p + i).

Lemma texts_stable h l m m' ptrs strs :
  (∀ a, kept h l a → rd8 m' a = rd8 m a) → texts_kept h l ptrs strs →
  texts fuel m ptrs strs → texts fuel m' ptrs strs.
Proof.
  clear try_once.
  intros Hm Hk Ht. apply Forall2_same_length_lookup. apply Forall2_same_length_lookup in Ht as [E Ht].
  split; [done|]. intros i p s Hp Hs. destruct (Ht i p s Hp Hs) as [[H1 H2] H3]. split; [|done].
  assert ((p, s) ∈ zip ptrs strs) as Hin.
  { apply list_elem_of_lookup. exists i. by apply lookup_zip_Some. }
  split.
  - intros j c Hj. pose proof (lookup_lt_Some _ _ _ Hj). rewrite Hm by (apply (Hk p s); [done|lia]). by apply H1.
  - rewrite Hm by (apply (Hk p s); [done|lia]). done.
Qed.

(** The output block holds the strings one after the other. *)
Record output (m : mem) (s3 : seg) (strs : list (list Z)) : Prop := {
  op_size : build_size strs <= s_len s3;
  op_bytes j c : concat strs !! j = Some c → rd8 m (block s3 + Z.of_nat j) = c
}.

Section Fill.
Context (h0 : Heap W) (l0 : list seg) (ss : list seg) (h : Heap W) (l : list seg) (s1 s2 : seg).
Context (n : Z) (ptrs : list Z) (strs : list (list Z)).
Hypothesis Sn : session I h0 l0 ss h l.
Hypothesis own : s1 ∈ ss ∧ s2 ∈ ss ∧ s1 ≠ s2.
Hypothesis full : Z.of_nat (length ptrs) = n.
Hypothesis Ht : texts fuel (h_mem h) ptrs strs.
Hypothesis Hk : texts_kept h0 l0 ptrs strs.
Hypothesis small : build_size strs < 2^31.
Hypothesis Hroom : room (align16 (build_size strs)) l.
Hypothesis enough : (search_fuel h0 <= fuel)%nat ∧ (length ptrs < fuel)%nat.

(** The output block, before anything is copied. *)
Lemma output_block buf size :
  builder (h_mem h) s1 s2 n ptrs buf size →
  ∃ h1 l1 s3, malloc tries fuel h (build_size strs) = Done (block s3, h1) ∧
    let m1 := wr64 (h_mem h1) (block s1 + 16) (block s3) in
    session I h0 l0 (s3 :: ss) (with_mem h1 m1) l1 ∧ (s3 ∉ ss) ∧ build_size strs <= s_len s3 ∧
    builder m1 s1 s2 n ptrs (block s3) size ∧
    (∀ x, F x → block s3 <= x < seg_end s3 → rd8 m1 x = 0) ∧
    spec_alloc (align16 (build_size strs)) l = Some (block s3, l1).
Proof using Hroom Ht Sn Tracked0 enough full own small try_once.
  intros B. destruct own as (O1 & O2 & O3). destruct (bd_count _ _ _ _ _ _ _ B) as [Hn _].
  assert (0 < build_size strs <= 2^47) as Hsz.
  { pose proof (Forall2_length _ _ _ Ht). unfold build_size in *. lia. }
  destruct (session_malloc tries fuel h0 l0 ss h l (build_size strs) Sn)
    as (h1 & l1 & s3 & E1 & Sn1 & Al & _); [done|done|done|lia|].
  pose proof (session_in_use _ _ _ _ _ s1 Sn O1) as U1. pose proof (session_in_use _ _ _ _ _ s2 Sn O2) as U2.
  pose proof (al_seg _ _ _ _ _ _ Al) as [U3 L3]. pose proof (al_inv _ _ _ _ _ _ Al) as Hi1.
  pose proof (block_on_heap _ _ _ Hi1 U3) as (D1 & D2 & D3 & D4 & D5).
  assert (s3 ∉ ss) as Hnew.
  { intros Hin. apply (al_new _ _ _ _ _ _ Al). by eapply session_in_use. }
  pose proof (bd_object _ _ _ _ _ _ _ B) as [Ho _].
  exists h1, l1, s3. split; [done|]. split_and!; [|done|done| | |apply (al_spec _ _ _ _ _ _ Al)].
  - apply (session_write _ _ _ _ _ s1); [exact Sn1|by apply elem_of_cons; right|].
    intros x Hx. rewrite seg_end_block in Hx. apply rd8_wrN_ne. lia.
  - eapply set_buf_builder; [|znorm; lia|].
    + eapply builder_ext; [|exact B].
      intros a Ha. apply (allocated_kept _ _ _ _ _ _ _ Al). right. destruct Ha; eauto.
    + destruct (blocks_apart h l s1 s2 (session_inv _ _ _ _ _ Sn) U1 U2 O3); lia.
  - intros Hc x Hx. assert (in_use l1 s1) as U1' by (apply (al_use _ _ _ _ _ _ Al); by left).
    rewrite rd8_wrN_ne; [by eapply (tr_fresh h l); [apply Sn|apply Sn|done|..]|].
    destruct (blocks_apart h1 l1 s1 s3 Hi1 U1' U3) as [Hap|Hap]; [by intros ->| |];
      rewrite seg_end_block in Hap; lia.
Qed.

Lemma fill_output_spec buf size :
  builder (h_mem h) s1 s2 n ptrs buf size →
  ∃ h' l' s3, fill_output tries fuel unable h (block s1) (build_size strs) = Done (block s3, h') ∧
    session I h0 l0 (s3 :: ss) h' l' ∧ builder (h_mem h') s1 s2 n ptrs (block s3) (build_size strs) ∧
    output (h_mem h') s3 strs ∧ (s3 ∉ ss) ∧
    (∀ x, F x → block s3 + Z.of_nat (length (concat strs)) <= x < seg_end s3 → rd8 (h_mem h') x = 0) ∧
    spec_alloc (align16 (build_size strs)) l = Some (block s3, l').
Proof using Hk Hroom Ht Sn Tracked0 enough full own small try_once.
  intros B. destruct (output_block buf size B) as (h1 & l1 & s3 & E1 & Sn1 & Hnew & L3 & B1 & Hc & Esp).
  destruct own as (O1 & O2 & O3). set (m1 := wr64 _ _ _) in *.
  assert (build_size strs = Z.of_nat (length (concat strs)) + Z.of_nat (length strs)) as Es
    by (unfold build_size; lia).
  assert (s3 ∈ s3 :: ss ∧ s1 ∈ s3 :: ss ∧ s2 ∈ s3 :: ss) as (I3 & I1 & I2).
  { rewrite !elem_of_cons. tauto. }
  pose proof (session_inv _ _ _ _ _ Sn1) as Hi1. pose proof (session_in_use _ _ _ _ _ _ Sn1 I3) as U3.
  pose proof (block_on_heap _ _ _ Hi1 U3) as (D1 & D2 & D3 & D4 & D5).
  assert (∀ s, s ∈ ss → seg_end s <= block s3 ∨ seg_end s3 <= block s) as Hap.
  { intros s Hs. destruct (blocks_apart _ _ s s3 Hi1); [|done|by intros ->|lia|lia].
    eapply session_in_use; [exact Sn1|]. by apply elem_of_cons; right. }
  pose proof (Hap s1 O1) as A1. pose proof (Hap s2 O2) as A2.
  destruct (copy_parts_spec fuel m1 s1 s2 n ptrs (block s3) size strs B1 full) with (k := fuel) (i := 0%nat) (m := m1)
    as (m2 & E2 & C2); try lia.
  { eapply texts_stable; [|exact Hk|exact Ht]. intros a Ha.
    transitivity (rd8 (h_mem h0) a); [exact (session_kept _ _ _ _ _ a Sn1 Ha)|].
    symmetry. exact (session_kept _ _ _ _ _ a Sn Ha). }
  { intros p s Hin. rewrite (seg_end_block s3) in *.
    destruct (interval_apart p (Z.of_nat (length s)) (block s3) (block s3 + s_len s3)); [|lia| |lia|lia].
    - destruct (tiled_in _ _ _ _ (hr_tiled _ _ (hi_rep _ _ Hi1)) (proj1 U3)). unfold block, seg_end in *. lia.
    - intros i Hi. apply (session_kept_apart _ _ _ _ _ _ _ Sn1 I3). by apply (Hk p s). }
  { split; [done|]. intros j c Hj. done. }
  pose proof (copied_object m1 s1 s2 n ptrs (block s3) size strs B1 ltac:(lia) ltac:(lia) _ _ C2) as B2.
  destruct C2 as [C2 C2']. rewrite take_ge in C2, C2' by lia.
  unfold fill_output. rewrite E1, bind_Done. cbn zeta. cbn [h_mem with_mem]. fold m1.
  rewrite (bd_buf _ _ _ _ _ _ _ B1). destruct (Z.eqb_spec (block s3) 0); [lia|].
  change (Z.of_nat (length (concat (take 0 strs)))) with 0 in E2. change (Z.of_nat 0) with 0 in E2. rewrite E2, bind_Done.
  pose proof (bd_object _ _ _ _ _ _ _ B) as [Ho _]. rewrite seg_end_block in A1.
  assert (builder (wr32 m2 (block s1 + 24) (build_size strs)) s1 s2 n ptrs (block s3) (build_size strs)) as B3.
  { eapply set_size_builder; [exact B2|znorm; lia|].
    destruct (blocks_apart _ _ s1 s2 Hi1); [by eapply session_in_use..|done|lia|lia]. }
  exists (with_mem h1 (wr32 m2 (block s1 + 24) (build_size strs))), l1, s3.
  rewrite (bd_buf _ _ _ _ _ _ _ B3). split; [done|]. split; [|split; [exact B3|split; [|split; [done|split; [|done]]]]].
  - change (with_mem h1 _) with (with_mem (with_mem (with_mem h1 m1) m2) (wr32 m2 (block s1 + 24) (build_size strs))).
    apply (session_write _ _ _ _ _ s1); [|done|].
    + apply (session_write _ _ _ _ _ s3); [done|done|]. intros x Hx. apply C2. lia.
    + intros x Hx. rewrite seg_end_block in Hx. apply rd8_wrN_ne. lia.
  - split; [done|]. intros j c Hj. pose proof (lookup_lt_Some _ _ _ Hj). cbn [h_mem with_mem].
    rewrite rd8_wrN_ne by lia. by apply C2'.
  - intros x HF Hx. cbn [h_mem with_mem]. rewrite rd8_wrN_ne, C2 by lia. apply Hc; [done|lia].
Qed.
End Fill.

(** The first [build]. *)
Lemma build_spec h0 l0 ss h l s1 s2 n ptrs strs size :
  session I h0 l0 ss h l → s1 ∈ ss ∧ s2 ∈ ss ∧ s1 ≠ s2 → Z.of_nat (length ptrs) = n →
  texts fuel (h_mem h) ptrs strs → texts_kept h0 l0 ptrs strs → build_size strs < 2^31 →
  room (align16 (build_size strs)) l → (search_fuel h0 <= fuel)%nat ∧ (length ptrs < fuel)%nat →
  builder (h_mem h) s1 s2 n ptrs 0 size →
  ∃ h' l' s3, FastStringBuilder_build tries fuel unable h (block s1) = Done (block s3, h') ∧
    session I h0 l0 (s3 :: ss) h' l' ∧ builder (h_mem h') s1 s2 n ptrs (block s3) (build_size strs) ∧
    output (h_mem h') s3 strs ∧ (s3 ∉ ss) ∧
    (∀ x, F x → block s3 + Z.of_nat (length (concat strs)) <= x < seg_end s3 → rd8 (h_mem h') x = 0) ∧
    spec_alloc (align16 (build_size strs)) l = Some (block s3, l').
Proof.
  intros Sn Ho Hl Ht Hk Hs Hr Hf B. unfold FastStringBuilder_build.
  rewrite (full_size_spec _ _ _ _ _ _ _ _ _ B Hl Ht), bind_Done by lia.
  rewrite (bd_buf _ _ _ _ _ _ _ B). cbn [Z.eqb negb]. by eapply fill_output_spec.
Qed.

Lemma still_held (s u : seg) (ss : list seg) : s ≠ u → s ∈ ss → s ∈ filter (λ x, x ≠ u) ss.
Proof. intros. by apply list_elem_of_filter. Qed.

(** Three blocks given back leave nothing of the session. *)
Lemma delete_spec h0 l0 h l s1 s2 s3 n ptrs strs :
  heap_inv h0 l0 → extends h0 l0 [s3; s2; s1] h l → s1 ≠ s2 → (s3 ∉ [s2; s1]) →
  builder (h_mem h) s1 s2 n ptrs (block s3) (build_size strs) → build_size strs <= s_len s3 →
  let h' := delete_FastStringBuilder h (block s1) in
  extends h0 l0 [] h' l0 ∧
  (heapEnd h <= 2^24 → ∀ x, heapStart h <= x → ¬ low l x →
    rd8 (h_mem h) x = 0 ∨ block s3 <= x < block s3 + build_size strs → rd8 (h_mem h') x = 0).
Proof.
  clear try_once.
  intros Hi0 X H12 H3 B Hsz. rewrite !not_elem_of_cons in H3. destruct H3 as (H32 & H31 & _).
  assert (s3 ∈ [s3; s2; s1] ∧ s2 ∈ [s3; s2; s1] ∧ s1 ∈ [s3; s2; s1]) as (I3 & I2 & I1)
    by (rewrite !elem_of_cons; tauto).
  assert (in_use l s1 ∧ in_use l s2 ∧ in_use l s3) as (U1 & U2 & U3).
  { rewrite !(ex_use _ _ _ _ _ X). tauto. }
  pose proof (block_on_heap _ _ _ (ex_inv _ _ _ _ _ X) U1) as (D1 & D2 & D3 & _).
  destruct (bd_array _ _ _ _ _ _ _ B) as [Ba _]. destruct (bd_count _ _ _ _ _ _ _ B) as [Bn _].
  unfold delete_FastStringBuilder, FastStringBuilder_destroy, SIZEOF_INT.
  destruct (Z.eqb_spec (block s1) 0); [lia|]. rewrite (bd_parts _ _ _ _ _ _ _ B).
  pose proof (sfree_released h l s2 4 (ex_inv _ _ _ _ _ X) U2 ltac:(lia)) as R2.
  pose proof (extends_release _ _ _ _ _ s2 _ _ X I2 R2) as X2.
  set (h2 := sfree h (block s2) 4) in *. set (l2 := spec_free _ _) in X2, R2.
  assert (∀ k a, block s1 <= a → a + Z.of_nat k <= block s1 + 32 → rdN k (h_mem h2) a = rdN k (h_mem h) a) as Hobj.
  { intros k a Ha Hk. apply rdN_ext. intros j Hj. apply (rl_bytes _ _ _ _ _ R2 s1); [done|done|].
    destruct (bd_object _ _ _ _ _ _ _ B). rewrite seg_end_block. lia. }
  assert (in_use l2 s3 ∧ in_use l2 s1) as [V3 V1].
  { rewrite !(rl_use _ _ _ _ _ R2). done. }
  unfold sb_outputBuf, sb_outputBufSize. rewrite !Hobj by lia.
  fold (sb_outputBuf (h_mem h) (block s1)) (sb_outputBufSize (h_mem h) (block s1)).
  rewrite (bd_buf _ _ _ _ _ _ _ B), (bd_size _ _ _ _ _ _ _ B).
  assert (0 <= build_size strs) by (unfold build_size; lia).
  pose proof (sfree_released h2 l2 s3 (build_size strs) (ex_inv _ _ _ _ _ X2) V3 ltac:(lia)) as R3.
  pose proof (extends_release _ _ _ _ _ s3 _ _ X2 (still_held _ _ _ H32 I3) R3) as X3.
  set (h3 := sfree h2 _ _) in *. set (l3 := spec_free _ l2) in X3, R3.
  assert (in_use l3 s1) as W1 by (rewrite (rl_use _ _ _ _ _ R3); done).
  pose proof (free_released h3 l3 s1 (ex_inv _ _ _ _ _ X3) W1) as R1.
  pose proof (extends_release _ _ _ _ _ s1 _ _ X3
    (still_held _ _ _ (not_eq_sym H31) (still_held _ _ _ H12 I1)) R1) as X1.
  assert (extends h0 l0 [] (free h3 (block s1)) (spec_free (block s1) l3)) as X0.
  { eapply extends_perm; [|exact X1]. intros u. rewrite !list_elem_of_filter, !elem_of_cons.
    split; [|by intros ?%elem_of_nil]. by intros (? & ? & ? & [?|[?|[?|?]]]). }
  rewrite (extends_restored _ _ _ _ Hi0 X0) in X0. split; [done|]. intros Hsm x Hge Hlow Hx.
  assert (¬ low l2 x) as L2 by (intros ?%spec_free_low; done).
  assert (¬ low l3 x) as L3 by (intros ?%spec_free_low; done).
  pose proof (rl_start _ _ _ _ _ R2) as A2. pose proof (rl_start _ _ _ _ _ R3) as A3.
  pose proof (rl_end _ _ _ _ _ R2) as B2. pose proof (rl_end _ _ _ _ _ R3) as B3.
  apply (rl_zeros _ _ _ _ _ R1); [lia|lia|done|].
  destruct Hx as [Hx|Hx]; [|by apply sfree_zeroed].
  apply (rl_zeros _ _ _ _ _ R3); [lia|lia|done|]. apply (rl_zeros _ _ _ _ _ R2); [lia|lia|done|done].
Qed.

Definition append_all h (this : Z) (ptrs : list Z) : Heap W :=
  fold_left (λ h p, FastStringBuilder_append out_of_bounds h this p) ptrs h.

Lemma append_all_spec h0 l0 ss h l s1 s2 n ptrs0 ptrs buf size :
  session I h0 l0 ss h l → s1 ∈ ss → s2 ∈ ss → s1 ≠ s2 → Forall is_u64 ptrs → is_u64 out_of_bounds →
  builder (h_mem h) s1 s2 n ptrs0 buf size → Z.of_nat (length (ptrs0 ++ ptrs)) <= n →
  session I h0 l0 ss (append_all h (block s1) ptrs) l ∧
  builder (h_mem (append_all h (block s1) ptrs)) s1 s2 n (ptrs0 ++ ptrs) buf size.
Proof.
  clear try_once.
  intros Sn O1 O2 O3 Hp Ho B Hn. revert h ptrs0 Sn B Hn.
  induction Hp as [|p ptrs Hp _ IH]; intros h ptrs0 Sn B Hn; [by rewrite app_nil_r|].
  destruct (builder_append_spec h0 l0 ss h l s1 s2 n ptrs0 buf size p Sn O1 O2 O3 Hp Ho B) as [Sn' B'].
  rewrite length_app in Hn. cbn [length] in Hn.
  destruct (Z.ltb_spec (Z.of_nat (length ptrs0)) n); [|lia].
  rewrite (cons_middle p ptrs0 ptrs), app_assoc. apply IH; [done|done|].
  rewrite !length_app. cbn [length]. lia.
Qed.

(** The room a builder for [strs] needs on the heap. *)
Definition builder_room (strs : list (list Z)) : Z :=
  32 + 29 + (align16 (8 * Z.of_nat (length strs)) + 29 + align16 (build_size strs)).

(** What a builder may be used for. *)
Record buildable h (l : list seg) (ptrs : list Z) (strs : list (list Z)) : Prop := {
  bl_inv : heap_inv h l;
  bl_count : 0 < Z.of_nat (length ptrs);
  bl_ptrs : Forall is_u64 ptrs;
  bl_texts : texts fuel (h_mem h) ptrs strs;
  bl_kept : texts_kept h l ptrs strs;
  bl_small : build_size strs < 2^31;
  bl_room : room (builder_room strs) l;
  bl_fuel : (search_fuel h <= fuel)%nat ∧ (length ptrs < fuel)%nat
}.

Lemma build_session h l ptrs strs :
  I h l → is_u64 out_of_bounds → buildable h l ptrs strs →
  ∃ h1 h2 l2 s1 s2 s3,
    new_FastStringBuilder tries fuel h (Z.of_nat (length ptrs)) = Done (block s1, h1) ∧
    FastStringBuilder_build tries fuel unable (append_all h1 (block s1) ptrs) (block s1) = Done (block s3, h2) ∧
    session I h l [s3; s2; s1] h2 l2 ∧ s1 ≠ s2 ∧ (s3 ∉ [s2; s1]) ∧
    builder (h_mem h2) s1 s2 (Z.of_nat (length ptrs)) ptrs (block s3) (build_size strs) ∧
    output (h_mem h2) s3 strs ∧
    (∀ x, F x → block s3 + Z.of_nat (length (concat strs)) <= x < seg_end s3 → rd8 (h_mem h2) x = 0) ∧
    spec_allocs [32; 8 * Z.of_nat (length ptrs); build_size strs] l = Some ([block s1; block s2; block s3], l2).
Proof using H0 Tracked0 try_once.
  intros Hc Ho [L1 L2 L3 L4 L5 L6 L7 L8]. pose proof (Forall2_length _ _ _ L4) as El.
  assert (0 < build_size strs) by (unfold build_size; lia).
  destruct (align16_spec (build_size strs) ltac:(lia)) as (A1 & A2 & _).
  destruct (new_spec h l (Z.of_nat (length ptrs)) (align16 (build_size strs)) Hc L1)
    as (h1 & l1 & s1 & s2 & E1 & Sn1 & H12 & B1 & R1 & Hsp); [unfold build_size in L6; lia|done| |lia|].
  { unfold builder_room in L7. by rewrite El. }
  assert (s1 ∈ [s2; s1] ∧ s2 ∈ [s2; s1]) as [I1 I2] by (rewrite !elem_of_cons; tauto).
  destruct (append_all_spec h l [s2; s1] h1 l1 s1 s2 _ [] ptrs 0 0 Sn1 I1 I2 H12 L3 Ho B1) as [Sn2 B2]; [done|].
  destruct (build_spec h l [s2; s1] _ l1 s1 s2 (Z.of_nat (length ptrs)) ptrs strs 0 Sn2)
    as (h2 & l2 & s3 & E2 & Sn3 & B3 & Ou & Hn & Hz & Esp); try done.
  { eapply texts_stable; [|exact L5|exact L4]. intros a Ha. exact (session_kept _ _ _ _ _ a Sn2 Ha). }
  exists h1, h2, l2, s1, s2, s3. split_and!; try done. by apply Hsp.
Qed.
End Correct.

(** A second [build] gives the old output back first. *)
Lemma rebuild_spec {W : Type} `{PageMapperLaws W} tries fuel unable (I : Heap W → list seg → Prop) h0 l0 ss h l s1 s2 s4 n ptrs strs size :
  (1 <= tries)%nat → session I h0 l0 ss h l → s1 ∈ ss ∧ s2 ∈ ss ∧ s1 ≠ s2 → s4 ∈ ss → s1 ≠ s4 → s2 ≠ s4 →
  Z.of_nat (length ptrs) = n → texts fuel (h_mem h) ptrs strs → texts_kept h0 l0 ptrs strs →
  build_size strs < 2^31 → room (align16 (build_size strs)) (spec_free (block s4) l) →
  (search_fuel h0 <= fuel)%nat ∧ (length ptrs < fuel)%nat →
  builder (h_mem h) s1 s2 n ptrs (block s4) size →
  ∃ h' l' s3, FastStringBuilder_build tries fuel unable h (block s1) = Done (block s3, h') ∧
    session untracked h0 l0 (s3 :: filter (λ u, u ≠ s4) ss) h' l' ∧
    builder (h_mem h') s1 s2 n ptrs (block s3) (build_size strs) ∧ output (h_mem h') s3 strs ∧
    s3 ∉ filter (λ u, u ≠ s4) ss.
Proof.
  intros try_once Sn (O1 & O2 & O3) O4 H14 H24 Hl Ht Hk Hs Hr Hf B. unfold FastStringBuilder_build.
  rewrite (full_size_spec _ _ _ _ _ _ _ _ _ B Hl Ht), bind_Done by lia.
  pose proof (session_in_use _ _ _ _ _ _ Sn O4) as U4. pose proof (session_inv _ _ _ _ _ Sn) as Hi.
  pose proof (block_on_heap _ _ _ Hi U4) as (D1 & _ & D3 & _).
  rewrite (bd_buf _ _ _ _ _ _ _ B). destruct (Z.eqb_spec (block s4) 0); [lia|]. cbn [negb].
  pose proof (free_released h l s4 Hi U4) as R. pose proof (session_release _ _ _ _ _ _ _ _ Sn O4 R) as Sn'.
  edestruct (fill_output_spec tries fuel unable untracked (λ _, False) try_once h0 l0 _ _ _ s1 s2 n ptrs strs Sn')
    as (h' & l' & s3 & E & S3 & B3 & Ou & Hn & _); try done.
  - split_and!; [by apply still_held..|done].
  - apply (texts_stable fuel h0 l0 (h_mem h)); [|exact Hk|exact Ht]. intros a Ha.
    transitivity (rd8 (h_mem h0) a); [exact (session_kept _ _ _ _ _ a Sn' Ha)|].
    symmetry. exact (session_kept _ _ _ _ _ a Sn Ha).
  - eapply builder_ext; [|exact B]. intros a [Ha|Ha].
    + by apply (rl_bytes _ _ _ _ _ R s1); [eapply session_in_use| |].
    + by apply (rl_bytes _ _ _ _ _ R s2); [eapply session_in_use| |].
  - exists h', l', s3. done.
Qed.

(** Freeing a null pointer where nothing is stored at its header. *)
Lemma sfree_null {W : Type} (h : Heap W) :
  (∀ a, a < 0 → rd8 (h_mem h) a = 0) → sfree h 0 0 = with_mem h (wr8 (h_mem h) (-1) 1).
Proof.
  intros Hz. assert (∀ m k a, (∀ x, x < -1 → rd8 m x = 0) → a + Z.of_nat k < 0 → rdN k m a = 0) as HrdN.
  { intros m k. induction k as [|k IH]; intros a Hm Ha; [done|]. rewrite rdN_S, Hm, IH by (done || lia). done. }
  unfold sfree, free, combineBackward, combineForward, SIZEOF_HDR, set_free. cbn [h_mem with_mem].
  change (0 - 29) with (-29). change (-29 + 28) with (-1).
  assert (∀ x, x < -1 → rd8 (wr8 (h_mem h) (-1) (Z.b2z true)) x = 0) as Hz'.
  { intros x Hx. rewrite rd8_wr8_ne by lia. apply Hz. lia. }
  set (m1 := wr8 _ _ _) in *.
  assert (hdr_next m1 (-29) = 0) as -> by (apply HrdN; [done|lia]).
  assert (hdr_last m1 (-29) = 0) as E by (apply HrdN; [done|lia]).
  cbn [Z.eqb h_mem with_mem]. by rewrite E.
Qed.

(** [delete] of a builder that was never built frees a null pointer: its
    header would lie in the last bytes of the address space. *)
Lemma delete_unbuilt_spec {W : Type} `{PageMapperLaws W} (h0 : Heap W) l0 h l s1 s2 n ptrs :
  heap_inv h0 l0 → extends h0 l0 [s2; s1] h l → s1 ≠ s2 → builder (h_mem h) s1 s2 n ptrs 0 0 →
  (∀ a, a < 0 → rd8 (h_mem h0) a = 0) →
  let h' := delete_FastStringBuilder h (block s1) in
  heap_inv h' l0 ∧ rd8 (h_mem h') (-1) = 1 ∧ ∀ a, kept h0 l0 a → a ≠ -1 → rd8 (h_mem h') a = rd8 (h_mem h0) a.
Proof.
  intros Hi0 X H12 B Hneg.
  assert (s2 ∈ [s2; s1] ∧ s1 ∈ [s2; s1]) as [I2 I1] by (rewrite !elem_of_cons; tauto).
  assert (in_use l s1 ∧ in_use l s2) as [U1 U2] by (rewrite !(ex_use _ _ _ _ _ X); tauto).
  pose proof (block_on_heap _ _ _ (ex_inv _ _ _ _ _ X) U1) as (D1 & D2 & D3 & D4 & D5).
  rewrite (ex_start _ _ _ _ _ X) in D1, D3.
  destruct (bd_array _ _ _ _ _ _ _ B) as [Ba _]. destruct (bd_count _ _ _ _ _ _ _ B) as [Bn _].
  unfold delete_FastStringBuilder, FastStringBuilder_destroy, SIZEOF_INT.
  destruct (Z.eqb_spec (block s1) 0); [lia|]. rewrite (bd_parts _ _ _ _ _ _ _ B).
  pose proof (sfree_released h l s2 4 (ex_inv _ _ _ _ _ X) U2 ltac:(lia)) as R2.
  pose proof (extends_release _ _ _ _ _ s2 _ _ X I2 R2) as X2.
  set (h2 := sfree h (block s2) 4) in *. set (l2 := spec_free _ _) in X2, R2.
  assert (∀ k a, block s1 <= a → a + Z.of_nat k <= block s1 + 32 → rdN k (h_mem h2) a = rdN k (h_mem h) a) as Hobj.
  { intros k a Ha Hk. apply rdN_ext. intros j Hj. apply (rl_bytes _ _ _ _ _ R2 s1); [done|done|].
    destruct (bd_object _ _ _ _ _ _ _ B). rewrite seg_end_block. lia. }
  unfold sb_outputBuf, sb_outputBufSize. rewrite !Hobj by lia.
  fold (sb_outputBuf (h_mem h) (block s1)) (sb_outputBufSize (h_mem h) (block s1)).
  rewrite (bd_buf _ _ _ _ _ _ _ B), (bd_size _ _ _ _ _ _ _ B).
  assert (∀ a, a < 0 → rd8 (h_mem h2) a = 0) as Hneg2.
  { intros a Ha. rewrite (ex_kept _ _ _ _ _ X2); [by apply Hneg|]. left. split; lia. }
  rewrite (sfree_null h2) by done. set (m3 := wr8 (h_mem h2) (-1) 1).
  destruct (extends_outside h0 l0 _ h2 l2 m3 X2 Hi0) as [X3 Hi3].
  { intros a Ha. apply rd8_wr8_ne. lia. }
  set (m0 := splice _ _ _ _) in *.
  assert (in_use l2 s1) as V1 by (rewrite (rl_use _ _ _ _ _ R2); done).
  pose proof (free_released (with_mem h2 m3) l2 s1 (ex_inv _ _ _ _ _ X3) V1) as R1.
  pose proof (extends_release _ _ _ _ _ s1 _ _ X3 (still_held _ _ _ H12 I1) R1) as X1.
  assert (extends (with_mem h0 m0) l0 [] (free (with_mem h2 m3) (block s1)) (spec_free (block s1) l2)) as X0.
  { eapply extends_perm; [|exact X1]. intros u. rewrite !list_elem_of_filter, !elem_of_cons.
    split; [|by intros ?%elem_of_nil]. by intros (? & ? & [?|[?|?]]). }
  rewrite (extends_restored _ _ _ _ Hi3 X0) in X0.
  split; [apply X0|]. split.
  - rewrite (ex_kept _ _ _ _ _ X0) by (left; split; cbn; lia). cbn [h_mem with_mem]. unfold m0, m3.
    rewrite rd8_splice, decide_False by lia. by rewrite rd8_wr8_eq.
  - intros a Ha Hne. rewrite (ex_kept _ _ _ _ _ X0) by done. cbn [h_mem with_mem]. unfold m0, m3.
    rewrite rd8_splice. case_decide; [done|]. rewrite rd8_wr8_ne by done. by apply (ex_kept _ _ _ _ _ X2).
Qed.

(** There is room for a terminator behind the output. *)
Lemma terminator_inside m s3 (strs : list (list Z)) :
  output m s3 strs → (0 < length strs)%nat →
  block s3 + Z.of_nat (length (concat strs)) <= block s3 + Z.of_nat (length (concat strs)) < seg_end s3.
Proof. intros [Hs _] Hl. unfold build_size in Hs. rewrite seg_end_block. lia. Qed.

Lemma buildable_count {W : Type} `{PageMapper W} fuel (h : Heap W) l ptrs strs :
  buildable fuel h l ptrs strs → (0 < length strs)%nat.
Proof. intros Hb. pose proof (bl_count _ _ _ _ _ Hb). rewrite <- (Forall2_length _ _ _ (bl_texts _ _ _ _ _ Hb)). lia. Qed.

(** If the byte behind it is zero, the output is a string. *)
Lemma build_cstr {W : Type} `{PageMapper W} fuel (h : Heap W) l ptrs strs m s3 :
  buildable fuel h l ptrs strs → output m s3 strs →
  rd8 m (block s3 + Z.of_nat (length (concat strs))) = 0 → cstr m (block s3) (concat strs).
Proof.
  intros Hb [Hs Hby] Hz. unfold build_size in Hs.
  pose proof (bl_texts _ _ _ _ _ Hb) as Ht. pose proof (Forall2_length _ _ _ Ht) as El.
  pose proof (bl_count _ _ _ _ _ Hb).
  apply cstr_concat; [|done|done].
  apply Forall_forall. intros s Hin c Hc. apply list_elem_of_lookup in Hin as [i Hi], Hc as [x Hx].
  destruct (Forall2_lookup_r _ _ _ _ _ Ht Hi) as (p & _ & [[Hc0 _] _]). by apply (Hc0 x).
Qed.

(** C9: a builder concatenates.  On a heap with room, [new], one [append] for
    every part and [build] return a block that holds the bytes of the parts
    one after the other, and none of the caller's bytes changes; on a heap
    whose free memory was never used the result is NUL-terminated.  [delete]
    gives back everything: the segments of the heap are again the ones from
    before [new]. *)
Theorem builder_concatenates {W : Type} `{PageMapperLaws W} tries fuel out_of_bounds unable
    (h : Heap W) l ptrs strs :
  (1 <= tries)%nat → is_u64 out_of_bounds → buildable fuel h l ptrs strs →
  ∃ this h1 p h2,
    new_FastStringBuilder tries fuel h (Z.of_nat (length ptrs)) = Done (this, h1) ∧
    FastStringBuilder_build tries fuel unable (append_all out_of_bounds h1 this ptrs) this = Done (p, h2) ∧
    (∀ j c, concat strs !! j = Some c → rd8 (h_mem h2) (p + Z.of_nat j) = c) ∧
    (clean h l → cstr (h_mem h2) p (concat strs)) ∧
    (∀ a, kept h l a → rd8 (h_mem h2) a = rd8 (h_mem h) a) ∧
    let h3 := delete_FastStringBuilder h2 this in
    heap_inv h3 l ∧ heapStart h3 = heapStart h ∧ heapEnd h3 = heapEnd h ∧
    ∀ a, kept h l a → rd8 (h_mem h3) a = rd8 (h_mem h) a.
Proof.
  intros Ht Ho Hb.
  destruct (build_session tries fuel out_of_bounds unable (when_clean (clean h l)) _ Ht h l ptrs strs (λ c, c) Ho Hb)
    as (h1 & h2 & l2 & s1 & s2 & s3 & E1 & E2 & Sn & H12 & H3 & B & Ou & Hz & _).
  exists (block s1), h1, (block s3), h2. split; [done|]. split; [done|].
  pose proof (op_bytes _ _ _ Ou) as Hby. split; [done|]. split.
  { intros Hc. eapply build_cstr; [done|done|]. apply Hz; [done|]. eapply terminator_inside; [done|by eapply buildable_count]. }
  split; [intros a; apply (session_kept _ _ _ _ _ a Sn)|].
  destruct (delete_spec h l h2 l2 s1 s2 s3 _ ptrs strs (bl_inv _ _ _ _ _ Hb) (sn_ext _ _ _ _ _ _ Sn) H12 H3 B
    (op_size _ _ _ Ou)) as [[D1 D2 D3 D4 D5 D6] _]. done.
Qed.

(** [buildAndDestroy] returns a pointer into memory it has given back:
    no block in use contains the address it returns. *)
Theorem buildAndDestroy_dangling {W : Type} `{PageMapperLaws W} tries fuel out_of_bounds unable
    (h : Heap W) l ptrs strs :
  (1 <= tries)%nat → is_u64 out_of_bounds → buildable fuel h l ptrs strs →
  ∃ this h1 p h3,
    new_FastStringBuilder tries fuel h (Z.of_nat (length ptrs)) = Done (this, h1) ∧
    FastStringBuilder_buildAndDestroy tries fuel unable (append_all out_of_bounds h1 this ptrs) this
      = Done (p, h3) ∧
    heap_inv h3 l ∧ ∀ u, in_use l u → ¬ (block u <= p < seg_end u).
Proof.
  intros Ht Ho Hb.
  destruct (build_session tries fuel out_of_bounds unable (when_clean (clean h l)) _ Ht h l ptrs strs (λ c, c) Ho Hb)
    as (h1 & h2 & l2 & s1 & s2 & s3 & E1 & E2 & Sn & H12 & H3 & B & Ou & Hz & _).
  exists (block s1), h1, (block s3), (delete_FastStringBuilder h2 (block s1)). split; [done|].
  unfold FastStringBuilder_buildAndDestroy. rewrite E2. split; [done|].
  destruct (delete_spec h l h2 l2 s1 s2 s3 _ ptrs strs (bl_inv _ _ _ _ _ Hb) (sn_ext _ _ _ _ _ _ Sn) H12 H3 B
    (op_size _ _ _ Ou)) as [[D1 _ _ _ _ _] _]. split; [done|].
  intros u Hu Hp. assert (kept h l (block s3)) as Hk by (right; eauto).
  destruct (session_kept_apart _ _ _ _ _ s3 _ Sn ltac:(apply elem_of_cons; by left) Hk) as [|Hge]; [lia|].
  pose proof (op_size _ _ _ Ou) as Hs. unfold build_size in Hs.
  pose proof (Forall2_length _ _ _ (bl_texts _ _ _ _ _ Hb)) as El. pose proof (bl_count _ _ _ _ _ Hb).
  rewrite seg_end_block in Hge. lia.
Qed.

(** ** Example: two strings below the heap *)

Definition text_mem : mem :=
  store 0x1000 (bytes_of_string "oke") (store 0x1010 (bytes_of_string "OS") ∅).

Lemma text_mem_low x : 0x1012 <= x → rd8 text_mem x = 0.
Proof.
  intros Hx. unfold text_mem. rewrite !rd8_store by (vm_compute; repeat constructor; discriminate).
  rewrite !decide_False by (cbn; lia). done.
Qed.

(** A heap of two pages on any memory that is empty there. *)
Record fresh_heap (m0 : mem) (h : Heap Machine) : Prop := {
  fh_start : heapStart h = 0x800000;
  fh_end : heapEnd h = 0x802000;
  fh_inv : heap_inv h heap_segs;
  fh_clean : clean h heap_segs;
  fh_mem x : x < 0x800000 → rd8 (h_mem h) x = rd8 m0 x
}.

Lemma initHeap_fresh m0 :
  (∀ x, 0x800000 <= x → rd8 m0 x = 0) →
  { h | initHeap (with_mem heap0 m0) 0x800000 2 = Done h ∧ fresh_heap m0 h }.
Proof.
  intros Hm. destruct (is_done_Done (initHeap (with_mem heap0 m0) 0x800000 2)) as [h E]; [vm_compute; reflexivity|].
  exists h. split; [exact E|].
  destruct (initHeap_inv (with_mem heap0 m0) 0x800000 2 sample_machine_ok ltac:(by split; [|lia])
    ltac:(lia) ltac:(cbn; lia) ltac:(lia) ltac:(cbn; lia)) as [E'|(h' & E' & H1 & H2 & H3)]; rewrite E in E'; [discriminate|].
  apply Done_inj in E' as ->. split; [done|done|done| |].
  - intros u x Hu%list_elem_of_singleton Hf Hx. subst u. unfold block in Hx. cbn in Hx.
    rewrite (initHeap_frame _ _ _ _ _ E) by lia. apply Hm. lia.
  - intros x Hx. apply (initHeap_frame _ _ _ _ _ E). lia.
Qed.

(** A string below the heap. *)
Definition low_text (m0 : mem) (p : Z) (s : list Z) : bool :=
  cstrb m0 p s && (28 <=? p) && (p + Z.of_nat (length s) <? 0x800000) && (length s <? 200)%nat.

Lemma fresh_kept m0 h x : fresh_heap m0 h → 28 <= x < 0x800000 → kept h heap_segs x.
Proof. intros [E1 E2 _ _ _] Hx. left. split; rewrite ?E1; lia. Qed.

Lemma fresh_cstr m0 h p s : fresh_heap m0 h → low_text m0 p s = true → cstr (h_mem h) p s.
Proof.
  intros Hh (((Hs%cstrb_spec & H1%Z.leb_le)%andb_true_iff & H2%Z.ltb_lt)%andb_true_iff & _)%andb_true_iff.
  destruct Hs as [S1 S2]. split; [|by rewrite (fh_mem _ _ Hh) by lia]. intros i c Hc.
  pose proof (lookup_lt_Some _ _ _ Hc). rewrite (fh_mem _ _ Hh) by lia. by apply S1.
Qed.

Lemma fresh_buildable m0 h ptrs strs :
  fresh_heap m0 h → ptrs ≠ [] → (length ptrs < 200)%nat → Forall2 (λ p s, low_text m0 p s = true) ptrs strs →
  build_size strs < 2^31 → builder_room strs <= 8163 → buildable 200 h heap_segs ptrs strs.
Proof.
  intros Hh Hne Hlen Ht Hsm Hr. pose proof Hh as [E1 E2 Hi Hc Hm].
  assert (∀ p s, low_text m0 p s = true → 28 <= p ∧ p + Z.of_nat (length s) < 0x800000 ∧ (length s < 200)%nat) as Hlow.
  { intros p s (((_ & H1%Z.leb_le)%andb_true_iff & H2%Z.ltb_lt)%andb_true_iff & H3%Nat.ltb_lt)%andb_true_iff. done. }
  split; [done|destruct ptrs; [done|cbn; lia]| | | |done| |].
  - apply Forall_forall. intros p (i & Hp)%list_elem_of_lookup.
    destruct (Forall2_lookup_l _ _ _ _ _ Ht Hp) as (s & _ & Hs). apply Hlow in Hs. znorm. lia.
  - eapply Forall2_impl; [exact Ht|]. intros p s Hs. split; [by eapply fresh_cstr|by apply (Hlow p)].
  - intros p s i Hin Hi'. eapply fresh_kept; [done|]. apply list_elem_of_lookup in Hin as [j Hj].
    apply lookup_zip_Some in Hj as [Hp Hs]. pose proof (Forall2_lookup_lr _ _ _ _ _ _ Ht Hp Hs) as Hl.
    apply Hlow in Hl. lia.
  - eexists. split; [by apply elem_of_cons; left|]. split; [done|]. cbn. lia.
  - split; [|done]. unfold search_fuel. rewrite E1, E2. apply Nat.leb_le. vm_compute. reflexivity.
Qed.

Lemma text_heap : { h | fresh_heap text_mem h ∧
  buildable 200 h heap_segs [0x1000; 0x1010] [bytes_of_string "oke"; bytes_of_string "OS"] }.
Proof.
  destruct (initHeap_fresh text_mem) as (h & _ & Hh); [intros; apply text_mem_low; lia|].
  exists h. split; [done|]. eapply fresh_buildable; [exact Hh|done|cbn; lia|by repeat constructor|done|].
  vm_compute. discriminate.
Qed.

Lemma builder_concatenates_witness :
  ∃ h : Heap Machine, heap_inv h heap_segs ∧ ∃ this h1 p h2,
    new_FastStringBuilder 1 200 h 2 = Done (this, h1) ∧
    FastStringBuilder_build 1 200 0 (append_all 0 h1 this [0x1000; 0x1010]) this = Done (p, h2) ∧
    cstr (h_mem h2) p (bytes_of_string "okeOS") ∧
    heap_inv (delete_FastStringBuilder h2 this) heap_segs.
Proof.
  destruct text_heap as (h & [E1 E2 Hi Hc Hm] & Hb). exists h. split; [exact Hi|].
  destruct (builder_concatenates 1 200 0 0 h heap_segs [0x1000; 0x1010]
    [bytes_of_string "oke"; bytes_of_string "OS"] ltac:(lia) ltac:(done) Hb)
    as (this & h1 & p & h2 & N & B & _ & Hs & _ & Hd & _).
  exists this, h1, p, h2. split; [exact N|]. split; [exact B|]. split; [exact (Hs Hc)|exact Hd].
Defined.

Lemma buildAndDestroy_dangling_witness :
  ∃ h : Heap Machine, heap_inv h heap_segs ∧ ∃ this h1 p h3,
    new_FastStringBuilder 1 200 h 2 = Done (this, h1) ∧
    FastStringBuilder_buildAndDestroy 1 200 0 (append_all 0 h1 this [0x1000; 0x1010]) this = Done (p, h3) ∧
    heap_inv h3 heap_segs.
Proof.
  destruct text_heap as (h & [E1 E2 Hi Hc Hm] & Hb). exists h. split; [exact Hi|].
  destruct (buildAndDestroy_dangling 1 200 0 0 h heap_segs [0x1000; 0x1010]
    [bytes_of_string "oke"; bytes_of_string "OS"] ltac:(lia) ltac:(done) Hb)
    as (this & h1 & p & h3 & N & B & Hd & _).
  exists this, h1, p, h3. split; [exact N|]. split; [exact B|exact Hd].
Defined.
