(* ===== verification/Logger.v ===== *)
(** * lib/logger.h: the logger

    A message is assembled by a [FastStringBuilder] on the heap and printed
    as a format by debug.cpp.  Heap and console work on the same memory: the
    state is a heap and a console, and the console is given the heap's memory
    before it prints and gives it back afterwards.  The literals of the
    source lie at the addresses of [literals]. *)

From S2P Require Import Prelude Memory PageMapper Heap HeapSpec HeapRefine.
From S2P Require Import HeapMalloc HeapGrow HeapClient HeapRun HeapFrame MemorySamples.
From S2P Require Import PortIO Framebuffer Console Kprintf Screen Output StringBuilder.

Inductive LoggerTarget := NONE | TERMINAL | SERIAL | BOTH.

Record Logger := mkLogger { tag : Z; nspace : Z; target : LoggerTarget }.

(** The constructor; [target] has the default [BOTH]. *)
Definition Logger_new (tag nspace : Z) : Logger := mkLogger tag nspace BOTH.

Record literals := mkLiterals {
  lit_open : Z;
  lit_slash : Z;
  lit_info : Z;
  lit_warn : Z;
  lit_error : Z;
  lit_newline : Z;
  lit_oob : Z;
  lit_unable : Z
}.

Section Logger.
Context {W : Type} `{PageMapper W}.
Context (device : ports → Z → Z) (poll : nat) (fb : limine_framebuffer) (font : list Z).
Context (tries n fuel : nat) (lits : literals).

(** [print(builder->build(), args); delete builder;] *)
Definition print_and_delete (print : Console → Z → outcome Console) (builder : Z)
    (h : Heap W) (k : Console) : outcome (Heap W * Console) :=
  '(p, h) ← FastStringBuilder_build tries fuel (lit_unable lits) h builder;
  k ← print (with_kmem k (h_mem h)) p;
  let h := delete_FastStringBuilder (with_mem h (k_mem k)) builder in
  Done (h, with_kmem k (h_mem h)).

Definition __internal_log (lg : Logger) (tpStr str : Z) (args : list Z) (h : Heap W) (k : Console)
  : outcome (Heap W * Console) :=
  '(builder, h) ← new_FastStringBuilder tries fuel h 7;
  let append h p := FastStringBuilder_append (lit_oob lits) h builder p in
  let h := append h (lit_open lits) in
  let h := append h (nspace lg) in
  let h := append h (lit_slash lits) in
  let h := append h (tag lg) in
  let h := append h tpStr in
  let h := append h str in
  let h := append h (lit_newline lits) in
  match target lg with
  | BOTH => print_and_delete (λ k p, vakprintf_both device poll fb font n fuel k in_memory p args) builder h k
  | SERIAL => print_and_delete (λ k p, vakprintf_serial device poll n fuel k in_memory p args) builder h k
  | TERMINAL => print_and_delete (λ k p, vakprintf device poll fb font n fuel k in_memory p args) builder h k
  | NONE =>
      let h := delete_FastStringBuilder h builder in
      Done (h, with_kmem k (h_mem h))
  end.

Definition Logger_info (lg : Logger) (str : Z) (args : list Z) :=
  __internal_log lg (lit_info lits) str args.
Definition Logger_warn (lg : Logger) (str : Z) (args : list Z) :=
  __internal_log lg (lit_warn lits) str args.
Definition Logger_error (lg : Logger) (str : Z) (args : list Z) :=
  __internal_log lg (lit_error lits) str args.
End Logger.

(** ** What a message looks like *)

Inductive level := Info | Warn | Error.

Definition level_color (lv : level) : Z := match lv with Info => 55 | Warn => 89 | Error => 82 end.
Definition level_name (lv : level) : list Z :=
  bytes_of_string (match lv with Info => "[INF]" | Warn => "[WRN]" | Error => "[ERR]" end).
Definition level_literal (lits : literals) (lv : level) : Z :=
  match lv with Info => lit_info lits | Warn => lit_warn lits | Error => lit_error lits end.

(** The message as items of a format, with the caller's items [l]. *)
Definition log_items (lv : level) (ns tg : list Z) (l : list fitem) : list fitem :=
  [Color 56; Text [91]; Text ns; Text [47]; Text tg; Text [93; 32]; Color (level_color lv);
   Text (level_name lv); Color 70; Text [32]] ++ l ++ [Text [10]].

(** The strings the builder is given, and the text that should come out. *)
Definition log_strs (lv : level) (ns tg fmt : list Z) : list (list Z) :=
  [bytes_of_string "$c8["; ns; [47]; tg;
   [93; 32; 36; 99; level_color lv] ++ level_name lv ++ [36; 99; 70; 32]; fmt; [10]].

Definition log_text (lv : level) (ns tg text : list Z) : list Z :=
  [91] ++ ns ++ [47] ++ tg ++ [93; 32] ++ level_name lv ++ [32] ++ text ++ [10].

Definition log_ptrs (lits : literals) (lg : Logger) (lv : level) (str : Z) : list Z :=
  [lit_open lits; nspace lg; lit_slash lits; tag lg; level_literal lits lv; str; lit_newline lits].

Lemma log_fmt lv ns tg l : fmt_of (log_items lv ns tg l) = concat (log_strs lv ns tg (fmt_of l)).
Proof.
  unfold fmt_of, log_items, log_strs. change (bytes_of_string "$c8[") with [36; 99; 56; 91].
  rewrite !fmap_app, !concat_app. cbn [fmap list_fmap item_fmt concat app].
  rewrite <- ?app_assoc, ?app_nil_r. cbn [app]. rewrite <- ?app_assoc. cbn [app]. by rewrite <- ?app_assoc.
Qed.

Lemma log_text_of lv ns tg l : text_of (log_items lv ns tg l) = log_text lv ns tg (text_of l).
Proof.
  unfold text_of, log_items, log_text. rewrite !fmap_app, !concat_app.
  cbn [fmap list_fmap item_text concat app]. rewrite <- ?app_assoc, ?app_nil_r. cbn [app]. rewrite <- ?app_assoc. cbn [app]. by rewrite <- ?app_assoc.
Qed.

Lemma log_args lv ns tg l : args_of (log_items lv ns tg l) = args_of l.
Proof. unfold args_of, log_items. rewrite !fmap_app, !concat_app. cbn. by rewrite app_nil_r. Qed.

(** The source's level literals are the ones above. *)
Example level_literals :
  (λ lv, log_strs lv [] [] [] !! 4%nat) <$> [Info; Warn; Error] =
  Some <$> [bytes_of_string "] $c7[INF]$cF "; bytes_of_string "] $cY[WRN]$cF "; bytes_of_string "] $cR[ERR]$cF "].
Proof. reflexivity. Qed.

(** ** Correctness *)

(** What the console shows of a message, by target. *)
Definition log_sent (t : LoggerTarget) (term : Terminal) (text : list Z) : list Z :=
  match t with
  | NONE => []
  | TERMINAL => screen_log false term text
  | SERIAL => text
  | BOTH => screen_log true term text
  end.
Definition log_cursor (t : LoggerTarget) (term : Terminal) (text : list Z) : Terminal :=
  match t with TERMINAL | BOTH => fold_left advance text term | _ => term end.

Record shown (fb : limine_framebuffer) (font : list Z) (t : LoggerTarget) (safe : Z → Prop) (k : Console) (text : list Z) (k' : Console) : Prop := {
  sh_idle : idle k';
  sh_ready : screen_ready fb font k';
  sh_sent : sent (k_ports k') = sent (k_ports k) ++ log_sent t (plain (gTerminal k)) text;
  sh_cursor : plain (gTerminal k') = log_cursor t (plain (gTerminal k)) text;
  sh_mem a : safe a → rd8 (k_mem k') a = rd8 (k_mem k) a
}.

Section Correct.
Context {W : Type} `{PageMapperLaws W}.
Context (device : ports → Z → Z) (poll : nat) (fb : limine_framebuffer) (font : list Z).
Context (tries n fuel : nat) (lits : literals).
Implicit Types h : Heap W.

(** What the caller of the logger has to provide: room on a heap off the
    screen; a namespace, a tag and a message without [%] and
    [$] of their own; arguments that fit the message. *)
Record loggable (lg : Logger) (lv : level) h (l : list seg) (k : Console) (str : Z)
    (ns tg : list Z) (msg : list fitem) : Prop := {
  lb_target : target lg ≠ NONE;
  lb_build : buildable fuel h l (log_ptrs lits lg lv str) (log_strs lv ns tg (fmt_of msg));
  lb_screen a : heapStart h <= a < heapEnd h → off_screen fb a;
  lb_idle : idle k;
  lb_ready : screen_ready fb font k;
  lb_names : Forall (λ c, c ≠ 36 ∧ c ≠ 37) (ns ++ tg);
  lb_items : Forall (item_ok fuel (with_kmem k (h_mem h))) msg;
  lb_safe : Forall (item_safe (λ a, kept h l a ∧ off_screen fb a)) msg;
  lb_fuel : (22 <= fuel)%nat ∧ (length (concat (log_strs lv ns tg (fmt_of msg))) < n)%nat;
  lb_oob : is_u64 (lit_oob lits)
}.

Lemma log_items_ok lv ns tg msg k :
  Forall (λ c, c ≠ 36 ∧ c ≠ 37) (ns ++ tg) → Forall (item_ok fuel k) msg →
  Forall (item_ok fuel k) (log_items lv ns tg msg).
Proof.
  intros [Hns Htg]%Forall_app Hm. unfold log_items. apply Forall_app. split; [|apply Forall_app; split; [done|]].
  - items; try (constructor; [done|repeat constructor; done]).
    + destruct lv; done.
    + destruct lv; done.
    + destruct lv; by apply plain_text_ok.
  - by items.
Qed.

Lemma item_ok_kept (P : Z → Prop) k k' i :
  (∀ a, P a → rd8 (k_mem k') a = rd8 (k_mem k) a) → item_safe P i → item_ok fuel k i → item_ok fuel k' i.
Proof.
  intros Hm Hs. destruct i as [| | | | | |p s]; try done. intros ((H1 & H2) & Hd). split; [|done]. split.
  - intros j c Hj. rewrite Hm by (apply Hs; apply lookup_lt_Some in Hj; lia). by apply H1.
  - by rewrite Hm by (apply Hs; lia).
Qed.

Lemma log_items_safe lv ns tg msg (P : Z → Prop) :
  Forall (item_safe P) msg → Forall (item_safe P) (log_items lv ns tg msg).
Proof.
  intros Hm. unfold log_items. apply Forall_app. split; [|apply Forall_app; split; [done|]].
  - by repeat constructor.
  - by repeat constructor.
Qed.

Hypothesis uart_ready : ∀ past, ready_within device poll past = true.

(** The call of debug.cpp that the target selects. *)
Definition printer (t : LoggerTarget) (args : list Z) (k : Console) (p : Z) : outcome Console :=
  match t with
  | BOTH => vakprintf_both device poll fb font n fuel k in_memory p args
  | SERIAL => vakprintf_serial device poll n fuel k in_memory p args
  | TERMINAL => vakprintf device poll fb font n fuel k in_memory p args
  | NONE => Done k
  end.

Lemma printer_shows t k p items :
  t ≠ NONE → idle k → screen_ready fb font k → (22 <= fuel)%nat →
  Forall (item_ok fuel k) items → Forall (item_safe (off_screen fb)) items →
  cstr (k_mem k) p (fmt_of items) →
  (∀ i, 0 <= i <= Z.of_nat (length (fmt_of items)) → off_screen fb (p + i)) →
  (length (fmt_of items) < n)%nat →
  ∃ k', printer t (args_of items) k p = Done k' ∧ shown fb font t (off_screen fb) k (text_of items) k'.
Proof using uart_ready.
  intros Ht Hi Hr Hf Hok Hsafe Hs Hoff Hn. apply string_in_memory in Hs.
  destruct t; [done|..]; unfold printer, vakprintf, vakprintf_both.
  - destruct (kprintf_screen_items device poll fb font false uart_ready n fuel k in_memory p items)
      as (k' & E & Hi' & [D1 D2 D3 D4]); try done; [by apply in_memory_steady|by exists k'].
  - destruct (kprintf_serial_items device poll uart_ready n fuel k in_memory p items)
      as (k' & E & Hi' & Hs'); try done; [by apply in_memory_steady|].
    exists k'. split; [done|]. pose proof Hs' as [S1 S2 _ _].
    split; [done|by eapply sends_ready|done|by eapply sends_plain|by rewrite S2].
  - destruct (kprintf_screen_items device poll fb font true uart_ready n fuel k in_memory p items)
      as (k' & E & Hi' & [D1 D2 D3 D4]); try done; [by apply in_memory_steady|by exists k'].
Qed.

Lemma internal_log_eq lg lv str args h k :
  __internal_log device poll fb font tries n fuel lits lg (level_literal lits lv) str args h k =
  ('(b, h1) ← new_FastStringBuilder tries fuel h 7;
   let h2 := append_all (lit_oob lits) h1 b (log_ptrs lits lg lv str) in
   match target lg with
   | NONE => let h := delete_FastStringBuilder h2 b in Done (h, with_kmem k (h_mem h))
   | t => print_and_delete tries fuel lits (printer t args) b h2 k
   end).
Proof.
  unfold __internal_log. destruct (new_FastStringBuilder _ _ _ _) as [[b h1]| | |]; cbv [mbind outcome_bind]; [|reflexivity..].
  unfold append_all, log_ptrs. cbn [fold_left]. destruct (target lg); reflexivity.
Qed.

(** The state after a message: everything the builder took is given back. *)
Record logged (lg : Logger) h (l : list seg) (k : Console) (text : list Z) h' (k' : Console) : Prop := {
  ld_inv : heap_inv h' l;
  ld_range : heapStart h' = heapStart h ∧ heapEnd h' = heapEnd h;
  ld_shared : k_mem k' = h_mem h';
  ld_shown : shown fb font (target lg) (λ _, False) k text k';
  ld_mem a : kept h l a → off_screen fb a → rd8 (h_mem h') a = rd8 (h_mem h) a
}.

(** What is zero before the builder [s3] belongs to is deleted, and its text,
    is zero afterwards, low bytes of headers apart. *)
Definition cleared h2 (l2 : list seg) (s3 : seg) (strs : list (list Z)) h' : Prop :=
  heapEnd h2 <= 2^24 → ∀ x, heapStart h2 <= x < heapEnd h2 → ¬ low l2 x →
    rd8 (h_mem h2) x = 0 ∨ block s3 <= x < block s3 + build_size strs → rd8 (h_mem h') x = 0.

(** Printing in the middle of a session on the heap. *)
Lemma print_and_delete_spec h l k ptrs strs hb h2 l2 s1 s2 s3 c pr k3 :
  heap_inv h l → extends h l [s3; s2; s1] h2 l2 → s1 ≠ s2 → (s3 ∉ [s2; s1]) →
  builder (h_mem h2) s1 s2 c ptrs (block s3) (build_size strs) → build_size strs <= s_len s3 →
  FastStringBuilder_build tries fuel (lit_unable lits) hb (block s1) = Done (block s3, h2) →
  (∀ a, heapStart h <= a < heapEnd h → off_screen fb a) →
  pr (with_kmem k (h_mem h2)) (block s3) = Done k3 →
  (∀ a, off_screen fb a → rd8 (k_mem k3) a = rd8 (h_mem h2) a) →
  ∃ h', print_and_delete tries fuel lits pr (block s1) hb k = Done (h', with_kmem k3 (h_mem h')) ∧
    heap_inv h' l ∧ (heapStart h' = heapStart h ∧ heapEnd h' = heapEnd h) ∧
    (∀ a, kept h l a → off_screen fb a → rd8 (h_mem h') a = rd8 (h_mem h) a) ∧
    cleared h2 l2 s3 strs h' ∧ h_world h' = h_world h.
Proof.
  intros Hi X H12 H3 B Hsz Eb Hoff Ep Hm. unfold print_and_delete. rewrite Eb, bind_Done, Ep, bind_Done.
  eexists. split; [done|].
  destruct (extends_outside h l _ h2 l2 (k_mem k3) X Hi) as [X' Hi'].
  { intros a Ha. by apply Hm, Hoff. }
  assert (builder (k_mem k3) s1 s2 c ptrs (block s3) (build_size strs)) as B'.
  { eapply builder_ext; [|exact B]. intros a Ha. apply Hm, Hoff.
    rewrite <- (ex_start _ _ _ _ _ X), <- (ex_end _ _ _ _ _ X).
    assert (in_use l2 s1 ∧ in_use l2 s2) as [U1 U2].
    { rewrite !(ex_use _ _ _ _ _ X), !elem_of_cons. tauto. }
    pose proof (block_on_heap _ _ _ (ex_inv _ _ _ _ _ X) U1).
    pose proof (block_on_heap _ _ _ (ex_inv _ _ _ _ _ X) U2). lia. }
  destruct (delete_spec _ l (with_mem h2 (k_mem k3)) l2 s1 s2 s3 _ ptrs strs Hi' X' H12 H3 B' Hsz)
    as [[D1 D2 D3 D4 D5 D6 D7] Hz].
  split; [done|]. split; [done|]. split; [|split; [|exact D7]].
  2: { intros Hsm x Hx Hlow Hx0. apply Hz; [done|by apply Hx|done|]. cbn [h_mem with_mem].
    destruct Hx0 as [Hx0|Hx0]; [left|by right]. rewrite Hm; [done|]. apply Hoff.
    by rewrite <- (ex_start _ _ _ _ _ X), <- (ex_end _ _ _ _ _ X). }
  intros a Ha Hs. rewrite D6 by done. cbn [h_mem with_mem]. rewrite rd8_splice.
  case_decide; [done|]. rewrite Hm by done. by apply (ex_kept _ _ _ _ _ X).
Qed.

(** The byte behind the text of the output block is one that [F] promises to be zero. *)
Definition terminated (F : Z → Prop) (l : list seg) (strs : list (list Z)) : Prop :=
  ∀ b1 b2 b3 l2, spec_allocs [32; 8 * Z.of_nat (length strs); build_size strs] l = Some ([b1; b2; b3], l2) →
    F (b3 + Z.of_nat (length (concat strs))).

Lemma log_spec (I : Heap W → list seg → Prop) (F : Z → Prop) `{!Tracked I F} lg lv h l k str ns tg msg :
  let strs := log_strs lv ns tg (fmt_of msg) in
  (1 <= tries)%nat → loggable lg lv h l k str ns tg msg → I h l → terminated F l strs →
  ∃ h' k', __internal_log device poll fb font tries n fuel lits lg (level_literal lits lv) str
             (args_of msg) h k = Done (h', k') ∧
    logged lg h l k (log_text lv ns tg (text_of msg)) h' k' ∧ h_world h' = h_world h ∧
    ∃ h2 l2 s1 s2 s3, session I h l [s3; s2; s1] h2 l2 ∧ cleared h2 l2 s3 strs h' ∧
      (∀ x, F x → block s3 + Z.of_nat (length (concat strs)) <= x < seg_end s3 → rd8 (h_mem h2) x = 0) ∧
      spec_allocs [32; 56; build_size strs] l = Some ([block s1; block s2; block s3], l2).
Proof using H0 uart_ready.
  intros strs Ht [L1 L2 L4 L5 L6 L7 L8 L9 [L10 L11] L12] HI Hterm. rewrite internal_log_eq.
  destruct (build_session tries fuel (lit_oob lits) (lit_unable lits) I F Ht h l _ _ HI L12 L2)
    as (h1 & h2 & l2 & s1 & s2 & s3 & E1 & E2 & Sn & H12 & H3 & B & Ou & Hz & Hsp).
  change (Z.of_nat (length (log_ptrs lits lg lv str))) with 7 in E1, B, Hsp. rewrite E1, bind_Done. cbn zeta.
  fold strs in B, Ou, Hz, Hsp. set (items := log_items lv ns tg msg).
  assert (concat strs = fmt_of items) as Ef by (symmetry; apply log_fmt).
  pose proof (op_size _ _ _ Ou) as Hsz. unfold build_size in Hsz.
  assert (length strs = 7%nat) as E7 by done.
  assert (in_use l2 s3) as U3 by (eapply session_in_use; [exact Sn|by apply elem_of_cons; left]).
  pose proof (block_on_heap _ _ _ (session_inv _ _ _ _ _ Sn) U3) as (D1 & D2 & D3 & D4 & D5).
  rewrite (ex_start _ _ _ _ _ (sn_ext _ _ _ _ _ _ Sn)), (ex_end _ _ _ _ _ (sn_ext _ _ _ _ _ _ Sn)) in *.
  destruct (printer_shows (target lg) (with_kmem k (h_mem h2)) (block s3) items L1 L5 L6 L10)
    as (k3 & Ep & [K1 K1' K2 K3 K4]).
  - apply log_items_ok; [done|]. rewrite Forall_forall in L8, L9 |- *. intros i Hin.
    eapply item_ok_kept; [|by apply L9|by apply L8]. intros a [Ha _]. apply (session_kept _ _ _ _ _ a Sn Ha).
  - apply log_items_safe. rewrite Forall_forall in L9 |- *. intros i Hin. specialize (L9 i Hin).
    destruct i; try done. intros j Hj. by apply L9.
  - rewrite <- Ef. eapply build_cstr; [exact L2|done|]. apply Hz; [by eapply Hterm|].
    eapply terminator_inside; [exact Ou|lia].
  - intros i Hi. apply L4. rewrite <- Ef in Hi. lia.
  - by rewrite <- Ef.
  - unfold items in Ep. rewrite log_args in Ep.
    destruct (print_and_delete_spec h l k (log_ptrs lits lg lv str) strs _ h2 l2 s1 s2 s3 7
      (printer (target lg) (args_of msg)) k3 (bl_inv _ _ _ _ _ L2) (sn_ext _ _ _ _ _ _ Sn) H12 H3 B
      (op_size _ _ _ Ou) E2 L4 Ep K4) as (h' & E' & Hi' & Hr & Hk & Hcl & Hw).
    exists h', (with_kmem k3 (h_mem h')). split; [by destruct (target lg)|]. split.
    + split; [done|done|done| |done]. rewrite <- log_text_of. by split.
    + split; [done|]. by exists h2, l2, s1, s2, s3.
Qed.
End Correct.

(** The member function of a level. *)
Definition log_at {W : Type} `{PageMapper W} device poll fb font tries n fuel lits (lv : level)
    (lg : Logger) (str : Z) (args : list Z) (h : Heap W) (k : Console) : outcome (Heap W * Console) :=
  match lv with
  | Info => Logger_info device poll fb font tries n fuel lits lg str args h k
  | Warn => Logger_warn device poll fb font tries n fuel lits lg str args h k
  | Error => Logger_error device poll fb font tries n fuel lits lg str args h k
  end.

(** C6: [info], [warn] and [error] print the message and leave the heap as it
    was.  For every message built of text, colours and the specifiers c, d, u,
    x and s, with a logger whose target is not [NONE], on a heap with room whose
    free memory was never used and holds zeros, the call returns; the targets show the text [[namespace/tag] [LVL] message] and a
    newline; the heap has exactly the segments it had; and no byte outside the
    screen that the caller could rely on has changed. *)
Theorem logger_prints {W : Type} `{PageMapperLaws W} device poll fb font tries n fuel lits
    lg lv (h : Heap W) l k str ns tg msg :
  (∀ past, ready_within device poll past = true) → (1 <= tries)%nat →
  loggable fb font n fuel lits lg lv h l k str ns tg msg → clean h l →
  ∃ h' k', log_at device poll fb font tries n fuel lits lv lg str (args_of msg) h k = Done (h', k') ∧
    logged fb font lg h l k (log_text lv ns tg (text_of msg)) h' k'.
Proof.
  intros Hu Ht Hl Hc.
  destruct (log_spec device poll fb font tries n fuel lits Hu (when_clean (clean h l)) _ lg lv h l k str ns tg msg Ht Hl)
    as (h' & k' & E & Hd & _); [exact (λ c, c)|by intros b1 b2 b3 l2 _|].
  exists h', k'. split; [|done]. rewrite <- E. by destruct lv.
Qed.

(** A logger with target [NONE] frees a null pointer.  Its builder is
    never built, so the destructor calls [sfree(nullptr, 0)], which stores into
    the header that would precede address 0: the last byte of the address
    space becomes 1.  The heap itself keeps its segments. *)
Theorem silent_logger_frees_null {W : Type} `{PageMapperLaws W} device poll fb font tries n fuel lits
    lg lv (h : Heap W) l k str args :
  (1 <= tries)%nat → heap_inv h l → target lg = NONE → (search_fuel h <= fuel)%nat →
  room (32 + 29 + (64 + 29 + 16)) l → Forall is_u64 (log_ptrs lits lg lv str) → is_u64 (lit_oob lits) →
  (∀ a, a < 0 → rd8 (h_mem h) a = 0) →
  ∃ h' k', log_at device poll fb font tries n fuel lits lv lg str args h k = Done (h', k') ∧
    heap_inv h' l ∧ rd8 (h_mem h') (-1) = 1 ∧ k_ports k' = k_ports k ∧ gTerminal k' = gTerminal k.
Proof.
  intros Ht Hi Hn Hf Hr Hp Ho Hneg.
  destruct (new_spec tries fuel untracked (λ _, False) Ht h l 7 16 Logic.I Hi)
    as (h1 & l1 & s1 & s2 & E1 & Sn1 & H12 & B1 & _); [lia|lia|exact Hr|done|].
  assert (s1 ∈ [s2; s1] ∧ s2 ∈ [s2; s1]) as [I1 I2] by (rewrite !elem_of_cons; tauto).
  destruct (append_all_spec (lit_oob lits) untracked (λ _, False) h l [s2; s1] h1 l1 s1 s2 7 [] (log_ptrs lits lg lv str) 0 0
    Sn1 I1 I2 H12 Hp Ho B1) as [[X2 _] B2]; [done|].
  destruct (delete_unbuilt_spec h l _ l1 s1 s2 7 _ Hi X2 H12 B2 Hneg) as (D1 & D2 & _).
  set (h3 := delete_FastStringBuilder _ _) in *. exists h3, (with_kmem k (h_mem h3)). split; [|by split].
  transitivity (__internal_log device poll fb font tries n fuel lits lg (level_literal lits lv) str args h k);
    [by destruct lv|].
  rewrite internal_log_eq, E1, bind_Done, Hn. cbn zeta. reflexivity.
Qed.

(** ** Example: messages on a fresh heap *)

(** The strings of the example: literals, names and three messages. *)
Definition log_mem : mem :=
  foldr (λ '(p, s) m, store p s m) ∅
    [(0x1000, bytes_of_string "$c8["); (0x1010, [47]);
     (0x1020, bytes_of_string "] $c7[INF]$cF "); (0x1040, bytes_of_string "] $cY[WRN]$cF ");
     (0x1060, bytes_of_string "] $cR[ERR]$cF "); (0x1080, [10]);
     (0x1090, bytes_of_string "FastStringBuilder OutOfBounds");
     (0x10c0, bytes_of_string "FastStringBuilder Unable to allocate memory");
     (0x1100, bytes_of_string "Kernel"); (0x1110, bytes_of_string "Heap");
     (0x1120, bytes_of_string "up: %u"); (0x1140, bytes_of_string "heap ready, 1 MiB free")].

Definition sample_lits : literals := mkLiterals 0x1000 0x1010 0x1020 0x1040 0x1060 0x1080 0x1090 0x10c0.
Definition sample_logger : Logger := mkLogger 0x1110 0x1100 SERIAL.
Definition log_heap0 : Heap Machine := with_mem heap0 log_mem.

Definition log_console : Console := mkConsole log_mem (Terminal_init screen_fb terminal_boot) [] false false.

Definition two_messages (first second : Z) : outcome (list Z) :=
  h ← initHeap log_heap0 0x800000 2;
  '(h, k) ← Logger_info ready_device 1 screen_fb text_font 1 100 200 sample_lits sample_logger first [7] h log_console;
  '(_, k) ← Logger_info ready_device 1 screen_fb text_font 1 100 200 sample_lits sample_logger second [] h k;
  Done (sent (k_ports k)).

(** A message after a longer-lived one may end in stray bytes.  The
    builder's output has no terminator of its own and [malloc] does not clear
    memory: the second message, 22 characters long, is followed by two bytes of
    a segment header that the first message left behind. *)
Example stale_bytes_printed :
  two_messages 0x1120 0x1140 =
  Done (log_text Info (bytes_of_string "Kernel") (bytes_of_string "Heap") (bytes_of_string "up: 7") ++
        log_text Info (bytes_of_string "Kernel") (bytes_of_string "Heap") (bytes_of_string "heap ready, 1 MiB free") ++
        [252; 30]).
Proof. vm_compute. reflexivity. Qed.

Lemma log_mem_high x : x < 0 ∨ 0x2000 <= x → rd8 log_mem x = 0.
Proof.
  intros Hx. unfold log_mem. cbn [foldr].
  rewrite !rd8_store by (vm_compute; repeat constructor; discriminate).
  rewrite !decide_False by (cbn; lia). done.
Qed.

Definition sample_msg : list fitem := [Text (bytes_of_string "up: "); Udec 7].

Lemma log_heap lv t :
  { h | fresh_heap log_mem h ∧
    buildable 200 h heap_segs (log_ptrs sample_lits (mkLogger 0x1110 0x1100 t) lv 0x1120)
      (log_strs lv (bytes_of_string "Kernel") (bytes_of_string "Heap") (fmt_of sample_msg)) }.
Proof.
  destruct (initHeap_fresh log_mem) as (h & _ & Hh); [intros; apply log_mem_high; lia|].
  exists h. split; [done|]. eapply fresh_buildable; [exact Hh|done|cbn; lia| | |].
  - destruct lv; repeat constructor.
  - destruct lv; done.
  - destruct lv; vm_compute; discriminate.
Qed.

Lemma log_loggable lv t h :
  t ≠ NONE → fresh_heap log_mem h →
  buildable 200 h heap_segs (log_ptrs sample_lits (mkLogger 0x1110 0x1100 t) lv 0x1120)
      (log_strs lv (bytes_of_string "Kernel") (bytes_of_string "Heap") (fmt_of sample_msg)) →
  loggable screen_fb text_font 100 200 sample_lits (mkLogger 0x1110 0x1100 t) lv h heap_segs log_console
    0x1120 (bytes_of_string "Kernel") (bytes_of_string "Heap") sample_msg.
Proof.
  intros Ht [E1 E2 Hi Hc Hm] Hb. split; [done|done| |done| | | | | |done].
  - rewrite E1. intros a Ha. right. cbn. lia.
  - apply Terminal_init_ready; try (vm_compute; done); vm_compute; split_and!; done.
  - by apply plain_text_ok.
  - unfold sample_msg. by items.
  - by repeat constructor.
  - split; [lia|]. destruct lv; vm_compute; lia.
Qed.

Lemma logger_prints_witness :
  ∃ (h h' : Heap Machine) k', heap_inv h heap_segs ∧
    Logger_warn ready_device 1 screen_fb text_font 1 100 200 sample_lits (Logger_new 0x1110 0x1100) 0x1120 [7]
      h log_console = Done (h', k') ∧ heap_inv h' heap_segs.
Proof.
  destruct (log_heap Warn BOTH) as (h & Hh & Hb).
  destruct (logger_prints ready_device 1 screen_fb text_font 1 100 200 sample_lits (mkLogger 0x1110 0x1100 BOTH)
    Warn h heap_segs log_console 0x1120 (bytes_of_string "Kernel") (bytes_of_string "Heap") sample_msg)
    as (h' & k' & E & Hd).
  - exact ready_device_ok.
  - lia.
  - by apply log_loggable.
  - apply Hh.
  - exists h, h', k'. split; [apply Hb|]. split; [exact E|apply Hd].
Defined.

Lemma silent_logger_frees_null_witness :
  ∃ (h h' : Heap Machine) k', heap_inv h heap_segs ∧
    Logger_info ready_device 1 screen_fb text_font 1 100 200 sample_lits (mkLogger 0x1110 0x1100 NONE) 0x1120 []
      h log_console = Done (h', k') ∧ rd8 (h_mem h') (-1) = 1.
Proof.
  destruct (log_heap Info NONE) as (h & Hh & Hb).
  destruct (silent_logger_frees_null ready_device 1 screen_fb text_font 1 100 200 sample_lits
    (mkLogger 0x1110 0x1100 NONE) Info h heap_segs log_console 0x1120 []) as (h' & k' & E & _ & H1 & _).
  - lia.
  - apply Hb.
  - reflexivity.
  - apply Hb.
  - eexists. split; [apply elem_of_cons; left; reflexivity|]. split; [reflexivity|]. cbn. lia.
  - apply Hb.
  - by vm_compute.
  - intros a Ha. rewrite (fh_mem _ _ Hh) by lia. apply log_mem_high. lia.
  - exists h, h', k'. split; [apply Hb|]. split; [exact E|exact H1].
Defined.
