(* ===== verification/HeapTest.v ===== *)
(** * kernel.cpp: the heap test of the boot sequence

    Behind [initHeap], [_start] allocates a block, copies a string into it,
    prints the string and a few lines more, and frees the block with [sfree].
    Heap and console share one memory, as in the logger. *)

From S2P Require Import Prelude Memory PageMapper Heap HeapSpec HeapRefine.
From S2P Require Import HeapMalloc HeapGrow HeapClient HeapRun HeapFrame MemorySamples.
From S2P Require Import CString PortIO Framebuffer Console Kprintf Screen Output Layout StringBuilder.

Definition prelog (s : string) : list Z :=
  bytes_of_string "$c8[Kernel/PreLogger] $c7[???]$cF " ++ bytes_of_string s ++ [10].

Section Test.
Context {W : Type} `{PageMapper W}.
Context (device : ports → Z → Z) (poll : nat) (fb : limine_framebuffer) (font : list Z) (tries fuel : nat).

(** [copyable] is the address of the literal "Hello World!". *)
Definition heap_test (copyable : Z) (h : Heap W) (k : Console) : outcome (Heap W * Console) :=
  '(newString, h) ← malloc tries fuel h 16;
  k ← kprintf_serial device poll fuel (with_kmem k (h_mem h)) (prelog "Address of newString: 0x%x") [newString];
  len ← strlen fuel (k_mem k) copyable;
  let k := with_kmem k (memcpy (k_mem k) newString copyable len).2 in
  k ← kprintf_both device poll fb font fuel k (prelog "Heap Test: %s") [newString];
  k ← kprintf_both device poll fb font fuel k (prelog "Heap successfully initiliazed!") [];
  k ← kprintf_both device poll fb font fuel k
        (prelog "Funny fun fact: The HeapSegHdr is %d bytes long") [SIZEOF_HDR];
  let h := sfree (with_mem h (k_mem k)) newString 16 in
  Done (h, with_kmem k (h_mem h)).
End Test.

(** ** What it shows *)

Definition prelog_items (l : list fitem) : list fitem :=
  [Color 56; Text (bytes_of_string "[Kernel/PreLogger] "); Color 55; Text (bytes_of_string "[???]");
   Color 70; Text [32]] ++ l ++ [Text [10]].

Definition prelog_text (text : list Z) : list Z :=
  bytes_of_string "[Kernel/PreLogger] [???] " ++ text ++ [10].

Definition hello : list Z := bytes_of_string "Hello World!".

(** The lines on both targets. *)
Definition test_text : list Z :=
  prelog_text (bytes_of_string "Heap Test: " ++ hello) ++
  prelog_text (bytes_of_string "Heap successfully initiliazed!") ++
  prelog_text (bytes_of_string "Funny fun fact: The HeapSegHdr is 29 bytes long").

Definition address_text (p : Z) : list Z := prelog_text (bytes_of_string "Address of newString: 0x" ++ hex16 p).

(** Discharges the conditions on the items of a line. *)
Ltac prelog_ok :=
  unfold prelog_items; cbn [app]; rewrite !Forall_cons, Forall_nil; cbn [item_ok item_safe]; split_and!;
  try (apply plain_text_ok; vm_compute; reflexivity); try done.

Section Correct.
Context {W : Type} `{PageMapperLaws W}.
Context (device : ports → Z → Z) (poll : nat) (fb : limine_framebuffer) (font : list Z) (tries fuel : nat).
Implicit Types h : Heap W.
Hypothesis uart_ready : ∀ past, ready_within device poll past = true.

(** A line of the boot log as a format. *)
Record boot_line (s : string) (l : list fitem) (text : list Z) : Prop := {
  bl_fmt : fmt_of (prelog_items l) = prelog s;
  bl_text : text_of (prelog_items l) = prelog_text text;
  bl_literal : literal_ok (prelog s) = true
}.

Lemma boot_line_displays s l text k :
  boot_line s l text → idle k → screen_ready fb font k → (40 <= fuel)%nat →
  Forall (item_ok fuel k) (prelog_items l) → Forall (item_safe (off_screen fb)) (prelog_items l) →
  ∃ k', kprintf_both device poll fb font fuel k (prelog s) (args_of (prelog_items l)) = Done k' ∧
    idle k' ∧ displays fb font true k (prelog_text text) k'.
Proof using uart_ready.
  intros [E1 E2 E3] Hi Hr Hf Hok Hs. rewrite <- E1, <- E2.
  apply kprintf_both_displays; try done; [lia|by rewrite E1].
Qed.

(** The three lines on both targets, given the string. *)
Lemma test_lines k p :
  idle k → screen_ready fb font k → (40 <= fuel)%nat → cstr (k_mem k) p hello →
  (∀ j, 0 <= j <= 12 → off_screen fb (p + j)) →
  ∃ k1 k2 k3,
    kprintf_both device poll fb font fuel k (prelog "Heap Test: %s") [p] = Done k1 ∧
    kprintf_both device poll fb font fuel k1 (prelog "Heap successfully initiliazed!") [] = Done k2 ∧
    kprintf_both device poll fb font fuel k2
      (prelog "Funny fun fact: The HeapSegHdr is %d bytes long") [SIZEOF_HDR] = Done k3 ∧
    idle k3 ∧ displays fb font true k test_text k3.
Proof using uart_ready.
  intros Hi Hr Hf Hs Hoff.
  destruct (boot_line_displays "Heap Test: %s" [Text (bytes_of_string "Heap Test: "); Str p hello]
    (bytes_of_string "Heap Test: " ++ hello) k) as (k1 & E1 & I1 & D1);
    [split; vm_compute; reflexivity|done|done|lia|prelog_ok; [by repeat constructor|cbn; lia]|prelog_ok|].
  pose proof (ds_ready _ _ _ _ _ _ D1) as R1.
  destruct (boot_line_displays "Heap successfully initiliazed!" [Text (bytes_of_string "Heap successfully initiliazed!")]
    (bytes_of_string "Heap successfully initiliazed!") k1) as (k2 & E2 & I2 & D2);
    [split; vm_compute; reflexivity|done|done|lia|prelog_ok|prelog_ok|].
  pose proof (ds_ready _ _ _ _ _ _ D2) as R2.
  destruct (boot_line_displays "Funny fun fact: The HeapSegHdr is %d bytes long"
    [Text (bytes_of_string "Funny fun fact: The HeapSegHdr is "); Dec 29; Text (bytes_of_string " bytes long")]
    (bytes_of_string "Funny fun fact: The HeapSegHdr is 29 bytes long") k2)
    as (k3 & E3 & I3 & D3); [split; vm_compute; reflexivity|done|done|lia|prelog_ok|prelog_ok|].
  exists k1, k2, k3. split; [exact E1|]. split; [exact E2|]. split; [exact E3|]. split; [done|].
  pose proof (screen_sink device poll fb font true uart_ready) as Sk.
  exact (sk_app _ _ _ _ _ _ _ _ Sk _ _ _ _ _ D1 (sk_app _ _ _ _ _ _ _ _ Sk _ _ _ _ _ D2 D3)).
Qed.

Lemma address_line_sends k p :
  idle k → (40 <= fuel)%nat → is_u64 p →
  ∃ k', kprintf_serial device poll fuel k (prelog "Address of newString: 0x%x") [p] = Done k' ∧
    idle k' ∧ sends k (address_text p) k'.
Proof using uart_ready.
  intros Hi Hf Hp. set (l := prelog_items [Text (bytes_of_string "Address of newString: 0x"); Hex p]).
  assert (fmt_of l = prelog "Address of newString: 0x%x") as <- by (vm_compute; reflexivity).
  assert (text_of l = address_text p) as <-.
  { unfold text_of, l, prelog_items, address_text, prelog_text. cbn [fmap list_fmap item_text concat app].
    by rewrite <- !app_assoc. }
  apply (kprintf_serial_sends device poll uart_ready fuel k l); [done|lia| |vm_compute; reflexivity].
  unfold l. prelog_ok.
Qed.

(** What the boot sequence has set up by now. *)
Record testable h (l : list seg) (k : Console) (copyable : Z) : Prop := {
  te_inv : heap_inv h l;
  te_clean : clean h l;
  te_room : room 16 l;
  te_fuel : (1 <= tries)%nat ∧ (40 <= fuel)%nat ∧ (search_fuel h <= fuel)%nat;
  te_screen a : heapStart h <= a < heapEnd h → off_screen fb a;
  te_idle : idle k;
  te_ready : screen_ready fb font k;
  te_literal : cstr (h_mem h) copyable hello;
  te_kept i : 0 <= i <= 12 → kept h l (copyable + i)
}.

(** The block after the copy. *)
Lemma test_copy h l k copyable h1 l1 s m1 :
  testable h l k copyable → session (when_clean (clean h l)) h l [s] h1 l1 → 16 <= s_len s →
  (∀ x, block s <= x < seg_end s → rd8 m1 x = 0) → (∀ a, kept h l a → rd8 m1 a = rd8 (h_mem h) a) →
  strlen fuel m1 copyable = Done 12 ∧
  let m2 := (memcpy m1 (block s) copyable 12).2 in
  cstr m2 (block s) hello ∧ ∀ x, ¬ (block s <= x < block s + 12) → rd8 m2 x = rd8 m1 x.
Proof.
  clear uart_ready.
  intros [T1 T2 T3 T4 T5 T6 T7 [C1 C2] T9] Sn Hl Hz Hk.
  assert (cstr m1 copyable hello) as Hc.
  { split; [intros i c Hi; pose proof (lookup_lt_Some _ _ _ Hi) as Hlt; change (length hello) with 12%nat in Hlt;
      rewrite Hk by (apply T9; lia); by apply C1|].
    change (length hello) with 12%nat in *. by rewrite Hk by (apply T9; lia). }
  split; [by rewrite (strlen_correct fuel m1 copyable hello Hc) by (change (length hello) with 12%nat; lia)|].
  assert (copyable + 12 < block s ∨ seg_end s <= copyable) as Hap.
  { rewrite seg_end_block. apply interval_apart; [lia|lia|]. intros i Hi. rewrite <- seg_end_block.
    apply (session_kept_apart _ _ _ _ _ s _ Sn); [by apply elem_of_cons; left|by apply T9]. }
  cbn zeta. assert (∀ a, rd8 (memcpy m1 (block s) copyable 12).2 a = moved m1 (block s) copyable 12 a) as Hm.
  { intros a. apply memcpy_moved. rewrite seg_end_block in Hap. lia. }
  unfold moved in Hm. destruct Hc as [H1 H2]. split; [split|].
  - intros i c Hi. pose proof (lookup_lt_Some _ _ _ Hi) as Hlt. change (length hello) with 12%nat in Hlt.
    rewrite Hm, decide_True by lia. replace (copyable + _) with (copyable + Z.of_nat i) by lia. by apply H1.
  - change (length hello) with 12%nat. rewrite Hm, decide_False by lia. apply Hz. rewrite seg_end_block. lia.
  - intros x Hx. by rewrite Hm, decide_False.
Qed.

(** What the test leaves behind. *)
Record tested h (l : list seg) (k : Console) (p : Z) h' (k' : Console) : Prop := {
  td_inv : heap_inv h' l;
  td_idle : idle k';
  td_sent : sent (k_ports k') =
    sent (k_ports k) ++ address_text p ++ screen_log true (plain (gTerminal k)) test_text;
  td_terminal : plain (gTerminal k') = fold_left advance test_text (plain (gTerminal k));
  td_mem a : kept h l a → off_screen fb a → rd8 (h_mem h') a = rd8 (h_mem h) a;
  td_range : heapStart h' = heapStart h ∧ heapEnd h' = heapEnd h;
  td_shared : k_mem k' = h_mem h';
  td_world : h_world h' = h_world h;
  td_ready : screen_ready fb font k';
  (** what was zero on the heap still is, the low bytes of two headers apart *)
  td_zeros : heapEnd h <= 2^24 → ∃ l1, spec_alloc 16 l = Some (p, l1) ∧
    ∀ x, heapStart h <= x < heapEnd h → ¬ low l1 x → rd8 (h_mem h) x = 0 → rd8 (h_mem h') x = 0
}.

Lemma heap_test_spec h l k copyable :
  testable h l k copyable →
  ∃ p h' k', heap_test device poll fb font tries fuel copyable h k = Done (h', k') ∧ tested h l k p h' k'.
Proof using H0 uart_ready.
  intros T. pose proof T as [T1 T2 T3 (F1 & F2 & F3) T5 T6 T7 T8 T9].
  destruct (session_malloc tries fuel h l [] h l 16 (session_refl (when_clean (clean h l)) _ _ (λ c, c) T1))
    as (h1 & l1 & s & E1 & Sn & Al & _); [lia|exact T3|done|done|].
  pose proof (al_seg _ _ _ _ _ _ Al) as [U1 L1]. pose proof (al_inv _ _ _ _ _ _ Al) as Hi1.
  pose proof (block_on_heap _ _ _ Hi1 U1) as (D1 & D2 & D3 & D4 & D5).
  unfold heap_test. rewrite E1, bind_Done.
  destruct (address_line_sends (with_kmem k (h_mem h1)) (block s)) as (k1 & -> & I1 & Se);
    [done|done|znorm; lia|]. rewrite bind_Done. pose proof Se as [S1 S2 _ _]. cbn [k_mem with_kmem] in S2.
  destruct (test_copy h l k copyable h1 l1 s (k_mem k1) T Sn L1) as (Es & Hc & Hm2).
  { rewrite S2. intros x Hx. by apply (clean_allocated _ _ _ _ _ _ T2 Al). }
  { rewrite S2. intros a Ha. exact (session_kept _ _ _ _ _ a Sn Ha). }
  rewrite Es, bind_Done. cbn zeta in Hc, Hm2 |- *. set (m2 := (memcpy _ _ _ 12).2) in *.
  destruct (test_lines (with_kmem k1 m2) (block s)) as (k2 & k3 & k4 & -> & E3 & E4 & I4 & [Q1 Q2 Q3 Q4]);
    [done|exact (sends_ready _ _ _ _ _ Se T7)|done|done| |].
  { intros j Hj. apply T5. rewrite <- (al_start _ _ _ _ _ _ Al), <- (al_end _ _ _ _ _ _ Al). lia. }
  rewrite bind_Done, E3, bind_Done, E4, bind_Done.
  cbn [k_mem k_ports gTerminal with_kmem] in Q2, Q3, Q4, S1.
  assert (extends h l [s] (with_mem h1 m2) l1) as X.
  { eapply extends_write; [apply Sn|by apply elem_of_cons; left|]. rewrite <- S2. intros x Hx. apply Hm2. lia. }
  destruct (extends_outside h l [s] _ l1 (k_mem k4) X T1) as [X' Hi'].
  { intros a Ha. apply Q4, T5, Ha. }
  pose proof (sfree_released (with_mem h1 (k_mem k4)) l1 s 16 (ex_inv _ _ _ _ _ X') U1 ltac:(lia)) as R.
  pose proof (extends_release_one _ _ _ _ _ _ _ Hi' X' R) as X2.
  set (h5 := sfree _ _ _) in *. exists (block s), h5, (with_kmem k4 (h_mem h5)). split; [done|].
  split; [apply X2|done| | | | |done|by apply X2|done|].
  - cbn [k_ports with_kmem]. by rewrite Q3, S1, (sends_plain _ _ _ Se), app_assoc.
  - cbn [gTerminal with_kmem]. by rewrite Q2, (sends_plain _ _ _ Se).
  - intros a Ha Hs. rewrite (ex_kept _ _ _ _ _ X2) by done. cbn [h_mem with_mem]. rewrite rd8_splice.
    case_decide; [done|]. rewrite Q4 by done. by apply (ex_kept _ _ _ _ _ X).
  - by split; apply X2.
  - intros Hsm. exists l1. split; [apply Al|]. intros x Hx Hlow Hz.
    destruct (decide (block s <= x < block s + 16)) as [Hd|Hd]; [by apply sfree_zeroed|].
    apply (rl_zeros _ _ _ _ _ R); [cbn; by rewrite (al_end _ _ _ _ _ _ Al)|cbn; rewrite (al_start _ _ _ _ _ _ Al); lia|done|].
    cbn [h_mem with_mem]. rewrite Q4, Hm2, S2 by (lia || by apply T5).
    by apply (al_zeros _ _ _ _ _ _ Al); [|lia|..].
Qed.
End Correct.

(** The heap test of the boot sequence passes.  On a heap with room whose
    free memory was never used, [_start] allocates the block, prints its
    address on the serial line and "Heap Test: Hello World!" and the two lines
    after it on both targets, and after [sfree] the heap has exactly the
    segments it had before. *)
Theorem heap_test_passes {W : Type} `{PageMapperLaws W} device poll fb font tries fuel (h : Heap W) l k copyable :
  (∀ past, ready_within device poll past = true) → testable fb font tries fuel h l k copyable →
  ∃ p h' k', heap_test device poll fb font tries fuel copyable h k = Done (h', k') ∧ tested fb font h l k p h' k'.
Proof. intros Hu. by apply heap_test_spec. Qed.

(** ** Example *)

Definition hello_mem : mem := store 0x1000 hello ∅.

Lemma hello_mem_high x : 0x2000 <= x → rd8 hello_mem x = 0.
Proof.
  intros Hx. unfold hello_mem. rewrite rd8_store by (vm_compute; repeat constructor; discriminate).
  rewrite decide_False by (cbn; lia). done.
Qed.

Lemma heap_test_passes_witness :
  ∃ (h h' : Heap Machine) k', heap_inv h heap_segs ∧
    heap_test ready_device 1 screen_fb text_font 1 200 0x1000 h
      (mkConsole hello_mem (Terminal_init screen_fb terminal_boot) [] false false) = Done (h', k') ∧
    heap_inv h' heap_segs.
Proof.
  destruct (initHeap_fresh hello_mem) as (h & _ & Hh); [intros; apply hello_mem_high; lia|].
  pose proof Hh as [E1 E2 Hi Hc Hm].
  destruct (heap_test_passes ready_device 1 screen_fb text_font 1 200 h heap_segs
    (mkConsole hello_mem (Terminal_init screen_fb terminal_boot) [] false false) 0x1000)
    as (p & h' & k' & E & Ht).
  - exact ready_device_ok.
  - split; [done|done| | | |done| | |].
    + eexists. split; [apply elem_of_cons; left; reflexivity|]. split; [reflexivity|]. cbn. lia.
    + split_and!; [lia|lia|]. unfold search_fuel. rewrite E1, E2. apply Nat.leb_le. vm_compute. reflexivity.
    + rewrite E1. intros a Ha. right. cbn. lia.
    + apply Terminal_init_ready; try (vm_compute; done); vm_compute; split_and!; done.
    + by eapply fresh_cstr.
    + intros i Hi'. eapply fresh_kept; [done|]. lia.
  - exists h, h', k'. split; [exact Hi|]. split; [exact E|apply Ht].
Defined.
