(* ===== verification/LogSeq.v ===== *)
(** * lib/logger.h: messages one after the other

    A builder's output has no terminator of its own: a message prints as it
    should exactly when the byte behind its text happens to be zero.  After
    earlier messages that byte may belong to a header that is no longer in use.
    On a heap that is one free segment, as the kernel's is at boot, every
    message uses the same blocks, so that the positions of those headers follow
    from the lengths of the messages; [compatible] decides whether any message
    of a sequence could end on such a byte. *)

From S2P Require Import Prelude Memory PageMapper Heap HeapSpec HeapRefine.
From S2P Require Import HeapMalloc HeapGrow HeapClient HeapRun HeapFrame.
From S2P Require Import PortIO Framebuffer Console Kprintf Screen Output StringBuilder Logger.

(** ** The blocks of a message *)

(** The offset of the output block from the start of the heap. *)
Definition OUTPUT : Z := 183.

(** The segments while a message with an output of [n] bytes is printed. *)
Definition message_segs (a L n : Z) : list seg :=
  [mkSeg a 32 false; mkSeg (a + 61) 64 false; mkSeg (a + 154) (align16 n) false;
   mkSeg (a + OUTPUT + align16 n) (L - OUTPUT - align16 n) true].

Lemma spec_alloc_first size a L l :
  16 <= size → size + 45 <= L →
  spec_alloc size (mkSeg a L true :: l) =
  Some (a + 29, mkSeg a size false :: mkSeg (a + size + 29) (L - size - 29) true :: l).
Proof.
  intros H16 HL. cbn [spec_alloc]. unfold HeapSpec.fits. cbn [s_free s_len andb]. destruct (Z.leb_spec size L); [|lia].
  unfold carve. cbn [s_len s_addr]. destruct (Z.ltb_spec size L); [|lia].
  destruct (Z.leb_spec 16 (L - size - 29)); [|lia]. done.
Qed.

Lemma spec_alloc_used size a n l b l' :
  spec_alloc size l = Some (b, l') →
  spec_alloc size (mkSeg a n false :: l) = Some (b, mkSeg a n false :: l').
Proof. intros E. cbn [spec_alloc]. unfold HeapSpec.fits. cbn [s_free andb]. by rewrite E. Qed.

Lemma message_allocs a L n :
  0 < n <= 2^31 → OUTPUT + align16 n + 16 <= L →
  spec_allocs [32; 56; n] [mkSeg a L true] = Some ([a + 29; a + 90; a + OUTPUT], message_segs a L n).
Proof.
  intros Hn HL. destruct (align16_spec n ltac:(lia)) as (A1 & A2 & _). unfold OUTPUT in *.
  assert (align16 32 = 32 ∧ align16 56 = 64) as [E1 E2] by done.
  eapply spec_allocs_cons; [rewrite E1; apply spec_alloc_first; lia|].
  replace (a + 90) with (a + 32 + 29 + 29) by lia.
  eapply spec_allocs_cons; [rewrite E2; apply spec_alloc_used, spec_alloc_first; lia|].
  eapply (spec_allocs_cons _ _ _ (a + OUTPUT) (message_segs a L n)); [|done].
  replace (a + OUTPUT) with (a + 32 + 29 + 64 + 29 + 29) by (unfold OUTPUT; lia).
  pose proof (spec_alloc_first (align16 n) (a + 32 + 29 + 64 + 29) (L - 32 - 29 - 64 - 29) [] ltac:(lia) ltac:(lia)) as E3.
  rewrite (spec_alloc_used _ _ _ _ _ _ (spec_alloc_used _ _ _ _ _ _ E3)).
  unfold message_segs, OUTPUT.
  replace (a + 32 + 29 + 64 + 29 + align16 n + 29) with (a + 183 + align16 n) by lia.
  replace (L - 32 - 29 - 64 - 29 - align16 n - 29) with (L - 183 - align16 n) by lia.
  replace (a + 32 + 29 + 64 + 29) with (a + 154) by lia. by replace (a + 32 + 29) with (a + 61) by lia.
Qed.

(** ** Messages *)

Record message := mkMessage { m_level : level; m_str : Z; m_items : list fitem }.

Section Sequence.
Context (ns tg : list Z).

Definition m_strs (m : message) : list (list Z) := log_strs (m_level m) ns tg (fmt_of (m_items m)).
Definition m_length (m : message) : Z := Z.of_nat (length (concat (m_strs m))).
Definition m_text (m : message) : list Z := log_text (m_level m) ns tg (text_of (m_items m)).
(** Where the header behind the output block is. *)
Definition m_header (m : message) : Z := align16 (build_size (m_strs m)).

(** No message ends on a byte of a header that another one may have left. *)
Definition compatible (ms : list message) : bool :=
  forallb (λ m, forallb (λ m', negb (bool_decide ((m_length m - m_header m') ∈ low_offsets))) ms) ms.

Lemma compatible_spec ms m m' :
  compatible ms = true → m ∈ ms → m' ∈ ms → (m_length m - m_header m') ∉ low_offsets.
Proof.
  unfold compatible. rewrite forallb_forall. intros Hc Hm Hm'.
  pose proof (Hc m ltac:(by apply list_elem_of_In)) as Hc1. rewrite forallb_forall in Hc1.
  pose proof (Hc1 m' ltac:(by apply list_elem_of_In)) as Hc2. apply negb_true_iff in Hc2.
  by apply bool_decide_eq_false in Hc2.
Qed.

(** The addresses that stay zero while messages of [ms] are printed. *)
Definition quiet (a : Z) (ms : list message) (x : Z) : Prop :=
  a + OUTPUT <= x ∧ ∀ m, m ∈ ms → (x - (a + OUTPUT + m_header m)) ∉ low_offsets.

Context {W : Type} `{PageMapperLaws W}.
Context (device : ports → Z → Z) (poll : nat) (fb : limine_framebuffer) (font : list Z).
Context (tries n fuel : nat) (lits : literals) (lg : Logger).
Implicit Types h : Heap W.

(** The messages one after the other. *)
Fixpoint log_all (ms : list message) h (k : Console) : outcome (Heap W * Console) :=
  match ms with
  | [] => Done (h, k)
  | m :: ms =>
      '(h, k) ← log_at device poll fb font tries n fuel lits (m_level m) lg (m_str m) (args_of (m_items m)) h k;
      log_all ms h k
  end.

(** A message whose strings lie off the screen. *)
Record ready_message h (l : list seg) (k : Console) (m : message) : Prop := {
  rm_log : loggable fb font n fuel lits lg (m_level m) h l k (m_str m) ns tg (m_items m);
  rm_off p s i : (p, s) ∈ zip (log_ptrs lits lg (m_level m) (m_str m)) (m_strs m) →
    0 <= i <= Z.of_nat (length s) → off_screen fb (p + i)
}.

Hypothesis uart_ready : ∀ past, ready_within device poll past = true.
Hypothesis try_once : (1 <= tries)%nat.

Lemma message_size m : m_length m + 7 = build_size (m_strs m) ∧ 0 < m_length m.
Proof.
  unfold m_length, build_size. rewrite Nat2Z.inj_add.
  split; [reflexivity|]. unfold m_strs, log_strs. cbn [concat]. rewrite length_app. cbn. lia.
Qed.

(** The low bytes of the headers while [m] is printed are not among the quiet ones. *)
Lemma quiet_not_low a ms m L x :
  m ∈ ms → quiet a ms x → ¬ low (message_segs a L (build_size (m_strs m))) x.
Proof.
  intros Hm [Hx Hq] (u & Hu & Ho). unfold message_segs in Hu. unfold OUTPUT in *.
  assert (0 <= x - s_addr u <= 28) as Hr.
  { unfold low_offsets in Ho. rewrite !elem_of_cons, elem_of_nil in Ho. lia. }
  rewrite !elem_of_cons, elem_of_nil in Hu. destruct Hu as [->|[->|[->|[->|[]]]]]; cbn [s_addr] in *; try lia.
  by apply (Hq m Hm).
Qed.

Lemma cleared_tidy a L ms m h h2 h' s3 :
  let l2 := message_segs a L (build_size (m_strs m)) in
  let l := [mkSeg a L true] in
  m ∈ ms → block s3 = a + OUTPUT → in_use l2 s3 → heap_inv h' l →
  tidy (quiet a ms) h2 l2 → cleared h2 l2 s3 (m_strs m) h' →
  heapStart h2 = heapStart h' → heapEnd h2 = heapEnd h' →
  (∀ x, quiet a ms x → block s3 + m_length m <= x < seg_end s3 → rd8 (h_mem h2) x = 0) →
  tidy (quiet a ms) h' l.
Proof.
  intros l2 l Hm Hb Hu Hi [Hsm Ht] Hcl Es Ee Hz. split; [lia|]. intros x Hq Hx _ _.
  destruct (message_size m) as [Hsz H0']. pose proof (quiet_not_low a ms m L x Hm Hq) as Hlow.
  apply Hcl; [done|lia|done|].
  destruct (decide (block s3 <= x < block s3 + build_size (m_strs m))) as [Hd|Hd]; [by right|left].
  destruct (decide (x < seg_end s3)) as [He|He]; [apply Hz; [done|]; destruct Hq; lia|].
  apply Ht; [done|lia| |done]. intros u [Hu1 Hf] Hxu.
  assert (s_len s3 = align16 (build_size (m_strs m))) as El.
  { destruct Hu as [Hu Hfu]. unfold l2, message_segs in Hu. rewrite !elem_of_cons, elem_of_nil in Hu.
    unfold block, OUTPUT in *. destruct Hu as [->|[->|[->|[->|[]]]]]; cbn [s_addr s_len s_free] in *; lia || done. }
  unfold l2, message_segs in Hu1. rewrite !elem_of_cons, elem_of_nil in Hu1.
  rewrite seg_end_block in He. destruct Hq as [Hq _]. unfold OUTPUT in *.
  destruct Hu1 as [->|[->|[->|[->|[]]]]]; cbn [s_free] in Hf; try done; unfold block, seg_end in *;
    cbn [s_addr s_len] in *; lia.
Qed.

Lemma log_step ms m h a L k :
  let l := [mkSeg a L true] in
  m ∈ ms → compatible ms = true → OUTPUT + m_header m + 16 <= L →
  tidy (quiet a ms) h l → ready_message h l k m →
  ∃ h' k', log_at device poll fb font tries n fuel lits (m_level m) lg (m_str m) (args_of (m_items m)) h k =
      Done (h', k') ∧
    logged fb font lg h l k (m_text m) h' k' ∧ tidy (quiet a ms) h' l ∧ h_world h' = h_world h.
Proof using H0 uart_ready try_once.
  intros l Hm Hc HL Ht [Hl Hoff]. destruct (message_size m) as [Hsz Hpos].
  pose proof (bl_small _ _ _ _ _ (lb_build _ _ _ _ _ _ _ _ _ _ _ _ _ _ Hl)) as Hsm. fold (m_strs m) in Hsm.
  pose proof (message_allocs a L (build_size (m_strs m)) ltac:(lia) HL) as Ea.
  destruct (log_spec device poll fb font tries n fuel lits uart_ready (tidy (quiet a ms)) _ lg (m_level m) h l k
    (m_str m) ns tg (m_items m) try_once Hl Ht) as (h' & k' & E & Hd & Hw & h2 & l2 & s1 & s2 & s3 & Sn & Hcl & Hz & Hsp).
  - intros b1 b2 b3 l2 Hsp. change (8 * Z.of_nat (length (log_strs (m_level m) ns tg (fmt_of (m_items m))))) with 56 in Hsp.
    fold (m_strs m) in Hsp |- *. unfold l in Hsp. rewrite Ea in Hsp. injection Hsp as _ _ <- _.
    split; [unfold m_length in *; lia|]. intros m' Hm'.
    pose proof (compatible_spec ms m m' Hc Hm Hm') as Hn. unfold m_length in *.
    replace (_ - _) with (Z.of_nat (length (concat (m_strs m))) - m_header m') by lia. done.
  - exists h', k'. split; [rewrite <- E; by destruct (m_level m)|]. split; [done|]. split; [|exact Hw].
    fold (m_strs m) in Hsp, Hcl, Hz. unfold l in Hsp. rewrite Ea in Hsp. injection Hsp as E1 E2 E3 <-.
    destruct (ld_range _ _ _ _ _ _ _ _ _ Hd) as [R1 R2]. pose proof (sn_ext _ _ _ _ _ _ Sn) as X.
    eapply (cleared_tidy a L ms m h h2 h' s3); try done.
    + eapply session_in_use; [exact Sn|by apply elem_of_cons; left].
    + apply Hd.
    + apply Sn.
    + by rewrite (ex_start _ _ _ _ _ X).
    + by rewrite (ex_end _ _ _ _ _ X).
Qed.

(** A later message is as ready as an earlier one. *)
Lemma ready_stable h l k text h' k' m :
  logged fb font lg h l k text h' k' → ready_message h l k m → ready_message h' l k' m.
Proof.
  clear uart_ready try_once.
  intros [D1 [D2 D2'] D3 [S1 S2 S3 S4 S5] D5] [[L1 L2 L4 L5 L6 L7 L8 L9 L10 L11] Hoff].
  assert (∀ a, kept h' l a ↔ kept h l a) as Hk by (intros a; unfold kept; by rewrite D2, D2').
  split; [|done]. destruct L2 as [B1 B2 B3 B4 B5 B6 B7 [B8 B9]]. split; try done.
  - split; try done.
    + fold (m_strs m) in *. apply Forall2_same_length_lookup. apply Forall2_same_length_lookup in B4 as [E Ht].
      split; [done|]. intros i p s Hp Hs. destruct (Ht i p s Hp Hs) as [[C1 C2] C3]. split; [|done].
      assert ((p, s) ∈ zip (log_ptrs lits lg (m_level m) (m_str m)) (m_strs m)) as Hin.
      { apply list_elem_of_lookup. exists i. by apply lookup_zip_Some. }
      split; [intros j c Hj; pose proof (lookup_lt_Some _ _ _ Hj)|];
        rewrite D5 by (apply (B5 p s) || apply (Hoff p s); try done; lia); auto.
    + intros p s i Hin Hi. apply Hk. by apply (B5 p s).
    + unfold search_fuel in *. by rewrite D2, D2'.
  - intros a Ha. rewrite D2, D2' in Ha. by apply L4.
  - rewrite Forall_forall in L8, L9 |- *. intros i Hi. eapply item_ok_kept; [|by apply L9|by apply L8].
    intros a [Ha Ha']. cbn [k_mem with_kmem]. by apply D5.
  - rewrite Forall_forall in L9 |- *. intros i Hi. specialize (L9 i Hi). destruct i; try done.
    intros j Hj. destruct (L9 j Hj). split; [by apply Hk|done].
Qed.

Lemma log_sent_app t term s1 s2 :
  log_sent t term (s1 ++ s2) = log_sent t term s1 ++ log_sent t (log_cursor t term s1) s2.
Proof. destruct t; [done|apply screen_log_app|done|apply screen_log_app]. Qed.

Lemma log_cursor_app t term s1 s2 : log_cursor t term (s1 ++ s2) = log_cursor t (log_cursor t term s1) s2.
Proof. destruct t; [done|apply fold_left_app|done|apply fold_left_app]. Qed.

Lemma shown_app t k s1 k1 s2 k2 :
  shown fb font t (λ _, False) k s1 k1 → shown fb font t (λ _, False) k1 s2 k2 →
  shown fb font t (λ _, False) k (s1 ++ s2) k2.
Proof.
  intros [A1 A2 A3 A4 A5] [B1 B2 B3 B4 B5]. split; try done.
  - by rewrite B3, A3, A4, log_sent_app, app_assoc.
  - by rewrite B4, A4, log_cursor_app.
Qed.

Lemma log_sent_nil t term : log_sent t term [] = [].
Proof. by destruct t. Qed.

(** What is left after the messages: the heap as it was, the texts shown. *)
Lemma logged_trans h l k s1 h1 k1 s2 h2 k2 :
  logged fb font lg h l k s1 h1 k1 → logged fb font lg h1 l k1 s2 h2 k2 → logged fb font lg h l k (s1 ++ s2) h2 k2.
Proof.
  intros [A1 [A2 A2'] A3 A4 A5] [B1 [B2 B2'] B3 B4 B5].
  split; [done|by split; congruence|done|by eapply shown_app|].
  intros a Ha Hs. rewrite B5; [by apply A5| |done]. unfold kept in *. by rewrite A2, A2'.
Qed.

Lemma log_all_spec all ms h a L k :
  let l := [mkSeg a L true] in
  (∀ m, m ∈ ms → m ∈ all) → compatible all = true → (∀ m, m ∈ ms → OUTPUT + m_header m + 16 <= L) →
  heap_inv h l → k_mem k = h_mem h → idle k → screen_ready fb font k →
  tidy (quiet a all) h l → (∀ m, m ∈ ms → ready_message h l k m) →
  ∃ h' k', log_all ms h k = Done (h', k') ∧
    logged fb font lg h l k (concat (m_text <$> ms)) h' k' ∧ tidy (quiet a all) h' l ∧ h_world h' = h_world h.
Proof using H0 uart_ready try_once.
  intros l. revert h k. induction ms as [|m ms IH]; intros h k Hall Hc HL Hi Em Hid Hr Ht Hms; cbn [log_all].
  - exists h, k. split; [done|]. split; [|done]. split; try done. split; try done.
    + by rewrite log_sent_nil, app_nil_r.
    + by destruct (target lg).
  - assert (m ∈ m :: ms) as Hm by (by apply elem_of_cons; left).
    assert (∀ x, x ∈ ms → x ∈ m :: ms) as Hin by (intros x Hx; by apply elem_of_cons; right).
    destruct (log_step all m h a L k (Hall m Hm) Hc (HL m Hm) Ht (Hms m Hm)) as (h1 & k1 & -> & D1 & Ht1 & Hw1).
    rewrite bind_Done. destruct (IH h1 k1) as (h2 & k2 & -> & D2 & Ht2 & Hw2); auto; try apply D1.
    + intros x Hx. eapply ready_stable; [exact D1|]. auto.
    + exists h2, k2. split; [done|]. split; [|split; [done|congruence]]. rewrite fmap_cons. by eapply logged_trans.
Qed.
End Sequence.

(** C16: messages do not disturb each other.  On a heap below 16 MiB that is one
    free segment with zeros where the outputs go, as after boot, every sequence
    of [info], [warn] and [error] whose lengths are [compatible] is printed
    exactly: the calls return, the texts appear one after the other, no stray
    byte of an earlier message between them, and the heap is one free segment
    again. *)
Theorem log_sequence {W : Type} `{PageMapperLaws W} device poll fb font tries n fuel lits lg ns tg ms
    (h : Heap W) a L k :
  (∀ past, ready_within device poll past = true) → (1 <= tries)%nat →
  heap_inv h [mkSeg a L true] → heapEnd h <= 2^24 →
  (∀ x, a + OUTPUT <= x < heapEnd h → rd8 (h_mem h) x = 0) →
  k_mem k = h_mem h → idle k → screen_ready fb font k →
  Forall (λ m, OUTPUT + m_header ns tg m + 16 <= L ∧
               ready_message ns tg fb font n fuel lits lg h [mkSeg a L true] k m) ms →
  compatible ns tg ms = true →
  ∃ h' k', log_all device poll fb font tries n fuel lits lg ms h k = Done (h', k') ∧
    logged fb font lg h [mkSeg a L true] k (concat (m_text ns tg <$> ms)) h' k'.
Proof.
  intros Hu Ht Hi Hsm Hz Em Hid Hr Hms Hc. rewrite Forall_forall in Hms.
  destruct (log_all_spec ns tg device poll fb font tries n fuel lits lg Hu Ht ms ms h a L k)
    as (h' & k' & E & D & _); try done.
  - intros m Hm. by apply Hms.
  - split; [done|]. intros x [Hx _] Hx' _ _. apply Hz. lia.
  - intros m Hm. by apply Hms.
  - by exists h', k'.
Qed.
