(* ===== verification/Panic.v ===== *)
(** * panic.cpp: the last words of the kernel

    [panic] prints its message and a stack trace on the serial line and on
    the terminal and then loops for ever; the definition gives the console
    as it is when the loop starts.  The stack is a chain of frames in
    memory: at a frame's address the address of its caller's frame, behind
    it the return address. *)

From S2P Require Import Prelude Memory CString PortIO Framebuffer Console Kprintf Screen Output.

Definition line (s : string) : list Z := bytes_of_string s ++ [10].

Section Panic.
Context (device : ports → Z → Z) (poll : nat) (fb : limine_framebuffer) (font : list Z) (fuel : nat).

Abbreviation kprintf := (kprintf device poll fb font fuel).
Abbreviation kprintf_serial := (kprintf_serial device poll fuel).

(** [struct stackframe] *)
Definition frame_rbp (m : mem) (stk : Z) : Z := rd64 m stk.
Definition frame_rip (m : mem) (stk : Z) : Z := rd64 m (stk + 8).

(** The loop of the two traces; [n] is [MaxFrames - frame]. *)
Fixpoint trace_loop (print : Console → list Z → list Z → outcome Console) (n : nat)
    (k : Console) (stk : Z) : outcome Console :=
  match n with
  | O => Done k
  | S n' =>
      if stk =? 0 then Done k
      else
        k ← print k (line "  0x%x     ") [frame_rip (k_mem k) stk];
        trace_loop print n' k (frame_rbp (k_mem k) stk)
  end.

(** [frame] is [__builtin_frame_address(0)]. *)
Definition traceStackTrace (k : Console) (frame MaxFrames : Z) : outcome Console :=
  k ← kprintf k (line "Stack trace:") [];
  trace_loop kprintf (Z.to_nat MaxFrames) k frame.

Definition traceStackTraceOnlySerial (k : Console) (frame MaxFrames : Z) : outcome Console :=
  k ← kprintf_serial k (line "Stack trace:") [];
  trace_loop kprintf_serial (Z.to_nat MaxFrames) k frame.

(** Up to [while(1)]; the two traces have frames of their own. *)
Definition panic (k : Console) (msg frame1 frame2 : Z) : outcome Console :=
  let k := set_fg k 0xFF0000 in
  k ← kprintf_serial k (line "Panic GODDAMN!") [];
  k ← kprintf_serial k (line "Message: %s" ++ [10; 10]) [msg];
  k ← traceStackTraceOnlySerial k frame1 16;
  k ← kprintf k [10; 10] [];
  k ← kprintf k (line "** okeOS Panic **                             :(") [];
  k ← kprintf k (line "A fatal exception occurred and okeOS was halted.") [];
  k ← kprintf k (line "Message: %s" ++ [10; 10]) [msg];
  traceStackTrace k frame2 16.
End Panic.

(** Code that may end in one of the kernel's endless loops, with the console
    as it is then, or go on. *)
Inductive phase (A : Type) := Halted (k : Console) | Going (a : A).
Arguments Halted {A} k.
Arguments Going {A} a.

Definition then_phase {A B : Type} (e : outcome (phase A)) (f : A → outcome (phase B)) : outcome (phase B) :=
  r ← e; match r with Halted k => Done (Halted k) | Going a => f a end.

(** ** What is printed *)

(** The return addresses of the innermost [n] frames. *)
Fixpoint stack_walk (n : nat) (m : mem) (stk : Z) : list Z :=
  match n with
  | O => []
  | S n' => if stk =? 0 then [] else frame_rip m stk :: stack_walk n' m (frame_rbp m stk)
  end.

Definition frame_text (rip : Z) : list Z := bytes_of_string "  0x" ++ hex16 rip ++ line "     ".

Definition stack_text (n : nat) (m : mem) (stk : Z) : list Z :=
  line "Stack trace:" ++ concat (frame_text <$> stack_walk n m stk).

Definition message_text (s : list Z) : list Z := bytes_of_string "Message: " ++ s ++ [10; 10; 10].

(** The frames of the walk lie at addresses in [safe]. *)
Fixpoint stack_safe (safe : Z → Prop) (n : nat) (m : mem) (stk : Z) : Prop :=
  match n with
  | O => True
  | S n' => stk = 0 ∨ ((∀ i, 0 <= i < 16 → safe (stk + i)) ∧ stack_safe safe n' m (frame_rbp m stk))
  end.

Lemma stack_safe_mono (P Q : Z → Prop) n m stk :
  (∀ a, P a → Q a) → stack_safe P n m stk → stack_safe Q n m stk.
Proof.
  intros HPQ. revert stk. induction n as [|n IH]; intros stk; [done|]. cbn [stack_safe].
  intros [?|[H1 H2]]; [by left|right]. split; [auto|]. by apply IH.
Qed.

(** Frames that two memories agree on. *)
Lemma frame_agree (safe : Z → Prop) m m' stk :
  (∀ a, safe a → rd8 m' a = rd8 m a) → (∀ i, 0 <= i < 16 → safe (stk + i)) →
  frame_rip m' stk = frame_rip m stk ∧ frame_rbp m' stk = frame_rbp m stk.
Proof.
  intros Hm Hs. split; apply rdN_ext; intros a Ha; apply Hm.
  - replace a with (stk + (a - stk)) by lia. apply Hs. lia.
  - replace a with (stk + (a - stk)) by lia. apply Hs. lia.
Qed.

Lemma stack_agree (safe : Z → Prop) n m m' stk :
  (∀ a, safe a → rd8 m' a = rd8 m a) → stack_safe safe n m stk →
  stack_walk n m' stk = stack_walk n m stk ∧ stack_safe safe n m' stk.
Proof.
  intros Hm. revert stk. induction n as [|n IH]; intros stk Hs; [done|].
  cbn [stack_walk stack_safe] in *. case_cmp; [split; [done|by left]|].
  destruct Hs as [?|[Hs Hs']]; [done|]. destruct (frame_agree safe m m' stk Hm Hs) as [-> ->].
  destruct (IH _ Hs') as [-> ?]. split; [done|right]. done.
Qed.

(** Printing on any output. *)
Section Print.
Context (device : ports → Z → Z) (poll : nat) (writechar : Console → Z → outcome Console).
Context (serial terminal : bool) (good : Console → Prop) (safe : Z → Prop).
Context (shows : Console → list Z → Console → Prop).
Hypothesis out : sink device poll writechar serial terminal good safe shows.
Context (fuel : nat) (print : Console → list Z → list Z → outcome Console).
Hypothesis print_items : ∀ k l, idle k → good k → Forall (item_ok fuel k) l →
  Forall (item_safe safe) l → literal_ok (fmt_of l) = true →
  ∃ k', print k (fmt_of l) (args_of l) = Done k' ∧ idle k' ∧ shows k (text_of l) k'.

(** The console is ready, and shows [s] on the way to [k']. *)
Definition said (k : Console) (s : list Z) (k' : Console) : Prop := (idle k' ∧ good k') ∧ shows k s k'.

Lemma said_trans k s1 k1 s2 k2 : said k s1 k1 → said k1 s2 k2 → said k (s1 ++ s2) k2.
Proof. intros [_ A] [B1 B2]. split; [done|]. by eapply sk_app. Qed.

Lemma said_safe k s k' a : said k s k' → safe a → rd8 (k_mem k') a = rd8 (k_mem k) a.
Proof. intros [_ S]. by apply (sk_safe _ _ _ _ _ _ _ _ out _ _ _ _ S). Qed.

Lemma print_said k l :
  idle k ∧ good k → Forall (item_ok fuel k) l → Forall (item_safe safe) l →
  literal_ok (fmt_of l) = true → ∃ k', print k (fmt_of l) (args_of l) = Done k' ∧ said k (text_of l) k'.
Proof.
  intros [Hi Hg] Hok Hs Hl. destruct (print_items k l Hi Hg Hok Hs Hl) as (k' & E & Hi' & S).
  exists k'. split; [done|]. split; [|done]. split; [done|]. by eapply sk_good.
Qed.

Lemma print_text k s :
  idle k ∧ good k → literal_ok s = true → plain_text s = true →
  ∃ k', print k s [] = Done k' ∧ said k s k'.
Proof.
  intros Hk Hl Hp. destruct (print_said k [Text s] Hk) as (k' & E & S).
  - items.
  - items.
  - unfold fmt_of. cbn. by rewrite app_nil_r.
  - exists k'. unfold fmt_of, args_of, text_of in *. cbn in *. by rewrite app_nil_r in *.
Qed.

Lemma print_message k msg s :
  idle k ∧ good k → cstr (k_mem k) msg s → Forall (λ c, c ≠ 36) s → (length s < fuel)%nat →
  (∀ i, 0 <= i <= Z.of_nat (length s) → safe (msg + i)) →
  ∃ k', print k (line "Message: %s" ++ [10; 10]) [msg] = Done k' ∧ said k (message_text s) k'.
Proof.
  intros Hk Hs Hd Hl Hsafe.
  apply (print_said k [Text (bytes_of_string "Message: "); Str msg s; Text [10; 10; 10]]); try done.
  - items.
  - items.
Qed.

Lemma print_frame k rip :
  idle k ∧ good k → is_u64 rip →
  ∃ k', print k (line "  0x%x     ") [rip] = Done k' ∧ said k (frame_text rip) k'.
Proof.
  intros Hk Hr.
  destruct (print_said k [Text (bytes_of_string "  0x"); Hex rip; Text (line "     ")] Hk) as (k' & E & S);
    try done.
  - items.
  - items.
  - exists k'. split; [done|]. unfold text_of in S. cbn [fmap list_fmap concat item_text] in S.
    by rewrite app_nil_r in S.
Qed.

Lemma trace_loop_said n k stk :
  idle k ∧ good k → stack_safe safe n (k_mem k) stk →
  ∃ k', trace_loop print n k stk = Done k' ∧
    said k (concat (frame_text <$> stack_walk n (k_mem k) stk)) k'.
Proof.
  revert k stk. induction n as [|n IH]; intros k stk Hk Hs; cbn [trace_loop stack_walk].
  { exists k. split; [done|]. split; [done|]. eapply sk_nil; [exact out|apply Hk]. }
  cbn [stack_safe] in Hs. destruct (Z.eqb_spec stk 0) as [->|Hne].
  { exists k. split; [done|]. split; [done|]. eapply sk_nil; [exact out|apply Hk]. }
  destruct Hs as [?|[Hs Hs']]; [done|].
  destruct (print_frame k (frame_rip (k_mem k) stk) Hk (rd64_range _ _)) as (k1 & -> & S1).
  rewrite bind_Done.
  assert (∀ a, safe a → rd8 (k_mem k1) a = rd8 (k_mem k) a) as Hm by (intros a; by apply (said_safe _ _ _ _ S1)).
  destruct (frame_agree safe _ _ stk Hm Hs) as [_ ->].
  destruct (stack_agree safe n _ _ _ Hm Hs') as [Ew Hs1].
  destruct (IH k1 _ (proj1 S1) Hs1) as (k2 & -> & S2).
  exists k2. split; [done|]. rewrite fmap_cons. cbn [concat]. rewrite <- Ew.
  by eapply said_trans.
Qed.

Lemma trace_said n k stk :
  idle k ∧ good k → stack_safe safe n (k_mem k) stk →
  ∃ k', (k ← print k (line "Stack trace:") []; trace_loop print n k stk) = Done k' ∧
    said k (stack_text n (k_mem k) stk) k'.
Proof.
  intros Hk Hs. destruct (print_text k (line "Stack trace:") Hk eq_refl eq_refl) as (k1 & -> & S1).
  rewrite bind_Done. destruct (stack_agree safe n (k_mem k) (k_mem k1) stk) as [Ew Hs1];
    [intros a; by apply (said_safe _ _ _ _ S1)|done|].
  destruct (trace_loop_said n k1 stk (proj1 S1) Hs1) as (k2 & -> & S2).
  exists k2. split; [done|]. unfold stack_text. rewrite <- Ew. by eapply said_trans.
Qed.
End Print.

(** ** panic *)

Definition panic_banner : list Z :=
  [10; 10] ++ line "** okeOS Panic **                             :(" ++
  line "A fatal exception occurred and okeOS was halted.".

Section PanicSpec.
Context (device : ports → Z → Z) (poll : nat) (fb : limine_framebuffer) (font : list Z) (fuel : nat).
Hypothesis uart_ready : ∀ h, ready_within device poll h = true.
Hypothesis Hfuel : (22 <= fuel)%nat.

Lemma serial_items k l :
  idle k → True → Forall (item_ok fuel k) l → Forall (item_safe (λ _, True)) l →
  literal_ok (fmt_of l) = true →
  ∃ k', kprintf_serial device poll fuel k (fmt_of l) (args_of l) = Done k' ∧
    idle k' ∧ sends k (text_of l) k'.
Proof. intros Hi _ Hok _ Hl. by apply kprintf_serial_sends. Qed.

Lemma screen_items k l :
  idle k → screen_ready fb font k → Forall (item_ok fuel k) l → Forall (item_safe (off_screen fb)) l →
  literal_ok (fmt_of l) = true →
  ∃ k', kprintf device poll fb font fuel k (fmt_of l) (args_of l) = Done k' ∧
    idle k' ∧ displays fb font false k (text_of l) k'.
Proof. intros. by apply kprintf_displays. Qed.

(** The serial half. *)
Lemma panic_serial k msg s frame :
  idle k → cstr (k_mem k) msg s → Forall (λ c, c ≠ 36) s → (length s < fuel)%nat →
  ∃ k', (k ← kprintf_serial device poll fuel k (line "Panic GODDAMN!") [];
         k ← kprintf_serial device poll fuel k (line "Message: %s" ++ [10; 10]) [msg];
         traceStackTraceOnlySerial device poll fuel k frame 16) = Done k' ∧
    idle k' ∧
    sends k (line "Panic GODDAMN!" ++ message_text s ++ stack_text 16 (k_mem k) frame) k'.
Proof.
  intros Hi Hs Hd Hl. pose proof (serial_sink device poll uart_ready) as out.
  destruct (print_text _ _ _ _ _ _ _ _ out fuel _ serial_items k (line "Panic GODDAMN!") (conj Hi I) eq_refl eq_refl)
    as (k1 & -> & S1). rewrite bind_Done. pose proof (se_mem _ _ _ (proj2 S1)) as M1.
  destruct (print_message _ _ _ _ _ _ _ _ out fuel _ serial_items k1 msg s (proj1 S1)) as (k2 & -> & S2);
    try done; [by rewrite M1|]. rewrite bind_Done. pose proof (se_mem _ _ _ (proj2 S2)) as M2.
  assert (∀ n stk, stack_safe (λ _, True) n (k_mem k2) stk) as Hall.
  { induction n as [|n IH]; intros stk; [done|right]. by split. }
  destruct (trace_said _ _ _ _ _ _ _ _ out fuel _ serial_items 16 k2 frame (proj1 S2) (Hall _ _)) as (k3 & E & S3).
  exists k3. split; [exact E|]. split; [apply S3|]. rewrite M2, M1 in S3.
  by eapply (said_trans _ _ _ _ _ _ _ _ out); [|eapply (said_trans _ _ _ _ _ _ _ _ out)].
Qed.

(** The terminal half. *)
Lemma panic_screen k msg s frame :
  idle k → screen_ready fb font k → cstr (k_mem k) msg s → Forall (λ c, c ≠ 36) s → (length s < fuel)%nat →
  (∀ i, 0 <= i <= Z.of_nat (length s) → off_screen fb (msg + i)) →
  stack_safe (off_screen fb) 16 (k_mem k) frame →
  ∃ k', (k ← kprintf device poll fb font fuel k [10; 10] [];
         k ← kprintf device poll fb font fuel k (line "** okeOS Panic **                             :(") [];
         k ← kprintf device poll fb font fuel k (line "A fatal exception occurred and okeOS was halted.") [];
         k ← kprintf device poll fb font fuel k (line "Message: %s" ++ [10; 10]) [msg];
         traceStackTrace device poll fb font fuel k frame 16) = Done k' ∧
    idle k' ∧
    displays fb font false k (panic_banner ++ message_text s ++ stack_text 16 (k_mem k) frame) k'.
Proof.
  intros Hi Hr Hs Hd Hl Hsafe Hst. pose proof (screen_sink device poll fb font false uart_ready) as out.
  pose proof (print_text _ _ _ _ _ _ _ _ out fuel _ screen_items) as text.
  destruct (text k [10; 10] (conj Hi Hr) eq_refl eq_refl) as (k1 & -> & S1). rewrite bind_Done.
  destruct (text k1 (line "** okeOS Panic **                             :(") (proj1 S1) eq_refl eq_refl)
    as (k2 & -> & S2). rewrite bind_Done.
  destruct (text k2 (line "A fatal exception occurred and okeOS was halted.") (proj1 S2) eq_refl eq_refl)
    as (k3 & -> & S3). rewrite bind_Done.
  pose proof (said_trans _ _ _ _ _ _ _ _ out _ _ _ _ _ S1 (said_trans _ _ _ _ _ _ _ _ out _ _ _ _ _ S2 S3)) as S.
  assert (∀ a, off_screen fb a → rd8 (k_mem k3) a = rd8 (k_mem k) a) as Hm by apply S.
  assert (cstr (k_mem k3) msg s) as Hs3.
  { destruct Hs as [H1 H2]. split; [intros i c Hc|]; rewrite Hm by
      (apply Hsafe; try (apply lookup_lt_Some in Hc); lia); auto. }
  destruct (print_message _ _ _ _ _ _ _ _ out fuel _ screen_items k3 msg s (proj1 S) Hs3 Hd Hl Hsafe)
    as (k4 & -> & S4). rewrite bind_Done.
  pose proof (said_trans _ _ _ _ _ _ _ _ out _ _ _ _ _ S S4) as S'.
  destruct (stack_agree (off_screen fb) 16 (k_mem k) (k_mem k4) frame) as [Ew Hst4]; [apply S'|done|].
  destruct (trace_said _ _ _ _ _ _ _ _ out fuel _ screen_items 16 k4 frame (proj1 S4) Hst4) as (k5 & E & S5).
  exists k5. split; [exact E|]. split; [apply S5|].
  unfold stack_text in S5. rewrite Ew in S5. pose proof (said_trans _ _ _ _ _ _ _ _ out _ _ _ _ _ S' S5) as S''.
  destruct S'' as [_ S'']. by rewrite <- app_assoc in S''.
Qed.
End PanicSpec.

(** Output on the serial line leaves the screen as it is. *)
Lemma sends_screen fb font k s k' :
  sends k s k' → screen_ready fb font k →
  screen_ready fb font k' ∧ plain (gTerminal k') = plain (gTerminal k).
Proof.
  intros [_ _ Hc Hcol] (Ht & Hf & H32). unfold cursor in Hc. injection Hc as C1 C2 C3 C4. split.
  - split; [destruct Ht; split; lia|]. split; [by eapply fits_size|auto].
  - unfold plain. by rewrite C1, C2, C3, C4.
Qed.

Lemma panic_spec device poll fb font fuel k msg s frame1 frame2 :
  (∀ h, ready_within device poll h = true) → (22 <= fuel)%nat →
  idle k → screen_ready fb font k →
  cstr (k_mem k) msg s → Forall (λ c, c ≠ 36) s → (length s < fuel)%nat →
  (∀ i, 0 <= i <= Z.of_nat (length s) → off_screen fb (msg + i)) →
  stack_safe (off_screen fb) 16 (k_mem k) frame2 →
  let screen := panic_banner ++ message_text s ++ stack_text 16 (k_mem k) frame2 in
  ∃ k', panic device poll fb font fuel k msg frame1 frame2 = Done k' ∧
    plain (gTerminal k') = fold_left advance screen (plain (gTerminal k)) ∧
    sent (k_ports k') = sent (k_ports k) ++
      line "Panic GODDAMN!" ++ message_text s ++ stack_text 16 (k_mem k) frame1 ++
      screen_log false (plain (gTerminal k)) screen.
Proof.
  intros Hu Hf Hi Hr Hs Hd Hl Hsafe Hst screen. unfold panic.
  set (k0 := set_fg k 0xFF0000).
  assert (screen_ready fb font k0) as Hr0.
  { destruct Hr as ([] & Hfit & _). split; [by split|]. split; [|cbn; znorm; lia].
    by apply (fits_size fb font (gTerminal k)). }
  destruct (panic_serial device poll fuel Hu Hf k0 msg s frame1 Hi Hs Hd Hl) as (k1 & E1 & Hi1 & S1).
  destruct (sends_screen fb font _ _ _ S1 Hr0) as [Hr1 Ht1]. pose proof (se_mem _ _ _ S1) as M1.
  destruct (panic_screen device poll fb font fuel Hu Hf k1 msg s frame2 Hi1 Hr1) as (k2 & E2 & _ & S2);
    try done; try (by rewrite M1).
  exists k2. split; [|split].
  - apply bind_Done_inv in E1 as (ka & -> & E1). rewrite bind_Done.
    apply bind_Done_inv in E1 as (kb & -> & E1). rewrite bind_Done, E1, bind_Done. exact E2.
  - rewrite (ds_terminal _ _ _ _ _ _ S2), Ht1. by rewrite M1.
  - rewrite (ds_sent _ _ _ _ _ _ S2), (se_sent _ _ _ S1), Ht1, M1. by rewrite <- !app_assoc.
Qed.

(** C26: [panic] reaches its final loop on every console, and what it leaves
    behind is complete: on the serial line its greeting, the message and the
    return addresses of the innermost sixteen frames (fewer when the chain
    ends in a null frame), on the terminal its banner, the message and the
    trace, the cursor behind them. *)
Theorem panic_reports device poll fb font fuel k msg s frame1 frame2 :
  (∀ h, ready_within device poll h = true) → (22 <= fuel)%nat →
  idle k → screen_ready fb font k →
  cstr (k_mem k) msg s → Forall (λ c, c ≠ 36) s → (length s < fuel)%nat →
  (∀ i, 0 <= i <= Z.of_nat (length s) → off_screen fb (msg + i)) →
  stack_safe (off_screen fb) 16 (k_mem k) frame2 →
  let screen := panic_banner ++ message_text s ++ stack_text 16 (k_mem k) frame2 in
  ∃ k', panic device poll fb font fuel k msg frame1 frame2 = Done k' ∧
    plain (gTerminal k') = fold_left advance screen (plain (gTerminal k)) ∧
    sent (k_ports k') = sent (k_ports k) ++
      line "Panic GODDAMN!" ++ message_text s ++ stack_text 16 (k_mem k) frame1 ++
      screen_log false (plain (gTerminal k)) screen.
Proof. apply panic_spec. Qed.

(** ** Example: a stack of two frames below the framebuffer *)

Definition stack_mem : mem :=
  wr64 (wr64 (wr64 (wr64 sample_mem 0x1000 0x1100) 0x1008 0xffffffff80001234) 0x1100 0) 0x1108 0x4242.

Definition panic_console : Console :=
  mkConsole stack_mem (Terminal_init screen_fb terminal_boot) [] false false.

Lemma panic_console_ready : screen_ready screen_fb text_font panic_console.
Proof.
  apply Terminal_init_ready; try (vm_compute; done); vm_compute; split_and!; done.
Qed.

Lemma panic_cstr : cstr stack_mem 256 (bytes_of_string "okeOS").
Proof.
  destruct sample_cstr as [H1 H2]. unfold stack_mem. split.
  - intros i c Hi. pose proof (lookup_lt_Some _ _ _ Hi) as Hl. cbn in Hl.
    rewrite !rd8_wrN_ne by lia. auto.
  - rewrite !rd8_wrN_ne by (cbn; lia). exact H2.
Qed.

Lemma panic_reports_witness :
  ∃ k', panic ready_device 1 screen_fb text_font 30 panic_console 256 0x1000 0x1000 = Done k' ∧
    take 97 (sent (k_ports k')) = line "Panic GODDAMN!" ++ message_text (bytes_of_string "okeOS") ++
      line "Stack trace:" ++ line "  0xffffffff80001234     " ++ line "  0x0000000000004242     ".
Proof.
  destruct (panic_reports ready_device 1 screen_fb text_font 30 panic_console 256
    (bytes_of_string "okeOS") 0x1000 0x1000) as (k' & E & _ & S).
  - exact ready_device_ok.
  - lia.
  - by split.
  - exact panic_console_ready.
  - exact panic_cstr.
  - vm_compute. repeat constructor; discriminate.
  - vm_compute. lia.
  - intros i Hi. left. cbn in Hi |- *. lia.
  - assert (frame_rbp stack_mem 0x1000 = 0x1100) as E1 by (vm_compute; reflexivity).
    assert (frame_rbp stack_mem 0x1100 = 0) as E2 by (vm_compute; reflexivity).
    right. split; [intros i Hi; left; cbn; lia|]. cbn [k_mem panic_console]. rewrite E1.
    right. split; [intros i Hi; left; cbn; lia|]. rewrite E2. by left.
  - exists k'. split; [exact E|]. rewrite S. vm_compute. reflexivity.
Defined.
