(* ===== verification/BootLog.v ===== *)
(** * kernel.cpp: what the boot sequence prints

    Lines on the terminal, on the serial port or on both, one after the other.
    [told] is what a sequence of calls has shown; [returns] and the rules
    below let a proof follow the code from call to call. *)

From S2P Require Import Prelude Memory Bitmap MemUtils PageFrameAllocator PfaInit.
From S2P Require Import PageEntry PageSource Paging PagingLive Paged PageMapper Heap HeapGrow BootPaging BootMemory.
From S2P Require Import PortIO Framebuffer Console Kprintf Screen Output Logger HeapTest Panic.

(** ** Calls that return *)

Definition returns {A : Type} (o : outcome A) (Q : A → Prop) : Prop := ∃ a, o = Done a ∧ Q a.

Lemma returns_Done {A : Type} (a : A) (Q : A → Prop) : Q a → returns (Done a) Q.
Proof. intros H. by exists a. Qed.

Lemma returns_bind {A B : Type} (o : outcome A) (f : A → outcome B) (P : A → Prop) (Q : B → Prop) :
  returns o P → (∀ a, P a → returns (f a) Q) → returns (o ≫= f) Q.
Proof. intros (a & -> & HP) Hf. rewrite bind_Done. by apply Hf. Qed.

Lemma returns_mono {A : Type} (o : outcome A) (P Q : A → Prop) :
  (∀ a, P a → Q a) → returns o P → returns o Q.
Proof. intros H (a & -> & HP). exists a. auto. Qed.

(** ** Lines *)

(** A line and where it goes. *)
Abbreviation lines := (list (LoggerTarget * list Z)).

Fixpoint lines_sent (t : Terminal) (l : lines) : list Z :=
  match l with [] => [] | (w, s) :: l => log_sent w t s ++ lines_sent (log_cursor w t s) l end.
Fixpoint lines_cursor (t : Terminal) (l : lines) : Terminal :=
  match l with [] => t | (w, s) :: l => lines_cursor (log_cursor w t s) l end.

Lemma lines_sent_app t l1 l2 : lines_sent t (l1 ++ l2) = lines_sent t l1 ++ lines_sent (lines_cursor t l1) l2.
Proof.
  revert t. induction l1 as [|[w s] l1 IH]; intros t; [done|]. cbn [app lines_sent lines_cursor].
  by rewrite IH, app_assoc.
Qed.

Lemma lines_cursor_app t l1 l2 : lines_cursor t (l1 ++ l2) = lines_cursor (lines_cursor t l1) l2.
Proof. revert t. induction l1 as [|[w s] l1 IH]; intros t; [done|]. cbn [app lines_cursor]. apply IH. Qed.

(** From [k] to [k'] the lines [l] were shown, and the bytes of [safe] kept. *)
Record told (fb : limine_framebuffer) (font : list Z) (safe : Z → Prop) (k : Console) (l : lines) (k' : Console)
  : Prop := {
  to_idle : idle k';
  to_ready : screen_ready fb font k';
  to_sent : sent (k_ports k') = sent (k_ports k) ++ lines_sent (plain (gTerminal k)) l;
  to_cursor : plain (gTerminal k') = lines_cursor (plain (gTerminal k)) l;
  to_mem a : safe a → rd8 (k_mem k') a = rd8 (k_mem k) a
}.

Section Told.
Context (fb : limine_framebuffer) (font : list Z).

Lemma told_nil safe k : idle k → screen_ready fb font k → told fb font safe k [] k.
Proof. intros Hi Hr. split; try done. by rewrite app_nil_r. Qed.

Lemma told_trans safe k1 l1 k2 l2 k3 :
  told fb font safe k1 l1 k2 → told fb font safe k2 l2 k3 → told fb font safe k1 (l1 ++ l2) k3.
Proof.
  intros [A1 A2 A3 A4 A5] [B1 B2 B3 B4 B5]. split; try done.
  - by rewrite B3, A3, A4, lines_sent_app, app_assoc.
  - by rewrite B4, A4, lines_cursor_app.
  - intros a Ha. rewrite B5 by done. by apply A5.
Qed.

Lemma told_mono (P Q : Z → Prop) k l k' :
  (∀ a, Q a → P a) → told fb font P k l k' → told fb font Q k l k'.
Proof. intros HPQ [A1 A2 A3 A4 A5]. split; auto. Qed.

Lemma shown_told safe w k s k' : shown fb font w safe k s k' → told fb font safe k [(w, s)] k'.
Proof. intros [S1 S2 S3 S4 S5]. split; try done. cbn. by rewrite app_nil_r. Qed.
End Told.

(** ** Printing *)

Section Print.
Context (device : ports → Z → Z) (poll : nat) (fb : limine_framebuffer) (font : list Z) (fuel : nat).
Hypothesis uart_ready : ∀ past, ready_within device poll past = true.
Hypothesis some_fuel : (22 <= fuel)%nat.

(** The call of debug.cpp for a target. *)
Definition print_to (w : LoggerTarget) (k : Console) (fmt args : list Z) : outcome Console :=
  match w with
  | NONE => Done k
  | TERMINAL => kprintf device poll fb font fuel k fmt args
  | SERIAL => kprintf_serial device poll fuel k fmt args
  | BOTH => kprintf_both device poll fb font fuel k fmt args
  end.

Lemma print_told w k l :
  w ≠ NONE → idle k → screen_ready fb font k → Forall (item_ok fuel k) l → Forall (item_safe (off_screen fb)) l →
  literal_ok (fmt_of l) = true →
  returns (print_to w k (fmt_of l) (args_of l)) (told fb font (off_screen fb) k [(w, text_of l)]).
Proof using uart_ready some_fuel.
  intros Hw Hi Hr Hok Hs Hl. destruct w; [done|..]; cbn [print_to].
  - destruct (kprintf_displays device poll fb font uart_ready fuel k l) as (k' & E & Hi' & [D1 D2 D3 D4]); try done.
    exists k'. split; [done|]. apply shown_told. by split.
  - destruct (kprintf_serial_sends device poll uart_ready fuel k l) as (k' & E & Hi' & Se); try done.
    exists k'. split; [done|]. apply shown_told. pose proof Se as [S1 S2 _ _].
    split; [done|by eapply sends_ready|done|by eapply sends_plain|by rewrite S2].
  - destruct (kprintf_both_displays device poll fb font uart_ready fuel k l) as (k' & E & Hi' & [D1 D2 D3 D4]); try done.
    exists k'. split; [done|]. apply shown_told. by split.
Qed.

(** A print in the middle of the code. *)
Lemma tell {B : Type} w l (k0 : Console) L k fmt args (cont : Console → outcome B) (Q : B → Prop) :
  told fb font (off_screen fb) k0 L k → w ≠ NONE → fmt = fmt_of l → args = args_of l →
  literal_ok (fmt_of l) = true → Forall (item_ok fuel k) l → Forall (item_safe (off_screen fb)) l →
  (∀ k', told fb font (off_screen fb) k0 (L ++ [(w, text_of l)]) k' → returns (cont k') Q) →
  returns (print_to w k fmt args ≫= cont) Q.
Proof using uart_ready some_fuel.
  intros T Hw -> -> Hl Hok Hs Hc. eapply returns_bind; [apply print_told; try done; apply T|].
  intros k' Hk'. apply Hc. by eapply told_trans.
Qed.
End Print.

(** ** The lines of [PageTable_MapMemory]

    With [debug] the call announces the mapping and reports the entry it set; a
    call that has to make a table of the level below the root reports it in
    any case. *)
Section Says.
Context (device : ports → Z → Z) (poll : nat) (fb : limine_framebuffer) (font : list Z) (fuel : nat).

(** [next] is one level, [leaf] the last, [look] the load of an entry; the
    local [PDE] of the line is the entry just stored. *)
Section Levels.
Context (next : mem → Pfa → Z → Z → outcome (Z * mem * Pfa)) (leaf : mem → Z → Z → Z → outcome mem).
Context (look : mem → Z → outcome Z).

Definition MapMemory_says (debug : bool) (m : mem) (w : Pfa) (PML4 virt phys : Z) (c : Console)
  : outcome (mem * Pfa * Console) :=
  let indexer := PageMapIndexer_From virt in
  c ← (if debug then
         kprintf_serial device poll fuel c
           (line "Mapping virt %x to phys %x (or %x). Indexer: PDP %u | PD %u | PT %u | P %u")
           [virt; phys; Z.shiftr phys 12; PDP_i indexer; PD_i indexer; PT_i indexer; P_i indexer]
       else Done c);
  PDE ← look m (PML4 + 8 * PDP_i indexer);
  '(PDP, m, w) ← next m w PML4 (PDP_i indexer);
  c ← (if GetFlag PDE Present then Done c
       else
         PDE ← look m (PML4 + 8 * PDP_i indexer);
         kprintf_serial device poll fuel c (bytes_of_string "Mapped PDP %d to %x")
           [PDP_i indexer; to_u64 (Z.shiftl (GetAddress PDE) 12)]);
  '(PD, m, w) ← next m w PDP (PD_i indexer);
  '(PT, m, w) ← next m w PD (PT_i indexer);
  m ← leaf m PT (P_i indexer) phys;
  c ← (if debug then
         PDE ← look m (PT + 8 * P_i indexer);
         kprintf_serial device poll fuel c (line "Mapped to %x") [to_u64 (Z.shiftl (GetAddress PDE) 12)]
       else Done c);
  Done (m, w, c).
End Levels.

(** Under the boot loader's tables, and on the kernel's own. *)
Definition map_says (debug : bool) (s : Machine * Console) (virt phys : Z) : outcome (Machine * Console) :=
  let '(k, c) := s in
  '(m, p, c) ← MapMemory_says next_table set_leaf (λ m a, Done (rd64 m a)) debug
                 (ram k) (pfa k) (globalPageTable k) virt phys c;
  Done (mkMachine m p (globalPageTable k), c).

Definition paged_says (debug : bool) (s : Paged * Console) (virt phys : Z) : outcome (Paged * Console) :=
  let '(k, c) := s in
  let CR3 := globalPageTable k in
  '(m, p, c) ← MapMemory_says (next_table_paged CR3) (set_leaf_paged CR3) (λ m a, a ← reach CR3 m a; Done (rd64 m a))
                 debug (ram k) (pfa k) (globalPageTable k) virt phys c;
  Done (mkPaged (mkMachine m p (globalPageTable k)), c).

(** The loop of [initHeap], and [initHeap]; the heap's bytes are those of the
    console's memory. *)
Definition map_pages_says (s : Paged * Console) (pos n : Z) : outcome (Z * (Paged * Console)) :=
  for_loop (Z.to_nat n) 0
    (λ _ (s : Z * (Paged * Console)),
       let '(pos, (w, c)) := s in
       '(page, p) ← mem_pageframeallocator_requestPage (pfa w);
       s ← paged_says true (mkPaged (mkMachine (ram w) p (globalPageTable w)), c) pos page;
       Done (to_u64 (pos + 0x1000), s)) (pos, s).

Definition initHeap_says (w : Paged) (c : Console) (heapAddress pageCount : Z) : outcome (Heap Paged * Console) :=
  '(_, (w, c)) ← map_pages_says (w, c) heapAddress pageCount;
  let h := init_segment (mkHeap (k_mem c) 0 0 0 w) heapAddress pageCount in
  Done (h, with_kmem c (h_mem h)).

(** The indices of the tables that a plan makes, the ones of [seen] apart. *)
Fixpoint new_pdps (seen : Z → bool) (l : list (Z * Z)) : list Z :=
  match l with
  | [] => []
  | vp :: l =>
      let i := PDP_i (PageMapIndexer_From vp.1) in
      if seen i then new_pdps seen l else i :: new_pdps (λ j, seen j || (j =? i)) l
  end.

Lemma new_pdps_ext seen seen' l :
  (∀ i, 0 <= i < 512 → seen i = seen' i) → new_pdps seen l = new_pdps seen' l.
Proof.
  revert seen seen'. induction l as [|vp l IH]; intros seen seen' E; [done|]. cbn [new_pdps].
  pose proof (indexer_range vp.1) as (R1 & _). rewrite (E _ R1). destruct (seen' _); [by apply IH|].
  f_equal. apply IH. intros i Hi. by rewrite E.
Qed.

Definition pdp_items (i a : Z) : list fitem :=
  [Text (bytes_of_string "Mapped PDP "); Dec i; Text (bytes_of_string " to "); Hex a].

(** The lines for tables [(i, a)]: at index [i], at the address [a]. *)
Definition pdp_lines (l : list (Z * Z)) : lines := (λ ia, (SERIAL, text_of (pdp_items ia.1 ia.2))) <$> l.

(** The two lines for a page and its frame. *)
Definition mapping_items (virt phys : Z) : list fitem :=
  let ix := PageMapIndexer_From virt in
  [Text (bytes_of_string "Mapping virt "); Hex virt; Text (bytes_of_string " to phys "); Hex phys;
   Text (bytes_of_string " (or "); Hex (phys / 4096); Text (bytes_of_string "). Indexer: PDP "); Udec (PDP_i ix);
   Text (bytes_of_string " | PD "); Udec (PD_i ix); Text (bytes_of_string " | PT "); Udec (PT_i ix);
   Text (bytes_of_string " | P "); Udec (P_i ix); Text [10]].
Definition mapped_items (phys : Z) : list fitem := [Text (bytes_of_string "Mapped to "); Hex phys; Text [10]].
Definition mapping_lines (virt phys : Z) : lines :=
  [(SERIAL, text_of (mapping_items virt phys)); (SERIAL, text_of (mapped_items phys))].

(** The lines for the pages from [pos] on and the frames [fs]. *)
Fixpoint heap_lines (pos : Z) (fs : list Z) : lines :=
  match fs with [] => [] | f :: fs => mapping_lines pos f ++ heap_lines (pos + 4096) fs end.

Hypothesis uart_ready : ∀ past, ready_within device poll past = true.
Hypothesis some_fuel : (22 <= fuel)%nat.

Lemma map_to_pdp k v f k' i :
  machine_ok k → map_to k v f = Done k' → 0 <= i < 512 →
  pdp_present (ram k') (globalPageTable k') i =
  pdp_present (ram k) (globalPageTable k) i || (i =? PDP_i (PageMapIndexer_From v)).
Proof.
  clear uart_ready some_fuel. intros [Hpt Hok] Hd Hi. unfold map_to in Hd.
  apply bind_Done_inv in Hd as ([m p] & E & Hd). apply Done_inj in Hd as <-. by eapply MapMemory_pdp.
Qed.

(** A line on the serial port. *)
Let tell_line {B : Type} l := tell (B := B) device poll fb font fuel uart_ready some_fuel SERIAL l.

Lemma says_one k0 L k c v f k' :
  machine_ok k → told fb font (off_screen fb) k0 L c → map_to k v f = Done k' →
  ∃ pl, pl.*1 = new_pdps (pdp_present (ram k) (globalPageTable k)) [(v, f)] ∧
    returns (map_says false (k, c) v f)
      (λ s, s.1 = k' ∧ told fb font (off_screen fb) k0 (L ++ pdp_lines pl) s.2).
Proof using uart_ready some_fuel.
  intros Hk T E. unfold map_to, PageTable_MapMemory in E. cbn zeta in E.
  apply bind_Done_inv in E as ([m' p'] & E & Ek). apply Done_inj in Ek as <-.
  apply bind_Done_inv in E as ([[t1 m1] p1] & E1 & E). apply bind_Done_inv in E as ([[t2 m2] p2] & E2 & E).
  apply bind_Done_inv in E as ([[t3 m3] p3] & E3 & E). apply bind_Done_inv in E as (m4 & E4 & E).
  apply Done_inj in E. unfold map_says, MapMemory_says. cbn zeta. cbn [new_pdps fst].
  rewrite !bind_Done, E1, bind_Done. cbn beta iota. unfold pdp_present. set (i := PDP_i _) in *.
  pose proof (indexer_range v) as (R1 & _). fold i in R1.
  assert (∀ c', (('(m, w, c0) ← ('(PD, m, w) ← next_table m1 p1 t1 (PD_i (PageMapIndexer_From v));
    '(PT, m, w) ← next_table m w PD (PT_i (PageMapIndexer_From v));
    m ← set_leaf m PT (P_i (PageMapIndexer_From v)) f; c0 ← Done c'; Done (m, w, c0));
    Done (mkMachine m w (globalPageTable k), c0)) : outcome (Machine * Console))
    = Done (mkMachine m' p' (globalPageTable k), c')) as Hrest.
  { intros c'. rewrite E2, bind_Done, E3, bind_Done, E4, !bind_Done. by apply pair_eq in E as [-> ->]. }
  destruct (GetFlag (rd64 (ram k) _) Present).
  { exists []. split; [done|]. rewrite bind_Done, Hrest. apply returns_Done. split; [done|]. cbn. by rewrite app_nil_r. }
  rewrite bind_Done. set (a := to_u64 _). exists [(i, a)]. split; [done|]. rewrite bind_assoc.
  change (kprintf_serial device poll fuel c) with (print_to device poll fb font fuel SERIAL c).
  eapply (tell_line (pdp_items i a)); [exact T|done|done| |done| | |].
  - unfold args_of, pdp_items. cbn [fmap list_fmap item_args concat app]. by rewrite (to_u64_id i) by (znorm; lia).
  - unfold pdp_items. items; [znorm; lia|apply to_u64_range].
  - unfold pdp_items. by items.
  - intros c' T'. rewrite Hrest. apply returns_Done. by split.
Qed.

Lemma pdp_lines_app l1 l2 : pdp_lines (l1 ++ l2) = pdp_lines l1 ++ pdp_lines l2.
Proof. apply fmap_app. Qed.

(** A whole plan. *)
Lemma says_plan k0 L k c l k' :
  machine_ok k → Forall (λ vp, 0 <= vp.2 < 2^52) l → told fb font (off_screen fb) k0 L c → map_plan l k = Done k' →
  ∃ pl, pl.*1 = new_pdps (pdp_present (ram k) (globalPageTable k)) l ∧
    returns (foldM (λ vp s, map_says false s vp.1 vp.2) l (k, c))
      (λ s, s.1 = k' ∧ told fb font (off_screen fb) k0 (L ++ pdp_lines pl) s.2).
Proof using uart_ready some_fuel.
  unfold map_plan. revert L k c. induction l as [|[v f] l IH]; intros L k c Hk Hl T Hd.
  { apply Done_inj in Hd as <-. exists []. split; [done|]. apply returns_Done. split; [done|]. by rewrite app_nil_r. }
  apply Forall_cons in Hl as [Hf Hl]. cbn [foldM fst snd] in *. apply bind_Done_inv in Hd as (k1 & E1 & Hd).
  destruct (says_one k0 L k c v f k1 Hk T E1) as (p1 & Ep1 & [k2 c1] & E2 & Ek & T1). cbn [fst snd] in *. subst k2.
  assert (machine_ok k1) as Hk1.
  { destruct (map_to_spec k v f Hk Hf) as [E|(k2 & E & [O _ _ _])]; rewrite E1 in E; [discriminate|].
    by apply Done_inj in E as ->. }
  destruct (IH _ k1 c1 Hk1 Hl T1 Hd) as (p2 & Ep2 & R2). exists (p1 ++ p2). rewrite pdp_lines_app, E2, bind_Done, app_assoc.
  split; [|done]. rewrite fmap_app, Ep1, Ep2. cbn [new_pdps fst].
  rewrite (new_pdps_ext _ (λ j, pdp_present (ram k) (globalPageTable k) j || (j =? PDP_i (PageMapIndexer_From v)))).
  2: { intros i Hi. by apply (map_to_pdp k v f). }
  destruct (pdp_present _ _ (PDP_i _)) eqn:E; [|done]. cbn [app]. apply new_pdps_ext. intros i Hi.
  destruct (Z.eqb_spec i (PDP_i (PageMapIndexer_From v))) as [->|]; [by rewrite E|by rewrite orb_false_r].
Qed.

(** ** The lines of [initHeap] *)

(** The frames of the next requests. *)
Fixpoint next_frames (n : nat) (p : Pfa) : list Z :=
  match n with
  | O => []
  | S n => match mem_pageframeallocator_requestPage p with Done (a, p) => a :: next_frames n p | _ => [] end
  end.

Lemma paged_says_heap T (k : Machine) k0 L c v f :
  reachable T k → HEAP_BASE <= v < LOW_END → 0 <= f < 2^52 → f mod 4096 = 0 → told fb font (off_screen fb) k0 L c →
  returns (paged_says true (mkPaged k, c) v f) (λ s, paged_map_to (mkPaged k) v f = Done s.1 ∧
    pfa s.1 = pfa k ∧ told fb font (off_screen fb) k0 (L ++ mapping_lines v f) s.2).
Proof using uart_ready some_fuel.
  intros Hre Hv Hf Hal T0. unfold HEAP_BASE, LOW_END in Hv.
  destruct (paged_levels T k v f Hre Hv Hf Hal)
    as (t1 & t2 & t3 & m' & Hl1 & Hp & N1 & N2 & N3 & N4 & _ & _ & Hl2 & Ha).
  pose proof (indexer_range v) as (R1 & R2 & R3 & R4).
  unfold paged_says, MapMemory_says. cbn zeta. cbn [machine]. rewrite !bind_assoc.
  change (kprintf_serial device poll fuel c) with (print_to device poll fb font fuel SERIAL c).
  eapply (tell_line (mapping_items v f)); [exact T0|done|vm_compute; reflexivity| |vm_compute; reflexivity| | |].
  - unfold args_of, mapping_items. cbn [fmap list_fmap item_args concat app]. by rewrite Z.shiftr_div_pow2 by lia.
  - unfold mapping_items. items; znorm; try lia; zlia.
  - unfold mapping_items. by items.
  - intros c1 T1. rewrite Hl1, !bind_Done, Hp, N1, !bind_Done, N2, !bind_Done, N3, !bind_Done, N4, !bind_Done, Hl2, !bind_Done.
    rewrite GetAddress_shifted, Ha, !bind_assoc.
    change (kprintf_serial device poll fuel c1) with (print_to device poll fb font fuel SERIAL c1).
    eapply (tell_line (mapped_items f)); [exact T1|done|vm_compute; reflexivity|done|vm_compute; reflexivity| | |].
    + unfold mapped_items. items. znorm. lia.
    + unfold mapped_items. by items.
    + intros c2 T2. rewrite !bind_Done. apply returns_Done. cbn [fst snd machine pfa]. rewrite <- app_assoc in T2.
      split; [|done]. unfold paged_map_to, MapMemory_paged. cbn zeta. cbn [machine].
      by rewrite N1, bind_Done, N2, bind_Done, N3, bind_Done, N4.
Qed.

Lemma map_pages_told S r T (k : Paged) k0 L c pos n :
  paged_supplied S (n + r) T k → pos mod 4096 = 0 → HEAP_BASE <= pos → pos + 4096 * Z.of_nat n <= LOW_END →
  told fb font (off_screen fb) k0 L c →
  returns (map_pages_says (k, c) pos (Z.of_nat n)) (λ q, map_pages k pos (Z.of_nat n) = Done (q.1, q.2.1) ∧
    told fb font (off_screen fb) k0 (L ++ heap_lines pos (next_frames n (pfa k))) q.2.2).
Proof using uart_ready some_fuel.
  intros Hk Hal Hpos Hmax T0. unfold map_pages, map_pages_says. rewrite Nat2Z.id. generalize 0 as i.
  revert k L c pos Hk Hal Hpos Hmax T0. induction n as [|n IH]; intros k L c pos Hk Hal Hpos Hmax T0 i.
  { apply returns_Done. split; [done|]. by rewrite app_nil_r. }
  unfold HEAP_BASE, LOW_END in *. assert (heap_page Paged pos) as Hv.
  { split; [split; [done|lia]|]. cbn. unfold HEAP_BASE, LOW_END. lia. }
  cbn [for_loop next_frames]. destruct (map_new_page_live S (n + r) T k pos Hk Hv) as (k' & Ek & Hk' & _).
  cbn [map_new_page paged_mapper]. rewrite Ek, bind_Done. pose proof Hk as [Hre _].
  unfold paged_map_new_page in Ek. destruct (mem_pageframeallocator_requestPage (pfa k)) as [[f p]| | |] eqn:Hr;
    cbn [mbind outcome_bind] in Ek; try discriminate. rewrite bind_Done.
  pose proof (request_frame (pfa k) f p (re_src _ _ Hre) Hr) as [Hf1 Hf2].
  pose proof (reachable_request T k f p Hre Hr) as Hre1. rewrite bind_assoc.
  eapply returns_bind; [eapply paged_says_heap; try done; unfold HEAP_BASE, LOW_END; lia|].
  intros [k1 c1] (E1 & Ep & T1). cbn [fst snd] in *. rewrite Ek in E1. apply Done_inj in E1 as <-.
  rewrite bind_Done, to_u64_id by (znorm; lia). cbn [machine pfa] in Ep.
  eapply returns_mono; [|apply (IH k' (L ++ mapping_lines pos f) c1 (pos + 4096) Hk'); [zlia|lia|lia|exact T1]].
  intros q [Hq Tq]. split; [exact Hq|]. rewrite Ep, <- app_assoc in Tq. exact Tq.
Qed.

Lemma initHeap_told S T (w : Paged) k0 L c a n :
  paged_supplied S n T w → a mod 4096 = 0 → HEAP_BASE <= a → a + 4096 * Z.of_nat n <= LOW_END →
  told fb font (off_screen fb) k0 L c →
  returns (initHeap_says w c a (Z.of_nat n)) (λ '(h, c'), ∃ c1,
    initHeap (mkHeap (k_mem c1) 0 0 0 w) a (Z.of_nat n) = Done h ∧ c' = with_kmem c1 (h_mem h) ∧
    told fb font (off_screen fb) k0 (L ++ heap_lines a (next_frames n (pfa w))) c1).
Proof using uart_ready some_fuel.
  intros Hw Hal Ha Hmax T0. unfold initHeap_says.
  eapply returns_bind; [apply (map_pages_told S 0 T); [by rewrite Nat.add_0_r|done..]|].
  intros [pos [w' c1]] [Em T1]. cbn [fst snd] in *. apply returns_Done. exists c1.
  unfold initHeap. cbn [h_world]. rewrite Em, bind_Done. done.
Qed.
End Says.
