(* ===== verification/Interrupts.v ===== *)
(** * idt/ints.cpp: the interrupt dispatcher and the page fault message

    [interruptDispatch] gets the registers the stub pushed and decides by the
    vector number; [getPageFaultString] writes a sentence about the error
    code of a page fault into a buffer of its own, piece by piece, without a
    terminator.  [lit s] is the address at which the compiler put the string
    literal [s]. *)

From S2P Require Import Prelude Memory CString PortIO Framebuffer Console Kprintf Screen Output Panic.

(** The vectors with names; the dispatcher has cases for two of them. *)
Inductive ReservedVectors :=
  | DivideByZero | Debug | NonMaskableInterrupt | Breakpoint | Overflow | BoundRangeExceeded
  | InvalidOpcode | DeviceNotAvailable | DoubleFault | CoprocessorSegmentOverrun | InvalidTSS
  | SegmentNotPresent | StackSegmentFault | GeneralProtectionFault | PageFault | Reserved15
  | x87FloatingPointException | AlignmentCheck | MachineCheck | SIMDException.

Definition vector_code (v : ReservedVectors) : Z :=
  match v with
  | DivideByZero => 0 | Debug => 1 | NonMaskableInterrupt => 2 | Breakpoint => 3 | Overflow => 4
  | BoundRangeExceeded => 5 | InvalidOpcode => 6 | DeviceNotAvailable => 7 | DoubleFault => 8
  | CoprocessorSegmentOverrun => 9 | InvalidTSS => 10 | SegmentNotPresent => 11
  | StackSegmentFault => 12 | GeneralProtectionFault => 13 | PageFault => 14 | Reserved15 => 15
  | x87FloatingPointException => 16 | AlignmentCheck => 17 | MachineCheck => 18 | SIMDException => 19
  end.

(** What the stub pushed, lowest address first. *)
Record CPUStatus := mkStatus {
  r15 : Z; r14 : Z; r13 : Z; r12 : Z; r11 : Z; r10 : Z; r9 : Z; r8 : Z;
  rdx : Z; rcx : Z; rbx : Z; rax : Z;
  vectorNumber : Z;
  errorCode : Z;
  iret_rip : Z; iret_cs : Z; iret_flags : Z; iret_rsp : Z; iret_ss : Z
}.

(** [*ctx], the structure's 19 words at [ctx]. *)
Definition read_status (m : mem) (ctx : Z) : CPUStatus :=
  let w i := rd64 m (ctx + 8 * i) in
  mkStatus (w 0) (w 1) (w 2) (w 3) (w 4) (w 5) (w 6) (w 7) (w 8) (w 9) (w 10) (w 11)
    (w 12) (w 13) (w 14) (w 15) (w 16) (w 17) (w 18).

Section Interrupts.
Context (lit : string → Z).
(** The address of [fixedPageFaultString]. *)
Context (fixedPageFaultString : Z).

(** The lambda [append]; no literal of the function is longer than 63. *)
Definition append (m : mem) (strOffset : Z) (str : Z) : outcome (mem * Z) :=
  len ← strlen 64 m str;
  Done ((memcpy m (fixedPageFaultString + strOffset) str len).2, to_u64 (strOffset + len)).

(** The two bits [reservedBitViolation] and [protectionKeyViolation] are
    computed and not used. *)
Definition getPageFaultString (m : mem) (errorCode : Z) : outcome (Z * mem) :=
  let present := Z.land errorCode 1 in
  let write := Z.land (Z.shiftr errorCode 1) 1 in
  let user := Z.land (Z.shiftr errorCode 2) 1 in
  let instructionFetch := Z.land (Z.shiftr errorCode 4) 1 in
  let strOffset := 0 in
  '(m, strOffset) ← append m strOffset
     (if user =? 0 then lit "Supervisor Process " else lit "User Process ");
  '(m, strOffset) ← append m strOffset (if write =? 0 then lit "read from " else lit "write to ");
  '(m, strOffset) ← append m strOffset
     (if instructionFetch =? 0 then lit "data " else lit "instruction ");
  '(m, strOffset) ← append m strOffset
     (if present =? 0 then lit "non-present page entry" else lit "and caused a protection fault");
  Done (fixedPageFaultString, m).

(** The kernel goes on, or has halted in [panic]. *)
Inductive dispatched :=
  | Returned (k : Console)
  | Halted (k : Console).

Context (device : ports → Z → Z) (poll : nat) (fb : limine_framebuffer) (font : list Z) (fuel : nat).

Definition interruptDispatch (k : Console) (ctx : CPUStatus) (frame1 frame2 : Z) : outcome dispatched :=
  if vectorNumber ctx =? vector_code GeneralProtectionFault then
    k ← panic device poll fb font fuel k (lit "General Protection Fault") frame1 frame2;
    Done (Halted k)
  else if vectorNumber ctx =? vector_code PageFault then
    '(msg, m) ← getPageFaultString (k_mem k) (errorCode ctx);
    k ← panic device poll fb font fuel (with_kmem k m) msg frame1 frame2;
    Done (Halted k)
  else
    k ← kprintf_serial device poll fuel k (bytes_of_string "Unexpected interrupt. Vector: %x (%d)")
          [vectorNumber ctx; vectorNumber ctx];
    Done (Returned k).
End Interrupts.

(** ** The page fault message *)

(** The literals of [getPageFaultString], and the sentence they make. *)
Definition fault_literals : list string :=
  ["Supervisor Process "; "User Process "; "read from "; "write to "; "data "; "instruction ";
   "non-present page entry"; "and caused a protection fault"]%string.

Definition fault_parts (errorCode : Z) : list string :=
  [ (if Z.testbit errorCode 2 then "User Process " else "Supervisor Process ");
    (if Z.testbit errorCode 1 then "write to " else "read from ");
    (if Z.testbit errorCode 4 then "instruction " else "data ");
    (if Z.testbit errorCode 0 then "and caused a protection fault" else "non-present page entry") ]%string.

Definition fault_message (errorCode : Z) : list Z := concat (bytes_of_string <$> fault_parts errorCode).

Lemma land_bit v k : 0 <= k → (Z.land (Z.shiftr v k) 1 =? 0) = negb (Z.testbit v k).
Proof.
  intros Hk. change 1 with (2^0). rewrite Z_land_pow2 by lia. rewrite Z.shiftr_spec by lia. done.
Qed.

Lemma fault_message_length e : (length (fault_message e) <= 70)%nat.
Proof.
  unfold fault_message, fault_parts.
  destruct (Z.testbit e 2), (Z.testbit e 1), (Z.testbit e 4), (Z.testbit e 0); vm_compute; lia.
Qed.

(** The bytes of the buffer: [written], then what it held before. *)
Record written (m0 m : mem) (buf : Z) (s : list Z) : Prop := {
  wt_new i c : s !! i = Some c → rd8 m (buf + Z.of_nat i) = c;
  wt_rest a : ¬ (buf <= a < buf + Z.of_nat (length s)) → rd8 m a = rd8 m0 a
}.

Section Fault.
Context (lit : string → Z) (buf : Z) (m0 : mem).
(** The literals lie in memory, apart from the buffer. *)
Hypothesis lit_cstr : ∀ s, s ∈ fault_literals → cstr m0 (lit s) (bytes_of_string s).
Hypothesis lit_apart : ∀ s, s ∈ fault_literals →
  lit s + Z.of_nat (length (bytes_of_string s)) < buf ∨ buf + 256 <= lit s.

Lemma append_spec m s str :
  str ∈ fault_literals → written m0 m buf s →
  (length s + length (bytes_of_string str) <= 256)%nat → (length (bytes_of_string str) < 64)%nat →
  ∃ m', append buf m (Z.of_nat (length s)) (lit str) =
      Done (m', Z.of_nat (length (s ++ bytes_of_string str))) ∧
    written m0 m' buf (s ++ bytes_of_string str).
Proof.
  intros Hin [W1 W2] Hlen H64. set (t := bytes_of_string str) in *.
  pose proof (lit_apart str Hin) as Hap. fold t in Hap. destruct (lit_cstr str Hin) as [L1 L2]. fold t in L1, L2.
  assert (∀ j, 0 <= j <= Z.of_nat (length t) → rd8 m (lit str + j) = rd8 m0 (lit str + j)) as Hlit
    by (intros j Hj; apply W2; lia).
  assert (cstr m (lit str) t) as Hs.
  { split; [intros i c Hi|]; rewrite Hlit by (try (apply lookup_lt_Some in Hi); lia); auto. }
  unfold append, strlen. rewrite (strlen_loop_spec 64 m (lit str) t) by (done || (znorm; lia)).
  rewrite bind_Done, Z.add_0_l, to_u32_id by (znorm; lia). rewrite to_u64_id by (znorm; lia).
  eexists. split; [rewrite length_app; do 2 f_equal; lia|].
  assert (∀ a, rd8 (memcpy m (buf + Z.of_nat (length s)) (lit str) (Z.of_nat (length t))).2 a
    = moved m (buf + Z.of_nat (length s)) (lit str) (Z.of_nat (length t)) a) as Hcp.
  { intros a. rewrite (memcpy_moved m) by lia. done. }
  split.
  - intros i c Hi. rewrite Hcp. unfold moved. apply lookup_app_Some in Hi as [Hi|[Hge Hi]].
    + rewrite decide_False by (apply lookup_lt_Some in Hi; lia). auto.
    + pose proof (lookup_lt_Some _ _ _ Hi). rewrite decide_True by lia.
      destruct Hs as [Hs _]. destruct (Hs _ _ Hi) as [<- _]. f_equal. lia.
  - intros a Ha. rewrite length_app in Ha. rewrite Hcp. unfold moved.
    rewrite decide_False by lia. apply W2. lia.
Qed.
Lemma fault_parts_literals e : Forall (.∈ fault_literals) (fault_parts e).
Proof.
  unfold fault_parts, fault_literals.
  destruct (Z.testbit e 2), (Z.testbit e 1), (Z.testbit e 4), (Z.testbit e 0);
    rewrite !Forall_cons, Forall_nil; split_and!; try done;
    repeat (apply elem_of_cons; first [by left|right]).
Qed.

Lemma fault_parts_short e : Forall (λ s, (length (bytes_of_string s) <= 29)%nat) (fault_parts e).
Proof.
  assert (Forall (λ s, (length (bytes_of_string s) <= 29)%nat) fault_literals) as H
    by (repeat constructor; vm_compute; lia).
  rewrite Forall_forall in H. eapply Forall_impl; [apply fault_parts_literals|]. exact H.
Qed.

Lemma getPageFaultString_spec e :
  ∃ m, getPageFaultString lit buf m0 e = Done (buf, m) ∧ written m0 m buf (fault_message e).
Proof.
  unfold getPageFaultString. rewrite !land_bit by lia.
  assert ((Z.land e 1 =? 0) = negb (Z.testbit e 0)) as -> by (change 1 with (2^0); by apply Z_land_pow2).
  assert (∀ (b : bool) s t, (if negb b then lit s else lit t) = lit (if b then t else s)) as Hif
    by (by intros []).
  rewrite !Hif. pose proof (fault_parts_literals e) as HL. unfold fault_parts in HL.
  apply Forall_cons in HL as [L1 HL]. apply Forall_cons in HL as [L2 HL].
  apply Forall_cons in HL as [L3 HL]. apply Forall_cons in HL as [L4 _].
  pose proof (fault_parts_short e) as HS. unfold fault_message, fault_parts in *.
  apply Forall_cons in HS as [S1 HS]. apply Forall_cons in HS as [S2 HS].
  apply Forall_cons in HS as [S3 HS]. apply Forall_cons in HS as [S4 _].
  set (p1 := if Z.testbit e 2 then _ else _) in *. set (p2 := if Z.testbit e 1 then _ else _) in *.
  set (p3 := if Z.testbit e 4 then _ else _) in *. set (p4 := if Z.testbit e 0 then _ else _) in *.
  assert (written m0 m0 buf []) as W0 by (split; [intros i c Hi; by rewrite lookup_nil in Hi|done]).
  destruct (append_spec m0 [] p1 L1 W0) as (m1 & E1 & W1); [cbn; lia|lia|]. change (Z.of_nat (length [])) with 0 in E1. cbn [app] in E1, W1. rewrite E1, bind_Done.
  destruct (append_spec m1 _ p2 L2 W1) as (m2 & -> & W2); [rewrite ?length_app; lia|lia|]. rewrite bind_Done.
  destruct (append_spec m2 _ p3 L3 W2) as (m3 & -> & W3); [rewrite ?length_app; lia|lia|]. rewrite bind_Done.
  destruct (append_spec m3 _ p4 L4 W3) as (m4 & -> & W4); [rewrite ?length_app; lia|lia|]. rewrite bind_Done.
  exists m4. split; [done|]. unfold fmap. cbn [list_fmap concat]. rewrite app_nil_r. by rewrite <- !app_assoc in W4.
Qed.
End Fault.

(** What the buffer holds before a call: a string, and zeros behind it. *)
Definition buffer_holds (m : mem) (buf : Z) (old : list Z) : Prop :=
  cstr m buf old ∧ ∀ a, buf + Z.of_nat (length old) <= a < buf + 256 → rd8 m a = 0.

Lemma fault_message_nonzero e : Forall (λ c, is_u8 c ∧ c ≠ 0 ∧ c ≠ 36) (fault_message e).
Proof.
  apply (forallb_forall_list (λ c, (0 <? c) && (c <? 256) && negb (c =? 36))).
  - intros c Hc. znorm. lia.
  - unfold fault_message, fault_parts.
    destruct (Z.testbit e 2), (Z.testbit e 1), (Z.testbit e 4), (Z.testbit e 0); reflexivity.
Qed.

(** The message lands on top of the previous one. *)
Lemma written_over m0 m buf e old :
  written m0 m buf (fault_message e) → buffer_holds m0 buf old →
  cstr m buf (fault_message e ++ drop (length (fault_message e)) old).
Proof.
  intros [W1 W2] [[O1 O2] O3]. pose proof (fault_message_length e) as Hl.
  set (s := fault_message e) in *. split.
  - intros i c Hi. apply lookup_app_Some in Hi as [Hi|[Hge Hi]].
    + split; [auto|]. pose proof (fault_message_nonzero e) as Hnz. fold s in Hnz.
      eapply Forall_lookup_1 in Hnz; [|exact Hi]. tauto.
    + rewrite lookup_drop in Hi. replace (length s + (i - length s))%nat with i in Hi by lia.
      rewrite W2 by lia. by apply O1.
  - rewrite length_app, length_drop, W2 by lia.
    destruct (decide (length s <= length old)%nat).
    + rewrite <- O2. f_equal. lia.
    + apply O3. lia.
Qed.

(** [getPageFaultString] describes the fault: who accessed, how, what and
    why, from bits 2, 1, 4 and 0 of the error code.  On a fresh buffer the
    result is exactly that sentence; on a used one the end of a longer
    earlier sentence stays behind it, since no terminator is written.  Only
    the buffer's 256 bytes change. *)
Theorem getPageFaultString_correct lit buf m e old :
  (∀ s, s ∈ fault_literals → cstr m (lit s) (bytes_of_string s)) →
  (∀ s, s ∈ fault_literals →
     lit s + Z.of_nat (length (bytes_of_string s)) < buf ∨ buf + 256 <= lit s) →
  buffer_holds m buf old →
  ∃ m', getPageFaultString lit buf m e = Done (buf, m') ∧
    cstr m' buf (fault_message e ++ drop (length (fault_message e)) old) ∧
    ∀ a, ¬ (buf <= a < buf + 256) → rd8 m' a = rd8 m a.
Proof.
  intros Hc Ha Hold. destruct (getPageFaultString_spec lit buf m Hc Ha e) as (m' & E & W).
  exists m'. split; [done|]. split; [by eapply written_over|].
  intros a Hn. apply W. pose proof (fault_message_length e). lia.
Qed.

(** ** The dispatcher *)

(** Strings of the kernel image: the literals and the message buffer lie
    outside the framebuffer and apart from each other. *)
Record image (fb : limine_framebuffer) (lit : string → Z) (buf : Z) (m : mem) : Prop := {
  im_cstr s : s ∈ "General Protection Fault"%string :: fault_literals → cstr m (lit s) (bytes_of_string s);
  im_apart s : s ∈ fault_literals →
    lit s + Z.of_nat (length (bytes_of_string s)) < buf ∨ buf + 256 <= lit s;
  im_gpf i : 0 <= i <= 24 → off_screen fb (lit "General Protection Fault" + i);
  im_buffer i : 0 <= i < 256 → off_screen fb (buf + i);
  im_fresh : buffer_holds m buf []
}.

Section Dispatch.
Context (device : ports → Z → Z) (poll : nat) (fb : limine_framebuffer) (font : list Z) (fuel : nat).
Context (lit : string → Z) (buf : Z).
Hypothesis uart_ready : ∀ h, ready_within device poll h = true.
Hypothesis Hfuel : (71 <= fuel)%nat.

(** The console was stopped by a panic with this message. *)
Definition panicked_with (k : Console) (s : list Z) (k' : Console) : Prop :=
  ∃ rest, sent (k_ports k') = sent (k_ports k) ++ line "Panic GODDAMN!" ++ message_text s ++ rest.

Lemma dispatch_gpf k ctx frame1 frame2 :
  idle k → screen_ready fb font k → image fb lit buf (k_mem k) →
  stack_safe (off_screen fb) 16 (k_mem k) frame2 → vectorNumber ctx = 13 →
  ∃ k', interruptDispatch lit buf device poll fb font fuel k ctx frame1 frame2 = Done (Halted k') ∧
    panicked_with k (bytes_of_string "General Protection Fault") k'.
Proof.
  intros Hi Hr Him Hst Hv. unfold interruptDispatch. rewrite Hv. cbn [vector_code Z.eqb Pos.eqb].
  destruct (panic_spec device poll fb font fuel k (lit "General Protection Fault")
    (bytes_of_string "General Protection Fault") frame1 frame2) as (k' & -> & _ & S); try done; try lia.
  - apply Him. by apply elem_of_cons; left.
  - by apply (forallb_forall_list (λ c, negb (c =? 36))); [lia|].
  - cbn. lia.
  - intros i Hj. apply Him. cbn in Hj. lia.
  - exists k'. split; [done|]. eexists. exact S.
Qed.

Lemma dispatch_page_fault k ctx frame1 frame2 :
  idle k → screen_ready fb font k → image fb lit buf (k_mem k) →
  stack_safe (λ a, off_screen fb a ∧ ¬ (buf <= a < buf + 256)) 16 (k_mem k) frame2 → vectorNumber ctx = 14 →
  ∃ k', interruptDispatch lit buf device poll fb font fuel k ctx frame1 frame2 = Done (Halted k') ∧
    panicked_with k (fault_message (errorCode ctx)) k'.
Proof.
  intros Hi Hr Him Hst Hv. unfold interruptDispatch. rewrite Hv. cbn [vector_code Z.eqb Pos.eqb].
  set (e := errorCode ctx). pose proof (fault_message_length e) as Hl.
  destruct (getPageFaultString_spec lit buf (k_mem k)) with (e := e) as (m & -> & W).
  { intros s Hs. apply Him. by apply elem_of_cons; right. }
  { apply Him. }
  rewrite bind_Done. cbn zeta. pose proof (written_over _ _ _ _ _ W (im_fresh _ _ _ _ Him)) as Hc.
  rewrite drop_nil, app_nil_r in Hc. set (k1 := with_kmem k m).
  destruct (stack_agree (λ a, off_screen fb a ∧ ¬ (buf <= a < buf + 256)) 16 (k_mem k) m frame2) as [_ Hst1];
    [intros a [_ Ha]; apply W; lia|done|].
  destruct (panic_spec device poll fb font fuel k1 buf (fault_message e) frame1 frame2)
    as (k' & -> & _ & S); try done; try lia.
  - eapply Forall_impl; [apply fault_message_nonzero|]. cbn. tauto.
  - intros i Hj. apply Him. lia.
  - eapply stack_safe_mono; [|exact Hst1]. cbn. tauto.
  - exists k'. split; [done|]. eexists. exact S.
Qed.

Definition unexpected (v : Z) : list Z :=
  bytes_of_string "Unexpected interrupt. Vector: " ++ hex16 v ++ bytes_of_string " (" ++
  signed_numeral (to_i64 v) ++ bytes_of_string ")".

Lemma dispatch_other k ctx frame1 frame2 :
  idle k → is_u64 (vectorNumber ctx) → vectorNumber ctx ≠ 13 → vectorNumber ctx ≠ 14 →
  ∃ k', interruptDispatch lit buf device poll fb font fuel k ctx frame1 frame2 = Done (Returned k') ∧
    idle k' ∧ sends k (unexpected (vectorNumber ctx)) k'.
Proof.
  intros Hi Hv H13 H14. unfold interruptDispatch. set (v := vectorNumber ctx) in *.
  destruct (Z.eqb_spec v (vector_code GeneralProtectionFault)); [done|].
  destruct (Z.eqb_spec v (vector_code PageFault)); [done|].
  destruct (kprintf_serial_sends device poll uart_ready fuel k
    [Text (bytes_of_string "Unexpected interrupt. Vector: "); Hex v; Text (bytes_of_string " (");
     Dec (to_i64 v); Text (bytes_of_string ")")]) as (k' & E & Hi' & S); try done; try lia.
  - items. apply to_i64_range.
  - unfold args_of in E. cbn [fmap list_fmap concat item_args app] in E. rewrite to_u64_to_i64 in E by done.
    match type of E with _ = ?r => match goal with |- context [kprintf_serial ?d ?p ?f ?k ?s ?a] =>
      change (kprintf_serial d p f k s a = r) in E end end.
    rewrite E, bind_Done. by exists k'.
Qed.
End Dispatch.

(** C25: what the kernel does with an interrupt.  A general protection fault
    and a page fault halt it in [panic], with the fault's name or the
    description of its error code on the serial line; every other vector is
    reported on the serial line with its number in hexadecimal and decimal,
    and the dispatcher returns with memory and screen as they were. *)
Theorem interruptDispatch_correct device poll fb font fuel lit buf k ctx frame1 frame2 :
  (∀ h, ready_within device poll h = true) → (71 <= fuel)%nat →
  idle k → screen_ready fb font k → image fb lit buf (k_mem k) →
  stack_safe (λ a, off_screen fb a ∧ ¬ (buf <= a < buf + 256)) 16 (k_mem k) frame2 →
  is_u64 (vectorNumber ctx) →
  let dispatch := interruptDispatch lit buf device poll fb font fuel k ctx frame1 frame2 in
  (vectorNumber ctx = 13 → ∃ k', dispatch = Done (Halted k') ∧
     panicked_with k (bytes_of_string "General Protection Fault") k') ∧
  (vectorNumber ctx = 14 → ∃ k', dispatch = Done (Halted k') ∧
     panicked_with k (fault_message (errorCode ctx)) k') ∧
  (vectorNumber ctx ≠ 13 → vectorNumber ctx ≠ 14 → ∃ k', dispatch = Done (Returned k') ∧
     idle k' ∧ sends k (unexpected (vectorNumber ctx)) k').
Proof.
  intros Hu Hf Hi Hr Him Hst Hv dispatch. split_and!; intros.
  - apply dispatch_gpf; try done. eapply stack_safe_mono; [|exact Hst]. cbn. tauto.
  - by apply dispatch_page_fault.
  - by apply dispatch_other.
Qed.

(** ** Examples: the literals from 0x2000 on, the buffer at 0x3000 *)

Fixpoint position (s : string) (l : list string) : Z :=
  match l with
  | [] => 0
  | t :: l' => if decide (s = t) then 0 else 1 + position s l'
  end.

Definition image_literals : list string := "General Protection Fault"%string :: fault_literals.
Definition image_lit (s : string) : Z := 0x2000 + 64 * position s image_literals.
Definition image_buffer : Z := 0x3000.

Definition image_mem : mem :=
  foldr (λ s m, store (image_lit s) (bytes_of_string s) m) stack_mem image_literals.

Definition image_console : Console :=
  mkConsole image_mem (Terminal_init screen_fb terminal_boot) [] false false.

Lemma image_cstr s : s ∈ image_literals → cstr image_mem (image_lit s) (bytes_of_string s).
Proof.
  intros Hs. apply cstrb_spec. revert s Hs. apply Forall_forall.
  apply (forallb_forall_list (λ s, cstrb image_mem (image_lit s) (bytes_of_string s))); [done|].
  vm_compute. reflexivity.
Qed.

Lemma image_apart s :
  s ∈ fault_literals →
  image_lit s + Z.of_nat (length (bytes_of_string s)) < image_buffer ∨ image_buffer + 256 <= image_lit s.
Proof.
  intros Hs. left. revert s Hs. apply Forall_forall.
  apply (forallb_forall_list
    (λ s, image_lit s + Z.of_nat (length (bytes_of_string s)) <? image_buffer)); [lia|].
  vm_compute. reflexivity.
Qed.

Lemma image_fresh : buffer_holds image_mem image_buffer [].
Proof.
  split; [apply cstrb_spec; vm_compute; reflexivity|]. intros a Ha.
  assert (Forall (λ a, rd8 image_mem a = 0) (seqZ image_buffer 256)) as H.
  { apply (forallb_forall_list (λ a, rd8 image_mem a =? 0)); [lia|]. vm_compute. reflexivity. }
  rewrite Forall_forall in H. apply H, elem_of_seqZ. cbn in Ha. lia.
Qed.

Lemma image_ok : image screen_fb image_lit image_buffer image_mem.
Proof.
  split; [exact image_cstr|exact image_apart| | |exact image_fresh].
  - intros i Hi. left. vm_compute (image_lit _). cbn. lia.
  - intros i Hi. left. unfold image_buffer. cbn. lia.
Qed.

(** A write of the kernel to a page that is not mapped: error code 2. *)
Lemma getPageFaultString_correct_witness :
  ∃ m', getPageFaultString image_lit image_buffer image_mem 2 = Done (image_buffer, m') ∧
    cstr m' image_buffer (bytes_of_string "Supervisor Process write to data non-present page entry").
Proof.
  destruct (getPageFaultString_correct image_lit image_buffer image_mem 2 [])
    as (m' & E & H & _).
  - intros s Hs. apply image_cstr. by apply elem_of_cons; right.
  - exact image_apart.
  - exact image_fresh.
  - exists m'. split; [exact E|]. rewrite drop_nil, app_nil_r in H. exact H.
Defined.

Definition timer_status : CPUStatus := mkStatus 0 0 0 0 0 0 0 0 0 0 0 0 32 0 0 8 0 0 16.

Lemma interruptDispatch_correct_witness :
  ∃ k', interruptDispatch image_lit image_buffer ready_device 1 screen_fb text_font 80 image_console
          timer_status 0x1000 0 = Done (Returned k') ∧
    sent (k_ports k') = bytes_of_string "Unexpected interrupt. Vector: 0000000000000020 (32)".
Proof.
  destruct (interruptDispatch_correct ready_device 1 screen_fb text_font 80 image_lit image_buffer
    image_console timer_status 0x1000 0) as (_ & _ & H).
  - exact ready_device_ok.
  - lia.
  - by split.
  - apply Terminal_init_ready; try (vm_compute; done); vm_compute; split_and!; done.
  - exact image_ok.
  - by left.
  - cbn. znorm. lia.
  - destruct H as (k' & E & _ & S); [done|done|]. exists k'. split; [exact E|].
    rewrite (se_sent _ _ _ S). vm_compute. reflexivity.
Defined.

(** ** Loading the interrupt descriptor table *)

(** [struct IDTR]: ten packed bytes. *)
Record IDTR := mkIDTR { limit : Z; base : Z }.

(** What [lidt] loads from the address [a]. *)
Definition lidt (m : mem) (a : Z) : IDTR := mkIDTR (rdN 2 m a) (rd64 m (a + 2)).

(** [idtReg] and [idtRegPtr] are the addresses of the two local variables;
    the operand of [lidt] is the second. *)
Definition loadIDT (m : mem) (idtReg idtRegPtr idtAddr : Z) : mem * IDTR :=
  let m := wrN 2 m idtReg 0xFFF in
  let m := wr64 m (idtReg + 2) idtAddr in
  let m := wr64 m idtRegPtr idtReg in
  (m, lidt m idtRegPtr).

(** [loadIDT] loads the address of its own variable: the limit is the low 16
    bits of a stack address and the base begins with the rest of it, whatever
    table was passed; the structure that [lidt] should have read is right. *)
Theorem loadIDT_loads_stack_address m idtReg idtRegPtr idtAddr :
  is_u64 idtReg → is_u64 idtAddr → idtReg + 10 <= idtRegPtr ∨ idtRegPtr + 10 <= idtReg →
  let '(m', r) := loadIDT m idtReg idtRegPtr idtAddr in
  limit r = idtReg mod 2^16 ∧ base r mod 2^48 = idtReg / 2^16 ∧ lidt m' idtReg = mkIDTR 0xFFF idtAddr.
Proof.
  intros Hr Ha Hap. unfold loadIDT. cbn zeta. set (m1 := wr64 (wrN 2 m idtReg 0xFFF) (idtReg + 2) idtAddr).
  set (m' := wr64 m1 idtRegPtr idtReg).
  assert (rd64 m' idtRegPtr = idtReg) as E by (unfold m'; rewrite rd64_wr64_eq; by apply to_u64_id).
  pose proof (rdN_app 2 6 m' idtRegPtr) as E1. pose proof (rdN_app 6 2 m' (idtRegPtr + 2)) as E2.
  cbn [plus] in E1, E2. rewrite E in E1. cbn [limit base lidt].
  change (8 * Z.of_nat 2) with 16 in E1. change (8 * Z.of_nat 6) with 48 in E2.
  change (Z.of_nat 2) with 2 in E1. change (Z.of_nat 6) with 6 in E2.
  pose proof (rdN_range 2 m' idtRegPtr) as R1. pose proof (rdN_range 6 m' (idtRegPtr + 2)) as R2.
  change (2 ^ (8 * Z.of_nat 2)) with (2^16) in R1. change (2 ^ (8 * Z.of_nat 6)) with (2^48) in R2.
  split_and!.
  - rewrite E1. rewrite Z.mul_comm, Z_mod_plus_full, Z.mod_small by lia. done.
  - rewrite E2, Z.mul_comm, Z_mod_plus_full, Z.mod_small by lia. rewrite E1.
    rewrite Z.mul_comm, Z.div_add, Z.div_small by lia. lia.
  - unfold lidt, m', m1. rewrite !(rdN_wrN_ne 8 2) by lia. rewrite (rdN_wrN_ne 8 8), rd64_wr64_eq by lia.
    rewrite rdN_wrN_eq. f_equal. by apply to_u64_id.
Qed.
