(* ===== verification/Asm.v ===== *)
(** * idt/stubs.asm and gdt/gdtasm.asm: the assembly of the kernel

    A machine with the registers and the instructions the two files use runs
    their code.  The processor's own part in an interrupt, the frame it pushes
    before the handler starts, is [deliver].  The theorems say what the C++
    side finds: where the handlers lie, what the stack holds when the
    dispatcher is called, what is restored afterwards, and which segments are
    loaded when [loadGDT] returns. *)

From S2P Require Import Prelude Memory Descriptors Layout PortIO Framebuffer Console Kprintf Screen Output Panic Interrupts.

(** ** The machine *)

(** The general registers apart from [rsp]. *)
Inductive reg :=
  | Rax | Rbx | Rcx | Rdx | Rsi | Rdi | Rbp
  | R8 | R9 | R10 | R11 | R12 | R13 | R14 | R15.
#[export] Instance reg_eq_dec : EqDecision reg.
Proof. solve_decision. Defined.

Inductive sreg := CS | DS | ES | FS | GS | SS.
#[export] Instance sreg_eq_dec : EqDecision sreg.
Proof. solve_decision. Defined.

Record cpu := mkCpu {
  gpr : reg → Z;
  c_rsp : Z;
  c_rip : Z;
  c_flags : Z;
  segment : sreg → Z;
  gdtr : Z * Z;
  (** the entries of the local descriptor table, if one is loaded *)
  ldt : Z → option GDTEntry;
  c_mem : mem
}.

Definition set_gpr (c : cpu) (r : reg) (v : Z) : cpu :=
  mkCpu (λ x, if decide (x = r) then v else gpr c x) (c_rsp c) (c_rip c) (c_flags c) (segment c) (gdtr c) (ldt c) (c_mem c).
Definition set_segment (c : cpu) (s : sreg) (v : Z) : cpu :=
  mkCpu (gpr c) (c_rsp c) (c_rip c) (c_flags c) (λ x, if decide (x = s) then v else segment c x) (gdtr c) (ldt c) (c_mem c).
Definition set_rsp (c : cpu) (v : Z) : cpu :=
  mkCpu (gpr c) v (c_rip c) (c_flags c) (segment c) (gdtr c) (ldt c) (c_mem c).
Definition set_rip (c : cpu) (v : Z) : cpu :=
  mkCpu (gpr c) (c_rsp c) v (c_flags c) (segment c) (gdtr c) (ldt c) (c_mem c).
Definition set_gdtr (c : cpu) (v : Z * Z) : cpu :=
  mkCpu (gpr c) (c_rsp c) (c_rip c) (c_flags c) (segment c) v (ldt c) (c_mem c).
Definition set_cmem (c : cpu) (m : mem) : cpu :=
  mkCpu (gpr c) (c_rsp c) (c_rip c) (c_flags c) (segment c) (gdtr c) (ldt c) m.

Definition push (c : cpu) (v : Z) : cpu :=
  let sp := to_u64 (c_rsp c - 8) in set_cmem (set_rsp c sp) (wr64 (c_mem c) sp v).
Definition pop (c : cpu) : Z * cpu :=
  (rd64 (c_mem c) (c_rsp c), set_rsp c (to_u64 (c_rsp c + 8))).

(** *** Segment selectors

    What the processor checks when a selector is loaded in ring 0: bit 2
    chooses the table, the bits above it the entry, the two low ones are the
    requested privilege level. *)
Definition bytes_at (m : mem) (a : Z) (n : Z) : list Z := (λ i, rd8 m (a + i)) <$> seqZ 0 n.

Definition descriptor (g : Z * Z) (l : Z → option GDTEntry) (m : mem) (sel : Z) : option GDTEntry :=
  let index := sel / 8 in
  if Z.testbit sel 2 then l index
  else if (index =? 0) || (g.1 <? 8 * index + 7) then None
  else GDTEntry_of_bytes (bytes_at m (g.2 + 8 * index) 8).

Definition seg_user (e : GDTEntry) : bool := Z.testbit (AccessByte e) 4.
Definition seg_conforming (e : GDTEntry) : bool := Z.testbit (AccessByte e) 2.
Definition seg_readable (e : GDTEntry) : bool := negb (Z.testbit (AccessByte e) 3) || Z.testbit (AccessByte e) 1.

Definition GP {A : Type} : outcome A := Panicked "General protection fault".
Definition NP {A : Type} : outcome A := Panicked "Segment not present".

Definition check_code (c : cpu) (sel : Z) : outcome unit :=
  match descriptor (gdtr c) (ldt c) (c_mem c) sel with
  | None => GP
  | Some e =>
      if negb (seg_executable e) then GP
      else if (if seg_conforming e then sel mod 4 <? seg_dpl e else negb (seg_dpl e =? sel mod 4)) then GP
      else if negb (seg_present e) then NP
      else Done tt
  end.

(** Null selectors are allowed in 64-bit mode. *)
Definition check_data (c : cpu) (s : sreg) (sel : Z) : outcome unit :=
  if sel / 4 =? 0 then Done tt
  else
    match descriptor (gdtr c) (ldt c) (c_mem c) sel with
    | None => GP
    | Some e =>
        if negb (seg_user e) then GP
        else if (if decide (s = SS) then negb (seg_writable e) || negb (sel mod 4 =? 0) || negb (seg_dpl e =? 0)
                 else negb (seg_readable e) || (negb (seg_conforming e && seg_executable e) && (seg_dpl e <? sel mod 4)))
        then GP
        else if negb (seg_present e) then NP
        else Done tt
    end.

Inductive instr :=
  | PushR (r : reg)
  | PushI (imm : Z)
  | PopR (r : reg)
  | AddRsp (imm : Z)
  | CallDispatch
  | JmpStub
  | Iret
  | LgdtRdi
  | MovAx (imm : Z)
  | MovSeg (s : sreg)
  | MovRax (imm : Z)
  | Retfq.

Section Run.
(** The C++ function behind the [call]: its argument is in [rdi]; it returns
    the memory it leaves, and may leave anything in the registers that the ABI
    lets it change.  [ret] is the address of the instruction after the call. *)
Context (dispatch : Z → mem → outcome mem) (clobber : reg → Z) (ret : Z).

Definition callee_saved (r : reg) : bool :=
  match r with Rbx | Rbp | R12 | R13 | R14 | R15 => true | _ => false end.

(** [iret] without a size is, in 64-bit code, the form with 32-bit operands:
    five words of four bytes.  Returns to an outer ring do not occur. *)
Definition exec (i : instr) (c : cpu) : outcome cpu :=
  match i with
  | PushR r => Done (push c (gpr c r))
  | PushI imm => Done (push c imm)
  | PopR r => let '(v, c) := pop c in Done (set_gpr c r v)
  | AddRsp imm => Done (set_rsp c (to_u64 (c_rsp c + imm)))
  | CallDispatch =>
      let sp := to_u64 (c_rsp c - 8) in
      m ← dispatch (gpr c Rdi) (wr64 (c_mem c) sp ret);
      Done (mkCpu (λ r, if callee_saved r then gpr c r else clobber r) (c_rsp c) (c_rip c)
              (c_flags c) (segment c) (gdtr c) (ldt c) m)
  | JmpStub => Done c
  | Iret =>
      let w i := rd32 (c_mem c) (c_rsp c + 4 * i) in
      _ ← check_code c (to_u16 (w 1));
      if negb (to_u16 (w 1) mod 4 =? 0) then Undef "return to an outer ring"
      else
        _ ← check_data c SS (to_u16 (w 4));
        Done (mkCpu (gpr c) (w 3) (w 0) (w 2)
                (λ s, match s with CS => to_u16 (w 1) | SS => to_u16 (w 4) | s => segment c s end)
                (gdtr c) (ldt c) (c_mem c))
  | LgdtRdi => Done (set_gdtr c (rdN 2 (c_mem c) (gpr c Rdi), rd64 (c_mem c) (gpr c Rdi + 2)))
  | MovAx imm => Done (set_gpr c Rax (2^16 * (gpr c Rax / 2^16) + imm))
  | MovSeg s =>
      _ ← check_data c s (to_u16 (gpr c Rax));
      Done (set_segment c s (to_u16 (gpr c Rax)))
  | MovRax imm => Done (set_gpr c Rax imm)
  | Retfq =>
      let '(ip, c) := pop c in
      let '(cs, c) := pop c in
      _ ← check_code c (to_u16 cs);
      if negb (to_u16 cs mod 4 =? 0) then Undef "return to an outer ring"
      else Done (set_rip (set_segment c CS (to_u16 cs)) ip)
  end.

Fixpoint run_code (code : list instr) (c : cpu) : outcome cpu :=
  match code with
  | [] => Done c
  | i :: code => c ← exec i c; run_code code c
  end.

Lemma run_code_app code1 code2 c : run_code (code1 ++ code2) c = (c ← run_code code1 c; run_code code2 c).
Proof.
  revert c. induction code1 as [|i code IH]; intros c; [done|]. cbn [app run_code]. rewrite bind_assoc.
  destruct (exec i c); [|done..]. by rewrite !bind_Done, IH.
Qed.
Lemma exec_ldt i c c' : exec i c = Done c' → ldt c' = ldt c.
Proof.
  destruct i; cbn [exec pop]; intros E; inv_done; subst; try done;
    repeat case_match; try discriminate; inv_done; by subst.
Qed.

(** No instruction here changes the local descriptor table. *)
Lemma run_code_ldt code c c' : run_code code c = Done c' → ldt c' = ldt c.
Proof.
  revert c. induction code as [|i code IH]; intros c E; cbn [run_code] in E; [by apply Done_inj in E as <-|].
  apply bind_Done_inv in E as (c1 & E1 & E). rewrite (IH _ E). by eapply exec_ldt.
Qed.
End Run.

(** ** The code *)

(** The registers the stub saves, in the order of its pushes. *)
Definition saved_regs : list reg := [Rax; Rbx; Rcx; Rdx; R8; R9; R10; R11; R12; R13; R14; R15].

(** [interrupt_stub], up to the call, from the call to [iret], and as a whole. *)
Definition stub_entry : list instr := PushR <$> saved_regs.
Definition stub_exit : list instr := (PopR <$> reverse saved_regs) ++ [AddRsp 16].
Definition interrupt_stub : list instr := stub_entry ++ [CallDispatch] ++ stub_exit ++ [Iret].

(** The vectors whose handlers push no error code of their own. *)
Definition stub_has_code (v : Z) : bool :=
  bool_decide (v ∈ [8; 10; 11; 12; 13; 14; 17]).

Definition vector_handler (v : Z) : list instr :=
  if stub_has_code v then [PushI v; JmpStub] else [PushI 0; PushI v; JmpStub].

(** gdtasm.asm *)
Definition loadGDT : list instr :=
  [LgdtRdi; MovAx 0x10; MovSeg DS; MovSeg ES; MovSeg FS; MovSeg GS; MovSeg SS;
   PopR Rdi; MovRax 0x08; PushR Rax; PushR Rdi; Retfq].

(** *** Where the assembler puts the handlers *)

(** The length of an instruction's encoding; a jump is short or near, as the
    distance requires ([short]). *)
Definition instr_length (short : bool) (i : instr) : Z :=
  match i with
  | PushI imm => if (-128 <=? imm) && (imm <? 128) then 2 else 5
  | JmpStub => if short then 2 else 5
  | PushR r | PopR r => if decide (r ∈ [R8; R9; R10; R11; R12; R13; R14; R15]) then 2 else 1
  | AddRsp _ => 4
  | CallDispatch => 5
  | Iret => 1
  | LgdtRdi => 3
  | MovAx _ => 4
  | MovSeg _ => 2
  | MovRax _ => 5
  | Retfq => 2
  end.

Definition code_length (short : bool) (code : list instr) : Z :=
  foldr Z.add 0 (instr_length short <$> code).

(** The address of the label of vector [v], when the code before the first
    handler ends at [stub_end]: every handler is preceded by [ALIGN 16]. *)
Fixpoint handler_label (short : Z → bool) (stub_end : Z) (v : nat) : Z :=
  match v with
  | O => align_up 16 stub_end
  | S v => align_up 16 (handler_label short stub_end v
             + code_length (short (Z.of_nat v)) (vector_handler (Z.of_nat v)))
  end.

(** ** The processor's part *)

(** The vectors for which the processor pushes an error code. *)
Definition cpu_has_code (v : Z) : bool :=
  bool_decide (v ∈ [8; 10; 11; 12; 13; 14; 17; 21; 29; 30]).

(** An interrupt of vector [v] with error code [e] in ring 0 of long mode. *)
Definition deliver (v e : Z) (c : cpu) : cpu :=
  let c0 := set_rsp c (c_rsp c / 16 * 16) in
  let c1 := push (push (push (push (push c0 (segment c SS)) (c_rsp c)) (c_flags c)) (segment c CS)) (c_rip c) in
  if cpu_has_code v then push c1 e else c1.

Lemma deliver_ldt v e c : ldt (deliver v e c) = ldt c.
Proof. unfold deliver. by destruct (cpu_has_code v). Qed.

(** ** The stack *)

(** Pushing a list, first element first. *)
Definition pushes (c : cpu) (vs : list Z) : cpu := fold_left push vs c.

(** [c'] is [c] with [vs] on its stack. *)
Record stacked (c : cpu) (vs : list Z) (c' : cpu) : Prop := {
  st_gpr : gpr c' = gpr c;
  st_rsp : c_rsp c' = c_rsp c - 8 * Z.of_nat (length vs);
  st_rest : c_rip c' = c_rip c ∧ c_flags c' = c_flags c ∧ segment c' = segment c ∧ gdtr c' = gdtr c;
  st_words i v : reverse vs !! i = Some v → rd64 (c_mem c') (c_rsp c' + 8 * Z.of_nat i) = to_u64 v;
  st_mem a : ¬ (c_rsp c' <= a < c_rsp c) → rd8 (c_mem c') a = rd8 (c_mem c) a
}.

Lemma pushes_stacked vs c :
  8 * Z.of_nat (length vs) <= c_rsp c < 2^64 → stacked c vs (pushes c vs).
Proof.
  induction vs as [|v vs IH] using rev_ind; intros Hr.
  { split; cbn; try done; lia. }
  rewrite length_app in Hr. cbn [length] in Hr. destruct IH as [G R (X1 & X2 & X3 & X4) W M]; [lia|].
  unfold pushes in *. rewrite fold_left_app. cbn [fold_left]. set (c1 := fold_left push vs c) in *.
  assert (c_rsp (push c1 v) = c_rsp c1 - 8) as Es.
  { unfold push. cbn. apply to_u64_id. znorm. lia. }
  split; [done|rewrite Es, length_app; cbn; lia|done| |].
  - intros i x. rewrite reverse_app. cbn [reverse rev_append app]. rewrite Es.
    destruct i as [|i]; cbn [lookup list_lookup]; intros Hx.
    + injection Hx as ->. unfold push. cbn [c_mem set_cmem]. rewrite Z.mul_0_r, Z.add_0_r.
      replace (to_u64 (c_rsp c1 - 8)) with (c_rsp c1 - 8) by (symmetry; exact Es). apply rd64_wr64_eq.
    + rewrite <- (W i x Hx). unfold push. cbn [c_mem set_cmem].
      replace (to_u64 (c_rsp c1 - 8)) with (c_rsp c1 - 8) by (symmetry; exact Es).
      rewrite rdN_wrN_ne by lia. f_equal. lia.
  - intros a Ha. rewrite Es in Ha. rewrite <- M by lia. unfold push. cbn [c_mem set_cmem].
    replace (to_u64 (c_rsp c1 - 8)) with (c_rsp c1 - 8) by (symmetry; exact Es).
    apply rd8_wrN_ne. lia.
Qed.

Lemma push_gpr c v : gpr (push c v) = gpr c.
Proof. done. Qed.

Lemma run_pushes d cl ret rs c : run_code d cl ret (PushR <$> rs) c = Done (pushes c (gpr c <$> rs)).
Proof.
  revert c. induction rs as [|r rs IH]; intros c; [done|].
  rewrite !fmap_cons. cbn [run_code exec]. rewrite bind_Done, IH. done.
Qed.

(** Popping into registers what the stack holds. *)
Definition popped (c : cpu) (rs : list reg) : cpu :=
  fold_left (λ c r, let '(v, c) := pop c in set_gpr c r v) rs c.

Lemma run_pops d cl ret rs c : run_code d cl ret (PopR <$> rs) c = Done (popped c rs).
Proof.
  revert c. induction rs as [|r rs IH]; intros c; [done|].
  rewrite fmap_cons. cbn [run_code exec pop]. rewrite bind_Done, IH. done.
Qed.

Lemma popped_spec rs c :
  NoDup rs → 0 <= c_rsp c → c_rsp c + 8 * Z.of_nat (length rs) < 2^64 →
  let c' := popped c rs in
  c_rsp c' = c_rsp c + 8 * Z.of_nat (length rs) ∧ c_mem c' = c_mem c ∧
  (c_rip c' = c_rip c ∧ c_flags c' = c_flags c ∧ segment c' = segment c ∧ gdtr c' = gdtr c) ∧
  (∀ i r, rs !! i = Some r → gpr c' r = rd64 (c_mem c) (c_rsp c + 8 * Z.of_nat i)) ∧
  (∀ r, r ∉ rs → gpr c' r = gpr c r).
Proof.
  revert c. induction rs as [|r rs IH]; intros c Hnd H0 Hr; cbn zeta.
  { cbn [popped fold_left length]. split_and!; try done; lia. }
  apply NoDup_cons in Hnd as [Hnin Hnd]. cbn [length] in Hr.
  set (c1 := set_gpr (set_rsp c (to_u64 (c_rsp c + 8))) r (rd64 (c_mem c) (c_rsp c))).
  change (popped c (r :: rs)) with (popped c1 rs). assert (c_rsp c1 = c_rsp c + 8) as E1 by (cbn; apply to_u64_id; znorm; lia).
  destruct (IH c1 Hnd) as (A & B & C & D & F); [lia|lia|]. cbn [length].
  split; [lia|]. split; [done|]. split; [done|]. split.
  - intros [|i] x; cbn [lookup list_lookup]; intros Hx.
    + injection Hx as <-. rewrite F by done. cbn. rewrite decide_True by done. f_equal. lia.
    + rewrite (D i x Hx), E1. f_equal. lia.
  - intros x [Hx Hx']%not_elem_of_cons. rewrite F by done. cbn. by rewrite decide_False.
Qed.

Lemma pops_run dispatch clobber ret rs c :
  NoDup rs → 0 <= c_rsp c → c_rsp c + 8 * Z.of_nat (length rs) < 2^64 →
  ∃ c', run_code dispatch clobber ret (PopR <$> rs) c = Done c' ∧
    c_rsp c' = c_rsp c + 8 * Z.of_nat (length rs) ∧ c_mem c' = c_mem c ∧
    (∀ i r, rs !! i = Some r → gpr c' r = rd64 (c_mem c) (c_rsp c + 8 * Z.of_nat i)) ∧
    (∀ r, r ∉ rs → gpr c' r = gpr c r).
Proof.
  intros H1 H2 H3. destruct (popped_spec rs c H1 H2 H3) as (A & B & _ & C & D).
  exists (popped c rs). split; [apply run_pops|done].
Qed.

(** ** The frame the dispatcher finds *)

(** What is on the stack when the stub calls the dispatcher. *)
Definition frame_words (v e : Z) (c : cpu) : list Z :=
  [segment c SS; c_rsp c; c_flags c; segment c CS; c_rip c; (if stub_has_code v then e else 0); v]
  ++ (gpr c <$> saved_regs).

(** The same as the structure of ints.h. *)
Definition interrupted (v e : Z) (c : cpu) : CPUStatus :=
  mkStatus (gpr c R15) (gpr c R14) (gpr c R13) (gpr c R12) (gpr c R11) (gpr c R10) (gpr c R9) (gpr c R8)
    (gpr c Rdx) (gpr c Rcx) (gpr c Rbx) (gpr c Rax) v (if stub_has_code v then e else 0)
    (c_rip c) (segment c CS) (c_flags c) (c_rsp c) (segment c SS).

Definition word_regs (c : cpu) : Prop :=
  (∀ r, is_u64 (gpr c r)) ∧ (∀ s, is_u64 (segment c s)) ∧ is_u64 (c_rip c) ∧ is_u64 (c_flags c).

Definition frame_at (c : cpu) : Z := c_rsp c / 16 * 16 - 152.

Lemma frame_pushed d cl ret v e c :
  cpu_has_code v = stub_has_code v →
  run_code d cl ret (vector_handler v ++ stub_entry) (deliver v e c) =
  Done (pushes (set_rsp c (c_rsp c / 16 * 16)) (frame_words v e c)).
Proof.
  intros Hc. rewrite run_code_app. unfold vector_handler, deliver, frame_words. rewrite Hc.
  unfold stub_entry. destruct (stub_has_code v); cbn [run_code exec];
    rewrite !bind_Done, run_pushes; unfold pushes; rewrite fold_left_app; reflexivity.
Qed.

Lemma frame_stacked v e c :
  168 <= c_rsp c < 2^64 →
  stacked (set_rsp c (c_rsp c / 16 * 16)) (frame_words v e c)
    (pushes (set_rsp c (c_rsp c / 16 * 16)) (frame_words v e c)).
Proof. intros Hr. apply pushes_stacked. cbn. zlia. Qed.

Lemma frame_status v e c c' :
  word_regs c → 168 <= c_rsp c < 2^64 → is_u64 v → is_u64 e →
  stacked (set_rsp c (c_rsp c / 16 * 16)) (frame_words v e c) c' →
  c_rsp c' = frame_at c ∧ read_status (c_mem c') (frame_at c) = interrupted v e c.
Proof.
  intros (Hg & Hs & Hi & Hf) Hr Hv He [_ S2 _ S4 _].
  assert (c_rsp c' = frame_at c) as E by (rewrite S2; unfold frame_at; cbn; lia).
  split; [done|]. rewrite E in S4.
  assert (is_u64 (c_rsp c)) as Hrs by (znorm; lia).
  assert (is_u64 (if stub_has_code v then e else 0)) as Hcode by (destruct (stub_has_code v); znorm; lia).
  unfold read_status, interrupted.
  f_equal; match goal with |- rd64 _ (_ + 8 * ?k) = ?w =>
    let n := eval vm_compute in (Z.to_nat k) in
    rewrite <- (to_u64_id w) by auto; exact (S4 n w eq_refl) end.
Qed.

(** Every vector but three of the reserved ones has the error code the
    processor gives it. *)
Lemma code_agrees v : v ∉ [21; 29; 30] → cpu_has_code v = stub_has_code v.
Proof.
  intros Hv. unfold cpu_has_code, stub_has_code. apply bool_decide_ext.
  rewrite !not_elem_of_cons in Hv. rewrite !elem_of_cons. tauto.
Qed.

(** C17: the stack at the dispatcher's call is the structure of ints.h.  For
    every vector whose error code the stub treats as the processor does, that is
    all but 21, 29 and 30, the
    handler and the stub run to the call; the 19 words from the stack pointer
    up, read as a [CPUStatus], are the registers of the interrupted code, the
    vector, the error code (0 where there is none) and the return frame; and
    nothing else in memory has changed. *)
Theorem stub_frame dispatch clobber ret v e c :
  0 <= v < 256 → v ∉ [21; 29; 30] → is_u64 e → word_regs c → 168 <= c_rsp c < 2^64 →
  ∃ c', run_code dispatch clobber ret (vector_handler v ++ stub_entry) (deliver v e c) = Done c' ∧
    read_status (c_mem c') (c_rsp c') = interrupted v e c ∧ gpr c' = gpr c ∧
    c_rsp c' = frame_at c ∧
    ∀ a, ¬ (frame_at c <= a < frame_at c + 152) → rd8 (c_mem c') a = rd8 (c_mem c) a.
Proof.
  intros Hv Hn He Hw Hr. rewrite frame_pushed by (by apply code_agrees).
  pose proof (frame_stacked v e c Hr) as S. set (c' := pushes _ _) in *.
  destruct (frame_status v e c c' Hw Hr) as [E1 E2]; [znorm; lia|done|done|].
  exists c'. rewrite E1. split; [done|]. split; [done|]. split; [apply S|]. split; [done|].
  intros a Ha. rewrite (st_mem _ _ _ S); [done|]. rewrite E1. unfold frame_at in *. cbn. lia.
Qed.

(** ** The way back *)

(** What a C++ function with a frame at [lo] above it must leave alone. *)
Definition keeps (dispatch : Z → mem → outcome mem) (arg lo : Z) : Prop :=
  ∀ m, ∃ m', dispatch arg m = Done m' ∧ ∀ a, lo <= a < lo + 152 → rd8 m' a = rd8 m a.

Lemma saved_nodup : NoDup saved_regs.
Proof. apply (bool_decide_unpack _). vm_compute. done. Qed.

Lemma read_status_ext m m' a :
  (∀ x, a <= x < a + 152 → rd8 m' x = rd8 m x) → read_status m' a = read_status m a.
Proof. intros Hm. unfold read_status. f_equal; apply rdN_ext; intros x Hx; apply Hm; lia. Qed.

(** The register the stub pops from a word of the structure. *)
Definition status_reg (st : CPUStatus) (r : reg) : option Z :=
  match r with
  | R15 => Some (r15 st) | R14 => Some (r14 st) | R13 => Some (r13 st) | R12 => Some (r12 st)
  | R11 => Some (r11 st) | R10 => Some (r10 st) | R9 => Some (r9 st) | R8 => Some (r8 st)
  | Rdx => Some (rdx st) | Rcx => Some (rcx st) | Rbx => Some (rbx st) | Rax => Some (rax st)
  | Rsi | Rdi | Rbp => None
  end.

Definition return_frame (st : CPUStatus) : list Z :=
  [iret_rip st; iret_cs st; iret_flags st; iret_rsp st; iret_ss st].

(** The words an [iret] with 64-bit operands would take. *)
Definition frame64 (c : cpu) : list Z :=
  let w i := rd64 (c_mem c) (c_rsp c + 8 * i) in [w 0; w 1; w 2; w 3; w 4].

(** The structure from its words. *)
Definition status_of (w : Z → Z) : CPUStatus :=
  mkStatus (w 0) (w 1) (w 2) (w 3) (w 4) (w 5) (w 6) (w 7) (w 8) (w 9) (w 10) (w 11)
    (w 12) (w 13) (w 14) (w 15) (w 16) (w 17) (w 18).

Lemma read_status_words m a : read_status m a = status_of (λ i, rd64 m (a + 8 * i)).
Proof. reflexivity. Qed.

Lemma return_frame_words w : return_frame (status_of w) = [w 14; w 15; w 16; w 17; w 18].
Proof. reflexivity. Qed.

Lemma status_reg_words w i r : reverse saved_regs !! i = Some r → status_reg (status_of w) r = Some (w (Z.of_nat i)).
Proof. intros Hi. do 12 (destruct i as [|i]; [injection Hi as <-; reflexivity|]). done. Qed.

Lemma status_reg_none st r : r ∉ reverse saved_regs → status_reg st r = None.
Proof.
  intros Hr. destruct r; try done; exfalso; apply Hr; apply (bool_decide_unpack _); vm_compute; done.
Qed.

Lemma frame64_words c m sp : c_mem c = m → c_rsp c = sp →
  frame64 c = [rd64 m (sp + 8 * 0); rd64 m (sp + 8 * 1); rd64 m (sp + 8 * 2); rd64 m (sp + 8 * 3); rd64 m (sp + 8 * 4)].
Proof. by intros <- <-. Qed.

Lemma stub_pops dispatch clobber ret c :
  0 <= c_rsp c → c_rsp c + 152 < 2^64 →
  let st := read_status (c_mem c) (c_rsp c) in
  ∃ c', run_code dispatch clobber ret stub_exit c = Done c' ∧
    (∀ r, gpr c' r = default (gpr c r) (status_reg st r)) ∧
    c_rsp c' = c_rsp c + 112 ∧ c_mem c' = c_mem c ∧ frame64 c' = return_frame st.
Proof.
  intros H0 Hr st. unfold stub_exit. rewrite run_code_app.
  destruct (pops_run dispatch clobber ret (reverse saved_regs) c) as (c3 & -> & P1 & P2 & P4 & P5);
    [rewrite reverse_Permutation; apply saved_nodup|lia|cbn; lia|].
  change (Z.of_nat (length (reverse saved_regs))) with 12 in P1. rewrite bind_Done.
  cbn [run_code exec]. rewrite bind_Done.
  assert (to_u64 (c_rsp c3 + 16) = c_rsp c + 112) as -> by (rewrite to_u64_id; znorm; lia).
  eexists. split; [done|]. split; [|split; [done|split; [done|]]].
  - intros r. change (gpr c3 r = default (gpr c r) (status_reg st r)).
    destruct (decide (r ∈ reverse saved_regs)) as [Hin|Hnin].
    + apply list_elem_of_lookup in Hin as [i Hi]. unfold st.
      by rewrite (P4 i r Hi), read_status_words, (status_reg_words _ i r Hi).
    + by rewrite P5, status_reg_none.
  - unfold st. rewrite read_status_words, return_frame_words, (frame64_words _ (c_mem c) (c_rsp c + 112));
      [|exact P2|reflexivity]. by rewrite <- !Z.add_assoc.
Qed.

Lemma run_call dispatch clobber ret code c m :
  dispatch (gpr c Rdi) (wr64 (c_mem c) (to_u64 (c_rsp c - 8)) ret) = Done m →
  run_code dispatch clobber ret ([CallDispatch] ++ code) c =
  run_code dispatch clobber ret code
    (mkCpu (λ r, if callee_saved r then gpr c r else clobber r) (c_rsp c) (c_rip c)
       (c_flags c) (segment c) (gdtr c) (ldt c) m).
Proof. intros E. cbn [app run_code exec]. by rewrite E, !bind_Done. Qed.

(** From the interrupt to the [iret]. *)
Lemma stub_runs dispatch clobber ret v e c :
  0 <= v < 256 → v ∉ [21; 29; 30] → is_u64 e → word_regs c → 176 <= c_rsp c < 2^64 →
  keeps dispatch (gpr c Rdi) (frame_at c) →
  ∃ c', run_code dispatch clobber ret (vector_handler v ++ stub_entry ++ [CallDispatch] ++ stub_exit)
          (deliver v e c) = Done c' ∧
    (∀ r, gpr c' r = if decide (r ∈ [Rsi; Rdi]) then clobber r else gpr c r) ∧
    c_rsp c' = frame_at c + 112 ∧ frame64 c' = return_frame (interrupted v e c).
Proof.
  intros Hv Hn He Hw Hr Hd. rewrite app_assoc, run_code_app, frame_pushed by (by apply code_agrees).
  pose proof (frame_stacked v e c ltac:(lia)) as S. set (c1 := pushes _ _) in *. clearbody c1.
  destruct (frame_status v e c c1 Hw) as [E1 E2]; [lia|znorm; lia|done|done|].
  assert (8 <= frame_at c ∧ frame_at c + 152 <= c_rsp c) as Hfr by (unfold frame_at; zlia).
  destruct (Hd (wr64 (c_mem c1) (to_u64 (c_rsp c1 - 8)) ret)) as (m2 & Em & Hm).
  assert (gpr c1 = gpr c) as Eg by apply (st_gpr _ _ _ S).
  rewrite bind_Done, (run_call _ _ _ _ _ m2) by (by rewrite Eg). rewrite E1, Eg in *.
  assert (read_status m2 (frame_at c) = interrupted v e c) as Est.
  { rewrite <- E2. apply read_status_ext. intros a Ha. rewrite Hm by done.
    rewrite to_u64_id by (znorm; lia). apply rd8_wrN_ne. lia. }
  clear S Hd Em Hm E2 E1.
  edestruct (stub_pops dispatch clobber ret) as (c3 & -> & G & R & _ & F); cbn [c_rsp c_mem gpr] in *;
    [lia|lia|].
  rewrite Est in G, F. exists c3. split; [done|]. split; [|done].
  intros r. rewrite G. destruct r; reflexivity.
Qed.

(** C19: what the stub restores.  For every vector but 21, 29 and 30, when the
    dispatcher returns and leaves the frame alone, the code up to [iret] restores every register the
    dispatcher may have changed except [rsi] and [rdi], which keep what it left
    in them, and the stack pointer is at the return frame the processor
    pushed. *)
Theorem stub_restores dispatch clobber ret v e c :
  0 <= v < 256 → v ∉ [21; 29; 30] → is_u64 e → word_regs c → 176 <= c_rsp c < 2^64 →
  keeps dispatch (gpr c Rdi) (frame_at c) →
  ∃ c', run_code dispatch clobber ret (vector_handler v ++ stub_entry ++ [CallDispatch] ++ stub_exit)
          (deliver v e c) = Done c' ∧
    (∀ r, r ∉ [Rsi; Rdi] → gpr c' r = gpr c r) ∧ gpr c' Rsi = clobber Rsi ∧ gpr c' Rdi = clobber Rdi ∧
    frame64 c' = [c_rip c; segment c CS; c_flags c; c_rsp c; segment c SS].
Proof.
  intros Hv Hn He Hw Hr Hd.
  destruct (stub_runs dispatch clobber ret v e c Hv Hn He Hw Hr Hd) as (c' & E & G & _ & F).
  exists c'. split; [done|]. split; [intros r Hr'; by rewrite G, decide_False|]. by rewrite !G.
Qed.

(** C35: interrupted code is not resumed.  [iret] without a size takes 32-bit
    words from a frame of 64-bit ones: the instruction pointer is the lower half
    of the interrupted one, and the code selector is taken from its upper half.
    For code above 4 GiB and every vector but 21, 29 and 30, whatever the
    descriptor tables hold, the stub either
    faults or goes on at another address; for code in the top 2 GiB, where the
    kernel is linked, the selector refers to the local descriptor table, and
    without one the processor raises a general protection fault. *)
Theorem iret_does_not_resume dispatch clobber ret v e c :
  0 <= v < 256 → v ∉ [21; 29; 30] → is_u64 e → word_regs c → 176 <= c_rsp c < 2^64 →
  keeps dispatch (gpr c Rdi) (frame_at c) → 2^32 <= c_rip c →
  let run := run_code dispatch clobber ret (vector_handler v ++ interrupt_stub) (deliver v e c) in
  (∀ c', run = Done c' → c_rip c' = c_rip c mod 2^32 ∧ c_rip c' ≠ c_rip c) ∧
  (2^64 - 2^31 <= c_rip c → (∀ i, ldt c i = None) → run = Panicked "General protection fault").
Proof.
  intros Hv Hn He Hw Hr Hd Hip run. pose proof Hw as (_ & _ & Hri & _).
  destruct (stub_runs dispatch clobber ret v e c Hv Hn He Hw Hr Hd) as (c' & E & _ & _ & F).
  pose proof (run_code_ldt _ _ _ _ _ _ E) as El. rewrite deliver_ldt in El.
  unfold run, interrupt_stub. rewrite !app_assoc in *. rewrite run_code_app, E, bind_Done. cbn [run_code exec].
  apply (f_equal head) in F. injection F as F. rewrite Z.mul_0_r, Z.add_0_r in *.
  change 8%nat with (4 + 4)%nat in F. rewrite rdN_app in F. change (2 ^ (8 * Z.of_nat 4)) with (2^32) in F.
  change (Z.of_nat 4) with (4 * 1) in F.
  pose proof (rdN_range 4 (c_mem c') (c_rsp c')). pose proof (rdN_range 4 (c_mem c') (c_rsp c' + 4 * 1)).
  change (2 ^ (8 * Z.of_nat 4)) with (2^32) in *. cbn [interrupted iret_rip] in F. unfold is_u64 in Hri.
  assert (rd32 (c_mem c') (c_rsp c') = c_rip c mod 2^32) as -> by zlia.
  assert (rd32 (c_mem c') (c_rsp c' + 4 * 1) = c_rip c / 2^32) as -> by zlia.
  split.
  - intros c2 E2. inv_done. subst. repeat case_match; try discriminate. inv_done. subst. cbn [c_rip]. split; [done|zlia].
  - intros Htop Hl. assert (to_u16 (c_rip c / 2^32) = 0xFFFF) as -> by (unfold to_u16; zlia).
    unfold check_code, descriptor. cbn [Z.testbit Pos.testbit Pos.pred_N Pos.pred_double]. by rewrite El, Hl.
Qed.

(** ** The dispatcher's argument *)

(** C34: the dispatcher is not given the frame.  The stub calls
    [interruptDispatch(CPUStatus* )] without loading [rdi], so that the
    structure it reads is wherever the [rdi] of the interrupted code points.
    Whatever the vector [v] was (21, 29 and 30 apart), a page fault or a
    protection fault included, unless the word at [rdi + 96] happens to be 13 or 14 the dispatcher reports
    an unexpected interrupt with that word as its vector, and returns. *)
Theorem dispatcher_reads_elsewhere dispatch clobber ret lit buf device poll fb font fuel v e c k f1 f2 :
  (∀ past, ready_within device poll past = true) → (71 <= fuel)%nat → idle k →
  0 <= v < 256 → v ∉ [21; 29; 30] → is_u64 e → word_regs c → 168 <= c_rsp c < 2^64 →
  (gpr c Rdi + 104 <= frame_at c ∨ frame_at c + 152 <= gpr c Rdi + 96) →
  let w := rd64 (c_mem c) (gpr c Rdi + 96) in
  w ≠ 13 → w ≠ 14 →
  ∃ c' k', run_code dispatch clobber ret (vector_handler v ++ stub_entry) (deliver v e c) = Done c' ∧
    gpr c' Rdi = gpr c Rdi ∧
    interruptDispatch lit buf device poll fb font fuel k (read_status (c_mem c') (gpr c' Rdi)) f1 f2 =
      Done (Returned k') ∧
    sends k (unexpected w) k'.
Proof.
  intros Hu Hf Hi Hv Hn He Hw Hr Hap w H13 H14. rewrite frame_pushed by (by apply code_agrees).
  pose proof (frame_stacked v e c Hr) as S.
  destruct (frame_status v e c _ Hw Hr ltac:(znorm; lia) He S) as [E1 _].
  eexists. assert (gpr (pushes (set_rsp c (c_rsp c / 16 * 16)) (frame_words v e c)) = gpr c) as Eg
    by apply (st_gpr _ _ _ S). rewrite Eg. pose proof (st_mem _ _ _ S) as Hm. rewrite E1 in Hm. cbn [c_rsp c_mem set_rsp] in Hm.
  generalize dependent (c_mem (pushes (set_rsp c (c_rsp c / 16 * 16)) (frame_words v e c))). intros m Hm.
  assert (vectorNumber (read_status m (gpr c Rdi)) = w) as Ew.
  { rewrite read_status_words. unfold w. apply rdN_ext. intros a Ha. apply Hm. unfold frame_at in *. lia. }
  destruct (dispatch_other device poll fb font fuel lit buf Hu Hf k (read_status m (gpr c Rdi)) f1 f2 Hi)
    as (k' & E & _ & S'); [rewrite Ew; apply rd64_range|congruence|congruence|].
  exists k'. rewrite Ew in S'. done.
Qed.

(** ** Where the handlers are *)

Lemma align_up_16 a : align_up 16 a mod 16 = 0 ∧ a <= align_up 16 a < a + 16.
Proof. unfold align_up. zlia. Qed.

(** Every handler fits between two multiples of 16. *)
Lemma handler_size short v : 0 < code_length short (vector_handler v) <= 16.
Proof.
  unfold vector_handler. destruct (stub_has_code v), short; unfold code_length; cbn [fmap list_fmap foldr instr_length];
    repeat case_match; lia.
Qed.

Lemma handler_label_spec short stub_end v :
  handler_label short stub_end v = align_up 16 stub_end + 16 * Z.of_nat v.
Proof.
  pose proof (align_up_16 stub_end) as [H0 _].
  induction v as [|v IH]; [cbn; lia|]. cbn [handler_label]. rewrite IH.
  pose proof (handler_size (short (Z.of_nat v)) (Z.of_nat v)) as Hs.
  set (n := code_length _ _) in *. set (a := align_up 16 stub_end) in *. unfold align_up. zlia.
Qed.

(** C18: the gates lead to the handlers.  [initInts] computes the handler of
    vector [v] as [vector_0_handler + 16 * v]; whichever jumps the assembler
    encodes short, every handler fits its sixteen bytes, so that the gate of
    every vector, a present ring-0 interrupt gate in the kernel's code segment,
    holds the address of that vector's label. *)
Theorem gates_reach_handlers short stub_end idt :
  length idt = 256%nat → 0 <= stub_end → stub_end + 4112 <= 2^64 →
  ∃ idt', initInts idt (handler_label short stub_end 0) = Done idt' ∧
    ∀ v, 0 <= v < 256 → ∃ e, idt' !! Z.to_nat v = Some e ∧
      gate_handler e = handler_label short stub_end (Z.to_nat v) ∧
      gate_present e = true ∧ gate_dpl e = 0 ∧ gate_type e = 14 ∧ selector e = 8 ∧ ist e = 0.
Proof.
  intros Hl H0 Hend. rewrite handler_label_spec. pose proof (align_up_16 stub_end) as [_ Ha].
  destruct (initInts_correct idt (align_up 16 stub_end + 16 * Z.of_nat 0)) as (idt' & E & _ & G); [done|lia|lia|].
  exists idt'. split; [done|]. intros v Hv. destruct (G v Hv) as (g & E1 & E2 & G').
  exists g. split; [done|]. rewrite handler_label_spec, E2, Z2Nat.id by lia. split; [lia|done].
Qed.

(** ** loadGDT *)

Lemma check_code_ext c c' sel :
  gdtr c' = gdtr c → ldt c' = ldt c → c_mem c' = c_mem c → check_code c' sel = check_code c sel.
Proof. unfold check_code. by intros -> -> ->. Qed.

Lemma far_return dispatch clobber ret c :
  16 <= c_rsp c < 2^64 - 16 → is_u64 (gpr c Rax) → is_u64 (gpr c Rdi) → to_u16 (gpr c Rax) mod 4 = 0 →
  (∀ m, (∀ a, ¬ (c_rsp c - 16 <= a < c_rsp c) → rd8 m a = rd8 (c_mem c) a) →
     check_code (set_cmem c m) (to_u16 (gpr c Rax)) = Done tt) →
  ∃ c', run_code dispatch clobber ret [PushR Rax; PushR Rdi; Retfq] c = Done c' ∧
    c_rip c' = gpr c Rdi ∧ c_rsp c' = c_rsp c ∧ gpr c' = gpr c ∧ gdtr c' = gdtr c ∧
    segment c' = (λ s, if decide (s = CS) then to_u16 (gpr c Rax) else segment c s) ∧
    ∀ a, ¬ (c_rsp c - 16 <= a < c_rsp c) → rd8 (c_mem c') a = rd8 (c_mem c) a.
Proof.
  intros Hr Ha Hd H4 Hcode. change [PushR Rax; PushR Rdi; Retfq] with ((PushR <$> [Rax; Rdi]) ++ [Retfq]).
  rewrite run_code_app, run_pushes, bind_Done. cbn [fmap list_fmap].
  pose proof (run_code_ldt dispatch clobber ret _ _ _ (run_pushes dispatch clobber ret [Rax; Rdi] c)) as Hl.
  destruct (pushes_stacked [gpr c Rax; gpr c Rdi] c) as [G R (X1 & X2 & X3 & X4) W M]; [cbn; lia|].
  cbn [fmap list_fmap] in Hl.
  revert Hl G R X1 X2 X3 X4 W M. generalize (pushes c [gpr c Rax; gpr c Rdi]). intros c1 Hl G R X1 X2 X3 X4 W M.
  pose proof (W 0%nat _ eq_refl) as W0. pose proof (W 1%nat _ eq_refl) as W1.
  rewrite Z.add_0_r, to_u64_id in W0 by done. rewrite to_u64_id in W1 by done.
  change (8 * Z.of_nat (length [gpr c Rax; gpr c Rdi])) with 16 in R. change (8 * Z.of_nat 1) with 8 in W1.
  cbn [run_code exec pop set_rsp c_rsp c_mem]. rewrite (to_u64_id (c_rsp c1 + 8)) by (znorm; lia).
  rewrite (to_u64_id (c_rsp c1 + 8 + 8)) by (znorm; lia). rewrite W0, W1.
  rewrite (check_code_ext (set_cmem c (c_mem c1))) by done.
  rewrite Hcode by (intros a Hna; apply M; lia). rewrite bind_Done, H4. cbn [Z.eqb negb]. rewrite bind_Done.
  eexists. split; [done|]. cbn [c_rip c_rsp gpr gdtr segment set_rip set_segment set_rsp c_mem].
  rewrite X3, X4, G. split_and!; try done; [lia|]. intros a Hna. apply M. lia.
Qed.

(** The entries of a table that lies in memory. *)
Definition table_at (m : mem) (a : Z) (g : GDT) : Prop :=
  ∀ i b, GDT_bytes g !! i = Some b → rd8 m (a + Z.of_nat i) = b.

Lemma table_entry m a g l sel (k : nat) e :
  table_at m a g → sel = 8 * Z.of_nat k → (0 < k < 512)%nat →
  take 8 (drop (8 * k) (GDT_bytes g)) = entry_bytes e → GDTEntry_of_bytes (entry_bytes e) = Some e →
  descriptor (SIZEOF_GDT - 1, a) l m sel = Some e.
Proof.
  intros Hm -> Hk Hb He. unfold descriptor. cbn [fst snd].
  assert (Z.testbit (8 * Z.of_nat k) 2 = false) as ->.
  { change 8 with (2^3). rewrite Z.mul_comm. by rewrite Z.mul_pow2_bits_low. }
  rewrite Z.mul_comm, Z.div_mul by lia. change (SIZEOF_GDT - 1) with 4095.
  destruct (Z.eqb_spec (Z.of_nat k) 0); [lia|]. cbn [orb].
  destruct (Z.ltb_spec 4095 (8 * Z.of_nat k + 7)); [lia|]. rewrite <- He, <- Hb. f_equal.
  apply list_eq_same_length with (n := 8%nat); [|done|].
  - rewrite Hb. done.
  - intros i x y Hi Hx Hy. apply lookup_take_Some in Hy as [Hy _]. rewrite lookup_drop in Hy.
    apply Hm in Hy as <-. apply list_lookup_fmap_Some in Hx as (z & -> & Hz).
    apply lookup_seqZ in Hz as [-> _]. f_equal. lia.
Qed.

Lemma kernel_descriptors m l a g :
  KernelCode g = KernelCode defaultGDT → KernelData g = KernelData defaultGDT → table_at m a g →
  descriptor (SIZEOF_GDT - 1, a) l m 8 = Some (KernelCode defaultGDT) ∧
  descriptor (SIZEOF_GDT - 1, a) l m 16 = Some (KernelData defaultGDT).
Proof.
  intros Ec Ed Hm. rewrite <- Ec, <- Ed.
  split; [apply (table_entry m a g l 8 1)|apply (table_entry m a g l 16 2)];
    try done; try lia; [by rewrite Ec|by rewrite Ed].
Qed.

(** Loading the selector 16, when a writable ring-0 data segment is behind it. *)
Lemma mov_segment dispatch clobber ret c s e :
  to_u16 (gpr c Rax) = 16 →
  (seg_user e && seg_writable e && (seg_dpl e =? 0) && seg_readable e && seg_present e) = true →
  descriptor (gdtr c) (ldt c) (c_mem c) 16 = Some e →
  exec dispatch clobber ret (MovSeg s) c = Done (set_segment c s 16).
Proof.
  intros Ha He Hd. cbn [exec]. rewrite Ha. unfold check_data. rewrite Hd.
  apply andb_true_iff in He as [[[[-> ->]%andb_true_iff E3]%andb_true_iff ->]%andb_true_iff ->].
  apply Z.eqb_eq in E3. rewrite E3. destruct s; cbn; by rewrite ?andb_false_r.
Qed.

(** C30: the kernel's segments are loaded.  Given the table and the register
    image that [gdt_init] makes, both in memory, and a stack apart from the
    table, [loadGDT] passes every selector check of the processor and returns to its caller:
    the table register holds the limit 4095 and the table's address, the code
    segment is the selector 8, behind which the present 64-bit code segment of
    the table lies, the five data segments are the selector 16, a writable
    segment; the stack pointer is as after an ordinary return, and no register
    but [rax] and [rdi] nor any memory but the stack has changed. *)
Theorem gdt_loaded dispatch clobber ret c tss gdt_addr gdt r :
  is_u64 tss → gdt_init defaultGDT gdt_addr tss = Done (gdt, r) →
  rdN 2 (c_mem c) (gpr c Rdi) = Size r → rd64 (c_mem c) (gpr c Rdi + 2) = Offset r →
  table_at (c_mem c) gdt_addr gdt →
  word_regs c → 8 <= c_rsp c → c_rsp c + 24 < 2^64 →
  (c_rsp c + 8 <= gdt_addr ∨ gdt_addr + SIZEOF_GDT <= c_rsp c - 8) →
  ∃ c' e, run_code dispatch clobber ret loadGDT c = Done c' ∧
    c_rip c' = rd64 (c_mem c) (c_rsp c) ∧ c_rsp c' = c_rsp c + 8 ∧
    gdtr c' = (4095, gdt_addr) ∧
    segment c' CS = 8 ∧ descriptor (gdtr c') (ldt c') (c_mem c') 8 = Some e ∧
    (seg_present e && seg_executable e && seg_long e) = true ∧ (∀ s, s ≠ CS → segment c' s = 16) ∧
    (∀ r, r ≠ Rax → r ≠ Rdi → gpr c' r = gpr c r) ∧
    ∀ a, ¬ (c_rsp c - 8 <= a < c_rsp c + 8) → rd8 (c_mem c') a = rd8 (c_mem c) a.
Proof.
  intros Ht Hg Hs Ho Htab (Hgp & Hsg & Hi & Hf) H0 Hr Hap.
  destruct (gdt_init_entries gdt_addr tss Ht) as (gdt' & r' & Hg' & Es & Eo & Ec & Ed).
  rewrite Hg in Hg'. apply Done_inj in Hg'. injection Hg' as <- <-. rewrite Es in Hs. rewrite Eo in Ho.
  assert (∀ m, (∀ a, ¬ (c_rsp c - 8 <= a < c_rsp c + 8) → rd8 m a = rd8 (c_mem c) a) → table_at m gdt_addr gdt) as Hkeep.
  { intros m Hm i b Hb. rewrite Hm; [by apply Htab|]. apply lookup_lt_Some in Hb.
    rewrite GDT_bytes_length in Hb. change SIZEOF_GDT with 4096 in Hap. lia. }
  assert (∀ m l, table_at m gdt_addr gdt →
    descriptor (SIZEOF_GDT - 1, gdt_addr) l m 8 = Some (KernelCode defaultGDT) ∧
    descriptor (SIZEOF_GDT - 1, gdt_addr) l m 16 = Some (KernelData defaultGDT)) as Hdesc
    by (intros m l; by apply (kernel_descriptors m l gdt_addr gdt)).
  change loadGDT with ([LgdtRdi; MovAx 0x10; MovSeg DS; MovSeg ES; MovSeg FS; MovSeg GS; MovSeg SS;
    PopR Rdi; MovRax 0x08] ++ [PushR Rax; PushR Rdi; Retfq]). rewrite run_code_app.
  assert (∀ z, to_u16 (2^16 * (z / 2^16) + 16) = 16) as Hax by (intros z; unfold to_u16; zlia).
  set (c1 := set_gpr (set_gdtr c (SIZEOF_GDT - 1, gdt_addr)) Rax (2^16 * (gpr c Rax / 2^16) + 16)).
  assert (∀ c2 s, gdtr c2 = gdtr c1 → c_mem c2 = c_mem c → gpr c2 Rax = gpr c1 Rax →
    exec dispatch clobber ret (MovSeg s) c2 = Done (set_segment c2 s 16)) as Hmov.
  { intros c2 s G1 G2 G3. apply (mov_segment dispatch clobber ret c2 s (KernelData defaultGDT)); [|by destruct s|].
    - rewrite G3. apply Hax.
    - rewrite G1, G2. apply Hdesc, Htab. }
  remember [PushR Rax; PushR Rdi; Retfq] as tl eqn:Etl.
  cbn [run_code]. change (exec dispatch clobber ret LgdtRdi c)
    with (Done (set_gdtr c (rdN 2 (c_mem c) (gpr c Rdi), rd64 (c_mem c) (gpr c Rdi + 2)))). rewrite Hs, Ho, bind_Done.
  change (exec dispatch clobber ret (MovAx 0x10) (set_gdtr c (SIZEOF_GDT - 1, gdt_addr))) with (Done c1).
  rewrite bind_Done. do 5 (rewrite Hmov by done; rewrite bind_Done). cbn [exec pop]. rewrite !bind_Done.
  match goal with |- context [run_code _ _ _ tl ?x] => set (c9 := x) end. subst tl.
  assert (c_rsp c9 = c_rsp c + 8) as E9 by (apply (to_u64_id (c_rsp c + 8)); znorm; lia).
  destruct (far_return dispatch clobber ret c9) as (c' & E & R1 & R2 & R3 & R4 & R5 & R6);
    [lia|change (is_u64 8); znorm; lia|apply (rd64_range (c_mem c) (c_rsp c))|done| |].
  { intros m Hm. unfold check_code. cbn [gdtr ldt c_mem set_cmem]. change (ldt c9) with (ldt c). change (to_u16 (gpr c9 Rax)) with 8.
    change (gdtr c9) with (SIZEOF_GDT - 1, gdt_addr).
    rewrite (proj1 (Hdesc m (ldt c) ltac:(apply Hkeep; intros a Ha; apply Hm; lia))). done. }
  exists c', (KernelCode defaultGDT). rewrite R1, R2, R3, R4, R5. split; [exact E|]. split; [reflexivity|].
  split; [exact E9|]. split; [reflexivity|]. split; [reflexivity|]. split; [|split; [reflexivity|split; [|split]]].
  - apply (proj1 (Hdesc _ _ (Hkeep _ ltac:(intros a Ha; rewrite R6; [done|lia])))).
  - intros [] Hne; done.
  - intros [] H1 H2; done.
  - intros a Ha. apply R6. lia.
Qed.

(** ** Examples: an interrupt of kernel code *)

Definition quiet_dispatch (ctx : Z) (m : mem) : outcome mem := Done m.
Definition sample_cpu : cpu :=
  mkCpu (λ r, match r with Rdi => 0x5000 | Rax => 7 | Rbp => 0x7f00 | _ => 1 end) 0x7ff8 0xffffffff80001234 0x202
    (λ s, match s with CS => 8 | _ => 16 end) (0, 0) (λ _, None) ∅.

Lemma sample_words : word_regs sample_cpu.
Proof. split_and!; [intros []|intros []| |]; cbn; znorm; lia. Qed.

Lemma quiet_keeps a lo : keeps quiet_dispatch a lo.
Proof. intros m. by exists m. Qed.

Lemma pf_plain : 14 ∉ [21; 29; 30].
Proof. apply (bool_decide_unpack _). by vm_compute. Qed.

Lemma stub_frame_witness :
  ∃ c', run_code quiet_dispatch (λ _, 0) 0 (vector_handler 14 ++ stub_entry) (deliver 14 2 sample_cpu) = Done c' ∧
    vectorNumber (read_status (c_mem c') (c_rsp c')) = 14 ∧
    errorCode (read_status (c_mem c') (c_rsp c')) = 2.
Proof.
  destruct (stub_frame quiet_dispatch (λ _, 0) 0 14 2 sample_cpu) as (c' & E & S & _);
    [lia|exact pf_plain|znorm; lia|exact sample_words|cbn; lia|].
  exists c'. rewrite S. split; [exact E|]. split; reflexivity.
Defined.

Lemma stub_restores_witness :
  ∃ c', run_code quiet_dispatch (λ _, 0) 0 (vector_handler 14 ++ stub_entry ++ [CallDispatch] ++ stub_exit)
          (deliver 14 2 sample_cpu) = Done c' ∧
    gpr c' Rax = 7 ∧ gpr c' Rdi = 0.
Proof.
  destruct (stub_restores quiet_dispatch (λ _, 0) 0 14 2 sample_cpu) as (c' & E & G & _ & G' & _);
    [lia|exact pf_plain|znorm; lia|exact sample_words|cbn; lia|apply quiet_keeps|].
  exists c'. split; [exact E|]. split; [|exact G']. rewrite G; [done|].
  apply (bool_decide_unpack _). by vm_compute.
Defined.

Lemma iret_does_not_resume_witness :
  run_code quiet_dispatch (λ _, 0) 0 (vector_handler 14 ++ interrupt_stub) (deliver 14 2 sample_cpu)
  = Panicked "General protection fault".
Proof.
  destruct (iret_does_not_resume quiet_dispatch (λ _, 0) 0 14 2 sample_cpu) as [_ H];
    [lia|exact pf_plain|znorm; lia|exact sample_words|cbn; lia|apply quiet_keeps|cbn; lia|].
  apply H; [cbn; lia|done].
Defined.

Lemma dispatcher_reads_elsewhere_witness :
  ∃ c' k', run_code quiet_dispatch (λ _, 0) 0 (vector_handler 14 ++ stub_entry) (deliver 14 2 sample_cpu) = Done c' ∧
    interruptDispatch (λ _, 0) 0 ready_device 1 screen_fb text_font 80 panic_console
      (read_status (c_mem c') (gpr c' Rdi)) 0 0 = Done (Returned k').
Proof.
  destruct (dispatcher_reads_elsewhere quiet_dispatch (λ _, 0) 0 (λ _, 0) 0 ready_device 1 screen_fb text_font 80
    14 2 sample_cpu panic_console 0 0) as (c' & k' & E & _ & E2 & _);
    [exact ready_device_ok|lia|done|lia|exact pf_plain|znorm; lia|exact sample_words|cbn; lia|
     left; vm_compute; discriminate|vm_compute; discriminate|vm_compute; discriminate|].
  exists c', k'. split; [exact E|exact E2].
Defined.

Lemma gates_reach_handlers_witness :
  ∃ idt' e, initInts (replicate 256 (mkGate 0 0 0 0 0 0 0)) (handler_label (λ v, v <? 5) 0xffffffff80000024 0) = Done idt' ∧
    idt' !! 14%nat = Some e ∧ gate_handler e = 0xffffffff80000110.
Proof.
  destruct (gates_reach_handlers (λ v, v <? 5) 0xffffffff80000024 (replicate 256 (mkGate 0 0 0 0 0 0 0)))
    as (idt' & E & G); [apply length_replicate|lia|lia|].
  destruct (G 14) as (e & E1 & E2 & _); [lia|]. exists idt', e. split; [exact E|]. split; [exact E1|].
  rewrite E2. vm_compute. reflexivity.
Defined.

(** The same processor with the table and its register image in memory. *)
Definition gdt_mem (tss : Z) : mem :=
  match gdt_init defaultGDT 0x10000 tss with
  | Done (g, r) => wr64 (wrN 2 (foldr (λ ib m, wr8 m (0x10000 + ib.1) ib.2) ∅ (zip (seqZ 0 4096) (GDT_bytes g))) 0x5000 (Size r)) 0x5002 (Offset r)
  | _ => ∅
  end.
Definition gdt_cpu : cpu := set_cmem sample_cpu (gdt_mem 0xffffffff80012340).

Definition table_atb (m : mem) (a : Z) (g : GDT) : bool :=
  forallb (λ ib, rd8 m (a + ib.1) =? ib.2) (zip (seqZ 0 4096) (GDT_bytes g)).

Lemma table_atb_spec m a g : table_atb m a g = true → table_at m a g.
Proof.
  unfold table_atb. rewrite forallb_forall. intros H i b Hb. pose proof (lookup_lt_Some _ _ _ Hb) as Hi.
  rewrite GDT_bytes_length in Hi. apply Z.eqb_eq. apply (H (Z.of_nat i, b)), list_elem_of_In, list_elem_of_lookup.
  exists i. apply lookup_zip_Some. split; [|done]. apply lookup_seqZ. lia.
Qed.

Lemma gdt_loaded_witness :
  ∃ c', run_code quiet_dispatch (λ _, 0) 0 loadGDT gdt_cpu = Done c' ∧ segment c' CS = 8 ∧ gdtr c' = (4095, 0x10000).
Proof.
  destruct (gdt_init defaultGDT 0x10000 0xffffffff80012340) as [[g r]| | |] eqn:E; try (vm_compute in E; discriminate).
  destruct (gdt_loaded quiet_dispatch (λ _, 0) 0 gdt_cpu 0xffffffff80012340 0x10000 g r)
    as (c' & e & E1 & _ & _ & E2 & E3 & _).
  - znorm. lia.
  - exact E.
  - vm_compute in E. injection E as <- <-. vm_compute. reflexivity.
  - vm_compute in E. injection E as <- <-. vm_compute. reflexivity.
  - apply table_atb_spec. vm_compute in E. injection E as <- <-. vm_compute. reflexivity.
  - exact sample_words.
  - cbn. lia.
  - cbn. lia.
  - left. cbn. lia.
  - exists c'. split; [exact E1|]. split; [exact E3|exact E2].
Defined.
