(* ===== verification/ACPI.v ===== *)
(** * acpi/acpi.cpp: looking for the FADT and enabling ACPI

    The tables of the firmware lie in physical memory; the code maps the page
    of a table to itself before it reads it.  A load goes through the page
    tables: on a page that is not mapped it is a page fault.  So do the loads
    and stores of [PageTable_MapMemory] itself, whose tables the kernel reaches
    where low memory is mapped to itself. *)

From S2P Require Import Prelude Memory Bitmap MemUtils PageFrameAllocator PfaInit.
From S2P Require Import PageEntry PageSource Paging PagingLive Paged PageMapper BootPaging BootMemory MemorySamples.
From S2P Require Import PortIO Console Kprintf Layout.

(** ** Loads *)

Definition load8 (k : Machine) (va : Z) : outcome Z :=
  match space k va with Some pa => Done (rd8 (ram k) pa) | None => Panicked "Page fault" end.

Fixpoint loadN (n : nat) (k : Machine) (va : Z) : outcome Z :=
  match n with
  | O => Done 0
  | S n' => b ← load8 k va; r ← loadN n' k (va + 1); Done (b + 2^8 * r)
  end.
Abbreviation load32 := (loadN 4).

(** ** Operations *)

(** Offsets of [ACPISDTHeader], [RSDT] and [FADT]. *)
Definition HDR_Length : Z := 4.
Definition SIZEOF_SDT : Z := 36.
Definition FADT_SMI_CommandPort : Z := 48.
Definition FADT_AcpiEnable : Z := 52.
Definition FADT_PM1aControlBlock : Z := 64.

Example sdt_offsets :
  offsetof ACPISDTHeader "Length" = Some HDR_Length ∧ sizeof ACPISDTHeader = SIZEOF_SDT ∧
  offsetof FADT "SMI_CommandPort" = Some FADT_SMI_CommandPort ∧
  offsetof FADT "AcpiEnable" = Some FADT_AcpiEnable ∧
  offsetof FADT "PM1aControlBlock" = Some FADT_PM1aControlBlock.
Proof. vm_compute. split_and!; reflexivity. Qed.

(** [sum] is an [unsigned char]; [i] is an [int] compared with an unsigned
    length, so that a length of [2^31] and more overflows it. *)
Definition doChecksum (m : mem) (tableHeader : Z) : outcome bool :=
  let len := rd32 m (tableHeader + HDR_Length) in
  if 2^31 <=? len then Undef "i++"
  else Done (for_pure (Z.to_nat len) 0 (λ i sum, to_u8 (sum + rd8 m (tableHeader + i))) 0 =? 0).

(** [strncmp] on a table's signature and a literal. *)
Fixpoint sig_compare (k : Machine) (str1 : Z) (str2 : list Z) (num : nat) : outcome Z :=
  match num with
  | O => Done 0
  | S n =>
      c ← load8 k str1;
      let d := default 0 (head str2) in
      if negb (c =? 0) && (c =? d) then sig_compare k (str1 + 1) (tail str2) n else Done (c - d)
  end.

Definition FACP : list Z := bytes_of_string "FACP".

(** [rsdt->PointerToOtherSDT[i]] *)
Definition sdt_pointer (k : Machine) (rsdt i : Z) : outcome Z := load32 k (rsdt + SIZEOF_SDT + 4 * i).

(** The loop of [findTable]; [n] is [entries - i]. *)
Fixpoint find_loop (n : nat) (i : Z) (k : Paged) (rsdt : Z) : outcome (Z * Paged) :=
  match n with
  | O => Done (0, k)
  | S n' =>
      p ← sdt_pointer k rsdt i;
      k ← paged_map_to k p p;
      h ← sdt_pointer k rsdt i;
      r ← sig_compare k h FACP 4;
      if r =? 0 then Done (h, k) else find_loop n' (i + 1) k rsdt
  end.

(** [entries] is an [int] made of a [size_t]; [sig] is not used. *)
Definition findTable (k : Paged) (gRSDT : Z) (sig : list Z) : outcome (Z * Paged) :=
  let rsdt := gRSDT in
  k ← paged_map_to k rsdt rsdt;
  len ← load32 k (rsdt + HDR_Length);
  let entries := to_i32 (to_u64 (len - SIZEOF_SDT) / 4) in
  find_loop (Z.to_nat entries) 0 k rsdt.

(** From [FADT* fadt] to the loop: the ports are [u16], and the condition
    [inw(..) & 1 == 0] is [inw(..) & (1 == 0)]. *)
Fixpoint wait_enabled (device : ports → Z → Z) (fuel : nat) (h : ports) (port : Z) : outcome ports :=
  match fuel with
  | O => NoFuel
  | S f =>
      let '(v, h) := inw device h port in
      if negb (Z.land v (Z.b2z (1 =? 0)) =? 0) then wait_enabled device f h port else Done h
  end.

(** kernel.cpp, [_start]: from the RSDP to [gRSDT]. *)
Fixpoint mem_compare (k : Machine) (s1 : Z) (s2 : list Z) : outcome Z :=
  match s2 with
  | [] => Done 0
  | d :: s2 =>
      c ← load8 k s1;
      if negb (c =? d) then Done (if c <? d then -1 else 1) else mem_compare k (s1 + 1) s2
  end.

Definition RSDP_RsdtAddress : Z := 16.

Definition locate_rsdt (k : Machine) (rsdp : Z) : outcome Z :=
  r ← mem_compare k rsdp (bytes_of_string "RSD PTR ");
  if negb (r =? 0) then Panicked "RSDP Signature does not match!"
  else load32 k (rsdp + RSDP_RsdtAddress).

Definition enable_acpi (device : ports → Z → Z) (fuel : nat) (k : Machine) (h : ports) (fadt : Z) : outcome ports :=
  port ← load32 k (fadt + FADT_SMI_CommandPort);
  value ← load8 k (fadt + FADT_AcpiEnable);
  let h := outb h (to_u16 port) value in
  port ← load32 k (fadt + FADT_PM1aControlBlock);
  wait_enabled device fuel h (to_u16 port).

(** ** doChecksum *)

Definition byte_sum (m : mem) (a : Z) (n : nat) : Z :=
  foldr Z.add 0 ((λ i, rd8 m (a + Z.of_nat i)) <$> seq 0 n).

Lemma byte_sum_S m a n : byte_sum m a (S n) = byte_sum m a n + rd8 m (a + Z.of_nat n).
Proof.
  unfold byte_sum. rewrite seq_S, fmap_app, foldr_app. cbn.
  rewrite Z.add_0_r. generalize (rd8 m (a + Z.of_nat n)) as z. intros z.
  induction ((λ i, rd8 m (a + Z.of_nat i)) <$> seq 0 n) as [|x l IH]; cbn; lia.
Qed.

(** [doChecksum] accepts a table exactly when its bytes add up to zero
    modulo 256, as ACPI asks; on a length of 2 GiB and more its counter
    overflows. *)
Theorem doChecksum_correct m t :
  let len := rd32 m (t + HDR_Length) in
  (len < 2^31 → doChecksum m t = Done (byte_sum m t (Z.to_nat len) mod 256 =? 0)) ∧
  (2^31 <= len → doChecksum m t = Undef "i++").
Proof.
  cbn zeta. unfold doChecksum. destruct (Z.leb_spec (2^31) (rd32 m (t + HDR_Length))) as [Hge|Hlt].
  { split; [lia|done]. }
  split; [|lia]. intros _. do 2 f_equal. set (n := Z.to_nat _). clearbody n.
  pose proof (for_pure_inv (λ i sum, sum = to_u8 (byte_sum m t (Z.to_nat i))) n 0
    (λ i sum, to_u8 (sum + rd8 m (t + i))) 0) as H. cbn beta in H.
  rewrite H; [by rewrite Z.add_0_l, Nat2Z.id|done|].
  intros i s Hi ->. replace (Z.to_nat (i + 1)) with (S (Z.to_nat i)) by lia.
  rewrite byte_sum_S, Z2Nat.id by lia. unfold to_u8. by rewrite Z.add_mod_idemp_l.
Qed.

(** ** findTable *)

Lemma loadN_at n k a pa :
  (∀ j, 0 <= j < Z.of_nat n → space k (a + j) = Some (pa + j)) → loadN n k a = Done (rdN n (ram k) pa).
Proof.
  revert a pa. induction n as [|n IH]; intros a pa Hs; [done|]. cbn [loadN]. unfold load8.
  pose proof (Hs 0 ltac:(lia)) as H0. rewrite !Z.add_0_r in H0.
  rewrite H0, bind_Done, (IH _ (pa + 1)), bind_Done, rdN_S; [done|].
  intros j Hj. rewrite <- !Z.add_assoc. apply Hs. lia.
Qed.

Lemma loadN_spec n k a :
  (∀ j, 0 <= j < Z.of_nat n → space k (a + j) = Some (a + j)) → loadN n k a = Done (rdN n (ram k) a).
Proof. apply loadN_at. Qed.

Lemma loadN_range n k a v : loadN n k a = Done v → 0 <= v < 2 ^ (8 * Z.of_nat n).
Proof.
  revert a v. induction n as [|n IH]; intros a v E; cbn [loadN] in E; [apply Done_inj in E as <-; done|].
  apply bind_Done_inv in E as (b & Eb & E). apply bind_Done_inv in E as (r & Er & E). apply Done_inj in E as <-.
  unfold load8 in Eb. destruct (space k a) as [pa|]; [|done]. apply Done_inj in Eb as <-.
  pose proof (rd8_range (ram k) pa) as Hb. unfold is_u8 in Hb. apply IH in Er.
  replace (8 * Z.of_nat (S n)) with (8 + 8 * Z.of_nat n) by lia. rewrite Z.pow_add_r by lia.
  change (2 ^ 8) with 256 in *. nia.
Qed.

Lemma sdt_pointer_range k rsdt i p : sdt_pointer k rsdt i = Done p → 0 <= p < 2^32.
Proof. apply (loadN_range 4). Qed.

(** The kernel's tables are in its reach and can take the pages of [S], and
    [need]ed bytes are as in [m0]. *)
Record serving (S : gset (list Z)) (need : Z → Prop) (m0 : mem) (root : Z) (k : Machine) : Prop := {
  sv_tables : ∃ T, paged_supplied S 0 T k;
  sv_root : globalPageTable k = root;
  sv_need a : need a → untouched (globalPageTable k) (ram k) (pfa k) a ∧ rd8 (ram k) a = rd8 m0 a
}.

Lemma serving_ok S need m0 root (k : Paged) : serving S need m0 root k → mapper_ok k.
Proof. intros [(T & Hre & _) _ _]. by exists T. Qed.

(** [k'] has pages of [T] mapped to themselves, in addition to what [k] had;
    no frame was given back, and what was not used otherwise is as it was. *)
Record mapped_more (T : Z → Prop) (k k' : Machine) : Prop := {
  mo_same va : 0 <= va < 2^48 → ¬ T (va / 4096) → space k' va = space k va;
  mo_identity va : 0 <= va < 2^47 → space k va = Some va → space k' va = Some va;
  mo_used f : frame_used k f → frame_used k' f;
  mo_spares : spares k k'
}.

Lemma mapped_more_refl T k : mapped_more T k k.
Proof. by split. Qed.

Lemma mapped_more_trans (T : Z → Prop) k1 k2 k3 : mapped_more T k1 k2 → mapped_more T k2 k3 → mapped_more T k1 k3.
Proof.
  intros [A1 A2 A3 A4] [B1 B2 B3 B4]. split; [|auto|auto|by etransitivity]. intros va Hva Hn. by rewrite B1, A1.
Qed.

Lemma map_identity (T : Z → Prop) S need m0 root (k : Paged) p :
  T (p / 4096) → serving S need m0 root k → Forall (.∈ S) (table_paths p) → 0 <= p < 2^32 →
  ∃ k', paged_map_to k p p = Done k' ∧ serving S need m0 root k' ∧ mapped_more T k k' ∧
    ∀ va, 0 <= va < 2^47 → space k' va = if decide (va / 4096 = p / 4096) then Some va else space k va.
Proof.
  intros HT [(T0 & Hs) Hr Hn] HS Hp.
  destruct (paged_map_identity S 0 T0 k p Hs HS ltac:(lia)) as (k' & T' & Ek & E & Hs'). exists k'. split; [done|].
  pose proof (reachable_ok _ _ (proj1 Hs)) as Hk.
  destruct (map_to_spec k p p Hk) as [Ep|(k2 & E2 & [_ R1 R2 R3])]; [lia|congruence|].
  rewrite E in E2. apply Done_inj in E2 as <-. unfold map_to in E. apply bind_Done_inv in E as ([m' w'] & EM & E).
  apply Done_inj in E.
  assert (∀ va, 0 <= va < 2^48 → space k' va = if decide (va / 4096 = p / 4096) then Some va else space k va) as Hsp.
  { intros va Hva. rewrite R2. unfold page_no. rewrite (Z.mod_small (p / 4096)), (Z.mod_small (va / 4096)) by zlia.
    repeat case_decide; try lia; try done. f_equal. zlia. }
  split; [split; [by exists T'|by rewrite R1|]|split; [split|]].
  - intros a Ha. destruct (Hn a Ha) as [U1 E1].
    destruct (MapMemory_untouched _ _ _ _ _ _ _ a (proj2 Hk) EM U1) as [U2 E2]. rewrite <- E. split; [done|]. cbn. congruence.
  - intros va Hva Hn'. rewrite Hsp by done. rewrite decide_False; [done|]. intros E'. apply Hn'. by rewrite E'.
  - intros va Hva Ev. rewrite Hsp by lia. by case_decide.
  - intros f (F1 & F2 & F3). split; [done|]. split; [done|]. by apply R3.
  - rewrite <- E. apply (map_to_spares k p p); [done|]. unfold map_to. by rewrite EM.
  - intros va Hva. apply Hsp. lia.
Qed.

(** The tables of which the RSDT has pointers, and the first FACP among them. *)
Definition sdt_pointers (m : mem) (rsdt i n : Z) : list Z :=
  (λ j, rd32 m (rsdt + SIZEOF_SDT + 4 * j)) <$> seqZ i n.
Definition signature (m : mem) (p : Z) : list Z := (λ i, rd8 m (p + i)) <$> seqZ 0 4.
Definition first_facp (m : mem) (ptrs : list Z) : Z :=
  default 0 (head (filter (λ p, signature m p = FACP) ptrs)).

Lemma sig_compare_spec k p l n :
  (∀ j, 0 <= j < Z.of_nat n → space k (p + j) = Some (p + j)) → length l = n → Forall (λ c, c ≠ 0) l →
  ∃ r, sig_compare k p l n = Done r ∧ (r = 0 ↔ (λ i, rd8 (ram k) (p + i)) <$> seqZ 0 (Z.of_nat n) = l).
Proof.
  revert p n. induction l as [|d l IH]; intros p n Hs Hl Hnz; subst n.
  { exists 0. done. }
  apply Forall_cons in Hnz as [Hd Hnz]. cbn [length sig_compare head tail from_option id]. unfold load8.
  pose proof (Hs 0 ltac:(cbn; lia)) as H0. rewrite Z.add_0_r in H0. rewrite H0, bind_Done.
  rewrite seqZ_cons by lia. rewrite fmap_cons, Z.add_0_r.
  destruct (Z.eqb_spec (rd8 (ram k) p) d) as [E|E].
  - destruct (Z.eqb_spec (rd8 (ram k) p) 0); [lia|]. cbn [negb andb].
    destruct (IH (p + 1) (length l)) as (r & Er & Hr); [|done|done|].
    { intros j Hj. rewrite <- Z.add_assoc. apply Hs. cbn. lia. }
    exists r. split; [exact Er|]. rewrite Hr.
    assert ((λ i, rd8 (ram k) (p + 1 + i)) <$> seqZ 0 (Z.of_nat (length l)) =
      (λ i, rd8 (ram k) (p + i)) <$> seqZ (Z.succ 0) (Z.pred (Z.of_nat (S (length l))))) as ->.
    { replace (Z.pred (Z.of_nat (S (length l)))) with (Z.of_nat (length l)) by lia.
      change (Z.succ 0) with (1 + 0). rewrite <- (fmap_add_seqZ 1 0), <- list_fmap_compose.
      apply list_fmap_ext. intros i x _. cbn. f_equal. lia. }
    rewrite E. split; [by intros ->|by intros [= ->]].
  - rewrite andb_false_r. eexists. split; [done|]. split; [lia|]. intros [= ? _]. done.
Qed.

Section Find.
Context (S : gset (list Z)) (m0 : mem) (root rsdt : Z).
Let len := rd32 m0 (rsdt + HDR_Length).
Let entries := (len - SIZEOF_SDT) / 4.

(** The tables as the firmware leaves them: each header inside one page. *)
Record tables_ok : Prop := {
  tb_rsdt : 0 <= rsdt ∧ rsdt mod 4096 + len <= 4096 ∧ rsdt + len <= 2^32;
  tb_len : SIZEOF_SDT <= len;
  tb_paths : Forall (.∈ S) (table_paths rsdt);
  tb_sdt p : p ∈ sdt_pointers m0 rsdt 0 entries → p mod 4096 + 4 <= 4096 ∧ Forall (.∈ S) (table_paths p)
}.

(** The bytes that [findTable] reads. *)
Definition acpi_bytes (a : Z) : Prop :=
  rsdt <= a < rsdt + len ∨ ∃ p, p ∈ sdt_pointers m0 rsdt 0 entries ∧ p <= a < p + 4.

(** The pages of the RSDT and of the tables it points to. *)
Definition table_pages (n : Z) : Prop :=
  n = rsdt / 4096 ∨ ∃ p, p ∈ sdt_pointers m0 rsdt 0 entries ∧ n = p / 4096.

Hypothesis ok : tables_ok.

(** The bytes the caller is interested in, those that are read among them. *)
Context (need : Z → Prop).
Hypothesis read_needed : ∀ a, acpi_bytes a → need a.

Lemma serving_rdN n k a :
  serving S need m0 root k → (∀ j, 0 <= j < Z.of_nat n → acpi_bytes (a + j)) →
  rdN n (ram k) a = rdN n m0 a.
Proof.
  intros Hs Hb. apply rdN_ext. intros x Hx. apply (sv_need _ _ _ _ _ Hs).
  replace x with (a + (x - a)) by lia. apply read_needed, Hb. lia.
Qed.

Lemma sdt_pointer_spec k i :
  serving S need m0 root k → (∀ a, rsdt <= a < rsdt + len → space k a = Some a) →
  0 <= i < entries → sdt_pointer k rsdt i = Done (rd32 m0 (rsdt + SIZEOF_SDT + 4 * i)).
Proof using ok read_needed.
  intros Hs Hsp Hi. unfold sdt_pointer.
  assert (4 * entries <= len - SIZEOF_SDT) as He by (unfold entries; zlia). unfold SIZEOF_SDT in *.
  rewrite loadN_spec.
  - f_equal. apply serving_rdN; [done|]. intros j Hj. left. lia.
  - intros j Hj. apply Hsp. lia.
Qed.

(** One round: the pointer is read, its page is mapped, and the pointer is
    read again. *)
Lemma find_step i (k : Paged) :
  serving S need m0 root k → (∀ a, rsdt <= a < rsdt + len → space k a = Some a) → 0 <= i < entries →
  let p := rd32 m0 (rsdt + SIZEOF_SDT + 4 * i) in
  sdt_pointer k rsdt i = Done p ∧ p ∈ sdt_pointers m0 rsdt 0 entries ∧ 0 <= p < 2^32 ∧
  ∃ k1, paged_map_to k p p = Done k1 ∧ serving S need m0 root k1 ∧ mapped_more table_pages k k1 ∧
    (∀ a, rsdt <= a < rsdt + len → space k1 a = Some a) ∧ sdt_pointer k1 rsdt i = Done p ∧
    ∀ va, 0 <= va < 2^47 → va / 4096 = p / 4096 → space k1 va = Some va.
Proof using ok read_needed.
  intros Hs Hsp Hi p. pose proof ok as [(A1 & A2 & A3) A4 A5 A6].
  assert (p ∈ sdt_pointers m0 rsdt 0 entries) as Hp.
  { apply list_elem_of_fmap. exists i. split; [done|]. apply elem_of_seqZ. lia. }
  assert (0 <= p < 2^32) as Hp32 by apply (rdN_range 4).
  split; [by apply sdt_pointer_spec|]. split; [done|]. split; [done|].
  destruct (map_identity table_pages _ _ _ _ k p ltac:(right; by exists p) Hs (proj2 (A6 p Hp)) Hp32)
    as (k1 & E & Hs1 & Hmo & Hsp1). exists k1.
  assert (∀ a, rsdt <= a < rsdt + len → space k1 a = Some a) as Hsp2.
  { intros a Ha. rewrite Hsp1 by lia. case_decide; [done|]. by apply Hsp. }
  split_and!; try done; [by apply sdt_pointer_spec|]. intros va Hva Ev. rewrite Hsp1 by done. by rewrite decide_True.
Qed.

Lemma find_loop_spec n i (k : Paged) :
  serving S need m0 root k → (∀ a, rsdt <= a < rsdt + len → space k a = Some a) →
  0 <= i → i + Z.of_nat n <= entries →
  ∃ k' r, find_loop n i k rsdt = Done (r, k') ∧ r = first_facp m0 (sdt_pointers m0 rsdt i (Z.of_nat n)) ∧
    serving S need m0 root k' ∧ mapped_more table_pages k k' ∧
    (r ≠ 0 → r ∈ sdt_pointers m0 rsdt 0 entries ∧
      ∀ va, 0 <= va < 2^47 → va / 4096 = r / 4096 → space k' va = Some va).
Proof using ok read_needed.
  revert i k. induction n as [|n IH]; intros i k Hs Hsp Hi Hn.
  { exists k, 0. split_and!; [done|done|done|apply mapped_more_refl|done]. }
  destruct (find_step i k Hs Hsp ltac:(lia)) as (E1 & Hp & Hp32 & k1 & E2 & Hs1 & Hmo & Hsp2 & E3 & Hpg).
  cbn [find_loop]. set (p := rd32 m0 (rsdt + SIZEOF_SDT + 4 * i)) in *. rewrite E1, bind_Done, E2, bind_Done, E3, bind_Done.
  destruct (tb_sdt ok p Hp) as [P1 _].
  destruct (sig_compare_spec k1 p FACP 4) as (r & -> & Hr); [|done|by repeat constructor|].
  { intros j Hj. apply Hpg; [lia|zlia]. }
  rewrite bind_Done. unfold sdt_pointers. rewrite seqZ_cons, fmap_cons by lia. fold p.
  unfold first_facp. rewrite filter_cons.
  assert (r = 0 ↔ signature m0 p = FACP) as Hr'.
  { rewrite Hr. unfold signature. change (Z.of_nat 4) with 4.
    assert ((λ i, rd8 (ram k1) (p + i)) <$> seqZ 0 4 = (λ i, rd8 m0 (p + i)) <$> seqZ 0 4) as ->; [|done].
    apply list_fmap_ext. intros j x Hx%list_elem_of_lookup_2%elem_of_seqZ. apply (sv_need _ _ _ _ _ Hs1), read_needed.
    right. exists p. split; [done|lia]. }
  destruct (Z.eqb_spec r 0) as [E|E].
  - rewrite decide_True by tauto. exists k1, p. by split_and!.
  - rewrite decide_False by tauto. destruct (IH (i + 1) k1 Hs1 Hsp2) as (k2 & r2 & -> & -> & Hs2 & Hmo2 & Hr2); [lia|lia|].
    eexists k2, _. split; [done|]. split; [|split; [done|split; [by eapply mapped_more_trans|exact Hr2]]].
    unfold first_facp, sdt_pointers. by replace (Z.pred (Z.of_nat (Datatypes.S n))) with (Z.of_nat n) by lia.
Qed.

(** The RSDT is mapped, and its length read. *)
Lemma find_start (k : Paged) :
  serving S need m0 root k →
  ∃ k1, paged_map_to k rsdt rsdt = Done k1 ∧ serving S need m0 root k1 ∧ mapped_more table_pages k k1 ∧
    (∀ a, rsdt <= a < rsdt + len → space k1 a = Some a) ∧ load32 k1 (rsdt + HDR_Length) = Done len ∧
    to_i32 (to_u64 (len - SIZEOF_SDT) / 4) = entries ∧ 0 <= entries.
Proof using ok read_needed.
  intros Hs. pose proof ok as [(A1 & A2 & A3) A4 A5 A6]. unfold SIZEOF_SDT in A4.
  destruct (map_identity table_pages _ _ _ _ k rsdt ltac:(by left) Hs A5) as (k1 & E & Hs1 & Hmo & Hsp1); [lia|].
  assert (∀ a, rsdt <= a < rsdt + len → space k1 a = Some a) as Hsp.
  { intros a Ha. rewrite Hsp1 by lia. rewrite decide_True by zlia. done. }
  exists k1. assert (0 <= entries < 2^31) as Hn by (unfold entries, SIZEOF_SDT in *; zlia).
  split_and!; try done; try lia.
  - rewrite loadN_spec by (intros j Hj; apply Hsp; unfold HDR_Length; lia). f_equal.
    apply serving_rdN; [done|]. intros j Hj. left. unfold HDR_Length. lia.
  - rewrite to_u64_id by (unfold SIZEOF_SDT; znorm; lia). fold entries. apply to_i32_id. znorm. lia.
Qed.
End Find.

Lemma findTable_spec S need (k : Paged) rsdt sig :
  tables_ok S (ram k) rsdt → (∀ a, acpi_bytes (ram k) rsdt a → need a) →
  serving S need (ram k) (globalPageTable k) k →
  let ptrs := sdt_pointers (ram k) rsdt 0 ((rd32 (ram k) (rsdt + HDR_Length) - SIZEOF_SDT) / 4) in
  ∃ k' r, findTable k rsdt sig = Done (r, k') ∧ r = first_facp (ram k) ptrs ∧
    serving S need (ram k) (globalPageTable k) k' ∧
    mapped_more (table_pages (ram k) rsdt) k k' ∧
    (r ≠ 0 → r ∈ ptrs ∧ ∀ va, 0 <= va < 2^47 → va / 4096 = r / 4096 → space k' va = Some va).
Proof.
  intros Hok Hnd Hs ptrs.
  destruct (find_start S (ram k) (globalPageTable k) rsdt Hok need Hnd k Hs) as (k1 & E1 & Hs1 & Hmo & Hsp & E2 & E3 & Hn).
  unfold findTable. cbn zeta. rewrite E1, bind_Done, E2, bind_Done, E3.
  destruct (find_loop_spec S (ram k) (globalPageTable k) rsdt Hok need Hnd
    (Z.to_nat ((rd32 (ram k) (rsdt + HDR_Length) - SIZEOF_SDT) / 4)) 0 k1 Hs1 Hsp ltac:(lia))
    as (k2 & r & E & Er & Hs2 & Hmo2 & Hr); [rewrite Z2Nat.id by lia; done|].
  rewrite Z2Nat.id in Er by lia. exists k2, r. split_and!; try done. by eapply mapped_more_trans.
Qed.

(** C23: [findTable] finds the FADT.  The RSDT and the headers of the tables
    it points to lie in firmware memory, each inside a page, the kernel's own
    page tables lie where low memory is mapped to itself, and there are pages
    for more of them there; then the call returns the first pointer of the
    RSDT whose table has the signature FACP, or null if there is none, whatever
    signature was asked for, and it has only added mappings: the bytes it read
    are as the firmware left them. *)
Theorem findTable_correct S (k : Paged) rsdt sig :
  tables_ok S (ram k) rsdt →
  serving S (acpi_bytes (ram k) rsdt) (ram k) (globalPageTable k) k →
  let n := (rd32 (ram k) (rsdt + HDR_Length) - SIZEOF_SDT) / 4 in
  ∃ k', findTable k rsdt sig = Done (first_facp (ram k) (sdt_pointers (ram k) rsdt 0 n), k') ∧
    mapper_ok k' ∧ globalPageTable k' = globalPageTable k ∧
    ∀ a, acpi_bytes (ram k) rsdt a → rd8 (ram k') a = rd8 (ram k) a.
Proof.
  intros Hok Hs n. destruct (findTable_spec S _ k rsdt sig Hok (λ _ Ha, Ha) Hs) as (k' & r & E & -> & [T1 T2 T3] & _).
  exists k'. split; [done|]. split; [by eapply (serving_ok S); split|]. split; [done|]. intros a Ha. by apply T3.
Qed.

(** ** The RSDP *)

Lemma mem_compare_spec k a pa l :
  (∀ j, 0 <= j < Z.of_nat (length l) → space k (a + j) = Some (pa + j)) →
  ∃ r, mem_compare k a l = Done r ∧
    (r = 0 ↔ ∀ i c, l !! i = Some c → rd8 (ram k) (pa + Z.of_nat i) = c).
Proof.
  revert a pa. induction l as [|d l IH]; intros a pa Hs; [by exists 0|]. cbn [mem_compare length] in *.
  unfold load8. pose proof (Hs 0 ltac:(lia)) as H0. rewrite !Z.add_0_r in H0. rewrite H0, bind_Done.
  destruct (Z.eqb_spec (rd8 (ram k) pa) d) as [E|E]; cbn [negb].
  - destruct (IH (a + 1) (pa + 1)) as (r & -> & Hr).
    { intros j Hj. rewrite <- !Z.add_assoc. apply Hs. lia. }
    exists r. split; [done|]. rewrite Hr. split.
    + intros H [|i] c Hc; [injection Hc as <-; by rewrite Z.add_0_r|].
      replace (pa + Z.of_nat (Datatypes.S i)) with (pa + 1 + Z.of_nat i) by lia. by apply H.
    + intros H i c Hc. replace (pa + 1 + Z.of_nat i) with (pa + Z.of_nat (Datatypes.S i)) by lia. by apply H.
  - eexists. split; [done|]. split; [by case_cmp|].
    intros H. destruct E. rewrite <- (H 0%nat d eq_refl). f_equal. lia.
Qed.

Lemma bytes_compare m pa l n :
  length l = Z.to_nat n →
  (∀ i c, l !! i = Some c → rd8 m (pa + Z.of_nat i) = c) ↔ (λ i, rd8 m (pa + i)) <$> seqZ 0 n = l.
Proof.
  intros El. split.
  - intros H. apply list_eq_same_length with (n := Z.to_nat n); [done|by rewrite length_fmap, length_seqZ|].
    intros i x y Hi Hx Hy. apply H in Hy as <-. apply list_lookup_fmap_Some in Hx as (z & -> & Hz).
    apply lookup_seqZ in Hz as [-> _]. done.
  - intros E i c Hc. rewrite <- E in Hc. apply list_lookup_fmap_Some in Hc as (z & -> & Hz).
    apply lookup_seqZ in Hz as [-> _]. done.
Qed.

(** The kernel takes the RSDT's address from a valid RSDP and stops on
    anything else.  With the RSDP of the boot loader mapped at [rsdp], at the
    physical address [pa]: if its first eight bytes are "RSD PTR " the result
    is the 32-bit address at offset 16; otherwise the kernel panics. *)
Theorem locate_rsdt_correct k rsdp pa :
  (∀ j, 0 <= j < 20 → space k (rsdp + j) = Some (pa + j)) →
  locate_rsdt k rsdp =
  if decide ((λ i, rd8 (ram k) (pa + i)) <$> seqZ 0 8 = bytes_of_string "RSD PTR ")
  then Done (rd32 (ram k) (pa + RSDP_RsdtAddress)) else Panicked "RSDP Signature does not match!".
Proof.
  intros Hs. unfold locate_rsdt, RSDP_RsdtAddress.
  destruct (mem_compare_spec k rsdp pa (bytes_of_string "RSD PTR ")) as (r & -> & Hr).
  { intros j Hj. apply Hs. change (Z.of_nat _) with 8 in Hj. lia. }
  rewrite bind_Done.
  pose proof (bytes_compare (ram k) pa (bytes_of_string "RSD PTR ") 8 eq_refl) as Hb.
  assert (r = 0 ↔ (λ i, rd8 (ram k) (pa + i)) <$> seqZ 0 8 = bytes_of_string "RSD PTR ") as Hr' by (by rewrite Hr).
  destruct (Z.eqb_spec r 0); cbn [negb].
  - rewrite decide_True by tauto. apply loadN_at. intros j Hj. rewrite <- !Z.add_assoc. apply Hs. lia.
  - by rewrite decide_False by tauto.
Qed.

(** ** Enabling *)

Lemma enable_spec device fuel k h fadt :
  (1 <= fuel)%nat → (∀ j, 0 <= j < 68 → space k (fadt + j) = Some (fadt + j)) →
  let smi := to_u16 (rd32 (ram k) (fadt + FADT_SMI_CommandPort)) in
  let cmd := rd8 (ram k) (fadt + FADT_AcpiEnable) in
  let pm1a := to_u16 (rd32 (ram k) (fadt + FADT_PM1aControlBlock)) in
  enable_acpi device fuel k h fadt =
  Done (h ++ [Out8 smi cmd; In16 pm1a (to_u16 (device (h ++ [Out8 smi cmd]) pm1a))]).
Proof.
  intros Hf Hsp. cbn zeta. unfold enable_acpi, load8, FADT_SMI_CommandPort, FADT_AcpiEnable, FADT_PM1aControlBlock.
  assert (∀ o, 0 <= o <= 64 → load32 k (fadt + o) = Done (rd32 (ram k) (fadt + o))) as Hld.
  { intros o Ho. apply loadN_spec. intros j Hj. rewrite <- Z.add_assoc. apply Hsp. lia. }
  rewrite (Hld 48), bind_Done, (Hsp 52), bind_Done, (Hld 64), bind_Done by lia.
  destruct fuel as [|f]; [lia|]. cbn [wait_enabled inw Z.eqb Z.b2z]. rewrite Z.land_0_r. cbn [Z.eqb negb].
  unfold outb. by rewrite <- app_assoc.
Qed.

(** C40: [ACPI::init] does not wait for ACPI.  Whatever the devices answer, the
    code writes the enable command and reads the control register once: the
    condition of the loop is constantly false. *)
Theorem enable_acpi_does_not_wait device fuel k h fadt :
  (1 <= fuel)%nat → (∀ j, 0 <= j < 68 → space k (fadt + j) = Some (fadt + j)) →
  let smi := to_u16 (rd32 (ram k) (fadt + FADT_SMI_CommandPort)) in
  let cmd := rd8 (ram k) (fadt + FADT_AcpiEnable) in
  let pm1a := to_u16 (rd32 (ram k) (fadt + FADT_PM1aControlBlock)) in
  enable_acpi device fuel k h fadt =
  Done (h ++ [Out8 smi cmd; In16 pm1a (to_u16 (device (h ++ [Out8 smi cmd]) pm1a))]).
Proof. apply enable_spec. Qed.

(** ** Example: an RSDT with two tables *)

Definition acpi_ram : mem :=
  let m := wr32 ∅ 0xA0004 44 in
  let m := wr32 m 0xA0024 0xA1000 in
  let m := wr32 m 0xA0028 0xA2000 in
  let m := store 0xA1000 (bytes_of_string "APIC") m in
  let m := store 0xA2000 FACP m in
  let m := wr32 m 0xA2030 0xB2 in
  let m := wr8 m 0xA2034 0xA0 in
  wr32 m 0xA2040 0x604.

Definition acpi_machine : Machine := mkMachine acpi_ram root_pfa 8192.

Lemma acpi_tree : tree_inv 8192 acpi_ram root_pfa root_tree.
Proof.
  apply root_tree_ok; [done|lia|exact root_allocated|].
  intros a Ha. unfold acpi_ram. cbn zeta. rewrite rd8_wrN_ne, rd8_wr8_ne, rd8_wrN_ne by lia.
  rewrite !rd8_store by (vm_compute; repeat constructor; discriminate).
  rewrite !decide_False by (cbn; lia). rewrite !rd8_wrN_ne by lia. done.
Qed.

(** The page of the example's FADT. *)
Lemma acpi_fadt_mapped : { k | map_to acpi_machine 0xA2000 0xA2000 = Done k ∧
  ∀ j, 0 <= j < 4096 → space k (0xA2000 + j) = Some (0xA2000 + j) }.
Proof.
  destruct (is_done_Done (map_to acpi_machine 0xA2000 0xA2000)) as [k E]; [vm_compute; reflexivity|].
  exists k. split; [exact E|]. intros j Hj.
  assert (machine_ok acpi_machine) as Hk by (split; [by exists root_tree; apply acpi_tree|exact root_pfa_ok]).
  destruct (map_to_spec acpi_machine 0xA2000 0xA2000 Hk ltac:(lia)) as [E'|(k' & E' & [_ _ Hsp _])];
    rewrite E in E'; [discriminate|]. apply Done_inj in E' as <-.
  rewrite Hsp. clear - Hj. rewrite decide_True; [f_equal|]; unfold page_no; zlia.
Qed.

Lemma enable_acpi_does_not_wait_witness :
  ∃ k h, map_to acpi_machine 0xA2000 0xA2000 = Done k ∧ enable_acpi (λ _ _, 0) 1 k [] 0xA2000 = Done h ∧
    length h = 2%nat.
Proof.
  destruct acpi_fadt_mapped as (k & E & Hsp). eexists k, _. split; [exact E|]. split.
  - apply (enable_acpi_does_not_wait (λ _ _, 0) 1 k [] 0xA2000); [lia|]. intros j Hj. apply Hsp. lia.
  - reflexivity.
Defined.

Lemma locate_rsdt_correct_witness :
  ∃ k, map_to acpi_machine 0xA2000 0xA2000 = Done k ∧
    locate_rsdt k 0xA2000 = Panicked "RSDP Signature does not match!".
Proof.
  destruct acpi_fadt_mapped as (k & E & Hsp). exists k. split; [exact E|].
  rewrite (locate_rsdt_correct k 0xA2000 0xA2000) by (intros j Hj; apply Hsp; lia).
  assert (match map_to acpi_machine 0xA2000 0xA2000 with
          | Done k => (λ i, rd8 (ram k) (0xA2000 + i)) <$> seqZ 0 8 | _ => [] end
          ≠ bytes_of_string "RSD PTR ") as H by (vm_compute; discriminate).
  rewrite E in H. by rewrite decide_False.
Defined.
