(* ===== verification/AcpiInit.v ===== *)
(** * acpi/acpi.cpp: ACPI::init

    The search for the FADT and the enable command between messages of the
    logger.  The page tables change below the running heap: the mappings the
    search adds are on the pages of the firmware's tables, so that the heap's
    own pages keep their frames. *)

From S2P Require Import Prelude Memory Bitmap MemUtils PageFrameAllocator PfaInit.
From S2P Require Import PageEntry PageSource Paging PagingLive Paged PageMapper BootPaging.
From S2P Require Import Heap HeapSpec HeapRefine HeapMalloc HeapGrow HeapClient HeapRun HeapFrame MemorySamples.
From S2P Require Import PortIO Framebuffer Console Kprintf Screen Output Layout StringBuilder Logger LogSeq Panic BootMemory BootLog ACPI.

(** The static members of [ACPI]. *)
Record Acpi := mkAcpi { ACPI_logger : option Logger; ACPI_facp : Z }.

Definition acpi_boot : Acpi := mkAcpi None 0.

(** The addresses of the literals of [ACPI::init]. *)
Record acpi_literals := mkAcpiLiterals {
  lit_looking : Z;
  lit_facp : Z;
  lit_notfound : Z;
  lit_enabled : Z
}.

Definition with_world {W : Type} (h : Heap W) (w : W) : Heap W :=
  mkHeap (h_mem h) (heapStart h) (heapEnd h) (LastHdr h) w.

Section Init.
Context (device : ports → Z → Z) (poll : nat) (fb : limine_framebuffer) (font : list Z).
Context (tries n fuel : nat) (lits : literals) (txt : acpi_literals).

(** [findTable] with the console its mappings may print on. *)
Fixpoint find_loop_says (c : nat) (i : Z) (s : Paged * Console) (rsdt : Z) : outcome (Z * (Paged * Console)) :=
  match c with
  | O => Done (0, s)
  | S c' =>
      p ← sdt_pointer s.1 rsdt i;
      s ← paged_says device poll fuel false s p p;
      h ← sdt_pointer s.1 rsdt i;
      r ← sig_compare s.1 h FACP 4;
      if r =? 0 then Done (h, s) else find_loop_says c' (i + 1) s rsdt
  end.

Definition findTable_says (s : Paged * Console) (gRSDT : Z) (sig : list Z) : outcome (Z * (Paged * Console)) :=
  let rsdt := gRSDT in
  s ← paged_says device poll fuel false s rsdt rsdt;
  len ← load32 s.1 (rsdt + HDR_Length);
  let entries := to_i32 (to_u64 (len - SIZEOF_SDT) / 4) in
  find_loop_says (Z.to_nat entries) 0 s rsdt.

(** [frame1] and [frame2] are the frames of the two traces of [panic]. *)
Definition ACPI_init (gRSDT frame1 frame2 : Z) (lg : Logger) (s : Acpi) (h : Heap Paged) (k : Console)
  : outcome (phase (Acpi * Heap Paged * Console)) :=
  let info := Logger_info (W := Paged) device poll fb font tries n fuel lits lg in
  let s := mkAcpi (Some lg) (ACPI_facp s) in
  '(h, k) ← info (lit_looking txt) [] h k;
  '(facp, (w, k)) ← findTable_says (h_world h, k) gRSDT (bytes_of_string "FACP");
  let h := with_world h w in
  let s := mkAcpi (ACPI_logger s) facp in
  '(h, k) ← info (lit_facp txt) [ACPI_facp s] h k;
  if ACPI_facp s =? 0 then
    k ← panic device poll fb font fuel k (lit_notfound txt) frame1 frame2;
    Done (Halted k)
  else
    let fadt := ACPI_facp s in
    p ← enable_acpi device fuel (h_world h) (k_ports k) fadt;
    '(h, k) ← info (lit_enabled txt) [] h (with_ports k p);
    Done (Going (s, h, k)).
End Init.

(** ** The heap below which the page tables change *)

Lemma backed_more (T : Z → Prop) (w w' : Paged) a b :
  mapped_more T w w' → (∀ v, a <= v < b → ¬ T (v / 4096)) → backed w a b → backed w' a b.
Proof.
  intros [M1 M2 M3 _] HT [B1 B2].
  assert (∀ v, vpage v → a <= v < b → page_frame w' v = page_frame w v) as E.
  { intros v [_ Hv] Hr. apply M1; [done|by apply HT]. }
  split.
  - intros v Hv Hr. destruct (B1 v Hv Hr) as (f & Ef & Uf). exists f. rewrite E by done. split; [done|]. by apply M3.
  - intros v v' f Hv Hv' Hr Hr'. rewrite !E by done. by apply B2.
Qed.

Lemma heap_inv_world (h : Heap Paged) l w :
  heap_inv h l → mapper_ok w → backed w (heapStart h) (heapEnd h) → heap_inv (with_world h w) l.
Proof. intros [[R1 R2 R3 R4 R5 R6] I2 I3 I4 I5] Hok Hb. by split; try done. Qed.

Lemma apart_more (T : Z → Prop) mm (k k' : Machine) a b :
  mapped_more T k k' → 0 <= a → b <= 2^47 → (∀ v, a <= v < b → ¬ T (v / 4096)) →
  (∀ va, 0 <= va < 4096 → space k va = Some va) →
  apart_from_tables mm k a b → apart_from_tables mm k' a b.
Proof.
  intros [M1 M2 _ [_ M4]] Ha Hb HT Hz [A1 A2]. split.
  - intros va [Hva|Hva]; (destruct (A1 va) as (pa & Ep & Hpa); [tauto|]); exists pa; (split; [|by apply M4]).
    + rewrite M1; [done|lia|by apply HT].
    + rewrite Hz in Ep by done. injection Ep as <-. apply M2; [lia|by apply Hz].
  - intros pa Hpa. by apply M4, A2.
Qed.

(** ** No line where low memory is mapped *)

Lemma low_index p : 0 <= p < 2^32 → PDP_i (PageMapIndexer_From p) = 0.
Proof.
  intros Hp. pose proof (indexer_range p) as (R1 & R2 & R3 & R4). pose proof (indexer_compose p) as C.
  cbn zeta in C. zlia.
Qed.

(** The table of the root for the first 512 GiB exists, and the root is in
    reach. *)
Lemma low_entry T k :
  reachable T k →
  let a := globalPageTable k + 8 * 0 in
  reach (globalPageTable k) (ram k) a = Done a ∧ GetFlag (rd64 (ram k) a) Present = true.
Proof.
  intros Hre a. pose proof Hre as [H1 H2 H3 H4 H5]. split.
  - apply (reach_low _ HEAP_BASE); [done|]. pose proof (low_frame_reach _ (H3 _ _ (ti_root _ _ _ _ H2))). unfold a. lia.
  - pose proof (space_tables k T 0 H2) as Hs. unfold space in Hs. rewrite (H5 0) in Hs by (unfold HEAP_BASE; lia).
    specialize (Hs ltac:(done)). apply Forall_cons in Hs as [Hs%elem_of_dom _]. rewrite low_index in Hs by lia.
    by apply (pdp_present_tree _ _ _ _ 0 H2) in Hs.
Qed.

Section Quiet.
Context (device : ports → Z → Z) (poll : nat) (fuel : nat).

Lemma says_quiet S need m0 root (k : Paged) c p :
  serving S need m0 root k → 0 <= p < 2^32 →
  paged_says device poll fuel false (k, c) p p = (k' ← paged_map_to k p p; Done (k', c)).
Proof.
  intros [(T & Hre & _) _ _] Hp. destruct (low_entry T k Hre) as [E1 E2]. unfold paged_says, MapMemory_says, paged_map_to, MapMemory_paged.
  cbn zeta. rewrite low_index, E1, !bind_Done, E2 by done.
  destruct (next_table_paged _ _ _ _ 0) as [[[t1 m1] w1]| | |]; cbn [mbind outcome_bind]; try done.
  destruct (next_table_paged _ _ _ t1 _) as [[[t2 m2] w2]| | |]; cbn [mbind outcome_bind]; try done.
  destruct (next_table_paged _ _ _ t2 _) as [[[t3 m3] w3]| | |]; cbn [mbind outcome_bind]; try done.
  by destruct (set_leaf_paged _ _ _ _ _).
Qed.

Section Find.
Context (S : gset (list Z)) (m0 : mem) (root rsdt : Z) (need : Z → Prop).
Hypothesis ok : tables_ok S m0 rsdt.
Hypothesis read_needed : ∀ a, acpi_bytes m0 rsdt a → need a.
Let len := rd32 m0 (rsdt + HDR_Length).

Lemma find_loop_quiet n i (k : Paged) c :
  serving S need m0 root k → (∀ a, rsdt <= a < rsdt + len → space k a = Some a) →
  0 <= i → i + Z.of_nat n <= (len - SIZEOF_SDT) / 4 →
  find_loop_says device poll fuel n i (k, c) rsdt = ('(r, k') ← find_loop n i k rsdt; Done (r, (k', c))).
Proof using ok read_needed.
  revert i k. induction n as [|n IH]; intros i k Hs Hsp Hi Hn; [done|]. cbn [find_loop_says find_loop fst].
  unfold len in Hsp, Hn.
  destruct (find_step S m0 root rsdt ok need read_needed i k Hs Hsp ltac:(lia))
    as (E1 & _ & Hp & k1 & E2 & Hs1 & _ & Hsp1 & E3 & _).
  rewrite E1, !bind_Done, (says_quiet S need m0 root k c) by done. rewrite E2, !bind_Done. cbn [fst].
  rewrite E3, !bind_Done. destruct (sig_compare k1 _ FACP 4) as [r| | |]; cbn [mbind outcome_bind]; try done.
  destruct (r =? 0); [done|]. apply IH; [done|done|lia|unfold len; lia].
Qed.

Lemma findTable_quiet (k : Paged) c sig :
  serving S need m0 root k →
  findTable_says device poll fuel (k, c) rsdt sig = ('(r, k') ← findTable k rsdt sig; Done (r, (k', c))).
Proof using ok read_needed.
  intros Hs. unfold findTable_says, findTable. cbn zeta.
  destruct (find_start S m0 root rsdt ok need read_needed k Hs) as (k1 & E1 & Hs1 & _ & Hsp & E2 & E3 & Hn).
  destruct ok as [(A1 & A2 & A3) A4 _ _]. unfold SIZEOF_SDT in A4.
  rewrite (says_quiet S need m0 root k c) by (done || lia). rewrite E1, !bind_Done. cbn [fst]. rewrite E2, !bind_Done, E3.
  apply find_loop_quiet; [done|done|lia|]. unfold len. rewrite Z2Nat.id by lia. lia.
Qed.
End Find.
End Quiet.

Section Correct.
Context (device : ports → Z → Z) (poll : nat) (fb : limine_framebuffer) (font : list Z).
Context (tries n fuel : nat) (lits : literals) (txt : acpi_literals) (lg : Logger) (ns tg : list Z).
Implicit Types h : Heap Paged.

(** The FADT that the search finds, and the bytes the code reads: the tables of
    the search and the first 68 bytes of the FADT. *)
Definition the_facp (m : mem) (rsdt : Z) : Z :=
  first_facp m (sdt_pointers m rsdt 0 ((rd32 m (rsdt + HDR_Length) - SIZEOF_SDT) / 4)).
Definition init_bytes (m : mem) (rsdt a : Z) : Prop :=
  acpi_bytes m rsdt a ∨ the_facp m rsdt ≠ 0 ∧ the_facp m rsdt <= a < the_facp m rsdt + 68.

Lemma facp_range m rsdt : 0 <= the_facp m rsdt < 2^32.
Proof.
  unfold the_facp, first_facp. destruct (filter _ _) as [|p l] eqn:E; [cbn; lia|]. cbn [head default].
  assert (p ∈ p :: l) as Hp by (by apply elem_of_cons; left). rewrite <- E in Hp.
  apply list_elem_of_filter in Hp as [_ Hp]. apply list_elem_of_fmap in Hp as (i & -> & _). apply (rdN_range 4).
Qed.

(** What the firmware and the page tables provide; the heap is at [lo .. hi]. *)
Record firmware_ok (S : gset (list Z)) (w : Paged) (rsdt lo hi : Z) : Prop := {
  fw_tables : tables_ok S (ram w) rsdt;
  fw_serving : serving S (init_bytes (ram w) rsdt) (ram w) (globalPageTable w) w;
  fw_fadt : the_facp (ram w) rsdt mod 4096 + 68 <= 4096;
  fw_apart v : lo <= v < hi → ¬ table_pages (ram w) rsdt (v / 4096)
}.

(** A message is as ready, and as well printed, on another page table. *)
Lemma ready_world h l k m w :
  heap_inv (with_world h w) l → ready_message ns tg fb font n fuel lits lg h l k m →
  ready_message ns tg fb font n fuel lits lg (with_world h w) l k m.
Proof.
  intros Hi [[L1 L2 L4 L5 L6 L7 L8 L9 L10 L11] Hoff]. destruct L2 as [B1 B2 B3 B4 B5 B6 B7 B8].
  split; [|done]. by split; try done.
Qed.

Lemma logged_world h l k text h' k' w :
  heap_inv (with_world h' w) l → logged fb font lg h l k text h' k' →
  logged fb font lg h l k text (with_world h' w) k'.
Proof. intros Hi [D1 D2 D3 D4 D5]. by split. Qed.

(** Other devices do not disturb the console. *)
Lemma ready_ports h l k m p :
  ready_message ns tg fb font n fuel lits lg h l k m →
  ready_message ns tg fb font n fuel lits lg h l (with_ports k p) m.
Proof. intros [[L1 L2 L4 L5 L6 L7 L8 L9 L10 L11] Hoff]. split; [|done]. by split. Qed.

Lemma logged_ports h l k text h' k' p :
  sent p = sent (k_ports k') → logged fb font lg h l k text h' k' →
  logged fb font lg h l k text h' (with_ports k' p).
Proof. intros E [D1 D2 D3 [S1 S2 S3 S4 S5] D5]. split; try done. split; try done. cbn. by rewrite E. Qed.

(** The messages of [ACPI::init]. *)
Definition looking_message : message :=
  mkMessage Info (lit_looking txt) [Text (bytes_of_string "Looking for FACP")].
Definition facp_message (facp : Z) : message :=
  mkMessage Info (lit_facp txt) [Text (bytes_of_string "FACP: "); Hex facp].
Definition enabled_message : message :=
  mkMessage Info (lit_enabled txt) [Text (bytes_of_string "ACPI is (hopefully) enabled")].
Definition init_messages (facp : Z) : list message := [looking_message; facp_message facp; enabled_message].

Hypothesis uart_ready : ∀ past, ready_within device poll past = true.
Hypothesis try_once : (1 <= tries)%nat.

(** A heap of one free segment on which the messages of [all] may be printed. *)
Record calm (all ms : list message) h (a L : Z) (k : Console) : Prop := {
  ca_all m : m ∈ ms → m ∈ all;
  ca_compatible : compatible ns tg all = true;
  ca_room m : m ∈ ms → OUTPUT + m_header ns tg m + 16 <= L;
  ca_tidy : tidy (quiet ns tg a all) h [mkSeg a L true];
  ca_ready m : m ∈ ms → ready_message ns tg fb font n fuel lits lg h [mkSeg a L true] k m
}.

Lemma calm_step all m ms h a L k :
  calm all (m :: ms) h a L k →
  ∃ h' k', log_at device poll fb font tries n fuel lits (m_level m) lg (m_str m) (args_of (m_items m)) h k =
      Done (h', k') ∧
    logged fb font lg h [mkSeg a L true] k (m_text ns tg m) h' k' ∧ calm all ms h' a L k' ∧ h_world h' = h_world h.
Proof using uart_ready try_once.
  intros [C1 C2 C3 C4 C5]. assert (m ∈ m :: ms) as Hm by (by apply elem_of_cons; left).
  assert (∀ x, x ∈ ms → x ∈ m :: ms) as Hin by (intros x Hx; by apply elem_of_cons; right).
  destruct (log_step ns tg device poll fb font tries n fuel lits lg uart_ready try_once all m h a L k
    (C1 m Hm) C2 (C3 m Hm) C4 (C5 m Hm)) as (h' & k' & E & D & T & Ew).
  exists h', k'. split; [done|]. split; [done|]. split; [|done]. split; auto.
  intros x Hx. eapply ready_stable; [exact D|]. auto.
Qed.

Lemma calm_world all ms h a L k w :
  calm all ms h a L k → heap_inv (with_world h w) [mkSeg a L true] → calm all ms (with_world h w) a L k.
Proof. intros [C1 C2 C3 C4 C5] Hi. split; try done. intros m Hm. apply ready_world; auto. Qed.

Lemma calm_ports all ms h a L k p : calm all ms h a L k → calm all ms h a L (with_ports k p).
Proof. intros [C1 C2 C3 C4 C5]. split; try done. intros m Hm. apply ready_ports; auto. Qed.

(** The search below the heap. *)
Lemma findTable_below S h l rsdt sig :
  heap_inv h l → firmware_ok S (h_world h) rsdt (heapStart h) (heapEnd h) →
  let m := ram (h_world h) in
  ∃ w, findTable (h_world h) rsdt sig = Done (the_facp m rsdt, w) ∧ heap_inv (with_world h w) l ∧
    serving S (init_bytes m rsdt) m (globalPageTable (h_world h)) w ∧
    (the_facp m rsdt ≠ 0 → ∀ j, 0 <= j < 68 → space w (the_facp m rsdt + j) = Some (the_facp m rsdt + j)) ∧
    mapped_more (table_pages m rsdt) (h_world h) w.
Proof.
  clear uart_ready try_once.
  intros Hi [F1 F2 F3 F4] m.
  destruct (findTable_spec S (init_bytes m rsdt) (h_world h) rsdt sig F1 ltac:(by left) F2)
    as (w & r & E & Er & Hs & Hmo & Hr).
  change (first_facp _ _) with (the_facp m rsdt) in Er. subst r.
  exists w. split; [exact E|]. split; [|split; [done|split; [|exact Hmo]]].
  - apply heap_inv_world; [done|by eapply serving_ok|]. eapply backed_more; [done|done|apply Hi].
  - intros Hne j Hj. destruct (Hr Hne) as [Hin Hsp]. fold m in F3.
    assert (0 <= the_facp m rsdt < 2^32) as Hb.
    { apply list_elem_of_fmap in Hin as (i & -> & _). apply (rdN_range 4). }
    apply Hsp; [lia|]. zlia.
Qed.

(** Up to the test of [facp]. *)
Lemma init_search S all h a L k rsdt frame1 frame2 s :
  let l := [mkSeg a L true] in
  let m := ram (h_world h) in
  let facp := the_facp m rsdt in
  heap_inv h l → firmware_ok S (h_world h) rsdt (heapStart h) (heapEnd h) →
  calm all (init_messages facp) h a L k →
  ∃ h1 k1,
    ACPI_init device poll fb font tries n fuel lits txt rsdt frame1 frame2 lg s h k =
      (if facp =? 0 then k ← panic device poll fb font fuel k1 (lit_notfound txt) frame1 frame2; Done (Halted k)
       else p ← enable_acpi device fuel (h_world h1) (k_ports k1) facp;
         '(h, k) ← Logger_info device poll fb font tries n fuel lits lg (lit_enabled txt) [] h1 (with_ports k1 p);
         Done (Going (mkAcpi (Some lg) facp, h, k))) ∧
    logged fb font lg h l k (m_text ns tg looking_message ++ m_text ns tg (facp_message facp)) h1 k1 ∧
    calm all [enabled_message] h1 a L k1 ∧
    serving S (init_bytes m rsdt) m (globalPageTable (h_world h)) (h_world h1) ∧
    (facp ≠ 0 → ∀ j, 0 <= j < 68 → space (h_world h1) (facp + j) = Some (facp + j)) ∧
    mapped_more (table_pages m rsdt) (h_world h) (h_world h1).
Proof using uart_ready try_once.
  intros l m facp Hi Hfw Hca. unfold init_messages in Hca.
  destruct (calm_step _ _ _ _ _ _ _ Hca) as (h1 & k1 & E1 & D1 & C1 & W1).
  assert (firmware_ok S (h_world h1) rsdt (heapStart h1) (heapEnd h1)) as Hfw1.
  { destruct (ld_range _ _ _ _ _ _ _ _ _ D1) as [-> ->]. by rewrite W1. }
  destruct (findTable_below S h1 l rsdt (bytes_of_string "FACP") (ld_inv _ _ _ _ _ _ _ _ _ D1) Hfw1)
    as (w & E2 & Hi2 & Hs & Hsp & Hrp).
  rewrite W1 in Hs, Hsp, E2, Hrp. fold m in Hs, Hsp, E2. fold facp in E2, Hsp.
  destruct (calm_step _ _ _ _ _ _ _ (calm_world _ _ _ _ _ _ w C1 Hi2)) as (h3 & k3 & E3 & D3 & C3 & W3).
  exists h3, k3. split; [|split; [|split; [done|by rewrite W3]]].
  - unfold ACPI_init. cbn zeta. cbn [log_at m_level m_str m_items looking_message facp_message] in E1, E3.
    change (args_of [Text _]) with (@nil Z) in E1. change (args_of _) with [facp] in E3. cbn [ACPI_logger ACPI_facp].
    rewrite E1, bind_Done, W1.
    rewrite (findTable_quiet device poll fuel S m _ rsdt (init_bytes m rsdt) (fw_tables _ _ _ _ _ Hfw) ltac:(by left)
      (h_world h) k1 _ (fw_serving _ _ _ _ _ Hfw)).
    by rewrite E2, bind_Done, bind_Done, E3, bind_Done.
  - eapply logged_trans; [by apply logged_world|exact D3].
Qed.

(** The ports of the enable command. *)
Definition enable_ports (m : mem) (facp : Z) (past : ports) : ports :=
  let smi := to_u16 (rd32 m (facp + FADT_SMI_CommandPort)) in
  let cmd := rd8 m (facp + FADT_AcpiEnable) in
  let pm1a := to_u16 (rd32 m (facp + FADT_PM1aControlBlock)) in
  past ++ [Out8 smi cmd; In16 pm1a (to_u16 (device (past ++ [Out8 smi cmd]) pm1a))].

Lemma enable_found S m root w rsdt past :
  let facp := the_facp m rsdt in
  facp ≠ 0 → (1 <= fuel)%nat → serving S (init_bytes m rsdt) m root w →
  (∀ j, 0 <= j < 68 → space w (facp + j) = Some (facp + j)) →
  enable_acpi device fuel w past facp = Done (enable_ports m facp past).
Proof.
  clear uart_ready try_once. intros facp Hne Hf [_ _ Hs] Hsp.
  assert (∀ c o, (c <= 4)%nat → 0 <= o <= 64 → rdN c (ram w) (facp + o) = rdN c m (facp + o)) as Hrd.
  { intros c o Hc Ho. apply rdN_ext. intros x Hx. apply Hs. right. split; [done|]. fold facp. lia. }
  assert (rd8 (ram w) (facp + FADT_AcpiEnable) = rd8 m (facp + FADT_AcpiEnable)) as H8.
  { apply Hs. right. split; [done|]. fold facp. unfold FADT_AcpiEnable. lia. }
  rewrite enable_spec by done. unfold enable_ports. cbn zeta.
  unfold FADT_SMI_CommandPort, FADT_PM1aControlBlock in *. rewrite !Hrd, H8 by lia. done.
Qed.
End Correct.

(** [ACPI::init] enables ACPI.  On a heap that is one free segment, with
    tables of the firmware that can be mapped, off the heap's pages, and a FADT
    among them: the call returns; the two messages before the enable command
    and the one behind it appear exactly; the command of the FADT goes out of
    its SMI port between them; [facp] holds the FADT's address; and the heap
    is one free segment again, its pages still backed, with no more than the
    mappings of the firmware's tables added. *)
Lemma init_enabled device poll fb font tries n fuel lits txt lg ns tg S all (h : Heap Paged) a L k
    rsdt frame1 frame2 s :
  let m := ram (h_world h) in
  let facp := the_facp m rsdt in
  (∀ past, ready_within device poll past = true) → (1 <= tries)%nat → (1 <= fuel)%nat →
  heap_inv h [mkSeg a L true] → firmware_ok S (h_world h) rsdt (heapStart h) (heapEnd h) →
  calm fb font n fuel lits lg ns tg all (init_messages txt facp) h a L k → facp ≠ 0 →
  ∃ h1 k1 h' k',
    ACPI_init device poll fb font tries n fuel lits txt rsdt frame1 frame2 lg s h k =
      Done (Going (mkAcpi (Some lg) facp, h', k')) ∧
    logged fb font lg h [mkSeg a L true] k
      (m_text ns tg (looking_message txt) ++ m_text ns tg (facp_message txt facp)) h1 k1 ∧
    logged fb font lg h1 [mkSeg a L true] (with_ports k1 (enable_ports device m facp (k_ports k1)))
      (m_text ns tg (enabled_message txt)) h' k' ∧
    mapped_more (table_pages m rsdt) (h_world h) (h_world h').
Proof.
  intros m facp Hu Ht Hf Hi Hfw Hca Hne.
  destruct (init_search device poll fb font tries n fuel lits txt lg ns tg Hu Ht S all h a L k rsdt frame1 frame2 s
    Hi Hfw Hca) as (h1 & k1 & -> & D1 & C1 & Hs & Hsp & Hrp).
  fold m in Hs, Hsp |- *. fold facp in Hsp, D1 |- *. destruct (Z.eqb_spec facp 0); [done|].
  rewrite (enable_found device fuel S m _ _ _ _ Hne Hf Hs (Hsp Hne)), bind_Done.
  destruct (calm_step device poll fb font tries n fuel lits lg ns tg Hu Ht _ _ _ _ _ _ _
    (calm_ports _ _ _ _ _ _ _ _ _ _ _ _ _ _ (enable_ports device m facp (k_ports k1)) C1)) as (h2 & k2 & E & D2 & _ & W2).
  exists h1, k1, h2, k2. split; [|split; [done|split; [done|by rewrite W2]]]. cbn [log_at m_level m_str m_items enabled_message] in E.
  change (args_of _) with (@nil Z) in E. fold facp. by rewrite E.
Qed.

(** What a later panic finds in memory: its message and the two stacks. *)
Record panic_ready (fb : limine_framebuffer) (h : Heap Paged) (l : list seg) (fuel : nat) (msg : Z) (text : list Z)
    (frame1 frame2 : Z) : Prop := {
  pr_fuel : (22 <= fuel)%nat ∧ (length text < fuel)%nat;
  pr_text : cstr (h_mem h) msg text ∧ Forall (λ c, c ≠ 36) text;
  pr_kept i : 0 <= i <= Z.of_nat (length text) → kept h l (msg + i) ∧ off_screen fb (msg + i);
  pr_stack1 : stack_safe (λ a, kept h l a ∧ off_screen fb a) 16 (h_mem h) frame1;
  pr_stack2 : stack_safe (λ a, kept h l a ∧ off_screen fb a) 16 (h_mem h) frame2
}.

(** The words of [panic], after messages were logged. *)
Definition panic_screen_text (m : mem) (text : list Z) (frame2 : Z) : list Z :=
  panic_banner ++ message_text text ++ stack_text 16 m frame2.
Definition panic_serial_text (m : mem) (text : list Z) (frame1 : Z) : list Z :=
  line "Panic GODDAMN!" ++ message_text text ++ stack_text 16 m frame1.

Lemma panic_after_log device poll fb font fuel lg (h h1 : Heap Paged) l k k1 shown_text msg text frame1 frame2 :
  (∀ past, ready_within device poll past = true) → panic_ready fb h l fuel msg text frame1 frame2 →
  logged fb font lg h l k shown_text h1 k1 →
  let screen := panic_screen_text (h_mem h) text frame2 in
  ∃ k', panic device poll fb font fuel k1 msg frame1 frame2 = Done k' ∧
    plain (gTerminal k') =
      fold_left advance screen (log_cursor (target lg) (plain (gTerminal k)) shown_text) ∧
    sent (k_ports k') = sent (k_ports k) ++ log_sent (target lg) (plain (gTerminal k)) shown_text ++
      panic_serial_text (h_mem h) text frame1 ++
      screen_log false (log_cursor (target lg) (plain (gTerminal k)) shown_text) screen.
Proof.
  intros Hu [[P1 P2] [[P3 P4] P5] P6 P7 P8] [_ _ Em [S1 S2 S3 S4 _] Hm]. cbn zeta.
  assert (∀ a, kept h l a ∧ off_screen fb a → rd8 (k_mem k1) a = rd8 (h_mem h) a) as Hk.
  { intros a [Ha Hs]. rewrite Em. by apply Hm. }
  destruct (stack_agree _ 16 _ _ frame1 Hk P7) as [W1 _].
  destruct (stack_agree _ 16 _ _ frame2 Hk P8) as [W2 Q2].
  destruct (panic_spec device poll fb font fuel k1 msg text frame1 frame2) as (k' & E & Ht & Hs); try done.
  - split; [intros i c Hc; pose proof (lookup_lt_Some _ _ _ Hc)|]; (rewrite Hk by (apply P6; lia)); auto.
  - intros i Hi. by apply P6.
  - eapply stack_safe_mono; [|exact Q2]. by intros a [_ ?].
  - exists k'. split; [done|].
    unfold panic_screen_text, panic_serial_text, stack_text in *. rewrite W2 in Ht, Hs. rewrite W1 in Hs.
    rewrite Ht, Hs, S3, S4. split; [done|]. by rewrite <- !app_assoc.
Qed.

(** C21: without a FADT [ACPI::init] panics.  The two messages appear, the
    second with a null address, and then the panic with its message and traces,
    on the serial line and on the terminal; the code behind it is not
    reached. *)
Theorem ACPI_init_panics device poll fb font tries n fuel lits txt lg ns tg S all (h : Heap Paged) a L k
    rsdt frame1 frame2 s :
  let l := [mkSeg a L true] in
  let m := ram (h_world h) in
  (∀ past, ready_within device poll past = true) → (1 <= tries)%nat →
  heap_inv h l → firmware_ok S (h_world h) rsdt (heapStart h) (heapEnd h) →
  calm fb font n fuel lits lg ns tg all (init_messages txt 0) h a L k →
  panic_ready fb h l fuel (lit_notfound txt) (bytes_of_string "ACPI FACP was not found!") frame1 frame2 →
  the_facp m rsdt = 0 →
  let shown_text := m_text ns tg (looking_message txt) ++ m_text ns tg (facp_message txt 0) in
  let screen := panic_screen_text (h_mem h) (bytes_of_string "ACPI FACP was not found!") frame2 in
  ∃ k', ACPI_init device poll fb font tries n fuel lits txt rsdt frame1 frame2 lg s h k = Done (Halted k') ∧
    plain (gTerminal k') = fold_left advance screen (log_cursor (target lg) (plain (gTerminal k)) shown_text) ∧
    sent (k_ports k') = sent (k_ports k) ++ log_sent (target lg) (plain (gTerminal k)) shown_text ++
      panic_serial_text (h_mem h) (bytes_of_string "ACPI FACP was not found!") frame1 ++
      screen_log false (log_cursor (target lg) (plain (gTerminal k)) shown_text) screen.
Proof.
  intros l m Hu Ht Hi Hfw Hca Hp E0. cbn zeta.
  destruct (init_search device poll fb font tries n fuel lits txt lg ns tg Hu Ht S all h a L k rsdt frame1 frame2 s
    Hi Hfw) as (h1 & k1 & -> & D1 & _); [unfold m in E0; by rewrite E0|].
  unfold m in E0. rewrite E0 in *. cbn [Z.eqb].
  destruct (panic_after_log device poll fb font fuel lg h h1 l k k1 _ _ _ frame1 frame2 Hu Hp D1)
    as (k' & -> & Ht' & Hs'). rewrite bind_Done. by exists k'.
Qed.
