(* ===== verification/Boot.v ===== *)
(** * kernel.cpp: _start

    The boot sequence region by region, from the framebuffer to ACPI, with
    everything it prints.  The boot loader's responses, the kernel's image
    (its literals, tables and the frames of its stack) and the memory are
    parameters.  Memory is seen in three ways, as in the components: the
    virtual memory of the console and the heap ([k_mem], [h_mem]), the
    physical memory of page tables and firmware ([ram]), and the bytes of the
    page frame bitmap.  That no page of the heap, and not page zero, is a page
    table is part of [init_memory_correct].  The heap's bytes before [initHeap]
    stand for what the frames that it maps hold.  The blocks under the DBG_
    macros are not compiled. *)

From S2P Require Import Prelude Memory Bitmap MemUtils PageFrameAllocator PfaInit.
From S2P Require Import PageEntry PageSource Paging PagingLive Paged PageMapper BootPaging.
From S2P Require Import Heap HeapSpec HeapRefine HeapMalloc HeapGrow HeapClient HeapRun HeapFrame BootMemory MemorySamples.
From S2P Require Import CString PortIO Descriptors Framebuffer Console Kprintf Screen Output Layout StringBuilder.
From S2P Require Import Logger HeapTest LogSeq Panic BootLog ACPI AcpiInit.

(** ** What the code finds *)

(** The responses to the requests; [None] is a null pointer. *)
Record responses := mkResponses {
  framebuffer_response : option (list limine_framebuffer);
  memmap_response : option limine_memmap_response;
  hhdm_response : option Z;
  kaddr_response : option (Z * Z);
  rsdp_response : option Z
}.

(** The addresses of literals, tables and stack frames, and the tables. *)
Record image := mkImage {
  im_lits : literals;
  im_acpi : acpi_literals;
  im_copyable : Z;
  im_namespace : Z;
  im_tag : Z;
  im_enabling : Z;
  im_rsdp : Z;
  im_acpi2 : Z;
  im_calling : Z;
  im_nomap : Z;
  im_badrsdp : Z;
  im_gdt : GDT;
  im_gdt_addr : Z;
  im_tss : Z;
  im_gdt_local : Z;
  im_idt : list InterruptDescriptor;
  im_handlers : Z;
  (** the frames of the two traces of [panic], from [_start] and from [ACPI::init] *)
  im_frames : Z * Z;
  im_init_frames : Z * Z
}.

Definition RSDP_Revision : Z := 15.

Example rsdp_offsets :
  offsetof RSDPDescriptor "Revision" = Some RSDP_Revision ∧
  offsetof RSDPDescriptor "RsdtAddress" = Some RSDP_RsdtAddress.
Proof. vm_compute. split; reflexivity. Qed.

(** ** The regions *)

Section Start.
Context (device : ports → Z → Z) (poll : nat) (font : list Z) (tries n fuel : nat).
Context (r : responses) (im : image).

(** "Init framebuffer & terminal" *)
Definition start_terminal (k : Console) : outcome (phase (limine_framebuffer * Console)) :=
  match framebuffer_response r with
  | None => Done (Halted k)
  | Some framebuffers =>
      if Z.of_nat (length framebuffers) <? 1 then Done (Halted k)
      else
        fb ← or_undef "framebuffers[0]" (head framebuffers);
        let k := with_terminal k (Terminal_init fb (gTerminal k)) in
        k ← kprintf_both device poll fb font fuel k
              (prelog "Initiliazed terminal! Test: %d | Test 2: 0x%x | chars/line: %u | lines/screen: %u")
              [30; 0xFF00FF; charsPerLine (gTerminal k); maxLines (gTerminal k)];
        let '(v, p) := serial_init device (k_ports k) in
        k ← kprintf device poll fb font fuel (with_ports k p) (prelog "Initiliazing serial port: %d") [v];
        k ← kprintf_both device poll fb font fuel k (prelog "Initialized serial port!") [];
        Done (Going (fb, k))
  end.

(** "Init GDT" *)
Definition start_gdt (fb : limine_framebuffer) (k : Console) : outcome (GDT * GDTDescriptor * Console) :=
  k ← kprintf device poll fb font fuel k (prelog "Loading GDT...") [];
  '(gdt, gdtDescriptor) ← gdt_init (im_gdt im) (im_gdt_addr im) (im_tss im);
  k ← kprintf device poll fb font fuel k
        (prelog "If you are reading this, we did load the GDT! hooray! GDTDescriptor Address: 0x%x")
        [im_gdt_local im];
  Done (gdt, gdtDescriptor, k).

(** [mem_pageframeallocator_init] with its output.  The allocator and the
    console have no state in common; the allocator runs first. *)
Definition pfa_init_says (fb : limine_framebuffer) (memmap : limine_memmap_response) (mem_hhdmOffset : Z)
    (region : list Z) (k : Console) : outcome (Pfa * Console) :=
  p ← mem_pageframeallocator_init pfa_boot memmap mem_hhdmOffset region;
  '(largestFreeSegment, largestFreeSegmentSize, _) ← init_scan memmap 0;
  k ← kprintf_both device poll fb font fuel k
        (line "Largest Free Segment: 0x%x (virt: 0x%x) (with size 0x%x)")
        [largestFreeSegment; toVirt mem_hhdmOffset largestFreeSegment; largestFreeSegmentSize];
  totalMemorySize ← getMemoryArealSize memmap;
  let totalMemorySizeInPages := totalMemorySize / 4096 in
  let bitmapSize := totalMemorySize / 4096 / 8 + 1 in
  let bitmapSizeInPages := bitmapSize / 4096 + 1 in
  k ← kprintf_both device poll fb font fuel k
        (line "PageFrameAllocator Bitmap will need %d bytes of RAM or %d pages") [bitmapSize; bitmapSizeInPages];
  k ← kprintf_both device poll fb font fuel k
        (line "Total memory space is %d bytes in size, or %d pages") [totalMemorySize; totalMemorySizeInPages];
  k ← for_entries memmap
        (λ entry k,
           if e_type entry =? 0 then kprintf_serial device poll fuel k (bytes_of_string "%d ") [e_base entry]
           else Done k) k;
  k ← kprintf_both device poll fb font fuel k (line "Initiliazed page frame allocator!") [];
  Done (p, k).

(** "Read memory map and init page frame allocator" *)
Definition start_memory (fb : limine_framebuffer) (region : list Z) (k : Console)
  : outcome (phase (limine_memmap_response * Z * Z * Pfa * Console)) :=
  match memmap_response r with
  | None =>
      k ← panic device poll fb font fuel k (im_nomap im) (im_frames im).1 (im_frames im).2;
      Done (Halted k)
  | Some memmap =>
      '(physical_base, virtual_base) ← or_undef "kaddr_request.response" (kaddr_response r);
      offset ← or_undef "hhdm_request.response" (hhdm_response r);
      k ← kprintf_serial device poll fuel k
            (prelog "Physical Base of Kernel: %x" ++ line "Virtual Base of Kernel: %x" ++ line "HHDM Offset: %x")
            [physical_base; virtual_base; offset];
      let mem_hhdmOffset := offset in
      let mem_kVirtOffset := virtual_base in
      k ← kprintf device poll fb font fuel k (prelog "Initialize page frame allocator...") [];
      '(p, k) ← pfa_init_says fb memmap mem_hhdmOffset region k;
      k ← kprintf device poll fb font fuel k (prelog "Ram -> Total: %x, Free: %x, Used: %x")
            [mem_getTotalRAM p; mem_getFreeRAM p; mem_getUsedRAM p];
      k ← kprintf device poll fb font fuel k (prelog "Ram -> Total: %u, Free: %u, Used: %u")
            [mem_getTotalRAM p; mem_getFreeRAM p; mem_getUsedRAM p];
      Done (Going (memmap, mem_hhdmOffset, mem_kVirtOffset, p, k))
  end.

(** "Init IDT & Interrupts" *)
Definition start_interrupts (fb : limine_framebuffer) (k : Console) : outcome (list InterruptDescriptor * Console) :=
  k ← kprintf device poll fb font fuel k (prelog "Initiliaze IDT & Interrupts...") [];
  idt ← initInts (im_idt im) (im_handlers im);
  k ← kprintf device poll fb font fuel k (prelog "Initiliazed IDT & Interrupts!") [];
  Done (idt, k).

(** "Init Paging"; from [mov %0, %%cr3] on the tables are the kernel's own. *)
Definition start_paging (fb : limine_framebuffer) (memmap : limine_memmap_response)
    (mem_hhdmOffset mem_kVirtOffset : Z) (m : mem) (p : Pfa) (k : Console) : outcome (Paged * Console) :=
  k ← kprintf_both device poll fb font fuel k (prelog "Initialize paging...") [];
  '(globalPageTable, p) ← mem_pageframeallocator_requestPage p;
  k ← kprintf_both device poll fb font fuel k (prelog "PagingTable Address is %x") [globalPageTable];
  let m := (memset m globalPageTable 0 0x1000).2 in
  '(w, k) ← (s ← map_memmap mem_hhdmOffset mem_kVirtOffset (map_says device poll fuel false) memmap
                    (mkMachine m p globalPageTable, k);
             map_low (map_says device poll fuel false) s);
  k ← kprintf_both device poll fb font fuel k (prelog "Mapped memory") [];
  k ← kprintf_both device poll fb font fuel k (prelog "Loading PML4 into CR3") [];
  let w := mkPaged w in
  k ← kprintf_both device poll fb font fuel k (prelog "Done initiliazing paging!") [];
  Done (w, k).

(** "Init Heap"; [initHeap] prints two lines for each of its pages. *)
Definition start_heap (fb : limine_framebuffer) (w : Paged) (k : Console) : outcome (Heap Paged * Console) :=
  k ← kprintf_both device poll fb font fuel k
        (prelog "Initiliazing heap with starting size 1mb, CurrentFreeMemory: %u") [mem_getFreeRAM (pfa w)];
  '(h, k) ← initHeap_says device poll fuel w k 0x800000 (1 * 1024 * 1024 / (4 * 1024));
  k ← kprintf_serial device poll fuel k (prelog "initHeap() done") [];
  heap_test device poll fb font tries fuel (im_copyable im) h k.

(** "Init ACPI" *)
Definition start_acpi (fb : limine_framebuffer) (h : Heap Paged) (k : Console)
  : outcome (phase (Acpi * Heap Paged * Console)) :=
  let acpiLogger := Logger_new (im_tag im) (im_namespace im) in
  let info := Logger_info (W := Paged) device poll fb font tries n fuel (im_lits im) acpiLogger in
  '(h, k) ← info (im_enabling im) [] h k;
  rsdp ← or_undef "rsdp_request.response" (rsdp_response r);
  '(h, k) ← info (im_rsdp im) [rsdp] h k;
  Revision ← load8 (h_world h) (rsdp + RSDP_Revision);
  '(h, k) ← (if Revision =? 2
             then Logger_warn (W := Paged) device poll fb font tries n fuel (im_lits im) acpiLogger (im_acpi2 im) [] h k
             else Done (h, k));
  c ← mem_compare (h_world h) rsdp (bytes_of_string "RSD PTR ");
  if negb (c =? 0) then
    k ← panic device poll fb font fuel k (im_badrsdp im) (im_frames im).1 (im_frames im).2;
    Done (Halted k)
  else
    gRSDT ← load32 (h_world h) (rsdp + RSDP_RsdtAddress);
    '(h, k) ← info (im_calling im) [] h k;
    ACPI_init device poll fb font tries n fuel (im_lits im) (im_acpi im) gRSDT
      (im_init_frames im).1 (im_init_frames im).2 acpiLogger acpi_boot h k.

(** ** The whole *)

(** What the kernel has set up when it starts to idle. *)
Record kernel := mkKernel {
  ke_framebuffer : limine_framebuffer;
  ke_gdt : GDT * GDTDescriptor;
  ke_idt : list InterruptDescriptor;
  ke_acpi : Acpi;
  ke_heap : Heap Paged;
  ke_console : Console
}.

(** [Halted] is [hcf] without a framebuffer or the loop of [panic]; [Going] the
    last [hcf].  [m] is the physical memory, [region] the memory of the bitmap. *)
Definition _start (m : mem) (region : list Z) (k : Console) : outcome (phase kernel) :=
  then_phase (start_terminal k) (λ '(fb, k),
  '(gdt, gdtDescriptor, k) ← start_gdt fb k;
  then_phase (start_memory fb region k) (λ '(memmap, mem_hhdmOffset, mem_kVirtOffset, p, k),
  '(idt, k) ← start_interrupts fb k;
  '(w, k) ← start_paging fb memmap mem_hhdmOffset mem_kVirtOffset m p k;
  '(h, k) ← start_heap fb w k;
  then_phase (start_acpi fb h k) (λ '(acpi, h, k),
  Done (Going (mkKernel fb (gdt, gdtDescriptor) idt acpi h k))))).
End Start.
