(* ===== verification/BootRun.v ===== *)
(** * kernel.cpp: the boot sequence runs

    What each region of [_start] prints and leaves behind, and the regions
    together. *)

From S2P Require Import Prelude Memory Bitmap MemUtils PageFrameAllocator PfaInit.
From S2P Require Import PageEntry PageSource Paging PagingLive Paged PageMapper BootPaging.
From S2P Require Import Heap HeapSpec HeapRefine HeapMalloc HeapGrow HeapClient HeapRun HeapFrame BootMemory MemorySamples.
From S2P Require Import CString PortIO Descriptors Framebuffer Console Kprintf Screen Output Layout StringBuilder.
From S2P Require Import Logger HeapTest LogSeq Panic BootLog ACPI AcpiInit Boot.

(** ** The lines *)

Abbreviation text s := (Text (bytes_of_string s)).
Definition pre (w : LoggerTarget) (l : list fitem) : LoggerTarget * list Z := (w, text_of (prelog_items l)).
Definition bare (w : LoggerTarget) (l : list fitem) : LoggerTarget * list Z := (w, text_of (l ++ [Text [10]])).

(** [v] is what [serial_init] returned; the two bytes are the divisor and the
    test byte it sends. *)
Definition terminal_log (t : Terminal) (v : Z) : lines :=
  [pre BOTH [text "Initiliazed terminal! Test: "; Dec 30; text " | Test 2: 0x"; Hex 0xFF00FF;
             text " | chars/line: "; Udec (charsPerLine t); text " | lines/screen: "; Udec (maxLines t)];
   (SERIAL, [0x03; 0xAE]);
   pre TERMINAL [text "Initiliazing serial port: "; Dec v];
   pre BOTH [text "Initialized serial port!"]].

Definition gdt_log (a : Z) : lines :=
  [pre TERMINAL [text "Loading GDT..."];
   pre TERMINAL [text "If you are reading this, we did load the GDT! hooray! GDTDescriptor Address: 0x"; Hex a]].

Definition allocator_log (mm : limine_memmap_response) (off : Z) (seg : limine_memmap_entry) : lines :=
  [bare BOTH [text "Largest Free Segment: 0x"; Hex (e_base seg); text " (virt: 0x"; Hex (toVirt off (e_base seg));
              text ") (with size 0x"; Hex (e_length seg); text ")"];
   bare BOTH [text "PageFrameAllocator Bitmap will need "; Dec (bitmap_bytes mm); text " bytes of RAM or ";
              Dec (bitmap_pages mm); text " pages"];
   bare BOTH [text "Total memory space is "; Dec (memory_top (mm_entries mm)); text " bytes in size, or ";
              Dec (total_pages mm); text " pages"]] ++
  ((λ e, (SERIAL, text_of [Dec (e_base e); text " "])) <$> filter usable (mm_entries mm)) ++
  [bare BOTH [text "Initiliazed page frame allocator!"]].

Definition memory_log (mm : limine_memmap_response) (off pb kv : Z) (seg : limine_memmap_entry) (p : Pfa) : lines :=
  [(SERIAL, text_of (prelog_items [text "Physical Base of Kernel: "; Hex pb] ++
             [text "Virtual Base of Kernel: "; Hex kv; Text [10]; text "HHDM Offset: "; Hex off; Text [10]]));
   pre TERMINAL [text "Initialize page frame allocator..."]] ++
  allocator_log mm off seg ++
  [pre TERMINAL [text "Ram -> Total: "; Hex (mem_getTotalRAM p); text ", Free: "; Hex (mem_getFreeRAM p);
                 text ", Used: "; Hex (mem_getUsedRAM p)];
   pre TERMINAL [text "Ram -> Total: "; Udec (mem_getTotalRAM p); text ", Free: "; Udec (mem_getFreeRAM p);
                 text ", Used: "; Udec (mem_getUsedRAM p)]].

Definition interrupts_log : lines :=
  [pre TERMINAL [text "Initiliaze IDT & Interrupts..."]; pre TERMINAL [text "Initiliazed IDT & Interrupts!"]].

(** [pl]: the tables below the root, as (index, address). *)
Definition paging_log (root : Z) (pl : list (Z * Z)) : lines :=
  [pre BOTH [text "Initialize paging..."]; pre BOTH [text "PagingTable Address is "; Hex root]] ++ pdp_lines pl ++
  [pre BOTH [text "Mapped memory"]; pre BOTH [text "Loading PML4 into CR3"]; pre BOTH [text "Done initiliazing paging!"]].

(** [fs]: the frames of the heap's pages. *)
Definition heap_log (free : Z) (fs : list Z) (newString : Z) : lines :=
  [pre BOTH [text "Initiliazing heap with starting size 1mb, CurrentFreeMemory: "; Udec free]] ++
  heap_lines 0x800000 fs ++
  [pre SERIAL [text "initHeap() done"];
   (SERIAL, address_text newString); (BOTH, test_text)].

Section Run.
Context (device : ports → Z → Z) (poll : nat) (font : list Z) (tries n fuel : nat).
Context (r : responses) (im : image).
Hypothesis uart_ready : ∀ past, ready_within device poll past = true.
Hypothesis some_fuel : (40 <= fuel)%nat.

Lemma fuel_22 : (22 <= fuel)%nat.
Proof using some_fuel. lia. Qed.

Section Tell.
Context {B : Type} (fb : limine_framebuffer) (l : list fitem) (k0 : Console) (L : lines) (k : Console).
Context (fmt args : list Z) (cont : Console → outcome B) (Q : B → Prop).
Hypothesis before : told fb font (off_screen fb) k0 L k.
Hypothesis same_fmt : fmt = fmt_of l.
Hypothesis same_args : args = args_of l.
Hypothesis literal : literal_ok (fmt_of l) = true.
Hypothesis ok : Forall (item_ok fuel k) l.
Hypothesis safe : Forall (item_safe (off_screen fb)) l.

Let rest (w : LoggerTarget) : Prop :=
  ∀ k', told fb font (off_screen fb) k0 (L ++ [(w, text_of l)]) k' → returns (cont k') Q.

Lemma tell_terminal : rest TERMINAL → returns (kprintf device poll fb font fuel k fmt args ≫= cont) Q.
Proof using uart_ready some_fuel before same_fmt same_args literal ok safe.
  exact (tell device poll fb font fuel uart_ready fuel_22 TERMINAL l k0 L k fmt args cont Q
  before ltac:(discriminate) same_fmt same_args literal ok safe). Qed.
Lemma tell_serial : rest SERIAL → returns (kprintf_serial device poll fuel k fmt args ≫= cont) Q.
Proof using uart_ready some_fuel before same_fmt same_args literal ok safe.
  exact (tell device poll fb font fuel uart_ready fuel_22 SERIAL l k0 L k fmt args cont Q
  before ltac:(discriminate) same_fmt same_args literal ok safe). Qed.
Lemma tell_both : rest BOTH → returns (kprintf_both device poll fb font fuel k fmt args ≫= cont) Q.
Proof using uart_ready some_fuel before same_fmt same_args literal ok safe.
  exact (tell device poll fb font fuel uart_ready fuel_22 BOTH l k0 L k fmt args cont Q
  before ltac:(discriminate) same_fmt same_args literal ok safe). Qed.
End Tell.

(** One line: the target and the items; what is left are the ranges of numbers. *)
Ltac says H w l :=
  match w with
  | TERMINAL => eapply (tell_terminal _ l)
  | SERIAL => eapply (tell_serial _ l)
  | BOTH => eapply (tell_both _ l)
  end;
  [exact H|vm_compute; reflexivity|try reflexivity|vm_compute; reflexivity
  |prelog_ok; try (apply plain_text_ok; vm_compute; reflexivity); try (znorm; lia)
  |prelog_ok|].

Lemma serial_init_sent h v p :
  serial_init device h = (v, p) → sent p = sent h ++ [0x03; 0xAE] ∧ (v = 0 ∨ v = 1).
Proof.
  unfold serial_init, outb, inb. cbn zeta. case_cmp; cbn [negb]; intros [= <- <-]; rewrite ?sent_app; cbn.
  all: rewrite <- ?app_assoc; auto.
Qed.

(** A screen with room for a character, and a console at rest. *)
Record screen_fits (fb : limine_framebuffer) : Prop := {
  sf_cell : 32 <= fb_pitch fb ∧ 16 <= fb_height fb;
  sf_size : ppl fb * fb_height fb < 2^31;
  sf_row : 0 <= fb_width fb ∧ 0 <= fb_bpp fb ∧ fb_width fb * fb_bpp fb <= 8 * fb_pitch fb;
  sf_font : 2048 <= Z.of_nat (length font)
}.

Definition with_screen (fb : limine_framebuffer) (k : Console) : Console :=
  with_terminal k (Terminal_init fb (gTerminal k)).

Lemma start_terminal_spec fb fbs k :
  framebuffer_response r = Some (fb :: fbs) → screen_fits fb → idle k → gTerminal k = terminal_boot →
  returns (start_terminal device poll font fuel r k) (λ x, ∃ v k', x = Going (fb, k') ∧ (v = 0 ∨ v = 1) ∧
    told fb font (off_screen fb) (with_screen fb k) (terminal_log (Terminal_init fb terminal_boot) v) k').
Proof using uart_ready some_fuel.
  intros Er [[F1 F2] F3 F4 F5] Hi Et. unfold start_terminal. rewrite Er.
  destruct (Z.ltb_spec (Z.of_nat (length (fb :: fbs))) 1); [cbn in *; lia|]. cbn [head or_undef]. rewrite bind_Done.
  fold (with_screen fb k). set (k0 := with_screen fb k).
  assert (gTerminal k0 = Terminal_init fb terminal_boot) as Ek0 by (cbn; by rewrite Et).
  pose proof (Terminal_init_ready fb font ∅ [] F1 F2 F3 F4 F5) as Hr.
  assert (screen_ready fb font k0) as Hr0 by (unfold screen_ready in *; rewrite Ek0; exact Hr).
  pose proof (told_nil fb font (off_screen fb) k0 Hi Hr0) as T0. rewrite Ek0.
  set (t := Terminal_init fb terminal_boot) in *. destruct Hr as [[C1 C2 C3 C4] _]. cbn [gTerminal] in C1, C2, C3, C4.
  says T0 BOTH (prelog_items [text "Initiliazed terminal! Test: "; Dec 30; text " | Test 2: 0x"; Hex 0xFF00FF;
    text " | chars/line: "; Udec (charsPerLine t); text " | lines/screen: "; Udec (maxLines t)]).
  intros k1 T1. destruct (serial_init device (k_ports k1)) as [v p] eqn:Es.
  apply serial_init_sent in Es as [Es Hv].
  assert (told fb font (off_screen fb) k1 [(SERIAL, [0x03; 0xAE])] (with_ports k1 p)) as Tp.
  { destruct T1. split; try done. }
  pose proof (told_trans _ _ _ _ _ _ _ _ T1 Tp) as T2.
  says T2 TERMINAL (prelog_items [text "Initiliazing serial port: "; Dec v]);
    [by destruct Hv as [-> | ->]|].
  intros k3 T3. says T3 BOTH (prelog_items [text "Initialized serial port!"]).
  intros k4 T4. apply returns_Done. exists v, k4. split; [done|]. split; [done|]. exact T4.
Qed.

Lemma start_gdt_spec fb k0 L k :
  told fb font (off_screen fb) k0 L k → im_gdt im = defaultGDT → is_u64 (im_tss im) → is_u64 (im_gdt_local im) →
  returns (start_gdt device poll font fuel im fb k) (λ '(_, _, k'),
    told fb font (off_screen fb) k0 (L ++ gdt_log (im_gdt_local im)) k').
Proof using uart_ready some_fuel.
  intros T Eg Ht Hl. unfold start_gdt.
  says T TERMINAL (prelog_items [text "Loading GDT..."]). intros k1 T1.
  destruct (gdt_init_correct (im_gdt_addr im) (im_tss im) Ht) as (gdt & d & Ed & _).
  rewrite Eg, Ed, bind_Done.
  says T1 TERMINAL (prelog_items
    [text "If you are reading this, we did load the GDT! hooray! GDTDescriptor Address: 0x"; Hex (im_gdt_local im)]).
  intros k2 T2. apply returns_Done. by rewrite <- app_assoc in T2.
Qed.

Lemma start_interrupts_spec fb k0 L k :
  told fb font (off_screen fb) k0 L k →
  length (im_idt im) = 256%nat → 0 <= im_handlers im → im_handlers im + 4096 <= 2^64 →
  returns (start_interrupts device poll font fuel im fb k) (λ '(idt, k'),
    length idt = 256%nat ∧ told fb font (off_screen fb) k0 (L ++ interrupts_log) k').
Proof using uart_ready some_fuel.
  intros T Hi H0 H1. unfold start_interrupts.
  says T TERMINAL (prelog_items [text "Initiliaze IDT & Interrupts..."]). intros k1 T1.
  destruct (initInts_correct (im_idt im) (im_handlers im) Hi H0 H1) as (idt & -> & El & _). rewrite bind_Done.
  says T1 TERMINAL (prelog_items [text "Initiliazed IDT & Interrupts!"]). intros k2 T2.
  apply returns_Done. split; [done|]. by rewrite <- app_assoc in T2.
Qed.

(** The bases of the usable entries. *)
Lemma entries_told fb k0 L k l :
  told fb font (off_screen fb) k0 L k → Forall (λ e, 0 <= e_base e < 2^63) l →
  returns (foldM (λ entry k,
      if e_type entry =? 0 then kprintf_serial device poll fuel k (bytes_of_string "%d ") [e_base entry]
      else Done k) l k)
    (told fb font (off_screen fb) k0 (L ++ ((λ e, (SERIAL, text_of [Dec (e_base e); text " "])) <$> filter usable l))).
Proof using uart_ready some_fuel.
  revert L k. induction l as [|e l IH]; intros L k T Hl; cbn [foldM].
  { apply returns_Done. by rewrite app_nil_r. }
  apply Forall_cons in Hl as [B1 Hl]. cbn beta in B1. rewrite filter_cons. unfold usable at 1.
  destruct (Z.eqb_spec (e_type e) 0) as [E|E].
  - rewrite decide_True by done. rewrite fmap_cons.
    says T SERIAL [Dec (e_base e); text " "].
    + unfold args_of. cbn [fmap list_fmap item_args concat app]. by rewrite to_u64_id by (znorm; lia).
    + intros k1 T1. specialize (IH _ _ T1 Hl). by rewrite <- app_assoc in IH.
  - rewrite decide_False by done. rewrite bind_Done. by apply IH.
Qed.

Ltac dec_args := unfold args_of; cbn [fmap list_fmap item_args concat app]; rewrite ?to_u64_id by (znorm; lia); reflexivity.

Lemma pfa_init_told fb k0 L k mm off region seg p :
  told fb font (off_screen fb) k0 L k → boot_ok mm region →
  mem_pageframeallocator_init pfa_boot mm off region = Done p → init_post mm off seg p →
  returns (pfa_init_says device poll font fuel fb mm off region k) (λ '(p', k'), p' = p ∧
    told fb font (off_screen fb) k0 (L ++ allocator_log mm off seg) k').
Proof using uart_ready some_fuel.
  intros T Hb Ep HI. pose proof (bo_memmap _ _ Hb) as Hmm. unfold pfa_init_says.
  rewrite Ep, bind_Done, (ip_scan _ _ _ _ HI), bind_Done.
  destruct (ip_seg _ _ _ _ HI) as (Hs1 & _ & _). pose proof (mm_each _ Hmm) as Hall.
  pose proof (proj1 (Forall_forall _ _) Hall seg Hs1) as (B1 & B2 & B3).
  destruct (total_pages_bounds mm region Hb) as (HT & HTB & HB & HP). pose proof (bo_top _ _ Hb).
  pose proof (memory_top_nonneg (mm_entries mm)). pose proof (to_u64_range (e_base seg + off)).
  says T BOTH ([text "Largest Free Segment: 0x"; Hex (e_base seg); text " (virt: 0x"; Hex (toVirt off (e_base seg));
              text ") (with size 0x"; Hex (e_length seg); text ")"] ++ [Text [10]]).
  intros k1 T1. rewrite getMemoryArealSize_top, bind_Done by done. cbn zeta.
  fold (total_pages mm). fold (bitmap_bytes mm). fold (bitmap_pages mm).
  says T1 BOTH ([text "PageFrameAllocator Bitmap will need "; Dec (bitmap_bytes mm); text " bytes of RAM or ";
              Dec (bitmap_pages mm); text " pages"] ++ [Text [10]]); [dec_args|].
  intros k2 T2.
  says T2 BOTH ([text "Total memory space is "; Dec (memory_top (mm_entries mm)); text " bytes in size, or ";
              Dec (total_pages mm); text " pages"] ++ [Text [10]]); [dec_args|].
  intros k3 T3. rewrite for_entries_foldM by done. eapply returns_bind.
  { apply (entries_told fb k0 _ k3 _ T3). rewrite Forall_forall. intros e He.
    pose proof (memory_top_bound _ _ He). pose proof (proj1 (Forall_forall _ _) Hall e He) as (? & ? & ?). lia. }
  intros k4 T4.
  says T4 BOTH ([text "Initiliazed page frame allocator!"] ++ [Text [10]]).
  intros k5 T5. apply returns_Done. split; [done|]. unfold allocator_log. rewrite !app_assoc.
  rewrite <- !(app_assoc L) in *. exact T5.
Qed.

Lemma start_memory_spec fb k0 L k mm off pb kv region seg p :
  told fb font (off_screen fb) k0 L k → memmap_response r = Some mm → kaddr_response r = Some (pb, kv) →
  hhdm_response r = Some off → is_u64 pb → is_u64 kv → is_u64 off → boot_ok mm region →
  mem_pageframeallocator_init pfa_boot mm off region = Done p → init_post mm off seg p →
  returns (start_memory device poll font fuel r im fb region k) (λ x, ∃ k', x = Going (mm, off, kv, p, k') ∧
    told fb font (off_screen fb) k0 (L ++ memory_log mm off pb kv seg p) k').
Proof using uart_ready some_fuel.
  intros T Emm Eka Ehh Hpb Hkv Hoff Hb Ep HI. unfold start_memory. rewrite Emm, Eka, Ehh. cbn [or_undef].
  rewrite !bind_Done.
  says T SERIAL (prelog_items [text "Physical Base of Kernel: "; Hex pb] ++
             [text "Virtual Base of Kernel: "; Hex kv; Text [10]; text "HHDM Offset: "; Hex off; Text [10]]).
  intros k1 T1. cbn zeta. says T1 TERMINAL (prelog_items [text "Initialize page frame allocator..."]).
  intros k2 T2. eapply returns_bind; [by eapply (pfa_init_told fb k0 _ k2 mm off region seg p)|].
  intros [p' k3] [-> T3]. pose proof (ip_ok _ _ _ _ HI) as Hok. pose proof (pfa_free p Hok). pose proof (pfa_used p Hok).
  pose proof (to_u64_range (mem_freeMemory p + mem_usedMemory p)).
  says T3 TERMINAL (prelog_items [text "Ram -> Total: "; Hex (mem_getTotalRAM p); text ", Free: "; Hex (mem_getFreeRAM p);
                 text ", Used: "; Hex (mem_getUsedRAM p)]).
  intros k4 T4.
  says T4 TERMINAL (prelog_items [text "Ram -> Total: "; Udec (mem_getTotalRAM p); text ", Free: ";
                 Udec (mem_getFreeRAM p); text ", Used: "; Udec (mem_getUsedRAM p)]).
  intros k5 T5. apply returns_Done. exists k5. split; [done|].
  unfold memory_log. rewrite <- !app_assoc in T5. exact T5.
Qed.

Lemma start_paging_spec fb k0 L k mm off kv m p w :
  told fb font (off_screen fb) k0 L k → memmap_ok mm → boot_layout off kv (mm_entries mm) → src_ok p →
  init_paging off kv mm m p = Done w →
  returns (start_paging device poll font fuel fb mm off kv m p k) (λ '(w', k'), w' = mkPaged w ∧
    ∃ pl, pl.*1 = new_pdps (λ _, false) (boot_plan off kv (mm_entries mm)) ∧
      told fb font (off_screen fb) k0 (L ++ paging_log (globalPageTable w) pl) k').
Proof using uart_ready some_fuel.
  intros T Hmm Hl Hok Ei. unfold start_paging.
  says T BOTH (prelog_items [text "Initialize paging..."]). intros k1 T1.
  unfold init_paging in Ei. apply bind_Done_inv in Ei as ([root p1] & Er & Ei). rewrite Er, bind_Done.
  change (mem_pageframeallocator_requestPage p) with (requestPage p) in Er.
  destruct (request_frame _ _ _ Hok Er) as [F1 F2].
  says T1 BOTH (prelog_items [text "PagingTable Address is "; Hex root]). intros k2 T2.
  cbn zeta in Ei |- *. rewrite boot_loops_plan in Ei by done. rewrite boot_loops_follow by done.
  set (w0 := mkMachine _ _ _) in *. destruct (root_machine m p root p1 Hok Er) as [Hk0 _].
  pose proof (boot_plan_phys off kv mm Hl) as Hph.
  destruct (says_plan device poll fb font fuel uart_ready fuel_22 k0 _ w0 k2 _ w Hk0 Hph T2 Ei) as (pl & Epl & R).
  eapply returns_bind; [exact R|]. intros [w' k3] [Ew T3]. cbn [fst snd] in Ew, T3. subst w'.
  says T3 BOTH (prelog_items [text "Mapped memory"]). intros k4 T4.
  says T4 BOTH (prelog_items [text "Loading PML4 into CR3"]). intros k5 T5.
  says T5 BOTH (prelog_items [text "Done initiliazing paging!"]). intros k6 T6.
  apply returns_Done. split; [done|]. exists pl. split.
  - rewrite Epl. apply new_pdps_ext. intros i Hi. exact (root_empty m p root p1 i Hok Er Hi).
  - destruct (map_plan_spares _ _ _ Hk0 Hph Ei) as [[-> _] _]. unfold paging_log. rewrite <- !app_assoc in T6. exact T6.
Qed.

(** ** The heap *)

(** Bytes that neither the screen nor the heap changes. *)
Definition stable (fb : limine_framebuffer) (a : Z) : Prop := off_screen fb a ∧ off_heap 0x800000 0x900000 a.

(** A string of the kernel's image. *)
Record placed (fb : limine_framebuffer) (m : mem) (p : Z) (s : list Z) : Prop := {
  pl_cstr : cstr m p s;
  pl_stable i : 0 <= i <= Z.of_nat (length s) → stable fb (p + i);
  pl_u64 : is_u64 p;
  pl_fuel : (length s < fuel)%nat
}.

Lemma placed_agree fb m m' p s :
  (∀ a, stable fb a → rd8 m' a = rd8 m a) → placed fb m p s → placed fb m' p s.
Proof.
  clear uart_ready some_fuel. intros Hm [[C1 C2] P2 P3 P4]. split; try done. split.
  - intros i c Hc. pose proof (lookup_lt_Some _ _ _ Hc). rewrite Hm by (apply P2; lia). by apply C1.
  - rewrite Hm by (apply P2; lia). done.
Qed.

Definition heap_seg : seg := mkSeg 0x800000 (0x100000 - 29) true.

(** The heap's pages are off the screen and hold zeros. *)
Record heap_zone (fb : limine_framebuffer) (m : mem) : Prop := {
  hz_screen a : 0x800000 <= a < 0x900000 → off_screen fb a;
  hz_zero a : 0x800000 <= a < 0x900000 → rd8 m a = 0
}.

Lemma stable_kept fb (h : Heap Paged) a :
  heapStart h = 0x800000 → heapEnd h = 0x900000 → stable fb a → kept h [heap_seg] a.
Proof. clear uart_ready some_fuel. intros E1 E2 [_ Ha]. left. by rewrite E1, E2. Qed.

(** The state behind the heap test. *)
Record heap_started off kv mm l m p (w : Machine) (h : Heap Paged) (k : Console) : Prop := {
  hs_inv : heap_inv h [heap_seg];
  hs_range : heapStart h = 0x800000 ∧ heapEnd h = 0x900000;
  hs_shared : k_mem k = h_mem h;
  hs_world : ∃ hm h0, memory_up off kv mm l m hm p w h0 ∧ h_world h = h_world h0;
  hs_zeros x : 0x800000 + OUTPUT <= x < 0x900000 → rd8 (h_mem h) x = 0
}.

Lemma fresh_testable fb off kv mm l m hm p w h k :
  memory_up off kv mm l m hm p w h → heap_zone fb hm → placed fb hm (im_copyable im) hello →
  idle k → screen_ready fb font k → (1 <= tries)%nat → 23400 <= Z.of_nat fuel →
  testable fb font tries fuel h [heap_seg] k (im_copyable im).
Proof using some_fuel.
  intros [[U1 U2] U3 U4 U5 U6 UA U7 U8 U9] [Z1 Z2] Hp Hi Hr Ht Hf.
  assert (∀ a, stable fb a → rd8 (h_mem h) a = rd8 hm a) as Hst.
  { intros a [_ [Ha _]]. apply U7. lia. }
  destruct (placed_agree fb _ _ _ _ Hst Hp) as [P1 P2 P3 P4]. split; try done.
  - intros u x Hu _ Hx. apply list_elem_of_singleton in Hu as ->. unfold block, seg_end, heap_seg in Hx. cbn in Hx.
    rewrite U7 by lia. apply Z2. lia.
  - exists heap_seg. split; [by apply elem_of_cons; left|]. split; [done|]. cbn. lia.
  - split_and!; [done|done|]. unfold search_fuel. rewrite U1, U2.
    change ((0x900000 - 0x800000) / 45) with 23301. lia.
  - intros a. rewrite U1, U2. apply Z1.
  - intros i Hi'. eapply stable_kept; [done|done|]. apply P2. change (Z.of_nat (length hello)) with 12. lia.
Qed.

Lemma tested_told fb (h h' : Heap Paged) k k' p :
  heapStart h = 0x800000 → heapEnd h = 0x900000 →
  (∀ a, stable fb a → rd8 (k_mem k) a = rd8 (h_mem h) a) → tested fb font h [heap_seg] k p h' k' →
  told fb font (stable fb) k [(SERIAL, address_text p); (BOTH, test_text)] k'.
Proof.
  clear uart_ready some_fuel. intros E1 E2 Hm [D1 D2 D3 D4 D5 D6 D7 D8 D9 D10]. split; try done.
  - cbn [lines_sent log_sent log_cursor]. by rewrite app_nil_r, D3.
  - intros a Ha. rewrite D7, Hm by done. apply D5; [by eapply stable_kept|apply Ha].
Qed.

(** Where the test's block was, and what is zero behind it. *)
Lemma started_zeros fb (h h' : Heap Paged) k k' p :
  heapStart h = 0x800000 → heapEnd h = 0x900000 → tested fb font h [heap_seg] k p h' k' → heapEnd h <= 2^24 →
  (∀ x, 0x800000 + OUTPUT <= x < 0x900000 → rd8 (h_mem h) x = 0) →
  p = 0x80001d ∧ ∀ x, 0x800000 + OUTPUT <= x < 0x900000 → rd8 (h_mem h') x = 0.
Proof.
  clear uart_ready some_fuel. intros E1 E2 D Hsm Hz. destruct (td_zeros _ _ _ _ _ _ _ _ D Hsm) as (l1 & Ea & Hk).
  assert (spec_alloc 16 [heap_seg] =
    Some (0x80001d, [mkSeg 0x800000 16 false; mkSeg 0x80002d (0x100000 - 29 - 45) true])) as Ea' by reflexivity.
  rewrite Ea' in Ea. injection Ea as <- <-. split; [done|]. intros x Hx. apply Hk; [rewrite E1, E2; unfold OUTPUT in Hx; lia| |auto].
  intros (u & Hu & Ho). unfold low_offsets in Ho. unfold OUTPUT in Hx.
  rewrite !elem_of_cons, elem_of_nil in Ho. rewrite !elem_of_cons, elem_of_nil in Hu. destruct Hu as [->|[->|[]]]; cbn [s_addr] in Ho; lia.
Qed.

Lemma start_heap_spec fb k0 L k off kv mm l m p w :
  told fb font (off_screen fb) k0 L k → memmap_ok mm → boot_layout off kv (mm_entries mm) → src_ok p →
  init_paging off kv mm m p = Done w →
  machine_supplied (plan_tables (boot_plan off kv (mm_entries mm) ++ l)) 256 w →
  (∀ va, space w va = planned (boot_plan off kv (mm_entries mm)) va) →
  heap_zone fb (k_mem k0) → placed fb (k_mem k0) (im_copyable im) hello →
  (1 <= tries)%nat → 23400 <= Z.of_nat fuel →
  returns (start_heap device poll font tries fuel im fb (mkPaged w) k) (λ '(h, k'),
    heap_started off kv mm l m p w h k' ∧
    told fb font (stable fb) k0
      (L ++ heap_log (mem_getFreeRAM (pfa w)) (next_frames 256 (pfa w)) 0x80001d) k').
Proof using uart_ready some_fuel.
  intros T Hmm Hl Hok Ei Hsup Hs [Z1 Z2] Hp Ht Hf. unfold start_heap.
  pose proof (pfa_free _ (proj1 Hsup)) as Hfree.
  says T BOTH (prelog_items [text "Initiliazing heap with starting size 1mb, CurrentFreeMemory: ";
    Udec (mem_getFreeRAM (pfa w))]). intros k1 T1.
  change (1 * 1024 * 1024 / (4 * 1024)) with (Z.of_nat 256).
  destruct (paged_supplied_intro _ _ w Hsup) as [T0 HT0].
  { intros va Hva. rewrite Hs. unfold boot_plan, LOW_END in *. by rewrite planned_app, planned_low. }
  destruct (initHeap_told device poll fb font fuel uart_ready fuel_22 _ T0 (mkPaged w) k0 _ k1 0x800000 256 HT0
    ltac:(done) ltac:(done) ltac:(done) T1) as ([h kA] & -> & kB & Eh & -> & TB). rewrite bind_Done.
  assert (∀ a, off_screen fb a → rd8 (k_mem kB) a = rd8 (k_mem k0) a) as Hm1 by apply TB.
  destruct (heap_up off kv mm l m (k_mem kB) p w Hmm Hl Hok Ei Hsup Hs) as (h1 & Eh1 & U).
  change (Z.of_nat 256) with 256 in Eh. rewrite Eh in Eh1. apply Done_inj in Eh1 as <-.
  set (kA := with_kmem kB (h_mem h)).
  pose proof (told_nil fb font (off_screen fb) kA (to_idle _ _ _ _ _ _ TB) (to_ready _ _ _ _ _ _ TB)) as TA.
  says TA SERIAL (prelog_items [text "initHeap() done"]). intros k2 T2.
  assert (heap_zone fb (k_mem kB)) as HZ.
  { split; [done|]. intros a Ha. rewrite Hm1 by auto. auto. }
  destruct (mu_range _ _ _ _ _ _ _ _ _ U) as [E1 E2].
  destruct (heap_test_spec device poll fb font tries fuel uart_ready h [heap_seg] k2 (im_copyable im))
    as (q & h' & k' & E & D).
  { eapply fresh_testable; try done; [|apply T2|apply T2]. eapply placed_agree; [|exact Hp]. intros a Ha. apply Hm1, Ha. }
  assert (∀ a, stable fb a → rd8 (h_mem h) a = rd8 (k_mem kB) a) as Hm2.
  { intros a [_ [Ha _]]. apply (mu_mem _ _ _ _ _ _ _ _ _ U). lia. }
  assert (q = 0x80001d ∧ ∀ x, 0x800000 + OUTPUT <= x < 0x900000 → rd8 (h_mem h') x = 0) as [-> Hz].
  { apply (started_zeros fb h h' k2 k'); try done; [lia|]. intros x Hx.
    rewrite (mu_mem _ _ _ _ _ _ _ _ _ U) by (unfold OUTPUT in Hx; lia). apply HZ. unfold OUTPUT in Hx. lia. }
  exists (h', k'). split; [exact E|]. split.
  - destruct D as [D1 D2 D3 D4 D5 [D6 D6'] D7 D8 D9 D10]. split; [done|by rewrite D6, D6'|done| |done].
    by exists (k_mem kB), h.
  - assert (told fb font (stable fb) k0 ((L ++ [pre BOTH
      [text "Initiliazing heap with starting size 1mb, CurrentFreeMemory: "; Udec (mem_getFreeRAM (pfa w))]]) ++
      heap_lines 0x800000 (next_frames 256 (pfa w))) kA) as TC.
    { destruct TB as [A1 A2 A3 A4 A5]. split; try done. intros a Ha. cbn [kA k_mem with_kmem].
      rewrite Hm2 by done. apply A5, Ha. }
    pose proof (told_mono _ _ _ (stable fb) _ _ _ ltac:(by intros a [Ha _]) T2) as TD.
    pose proof (tested_told fb h h' k2 k' _ E1 E2 (λ a Ha, to_mem _ _ _ _ _ _ TD a Ha) D) as TE.
    pose proof (told_trans _ _ _ _ _ _ _ _ TC (told_trans _ _ _ _ _ _ _ _ TD TE)) as TF.
    unfold heap_log. rewrite <- !app_assoc in TF. exact TF.
Qed.
End Run.
