(* ===== verification/BootAcpi.v ===== *)
(** * kernel.cpp: the region "Init ACPI"

    From the boot loader's RSDP to an enabled ACPI, on the heap and the page
    tables that the earlier regions of [_start] have set up. *)

From S2P Require Import Prelude Memory Bitmap MemUtils PageFrameAllocator PfaInit.
From S2P Require Import PageEntry PageSource Paging PagingLive Paged PageMapper BootPaging.
From S2P Require Import Heap HeapSpec HeapRefine HeapMalloc HeapGrow HeapClient HeapRun HeapFrame BootMemory MemorySamples.
From S2P Require Import CString PortIO Descriptors Framebuffer Console Kprintf Screen Output Layout StringBuilder.
From S2P Require Import Logger HeapTest LogSeq Panic BootLog ACPI AcpiInit Boot BootRun.

(** ** Tables that two memories agree on *)

Lemma filter_ext_in {A : Type} (P Q : A → Prop) `{∀ x, Decision (P x), ∀ x, Decision (Q x)} (l : list A) :
  (∀ x, x ∈ l → P x ↔ Q x) → filter P l = filter Q l.
Proof.
  induction l as [|x l IH]; intros E; [done|]. rewrite !filter_cons.
  pose proof (E x ltac:(by apply elem_of_cons; left)). rewrite IH by (intros y Hy; apply E, elem_of_cons; by right).
  by repeat case_decide; try tauto.
Qed.

Section Agree.
Context (S : gset (list Z)) (m m' : mem) (rsdt : Z).
Hypothesis ok : tables_ok S m rsdt.
Hypothesis agree : ∀ a, init_bytes m rsdt a → rd8 m' a = rd8 m a.

Lemma agree_length : rd32 m' (rsdt + HDR_Length) = rd32 m (rsdt + HDR_Length).
Proof using ok agree.
  destruct ok as [_ A _ _]. apply rdN_ext. intros a Ha. apply agree. left. left.
  unfold HDR_Length, SIZEOF_SDT in *. lia.
Qed.

Lemma agree_pointers n :
  n <= (rd32 m (rsdt + HDR_Length) - SIZEOF_SDT) / 4 → sdt_pointers m' rsdt 0 n = sdt_pointers m rsdt 0 n.
Proof using ok agree.
  intros Hn. destruct ok as [_ A _ _]. apply list_fmap_ext. intros i x Hx%list_elem_of_lookup_2%elem_of_seqZ.
  apply rdN_ext. intros a Ha. apply agree. left. left. unfold SIZEOF_SDT in *. zlia.
Qed.

Lemma agree_facp : the_facp m' rsdt = the_facp m rsdt.
Proof using ok agree.
  unfold the_facp. rewrite agree_length, agree_pointers by lia. unfold first_facp. do 2 f_equal.
  apply filter_ext_in. intros p Hp. unfold signature.
  assert ((λ i, rd8 m' (p + i)) <$> seqZ 0 4 = (λ i, rd8 m (p + i)) <$> seqZ 0 4) as ->; [|done].
  apply list_fmap_ext. intros i x Hx%list_elem_of_lookup_2%elem_of_seqZ. apply agree. left. right.
  exists p. split; [done|lia].
Qed.

Lemma agree_tables : tables_ok S m' rsdt.
Proof using ok agree.
  pose proof ok as [A1 A2 A3 A4]. split; rewrite ?agree_length; try done.
  intros p. rewrite agree_pointers by lia. apply A4.
Qed.

Lemma agree_bytes a : init_bytes m' rsdt a → init_bytes m rsdt a.
Proof using ok agree.
  unfold init_bytes, acpi_bytes. cbn zeta. rewrite agree_facp, agree_length, agree_pointers by lia. done.
Qed.

Lemma agree_pages v : table_pages m' rsdt v → table_pages m rsdt v.
Proof using ok agree. unfold table_pages. cbn zeta. rewrite agree_length, agree_pointers by lia. done. Qed.
End Agree.

(** ** The messages *)

Section Messages.
Context (fb : limine_framebuffer) (font : list Z) (n fuel : nat) (im : image).

Definition ns : list Z := bytes_of_string "Kernel".
Definition tg : list Z := bytes_of_string "ACPI".
Definition acpiLogger : Logger := Logger_new (im_tag im) (im_namespace im).

Definition enabling_message : message := mkMessage Info (im_enabling im) [Text (bytes_of_string "Enabling ACPI...")].
Definition rsdp_message (rsdp : Z) : message := mkMessage Info (im_rsdp im) [Text (bytes_of_string "RSDP: "); Hex rsdp].
Definition acpi2_message : message := mkMessage Warn (im_acpi2 im) [Text (bytes_of_string "Detected ACPI 2.0+!")].
Definition calling_message : message := mkMessage Info (im_calling im) [Text (bytes_of_string "Calling ACPI::init")].

(** All the messages that may appear. *)
Definition all_messages (rsdp facp : Z) : list message :=
  [enabling_message; rsdp_message rsdp; acpi2_message; calling_message] ++ init_messages (im_acpi im) facp.

(** No two of them are in each other's way. *)
Lemma messages_compatible rsdp facp : compatible ns tg (all_messages rsdp facp) = true.
Proof. vm_compute. reflexivity. Qed.

Lemma messages_room rsdp facp m :
  m ∈ all_messages rsdp facp → OUTPUT + m_header ns tg m + 16 <= 0x100000 - 29.
Proof.
  intros Hm. unfold all_messages, init_messages in Hm. cbn [app] in Hm. rewrite !elem_of_cons, elem_of_nil in Hm.
  destruct Hm as [->|[->|[->|[->|[->|[->|[->|[]]]]]]]]; vm_compute; discriminate.
Qed.

(** The strings of the logger and of its messages are in memory. *)
Record image_ok (m : mem) : Prop := {
  io_open : placed fuel fb m (lit_open (im_lits im)) (bytes_of_string "$c8[");
  io_slash : placed fuel fb m (lit_slash (im_lits im)) (bytes_of_string "/");
  io_info : placed fuel fb m (lit_info (im_lits im)) (bytes_of_string "] $c7[INF]$cF ");
  io_warn : placed fuel fb m (lit_warn (im_lits im)) (bytes_of_string "] $cY[WRN]$cF ");
  io_newline : placed fuel fb m (lit_newline (im_lits im)) [10];
  io_namespace : placed fuel fb m (im_namespace im) ns;
  io_tag : placed fuel fb m (im_tag im) tg;
  io_copyable : placed fuel fb m (im_copyable im) hello;
  io_enabling : placed fuel fb m (im_enabling im) (bytes_of_string "Enabling ACPI...");
  io_rsdp : placed fuel fb m (im_rsdp im) (bytes_of_string "RSDP: %x");
  io_acpi2 : placed fuel fb m (im_acpi2 im) (bytes_of_string "Detected ACPI 2.0+!");
  io_calling : placed fuel fb m (im_calling im) (bytes_of_string "Calling ACPI::init");
  io_looking : placed fuel fb m (lit_looking (im_acpi im)) (bytes_of_string "Looking for FACP");
  io_facp : placed fuel fb m (lit_facp (im_acpi im)) (bytes_of_string "FACP: %x");
  io_enabled : placed fuel fb m (lit_enabled (im_acpi im)) (bytes_of_string "ACPI is (hopefully) enabled");
  io_oob : is_u64 (lit_oob (im_lits im))
}.

Lemma image_agree m m' : (∀ a, stable fb a → rd8 m' a = rd8 m a) → image_ok m → image_ok m'.
Proof. intros Hm []. split; try assumption. all: eapply placed_agree; eassumption. Qed.

Lemma messages_placed mem rsdp facp m :
  image_ok mem → m ∈ all_messages rsdp facp →
  Forall2 (placed fuel fb mem) (log_ptrs (im_lits im) acpiLogger (m_level m) (m_str m)) (m_strs ns tg m).
Proof.
  intros [] Hm. unfold all_messages, init_messages in Hm. cbn [app] in Hm. rewrite !elem_of_cons, elem_of_nil in Hm.
  destruct Hm as [->|[->|[->|[->|[->|[->|[->|[]]]]]]]]; repeat (constructor; [assumption|]); constructor.
Qed.

(** Lengths, and items without strings. *)
Lemma messages_small rsdp facp m :
  m ∈ all_messages rsdp facp →
  build_size (m_strs ns tg m) < 2^31 ∧ builder_room (m_strs ns tg m) <= 0x100000 - 29 ∧
  (length (concat (m_strs ns tg m)) < 200)%nat.
Proof.
  intros Hm. unfold all_messages, init_messages in Hm. cbn [app] in Hm. rewrite !elem_of_cons, elem_of_nil in Hm.
  destruct Hm as [->|[->|[->|[->|[->|[->|[->|[]]]]]]]]; (split; [|split]);
    [vm_compute; reflexivity|vm_compute; discriminate|apply Nat.ltb_lt; vm_compute; reflexivity|..].
  all: first [vm_compute; reflexivity|vm_compute; discriminate|apply Nat.ltb_lt; vm_compute; reflexivity].
Qed.

Lemma messages_items rsdp facp m k (P : Z → Prop) :
  m ∈ all_messages rsdp facp → is_u64 rsdp → is_u64 facp →
  Forall (item_ok fuel k) (m_items m) ∧ Forall (item_safe P) (m_items m).
Proof.
  intros Hm H1 H2. unfold all_messages, init_messages in Hm. cbn [app] in Hm. rewrite !elem_of_cons, elem_of_nil in Hm.
  destruct Hm as [->|[->|[->|[->|[->|[->|[->|[]]]]]]]];
    cbn [m_items enabling_message rsdp_message acpi2_message calling_message looking_message facp_message enabled_message];
    rewrite !Forall_cons, !Forall_nil; cbn [item_ok item_safe]; split_and!; try exact I; try assumption;
    apply plain_text_ok; vm_compute; reflexivity.
Qed.

Lemma messages_ready (h : Heap Paged) k rsdp facp m :
  heap_inv h [heap_seg] → heapStart h = 0x800000 ∧ heapEnd h = 0x900000 → idle k →
  screen_ready fb font k → (∀ a, 0x800000 <= a < 0x900000 → off_screen fb a) →
  image_ok (h_mem h) → is_u64 rsdp → is_u64 facp → 23400 <= Z.of_nat fuel → (200 <= n)%nat →
  m ∈ all_messages rsdp facp →
  ready_message ns tg fb font n fuel (im_lits im) acpiLogger h [heap_seg] k m.
Proof.
  intros Hi [E1 E2] Hid Hr Hz Him Hrs Hfa Hf Hn Hm.
  pose proof (messages_placed _ rsdp facp m Him Hm) as Hp. destruct (messages_small rsdp facp m Hm) as (S1 & S2 & S3).
  assert (∀ p s i, (p, s) ∈ zip (log_ptrs (im_lits im) acpiLogger (m_level m) (m_str m)) (m_strs ns tg m) →
    0 <= i <= Z.of_nat (length s) → stable fb (p + i)) as Hst.
  { intros p s i Hin Hi'. apply list_elem_of_lookup in Hin as (j & (Hj1 & Hj2)%lookup_zip_Some).
    destruct (Forall2_lookup_lr _ _ _ _ _ _ Hp Hj1 Hj2) as [_ Q _ _]. by apply Q. }
  split.
  - split; try done.
    + split; try done.
      * apply Forall_forall. intros p Hin. apply list_elem_of_lookup in Hin as (j & Hj).
        destruct (Forall2_lookup_l _ _ _ _ _ Hp Hj) as (s & _ & [_ _ Q _]). done.
      * eapply Forall2_impl; [exact Hp|]. intros p s [Q1 _ _ Q4]. by split.
      * intros p s i Hin Hi'. eapply stable_kept; [done|done|]. by eapply Hst.
      * exists heap_seg. split; [by apply elem_of_cons; left|]. split; [done|]. exact S2.
      * split; [|cbn; lia]. unfold search_fuel. rewrite E1, E2. change ((0x900000 - 0x800000) / 45) with 23301. lia.
    + intros a. rewrite E1, E2. apply Hz.
    + apply plain_text_ok. vm_compute. reflexivity.
    + exact (proj1 (messages_items rsdp facp m _ (λ _, True) Hm Hrs Hfa)).
    + exact (proj2 (messages_items rsdp facp m k _ Hm Hrs Hfa)).
    + split; [lia|]. unfold m_strs in S3. lia.
    + by destruct Him.
  - intros p s i Hin Hi'. by destruct (Hst p s i Hin Hi').
Qed.

(** The heap as the heap test leaves it. *)
Lemma messages_calm (h : Heap Paged) k rsdp facp ms :
  heap_inv h [heap_seg] → heapStart h = 0x800000 ∧ heapEnd h = 0x900000 → idle k →
  screen_ready fb font k → (∀ a, 0x800000 <= a < 0x900000 → off_screen fb a) →
  image_ok (h_mem h) → is_u64 rsdp → is_u64 facp → 23400 <= Z.of_nat fuel → (200 <= n)%nat →
  (∀ x, 0x800000 + OUTPUT <= x < 0x900000 → rd8 (h_mem h) x = 0) →
  (∀ m, m ∈ ms → m ∈ all_messages rsdp facp) →
  calm fb font n fuel (im_lits im) acpiLogger ns tg (all_messages rsdp facp) ms h 0x800000 (0x100000 - 29) k.
Proof.
  intros Hi Hr Hid Hsr Hz Him Hrs Hfa Hf Hn Hx Hms. split; [done|apply messages_compatible| | |].
  - intros m Hm. eapply messages_room. by apply Hms.
  - destruct Hr as [E1 E2]. split; [lia|]. intros x [Hq _] Hxr _ _. apply Hx. lia.
  - intros m Hm. by eapply messages_ready; [..|apply Hms].
Qed.
End Messages.

(** ** What the firmware has left in memory *)

(** The RSDP, at the physical address [pa], in the direct map of an entry of
    the memory map, in memory that is not usable. *)
Record rsdp_at (off : Z) (mm : limine_memmap_response) (rsdp pa : Z) : Prop := {
  ra_rsdp : rsdp = off + pa ∧ 0 <= off ∧ rsdp + 20 <= 2^64;
  ra_entry : ∃ e, e ∈ mm_entries mm ∧ e_type e ≠ LIMINE_MEMMAP_KERNEL_AND_MODULES ∧ e_base e mod 4096 = 0 ∧
    e_base e <= pa ∧ pa + 20 <= e_base e + e_length e;
  ra_aside a : pa <= a < pa + 20 → set_aside mm a
}.

Record firmware (off kv : Z) (mm : limine_memmap_response) (l : list (Z * Z)) (m : mem) (pa : Z) : Prop := {
  (** everything that is read lies in memory that is not usable *)
  fi_aside a : init_bytes m (rd32 m (pa + RSDP_RsdtAddress)) a → set_aside mm a;
  (** the tables have pages, can be mapped, and are not where the heap is *)
  fi_tables : tables_ok (plan_tables (boot_plan off kv (mm_entries mm) ++ l)) m (rd32 m (pa + RSDP_RsdtAddress));
  fi_fadt : the_facp m (rd32 m (pa + RSDP_RsdtAddress)) mod 4096 + 68 <= 4096;
  fi_apart v : 0x800000 <= v < 0x900000 → ¬ table_pages m (rd32 m (pa + RSDP_RsdtAddress)) (v / 4096)
}.

Section Firmware.
Context (off kv : Z) (mm : limine_memmap_response) (l : list (Z * Z)) (m : mem) (rsdp pa : Z).
Context (seg : limine_memmap_entry) (p : Pfa) (w0 : Machine) (hm : mem) (h0 : Heap Paged).
Hypothesis at_pa : rsdp_at off mm rsdp pa.
Hypothesis layout : boot_layout off kv (mm_entries mm).
Hypothesis HI : init_post mm off seg p.
Hypothesis up : memory_up off kv mm l m hm p w0 h0.
Let w := h_world h0.
Let rsdt := rd32 m (pa + RSDP_RsdtAddress).

Lemma aside_spared a : set_aside mm a → spared w a ∧ rd8 (ram w) a = rd8 m a.
Proof using HI up.
  intros Ha. apply (mu_spared _ _ _ _ _ _ _ _ _ up); [apply Ha|by eapply set_aside_allocated].
Qed.

Lemma rsdp_spared a : pa <= a < pa + 20 → rd8 (ram w) a = rd8 m a.
Proof using at_pa HI up. intros Ha. by apply aside_spared, (ra_aside _ _ _ _ at_pa). Qed.

Lemma rsdp_mapped j : 0 <= j < 20 → space w (rsdp + j) = Some (pa + j).
Proof using at_pa layout up.
  intros Hj. destruct (ra_rsdp _ _ _ _ at_pa) as (-> & H1 & H2).
  destruct (ra_entry _ _ _ _ at_pa) as (e & He & Ht & Hal & B1 & B2).
  pose proof (layout_entry _ _ _ layout e He) as [(? & ? & ?) ?].
  replace (off + pa + j) with (toVirt off (pa + j)) by (unfold toVirt; rewrite to_u64_id by (znorm; lia); lia).
  eapply memory_up_direct; try done. lia.
Qed.

Lemma rsdp_byte j : 0 <= j < 20 → load8 w (rsdp + j) = Done (rd8 m (pa + j)).
Proof using at_pa layout HI up.
  intros Hj. unfold load8. rewrite rsdp_mapped by done. f_equal. apply rsdp_spared. lia.
Qed.

Lemma rsdt_loaded : load32 w (rsdp + RSDP_RsdtAddress) = Done rsdt.
Proof using at_pa layout HI up.
  unfold RSDP_RsdtAddress in *. rewrite (loadN_at 4 w _ (pa + 16)).
  - f_equal. apply rdN_ext. intros a Ha. apply rsdp_spared. lia.
  - intros j Hj. rewrite <- !Z.add_assoc. apply rsdp_mapped. lia.
Qed.

Lemma rsdp_compared :
  ∃ c, mem_compare w rsdp (bytes_of_string "RSD PTR ") = Done c ∧
    (c = 0 ↔ (λ i, rd8 m (pa + i)) <$> seqZ 0 8 = bytes_of_string "RSD PTR ").
Proof using at_pa layout HI up.
  destruct (mem_compare_spec w rsdp pa (bytes_of_string "RSD PTR ")) as (c & E & Hc).
  { intros j Hj. apply rsdp_mapped. change (Z.of_nat _) with 8 in Hj. lia. }
  exists c. split; [done|]. rewrite Hc.
  assert ((∀ i x, bytes_of_string "RSD PTR " !! i = Some x → rd8 (ram w) (pa + Z.of_nat i) = x) ↔
    ∀ i x, bytes_of_string "RSD PTR " !! i = Some x → rd8 m (pa + Z.of_nat i) = x) as ->.
  { split; intros H i x Hx; pose proof (lookup_lt_Some _ _ _ Hx) as Hlt; change (length _) with 8%nat in Hlt;
      [rewrite <- (rsdp_spared (pa + Z.of_nat i) ltac:(lia))
      |rewrite (rsdp_spared (pa + Z.of_nat i) ltac:(lia))]; by apply H. }
  apply bytes_compare. done.
Qed.

Hypothesis fw : firmware off kv mm l m pa.

Lemma firmware_spared a : init_bytes m rsdt a → spared w a ∧ rd8 (ram w) a = rd8 m a.
Proof using fw HI up. intros Ha. by apply aside_spared, (fi_aside _ _ _ _ _ _ fw). Qed.

Lemma firmware_world : firmware_ok (plan_tables (boot_plan off kv (mm_entries mm) ++ l)) w rsdt 0x800000 0x900000.
Proof using fw HI up.
  assert (∀ a, init_bytes m rsdt a → rd8 (ram w) a = rd8 m a) as Hag.
  { intros a Ha. by apply firmware_spared. }
  pose proof (fi_tables _ _ _ _ _ _ fw) as Ht. fold rsdt in Ht. split.
  - by eapply agree_tables.
  - split; [apply (mu_supplied _ _ _ _ _ _ _ _ _ up)|done|]. intros a Ha.
    split; [|done]. apply firmware_spared. by eapply agree_bytes.
  - rewrite (agree_facp _ m (ram w) rsdt Ht Hag). apply (fi_fadt _ _ _ _ _ _ fw).
  - intros v Hv Hp. apply (fi_apart _ _ _ _ _ _ fw v Hv). by eapply agree_pages.
Qed.

Lemma firmware_facp : the_facp (ram w) rsdt = the_facp m rsdt.
Proof using fw HI up.
  eapply agree_facp; [apply (fi_tables _ _ _ _ _ _ fw)|]. intros a Ha. by apply firmware_spared.
Qed.

Lemma firmware_enable device past :
  the_facp m rsdt ≠ 0 → enable_ports device (ram w) (the_facp m rsdt) past = enable_ports device m (the_facp m rsdt) past.
Proof using fw HI up.
  intros Hne. assert (∀ o, 0 <= o < 68 → rd8 (ram w) (the_facp m rsdt + o) = rd8 m (the_facp m rsdt + o)) as Hrd.
  { intros o Ho. apply firmware_spared. right. split; [done|lia]. }
  unfold enable_ports, FADT_SMI_CommandPort, FADT_AcpiEnable, FADT_PM1aControlBlock. cbn zeta.
  assert (∀ o, 0 <= o <= 64 → rd32 (ram w) (the_facp m rsdt + o) = rd32 m (the_facp m rsdt + o)) as Hrd4.
  { intros o Ho. apply rdN_ext. intros a Ha. replace a with (the_facp m rsdt + (a - the_facp m rsdt)) by lia. apply Hrd. lia. }
  rewrite !Hrd4, Hrd by lia. done.
Qed.
End Firmware.

(** ** The region *)

Section Region.
Context (device : ports → Z → Z) (poll : nat) (fb : limine_framebuffer) (font : list Z) (tries n fuel : nat).
Context (r : responses) (im : image).
Hypothesis uart_ready : ∀ past, ready_within device poll past = true.
Hypothesis try_once : (1 <= tries)%nat.

(** The messages up to the check of the signature. *)
Definition greeting (rev rsdp : Z) : list message :=
  [enabling_message im; rsdp_message im rsdp] ++ (if rev =? 2 then [acpi2_message im] else []).

Definition texts_of (ms : list message) : list Z := concat (m_text ns tg <$> ms).

Abbreviation calm_for := (calm fb font n fuel (im_lits im) (acpiLogger im) ns tg).
Abbreviation logs := (logged fb font (acpiLogger im)).

(** Once the signature is compared. *)
Definition after_check (c rsdp : Z) (h : Heap Paged) (k : Console) : outcome (phase (Acpi * Heap Paged * Console)) :=
  if negb (c =? 0) then
    k ← panic device poll fb font fuel k (im_badrsdp im) (im_frames im).1 (im_frames im).2;
    Done (Halted k)
  else
    gRSDT ← load32 (h_world h) (rsdp + RSDP_RsdtAddress);
    '(h, k) ← Logger_info device poll fb font tries n fuel (im_lits im) (acpiLogger im) (im_calling im) [] h k;
    ACPI_init device poll fb font tries n fuel (im_lits im) (im_acpi im) gRSDT
      (im_init_frames im).1 (im_init_frames im).2 (acpiLogger im) acpi_boot h k.

Lemma greeting_logged all ms rev rsdp (h : Heap Paged) k c :
  rsdp_response r = Some rsdp → load8 (h_world h) (rsdp + RSDP_Revision) = Done rev →
  mem_compare (h_world h) rsdp (bytes_of_string "RSD PTR ") = Done c →
  calm_for all (greeting rev rsdp ++ ms) h 0x800000 (0x100000 - 29) k →
  ∃ h1 k1, start_acpi device poll font tries n fuel r im fb h k = after_check c rsdp h1 k1 ∧
    logs h [heap_seg] k (texts_of (greeting rev rsdp)) h1 k1 ∧
    calm_for all ms h1 0x800000 (0x100000 - 29) k1 ∧ h_world h1 = h_world h.
Proof using uart_ready try_once.
  intros Er Erev Ec Hca. unfold greeting in *. cbn [app] in Hca. unfold start_acpi. cbn zeta.
  destruct (calm_step device poll fb font tries n fuel _ _ ns tg uart_ready try_once _ _ _ _ _ _ _ Hca)
    as (h1 & k1 & E1 & D1 & C1 & W1).
  destruct (calm_step device poll fb font tries n fuel _ _ ns tg uart_ready try_once _ _ _ _ _ _ _ C1)
    as (h2 & k2 & E2 & D2 & C2 & W2).
  cbn [log_at m_level m_str m_items enabling_message rsdp_message] in E1, E2.
  change (args_of [Text _]) with (@nil Z) in E1. change (args_of _) with [rsdp] in E2.
  fold (acpiLogger im). rewrite E1, bind_Done, Er. cbn [or_undef].
  rewrite <- W1, <- W2 in Erev, Ec. rewrite bind_Done, E2, bind_Done, Erev, bind_Done.
  pose proof (logged_trans _ _ _ _ _ _ _ _ _ _ _ _ D1 D2) as D12. unfold texts_of.
  destruct (rev =? 2).
  - destruct (calm_step device poll fb font tries n fuel _ _ ns tg uart_ready try_once _ _ _ _ _ _ _ C2)
      as (h3 & k3 & E3 & D3 & C3 & W3).
    cbn [log_at m_level m_str m_items acpi2_message] in E3. change (args_of [Text _]) with (@nil Z) in E3.
    rewrite <- W3 in Ec. rewrite E3, bind_Done, Ec, bind_Done. exists h3, k3. split; [done|].
    pose proof (logged_trans _ _ _ _ _ _ _ _ _ _ _ _ D12 D3) as D.
    cbn [app fmap list_fmap concat]. rewrite app_nil_r, app_assoc. split; [exact D|]. split; [done|congruence].
  - rewrite bind_Done, Ec, bind_Done. exists h2, k2. split; [done|].
    cbn [app fmap list_fmap concat]. rewrite app_nil_r. split; [exact D12|]. split; [done|congruence].
Qed.

(** Everything in order: ACPI is enabled. *)
Lemma acpi_enables S all rev rsdp rsdt (h : Heap Paged) k :
  let l := [heap_seg] in
  let m := ram (h_world h) in
  let facp := the_facp m rsdt in
  rsdp_response r = Some rsdp → load8 (h_world h) (rsdp + RSDP_Revision) = Done rev →
  mem_compare (h_world h) rsdp (bytes_of_string "RSD PTR ") = Done 0 →
  load32 (h_world h) (rsdp + RSDP_RsdtAddress) = Done rsdt →
  firmware_ok S (h_world h) rsdt (heapStart h) (heapEnd h) → facp ≠ 0 → (1 <= fuel)%nat →
  calm_for all (greeting rev rsdp ++ calling_message im :: init_messages (im_acpi im) facp) h 0x800000 (0x100000 - 29) k →
  ∃ h1 k1 h' k',
    start_acpi device poll font tries n fuel r im fb h k = Done (Going (mkAcpi (Some (acpiLogger im)) facp, h', k')) ∧
    logs h l k (texts_of (greeting rev rsdp ++
      [calling_message im; looking_message (im_acpi im); facp_message (im_acpi im) facp])) h1 k1 ∧
    logs h1 l (with_ports k1 (enable_ports device m facp (k_ports k1)))
      (m_text ns tg (enabled_message (im_acpi im))) h' k' ∧
    mapped_more (table_pages m rsdt) (h_world h) (h_world h').
Proof using uart_ready try_once.
  intros l m facp Er Erev Ec Ert Hfw Hne Hf Hca.
  destruct (greeting_logged _ _ _ _ _ _ _ Er Erev Ec Hca) as (h1 & k1 & -> & D1 & C1 & W1).
  destruct (calm_step device poll fb font tries n fuel _ _ ns tg uart_ready try_once _ _ _ _ _ _ _ C1)
    as (h2 & k2 & E2 & D2 & C2 & W2).
  cbn [log_at m_level m_str m_items calling_message] in E2. change (args_of [Text _]) with (@nil Z) in E2.
  unfold after_check. cbn [Z.eqb negb]. rewrite W1, Ert, bind_Done, E2, bind_Done.
  assert (h_world h2 = h_world h) as W12 by congruence.
  destruct (ld_range _ _ _ _ _ _ _ _ _ D1) as [R1 R2]. destruct (ld_range _ _ _ _ _ _ _ _ _ D2) as [R3 R4].
  destruct (init_enabled device poll fb font tries n fuel (im_lits im) (im_acpi im) (acpiLogger im) ns tg S all
    h2 0x800000 (0x100000 - 29) k2 rsdt (im_init_frames im).1 (im_init_frames im).2 acpi_boot)
    as (h3 & k3 & h4 & k4 & -> & D3 & D4 & Hrp); try done.
  - apply (ld_inv _ _ _ _ _ _ _ _ _ D2).
  - by rewrite W12, R3, R4, R1, R2.
  - by rewrite W12.
  - by rewrite W12.
  - rewrite W12 in *. fold m in D3, D4 |- *. fold facp in D3, D4 |- *. exists h3, k3, h4, k4. split; [done|]. split; [|by split].
    pose proof (logged_trans _ _ _ _ _ _ _ _ _ _ _ _ D1 (logged_trans _ _ _ _ _ _ _ _ _ _ _ _ D2 D3)) as D.
    unfold texts_of in *. rewrite fmap_app, concat_app. cbn [fmap list_fmap concat]. by rewrite app_nil_r.
Qed.

(** Another signature: a panic. *)
Lemma acpi_refuses all rev rsdp c (h : Heap Paged) k :
  rsdp_response r = Some rsdp → load8 (h_world h) (rsdp + RSDP_Revision) = Done rev →
  mem_compare (h_world h) rsdp (bytes_of_string "RSD PTR ") = Done c → c ≠ 0 →
  calm_for all (greeting rev rsdp) h 0x800000 (0x100000 - 29) k →
  ∃ h1 k1,
    start_acpi device poll font tries n fuel r im fb h k =
      (k ← panic device poll fb font fuel k1 (im_badrsdp im) (im_frames im).1 (im_frames im).2; Done (Halted k)) ∧
    logs h [heap_seg] k (texts_of (greeting rev rsdp)) h1 k1.
Proof using uart_ready try_once.
  intros Er Erev Ec Hc Hca. rewrite <- (app_nil_r (greeting rev rsdp)) in Hca.
  destruct (greeting_logged _ _ _ _ _ _ _ Er Erev Ec Hca) as (h1 & k1 & -> & D1 & _).
  unfold after_check. destruct (Z.eqb_spec c 0); [done|]. cbn [negb]. by exists h1, k1.
Qed.
End Region.
