(* ===== verification/Kernel.v ===== *)
(** * kernel.cpp: the kernel boots

    The regions of [_start] one after the other: what a machine has to provide
    for the kernel to come up, what was sent to the serial line and where the
    terminal's cursor is by then, and where the kernel stops when something is
    missing. *)

From S2P Require Import Prelude Memory Bitmap MemUtils PageFrameAllocator PfaInit.
From S2P Require Import PageEntry PageSource Paging PagingLive Paged PageMapper BootPaging.
From S2P Require Import Heap HeapSpec HeapRefine HeapMalloc HeapGrow HeapClient HeapRun HeapFrame BootMemory MemorySamples.
From S2P Require Import CString PortIO Descriptors Framebuffer Console Kprintf Screen Output Layout StringBuilder.
From S2P Require Import Logger HeapTest LogSeq Panic BootLog ACPI AcpiInit Boot BootRun BootAcpi.

Section Kernel.
Context (device : ports → Z → Z) (poll : nat) (font : list Z) (tries n fuel : nat).
Context (r : responses) (im : image).

(** ** What a machine provides *)

(** The responses of the boot loader. *)
Record answered (fb : limine_framebuffer) (mm : limine_memmap_response) (off pb kv rsdp : Z) : Prop := {
  an_framebuffer : ∃ fbs, framebuffer_response r = Some (fb :: fbs);
  an_memmap : memmap_response r = Some mm;
  an_kaddr : kaddr_response r = Some (pb, kv);
  an_hhdm : hhdm_response r = Some off;
  an_rsdp : rsdp_response r = Some rsdp;
  an_u64 : is_u64 pb ∧ is_u64 kv ∧ is_u64 off ∧ is_u64 rsdp
}.

(** The kernel as it was loaded: its tables, and its memory at [k]. *)
Record loaded (fb : limine_framebuffer) (k : Console) : Prop := {
  lo_screen : screen_fits font fb;
  lo_idle : idle k;
  lo_terminal : gTerminal k = terminal_boot;
  lo_gdt : im_gdt im = defaultGDT ∧ is_u64 (im_tss im) ∧ is_u64 (im_gdt_local im);
  lo_idt : length (im_idt im) = 256%nat ∧ 0 <= im_handlers im ∧ im_handlers im + 4096 <= 2^64;
  lo_zone : heap_zone fb (k_mem k);
  lo_image : image_ok fb fuel im (k_mem k);
  lo_fuel : (1 <= tries)%nat ∧ 23400 <= Z.of_nat fuel ∧ (200 <= n)%nat
}.

(** The memory map, with memory for the page tables of the plan and of [l]. *)
Record mappable (mm : limine_memmap_response) (off kv : Z) (l : list (Z * Z)) (region : list Z) : Prop := {
  ma_boot : boot_ok mm region;
  ma_layout : boot_layout off kv (mm_entries mm);
  ma_memory : enough_memory_for l off kv mm
}.

(** The log up to "Init ACPI". *)
Definition setup_log (fb : limine_framebuffer) (mm : limine_memmap_response) (off pb kv v : Z)
    (seg : limine_memmap_entry) (p : Pfa) (w : Machine) (pl : list (Z * Z)) : lines :=
  terminal_log (Terminal_init fb terminal_boot) v ++ gdt_log (im_gdt_local im) ++
  memory_log mm off pb kv seg p ++ interrupts_log ++ paging_log (globalPageTable w) pl ++
  heap_log (mem_getFreeRAM (pfa w)) (next_frames 256 (pfa w)) 0x80001d.

(** The state there. *)
Record set_up (fb : limine_framebuffer) (mm : limine_memmap_response) (off pb kv : Z) (l : list (Z * Z)) (m : mem)
    (region : list Z) (k : Console) (v : Z) (seg : limine_memmap_entry) (p : Pfa) (w : Machine) (pl : list (Z * Z))
    (h : Heap Paged) (k' : Console) : Prop := {
  su_serial : v = 0 ∨ v = 1;
  su_allocator : mem_pageframeallocator_init pfa_boot mm off region = Done p ∧ init_post mm off seg p;
  su_paging : init_paging off kv mm m p = Done w;
  su_tables : pl.*1 = new_pdps (λ _, false) (boot_plan off kv (mm_entries mm));
  su_heap : heap_started off kv mm l m p w h k';
  su_told : told fb font (stable fb) (with_screen fb k) (setup_log fb mm off pb kv v seg p w pl) k'
}.

Hypothesis uart_ready : ∀ past, ready_within device poll past = true.

(** Everything but ACPI comes up. *)
Lemma boot_set_up fb mm off pb kv rsdp l m region k :
  answered fb mm off pb kv rsdp → loaded fb k → mappable mm off kv l region →
  ∃ gdt idt v seg p w pl h k',
    _start device poll font tries n fuel r im m region k =
      then_phase (start_acpi device poll font tries n fuel r im fb h k') (λ '(acpi, h, k),
        Done (Going (mkKernel fb gdt idt acpi h k))) ∧
    set_up fb mm off pb kv l m region k v seg p w pl h k'.
Proof using uart_ready.
  intros [(fbs & A1) A2 A3 A4 A5 (B1 & B2 & B3 & B4)] [L1 L2 L3 (G1 & G2 & G3) (I1 & I2 & I3) L6 L7 (F1 & F2 & F3)] [M1 M2 M3].
  assert (40 <= fuel)%nat as F40 by lia. unfold _start.
  destruct (start_terminal_spec device poll font fuel r uart_ready F40 fb fbs k A1 L1 L2 L3) as (x & -> & v & k1 & -> & Hv & T1).
  unfold then_phase at 1. rewrite bind_Done.
  destruct (start_gdt_spec device poll font fuel im uart_ready F40 fb _ _ k1 T1 G1 G2 G3) as ([[gdt d] k2] & -> & T2).
  rewrite bind_Done. destruct (paging_up l off kv mm m region M1 M2 M3) as (seg & p & w & Ep & HI & Ew & Hsup & Hsp).
  destruct (start_memory_spec device poll font fuel r im uart_ready F40 fb _ _ k2 mm off pb kv region seg p
    T2 A2 A3 A4 B1 B2 B3 M1 Ep HI) as (y & -> & k3 & -> & T3).
  unfold then_phase at 1. rewrite bind_Done.
  destruct (start_interrupts_spec device poll font fuel im uart_ready F40 fb _ _ k3 T3 I1 I2 I3) as ([idt k4] & -> & _ & T4).
  rewrite bind_Done. pose proof (bo_memmap _ _ M1) as Hmm. pose proof (ip_ok _ _ _ _ HI) as Hok.
  destruct (start_paging_spec device poll font fuel uart_ready F40 fb _ _ k4 mm off kv m p w T4 Hmm M2 Hok Ew)
    as ([w' k5] & -> & -> & pl & Epl & T5).
  rewrite bind_Done.
  destruct (start_heap_spec device poll font tries fuel im uart_ready F40 fb _ _ k5 off kv mm l m p w T5 Hmm M2 Hok Ew
    Hsup Hsp L6 (io_copyable _ _ _ _ L7) F1 F2) as ([h k6] & -> & Hh & T6).
  rewrite bind_Done. exists (gdt, d), idt, v, seg, p, w, pl, h, k6. split; [done|]. split; try done.
  unfold setup_log. rewrite <- !app_assoc in T6. exact T6.
Qed.

(** The memory of the image behind the heap test. *)
Lemma set_up_image fb mm off pb kv l m region k v seg p w pl h k' :
  set_up fb mm off pb kv l m region k v seg p w pl h k' → loaded fb k → image_ok fb fuel im (h_mem h).
Proof.
  clear uart_ready. intros [_ _ _ _ H5 H6] Hl. eapply image_agree; [|exact (lo_image _ _ Hl)]. intros a Ha.
  rewrite <- (hs_shared _ _ _ _ _ _ _ _ _ H5), (to_mem _ _ _ _ _ _ H6 a Ha). done.
Qed.

Lemma set_up_calm fb mm off pb kv rsdp l m region k v seg p w pl h k' facp ms :
  set_up fb mm off pb kv l m region k v seg p w pl h k' → loaded fb k → is_u64 rsdp → is_u64 facp →
  (∀ x, x ∈ ms → x ∈ all_messages im rsdp facp) →
  calm fb font n fuel (im_lits im) (acpiLogger im) ns tg (all_messages im rsdp facp) ms h 0x800000 (0x100000 - 29) k'.
Proof.
  clear uart_ready. intros Hs Hl Hr Hf Hms. pose proof Hs as [_ _ _ _ [G1 G2 G3 G4 G5] H6].
  destruct (lo_fuel _ _ Hl) as (F1 & F2 & F3).
  apply messages_calm; try done; [apply H6|apply H6|apply (lo_zone _ _ Hl)|by eapply set_up_image].
Qed.

Lemma logged_told fb lg (h h' : Heap Paged) k k' s :
  heapStart h = 0x800000 ∧ heapEnd h = 0x900000 → k_mem k = h_mem h →
  logged fb font lg h [heap_seg] k s h' k' → told fb font (stable fb) k [(target lg, s)] k'.
Proof.
  clear uart_ready. intros [E1 E2] Em [D1 D2 D3 [S1 S2 S3 S4 S5] D5]. split; try done.
  - cbn. by rewrite app_nil_r.
  - intros a Ha. rewrite D3, Em. apply D5; [by eapply stable_kept|apply Ha].
Qed.

(** The messages of "Init ACPI" before the enable command. *)
Definition acpi_messages (rev rsdp facp : Z) : list message :=
  greeting im rev rsdp ++ [calling_message im; looking_message (im_acpi im); facp_message (im_acpi im) facp].

Lemma acpi_messages_all rev rsdp facp x :
  x ∈ acpi_messages rev rsdp facp ++ [enabled_message (im_acpi im)] → x ∈ all_messages im rsdp facp.
Proof.
  unfold acpi_messages, greeting, all_messages, init_messages. destruct (rev =? 2); cbn [app];
    rewrite !elem_of_cons; tauto.
Qed.
End Kernel.


(** ** Where the kernel stops *)

(** A panic that can be reported: its message and the two stacks are in the
    memory [m]. *)
Record panic_placed (fb : limine_framebuffer) (fuel : nat) (m : mem) (msg : Z) (s : list Z) (frames : Z * Z) : Prop := {
  pp_text : placed fuel fb m msg s;
  pp_plain : Forall (λ c, c ≠ 36) s;
  pp_stack1 : stack_safe (stable fb) 16 m frames.1;
  pp_stack2 : stack_safe (stable fb) 16 m frames.2
}.

(** What a panic adds to the serial line and to the screen. *)
Record panicked (fb : limine_framebuffer) (m : mem) (s : list Z) (frames : Z * Z) (k k' : Console) : Prop := {
  pk_screen : plain (gTerminal k') = fold_left advance (panic_screen_text m s frames.2) (plain (gTerminal k));
  pk_sent : sent (k_ports k') = sent (k_ports k) ++ panic_serial_text m s frames.1 ++
    screen_log false (plain (gTerminal k)) (panic_screen_text m s frames.2)
}.

Lemma panic_told device poll font fuel fb k0 L k msg s frames :
  (∀ past, ready_within device poll past = true) → (22 <= fuel)%nat →
  told fb font (stable fb) k0 L k → panic_placed fb fuel (k_mem k0) msg s frames →
  returns (panic device poll fb font fuel k msg frames.1 frames.2) (panicked fb (k_mem k0) s frames k).
Proof.
  intros Hu Hf [T1 T2 T3 T4 T5] [P1 P2 P3 P4].
  destruct (placed_agree fuel fb _ _ _ _ T5 P1) as [Q1 Q2 Q3 Q4].
  destruct (stack_agree _ 16 _ _ _ T5 P3) as [W1 _]. destruct (stack_agree _ 16 _ _ _ T5 P4) as [W2 S2].
  destruct (panic_spec device poll fb font fuel k msg s frames.1 frames.2) as (k' & E & Ht & Hs); try done.
  - intros i Hi. by apply Q2.
  - eapply stack_safe_mono; [|exact S2]. by intros a [? _].
  - exists k'. split; [done|]. unfold stack_text in *. rewrite W2 in Ht, Hs. rewrite W1 in Hs.
    split; [done|]. unfold panic_serial_text. rewrite Hs, <- !app_assoc. done.
Qed.


(** Without a framebuffer the kernel stops before it has printed
    anything. *)
Theorem boot_without_framebuffer device poll font tries n fuel r im m region k :
  framebuffer_response r = None ∨ framebuffer_response r = Some [] →
  _start device poll font tries n fuel r im m region k = Done (Halted k).
Proof. intros [E|E]; unfold _start, start_terminal; by rewrite E. Qed.

(** C37: without a memory map the kernel stops.  On a machine whose boot loader
    gives a framebuffer and no memory map, the serial line gets the lines about
    the terminal, the serial port and the GDT that go there, the cursor moves
    over those for the terminal, and then the panic "No memory map!" with its
    traces follows on both; no allocator, page table or heap is set up. *)
Theorem boot_without_memmap device poll font tries n fuel r im fb fbs m region k :
  let missing := bytes_of_string "No memory map!" in
  (∀ past, ready_within device poll past = true) →
  framebuffer_response r = Some (fb :: fbs) → memmap_response r = None → loaded font tries n fuel im fb k →
  panic_placed fb fuel (k_mem k) (im_nomap im) missing (im_frames im) →
  ∃ v k1 k',
    _start device poll font tries n fuel r im m region k = Done (Halted k') ∧ (v = 0 ∨ v = 1) ∧
    told fb font (stable fb) (with_screen fb k)
      (terminal_log (Terminal_init fb terminal_boot) v ++ gdt_log (im_gdt_local im)) k1 ∧
    panicked fb (k_mem k) missing (im_frames im) k1 k'.
Proof.
  intros missing Hu A1 A2 [L1 L2 L3 (G1 & G2 & G3) _ _ _ (F1 & F2 & F3)] Hp.
  assert (40 <= fuel)%nat as F40 by lia. unfold _start.
  destruct (start_terminal_spec device poll font fuel r Hu F40 fb fbs k A1 L1 L2 L3) as (x & -> & v & k1 & -> & Hv & T1).
  unfold then_phase at 1. rewrite bind_Done.
  destruct (start_gdt_spec device poll font fuel im Hu F40 fb _ _ k1 T1 G1 G2 G3) as ([[gdt d] k2] & -> & T2).
  rewrite bind_Done. pose proof (told_mono _ _ _ (stable fb) _ _ _ ltac:(by intros a [? _]) T2) as T.
  destruct (panic_told device poll font fuel fb _ _ k2 (im_nomap im) missing (im_frames im) Hu ltac:(lia) T Hp)
    as (k' & E & Hk). unfold start_memory. rewrite A2, E. unfold then_phase. rewrite !bind_Done.
  exists v, k2, k'. done.
Qed.
