(* ===== verification/Responses.v ===== *)
(** * kernel.cpp: the requests and their responses in memory

    The five requests of the kernel as objects of its image, what the boot
    loader makes of them, and the reads by which the kernel gets at the
    responses: member by member, at the offsets of limine.h.  Boot.v takes the
    responses as values; here they are read from memory. *)

From S2P Require Import Prelude Memory MemUtils PageFrameAllocator PageMapper Heap Framebuffer Console Panic.
From S2P Require Import Layout Objects Limine Boot.

(** ** Reading *)

(** [f i], [f (i + 1)], ... *)
Fixpoint each {A} (f : Z → outcome A) (n : nat) (i : Z) : outcome (list A) :=
  match n with
  | O => Done []
  | S n => x ← f i; l ← each f n (i + 1); Done (x :: l)
  end.

Section Read.
Context (m : mem).

(** [*framebuffers[i]] *)
Definition read_framebuffer (p : Z) : outcome limine_framebuffer :=
  address ← member framebuffer_struct "address" m p;
  width ← member framebuffer_struct "width" m p;
  height ← member framebuffer_struct "height" m p;
  pitch ← member framebuffer_struct "pitch" m p;
  bpp ← member framebuffer_struct "bpp" m p;
  Done (mkFramebuffer address width height pitch bpp).

Definition read_entry (p : Z) : outcome limine_memmap_entry :=
  base ← member memmap_entry_struct "base" m p;
  length ← member memmap_entry_struct "length" m p;
  type ← member memmap_entry_struct "type" m p;
  Done (mkEntry base length type).

(** [framebuffer_request.response], null or with the framebuffers it counts *)
Definition read_framebuffers (request : Z) : outcome (option (list limine_framebuffer)) :=
  response ← member limine_framebuffer_request "response" m request;
  if response =? 0 then Done None
  else
    framebuffer_count ← member limine_framebuffer_response "framebuffer_count" m response;
    framebuffers ← member limine_framebuffer_response "framebuffers" m response;
    l ← each (λ i, read_framebuffer (rd64 m (framebuffers + 8 * i))) (Z.to_nat framebuffer_count) 0;
    Done (Some l).

(** [*memmap_request.response], with the entries [( *memmap.entries)[i]] *)
Definition read_memmap (request : Z) : outcome (option limine_memmap_response) :=
  response ← member limine_memmap_request "response" m request;
  if response =? 0 then Done None
  else
    revision ← member memmap_response_struct "revision" m response;
    entry_count ← member memmap_response_struct "entry_count" m response;
    entries ← member memmap_response_struct "entries" m response;
    l ← each (λ i, read_entry (rd64 m entries + sizeof memmap_entry_struct * i)) (Z.to_nat entry_count) 0;
    Done (Some (mkMemmap revision entry_count l)).

(** [hhdm_request.response->offset] *)
Definition read_hhdm (request : Z) : outcome (option Z) :=
  response ← member limine_hhdm_request "response" m request;
  if response =? 0 then Done None
  else offset ← member limine_hhdm_response "offset" m response; Done (Some offset).

(** [kaddr_request.response->physical_base] and [->virtual_base] *)
Definition read_kaddr (request : Z) : outcome (option (Z * Z)) :=
  response ← member limine_kernel_address_request "response" m request;
  if response =? 0 then Done None
  else
    physical_base ← member limine_kernel_address_response "physical_base" m response;
    virtual_base ← member limine_kernel_address_response "virtual_base" m response;
    Done (Some (physical_base, virtual_base)).

(** [rsdp_request.response->address] *)
Definition read_rsdp (request : Z) : outcome (option Z) :=
  response ← member limine_rsdp_request "response" m request;
  if response =? 0 then Done None
  else address ← member limine_rsdp_response "address" m response; Done (Some address).
End Read.

(** The addresses of the five requests. *)
Record requests := mkRequests {
  framebuffer_request : Z;
  memmap_request : Z;
  hhdm_request : Z;
  kaddr_request : Z;
  rsdp_request : Z
}.

Definition read_responses (m : mem) (q : requests) : outcome responses :=
  fbs ← read_framebuffers m (framebuffer_request q);
  memmap ← read_memmap m (memmap_request q);
  hhdm ← read_hhdm m (hhdm_request q);
  kaddr ← read_kaddr m (kaddr_request q);
  rsdp ← read_rsdp m (rsdp_request q);
  Done (mkResponses fbs memmap hhdm kaddr rsdp).

(** ** The requests, and the answers to them *)

(** Where the loader has put a response to each request; zero, none. *)
Record pointers := mkPointers { p_framebuffer : Z; p_memmap : Z; p_hhdm : Z; p_kaddr : Z; p_rsdp : Z }.

(** [static volatile struct ... request = { .id = ..., .revision = 0 }], with
    the pointer that the loader has written. *)
Definition request_objects (q : requests) (p : pointers) : list object :=
  [mkObject (framebuffer_request q) limine_framebuffer_request (LIMINE_FRAMEBUFFER_REQUEST ++ [0; p_framebuffer p]);
   mkObject (memmap_request q) limine_memmap_request (LIMINE_MEMMAP_REQUEST ++ [0; p_memmap p]);
   mkObject (hhdm_request q) limine_hhdm_request (LIMINE_HHDM_REQUEST ++ [0; p_hhdm p]);
   mkObject (kaddr_request q) limine_kernel_address_request (LIMINE_KERNEL_ADDRESS_REQUEST ++ [0; p_kaddr p]);
   mkObject (rsdp_request q) limine_rsdp_request (LIMINE_RSDP_REQUEST ++ [0; p_rsdp p])].

(** What the loader has to say. *)
Record answers := mkAnswers {
  an_revision : Z;
  (** each framebuffer, with the values of the members behind [bpp] *)
  an_framebuffers : list (limine_framebuffer * list Z);
  an_map : limine_memmap_response;
  an_offset : Z;
  an_bases : Z * Z;
  an_address : Z
}.

(** The arrays of pointers and where these point to. *)
Record arrays := mkArrays { ar_framebuffers : Z; ar_fbs : list Z; ar_entries : Z; ar_es : list Z }.

Definition framebuffer_object (p : Z) (x : limine_framebuffer * list Z) : object :=
  mkObject p framebuffer_struct ([fb_address x.1; fb_width x.1; fb_height x.1; fb_pitch x.1; fb_bpp x.1] ++ x.2).
Definition entry_object (p : Z) (e : limine_memmap_entry) : object :=
  mkObject p memmap_entry_struct [e_base e; e_length e; e_type e].

Definition response_objects (p : pointers) (ar : arrays) (a : answers) : list object :=
  [mkObject (p_framebuffer p) limine_framebuffer_response
     [an_revision a; Z.of_nat (length (an_framebuffers a)); ar_framebuffers ar];
   mkObject (ar_framebuffers ar) (Array ptr_t (Z.of_nat (length (ar_fbs ar)))) (ar_fbs ar);
   mkObject (p_memmap p) memmap_response_struct
     [mm_revision (an_map a); mm_entry_count (an_map a); ar_entries ar];
   mkObject (ar_entries ar) (Array ptr_t (Z.of_nat (length (ar_es ar)))) (ar_es ar);
   mkObject (p_hhdm p) limine_hhdm_response [an_revision a; an_offset a];
   mkObject (p_kaddr p) limine_kernel_address_response [an_revision a; (an_bases a).1; (an_bases a).2];
   mkObject (p_rsdp p) limine_rsdp_response [an_revision a; an_address a]] ++
  zip_with framebuffer_object (ar_fbs ar) (an_framebuffers a) ++
  zip_with entry_object (ar_es ar) (mm_entries (an_map a)).

Definition answered_objects (q : requests) (p : pointers) (ar : arrays) (a : answers) : list object :=
  request_objects q p ++ response_objects p ar a.

(** Values that fit their members. *)
Definition framebuffer_fits (fb : limine_framebuffer) : Prop :=
  is_u64 (fb_address fb) ∧ is_u64 (fb_width fb) ∧ is_u64 (fb_height fb) ∧ is_u64 (fb_pitch fb) ∧ 0 <= fb_bpp fb < 2^16.
Definition entry_fits (e : limine_memmap_entry) : Prop := is_u64 (e_base e) ∧ is_u64 (e_length e) ∧ is_u64 (e_type e).

Record well_answered (q : requests) (p : pointers) (ar : arrays) (a : answers) : Prop := {
  wa_disjoint : disjoint (answered_objects q p ar a);
  wa_pointers : Forall (λ x, x ≠ 0 ∧ is_u64 x) [p_framebuffer p; p_memmap p; p_hhdm p; p_kaddr p; p_rsdp p];
  wa_arrays : Forall is_u64 (ar_framebuffers ar :: ar_entries ar :: ar_fbs ar ++ ar_es ar);
  wa_counts : length (ar_fbs ar) = length (an_framebuffers a) ∧ length (ar_es ar) = length (mm_entries (an_map a)) ∧
    mm_entry_count (an_map a) = Z.of_nat (length (mm_entries (an_map a)));
  wa_counts_fit : is_u64 (Z.of_nat (length (an_framebuffers a))) ∧ is_u64 (mm_entry_count (an_map a));
  wa_framebuffers : Forall (λ x, framebuffer_fits x.1) (an_framebuffers a);
  wa_entries : Forall entry_fits (mm_entries (an_map a));
  wa_values : Forall is_u64 [mm_revision (an_map a); an_offset a; (an_bases a).1; (an_bases a).2; an_address a]
}.

(** The entries lie one behind the other, as [( *entries)[i]] has it. *)
Definition contiguous (es : list Z) : Prop :=
  ∀ i x y, es !! 0%nat = Some x → es !! i = Some y → y = x + sizeof memmap_entry_struct * Z.of_nat i.

(** ** What the kernel reads is what was written *)

Lemma each_spec {A} (f : Z → outcome A) l i :
  (∀ j x, l !! j = Some x → f (i + Z.of_nat j) = Done x) → each f (length l) i = Done l.
Proof.
  revert i. induction l as [|x l IH]; intros i H; [done|]. cbn [length each].
  pose proof (H 0%nat x eq_refl) as H0. rewrite Z.add_0_r in H0. rewrite H0, bind_Done, IH; [done|].
  intros j y Hj. rewrite <- (H (S j) y Hj). f_equal. lia.
Qed.

Lemma member_at os m t p vs name i w v :
  well_typed os → disjoint os → mkObject p t vs ∈ os → cell_index t name = Some (i, w) → vs !! i = Some v →
  0 <= v < 2^(8 * w) → member t name (write_objects os m) p = Done v.
Proof. intros. by apply (member_written os m (mkObject p t vs) name i w v). Qed.

Lemma pointer_at os m p vs i v :
  well_typed os → disjoint os → mkObject p (Array ptr_t (Z.of_nat (length vs))) vs ∈ os → vs !! i = Some v →
  is_u64 v → rd64 (write_objects os m) (p + 8 * Z.of_nat i) = v.
Proof.
  intros Hw Hd Hin Hv Hr.
  pose proof (write_objects_read os m _ i (8 * Z.of_nat i) 8 v Hw Hd Hin) as H. cbn [ob_addr ob_type ob_values] in H.
  change (Z.to_nat 8) with 8%nat in H. rewrite H; [by apply Z.mod_small| |done].
  cbn [cells sizeof]. pose proof (lookup_lt_Some _ _ _ Hv) as Hi.
  assert (∀ l, concat ((λ j, [(0 + j * 8, 8)]) <$> l) = (λ j, (8 * j, 8)) <$> l) as ->.
  { induction l as [|j l IH]; [done|]. cbn [fmap list_fmap concat app]. f_equal; [f_equal; lia|apply IH]. }
  rewrite list_lookup_fmap, lookup_seqZ_lt by lia. done.
Qed.

Section Correct.
Context (q : requests) (p : pointers) (ar : arrays) (a : answers) (m : mem).
Hypothesis ok : well_answered q p ar a.
Let os := answered_objects q p ar a.
Let M := write_objects os m.

Lemma answered_typed : well_typed os.
Proof.
  apply Forall_app. split; [by repeat constructor|]. apply Forall_app. split.
  - repeat (constructor; [cbn; rewrite ?andb_true_r; try apply Z.leb_le; (done || lia)|]). constructor.
  - apply Forall_app. split; apply Forall_forall; intros o Ho; apply elem_of_lookup_zip_with in Ho as (i & x & y & -> & _ & _); done.
Qed.

Local Lemma has_request o : o ∈ request_objects q p → o ∈ os.
Proof. intros. apply elem_of_app. by left. Qed.
Local Lemma has_response o : o ∈ response_objects p ar a → o ∈ os.
Proof. intros. apply elem_of_app. by right. Qed.

Ltac listed := first
  [apply has_request; unfold request_objects; rewrite !elem_of_cons; tauto
  |apply has_response; unfold response_objects; cbn [app]; rewrite !elem_of_cons; tauto].

(** [member] of an object of the answers *)
Ltac read_member t at_ vs name i w v :=
  rewrite (member_at os m t at_ vs name i w v answered_typed (wa_disjoint _ _ _ _ ok) ltac:(listed)
    ltac:(vm_compute; reflexivity) eq_refl).

Lemma framebuffer_read i x y :
  ar_fbs ar !! i = Some x → an_framebuffers a !! i = Some y → read_framebuffer M x = Done y.1.
Proof using ok.
  intros Hx Hy. pose proof answered_typed as Hw. pose proof (wa_disjoint _ _ _ _ ok) as Hd.
  pose proof (wa_framebuffers _ _ _ _ ok) as Hf. rewrite Forall_lookup in Hf. destruct (Hf i y Hy) as (F1 & F2 & F3 & F4 & F5).
  assert (framebuffer_object x y ∈ os) as Hin.
  { apply has_response. apply elem_of_app. right. apply elem_of_app. left. apply elem_of_lookup_zip_with. eauto 8. }
  unfold framebuffer_object in Hin. unfold read_framebuffer, M.
  rewrite (member_at os m _ _ _ "address" 0 8 (fb_address y.1) Hw Hd Hin eq_refl eq_refl F1), bind_Done.
  rewrite (member_at os m _ _ _ "width" 1 8 (fb_width y.1) Hw Hd Hin eq_refl eq_refl F2), bind_Done.
  rewrite (member_at os m _ _ _ "height" 2 8 (fb_height y.1) Hw Hd Hin eq_refl eq_refl F3), bind_Done.
  rewrite (member_at os m _ _ _ "pitch" 3 8 (fb_pitch y.1) Hw Hd Hin eq_refl eq_refl F4), bind_Done.
  rewrite (member_at os m _ _ _ "bpp" 4 2 (fb_bpp y.1) Hw Hd Hin eq_refl eq_refl F5), bind_Done.
  by destruct y as [[] ?].
Qed.

Lemma entry_read i x e :
  ar_es ar !! i = Some x → mm_entries (an_map a) !! i = Some e → read_entry M x = Done e.
Proof using ok.
  intros Hx He. pose proof answered_typed as Hw. pose proof (wa_disjoint _ _ _ _ ok) as Hd.
  pose proof (wa_entries _ _ _ _ ok) as Hf. rewrite Forall_lookup in Hf. destruct (Hf i e He) as (F1 & F2 & F3).
  assert (entry_object x e ∈ os) as Hin.
  { apply has_response. apply elem_of_app. right. apply elem_of_app. right. apply elem_of_lookup_zip_with. eauto 8. }
  unfold entry_object in Hin. unfold read_entry, M.
  rewrite (member_at os m _ _ _ "base" 0 8 (e_base e) Hw Hd Hin eq_refl eq_refl F1), bind_Done.
  rewrite (member_at os m _ _ _ "length" 1 8 (e_length e) Hw Hd Hin eq_refl eq_refl F2), bind_Done.
  rewrite (member_at os m _ _ _ "type" 2 8 (e_type e) Hw Hd Hin eq_refl eq_refl F3), bind_Done.
  by destruct e.
Qed.

(** The framebuffers, through their array of pointers. *)
Lemma framebuffers_read : read_framebuffers M (framebuffer_request q) = Done (Some (an_framebuffers a).*1).
Proof using ok.
  destruct (wa_counts _ _ _ _ ok) as (C1 & _ & _). destruct (wa_counts_fit _ _ _ _ ok) as [C4 _].
  pose proof (wa_pointers _ _ _ _ ok) as [[P1 P2] _]%Forall_cons.
  pose proof (wa_arrays _ _ _ _ ok) as [A1 [_ [A2 _]%Forall_app]%Forall_cons]%Forall_cons.
  unfold read_framebuffers, M.
  read_member limine_framebuffer_request (framebuffer_request q) (LIMINE_FRAMEBUFFER_REQUEST ++ [0; p_framebuffer p])
    "response" 5%nat 8 (p_framebuffer p); [|exact P2]. rewrite bind_Done. destruct (Z.eqb_spec (p_framebuffer p) 0); [done|].
  read_member limine_framebuffer_response (p_framebuffer p)
    [an_revision a; Z.of_nat (length (an_framebuffers a)); ar_framebuffers ar]
    "framebuffer_count" 1%nat 8 (Z.of_nat (length (an_framebuffers a))); [|exact C4]. rewrite bind_Done.
  read_member limine_framebuffer_response (p_framebuffer p)
    [an_revision a; Z.of_nat (length (an_framebuffers a)); ar_framebuffers ar]
    "framebuffers" 2%nat 8 (ar_framebuffers ar); [|exact A1]. rewrite bind_Done.
  rewrite Nat2Z.id, <- (length_fmap fst (an_framebuffers a)), each_spec, bind_Done; [done|].
  intros j fb Hj. apply list_lookup_fmap_Some in Hj as (y & -> & Hy).
  destruct (lookup_lt_is_Some_2 (ar_fbs ar) j) as [x Hx]; [rewrite C1; by eapply lookup_lt_Some|].
  rewrite Z.add_0_l, (pointer_at os m _ (ar_fbs ar) j x answered_typed (wa_disjoint _ _ _ _ ok)); [|listed|done|].
  - by eapply framebuffer_read.
  - rewrite Forall_lookup in A2. by eapply A2.
Qed.

(** The memory map, when the entries are contiguous. *)
Lemma memmap_read : contiguous (ar_es ar) → read_memmap M (memmap_request q) = Done (Some (an_map a)).
Proof using ok.
  intros Hc. destruct (wa_counts _ _ _ _ ok) as (_ & C2 & C3). destruct (wa_counts_fit _ _ _ _ ok) as [_ C5].
  pose proof (wa_pointers _ _ _ _ ok) as [_ [[P1 P2] _]%Forall_cons]%Forall_cons.
  pose proof (wa_arrays _ _ _ _ ok) as [_ [A1 [_ A2]%Forall_app]%Forall_cons]%Forall_cons.
  pose proof (wa_values _ _ _ _ ok) as [V1 _]%Forall_cons. unfold read_memmap, M.
  read_member limine_memmap_request (memmap_request q) (LIMINE_MEMMAP_REQUEST ++ [0; p_memmap p])
    "response" 5%nat 8 (p_memmap p); [|exact P2]. rewrite bind_Done. destruct (Z.eqb_spec (p_memmap p) 0); [done|].
  read_member memmap_response_struct (p_memmap p) [mm_revision (an_map a); mm_entry_count (an_map a); ar_entries ar]
    "revision" 0%nat 8 (mm_revision (an_map a)); [|exact V1]. rewrite bind_Done.
  read_member memmap_response_struct (p_memmap p) [mm_revision (an_map a); mm_entry_count (an_map a); ar_entries ar]
    "entry_count" 1%nat 8 (mm_entry_count (an_map a)); [|exact C5]. rewrite bind_Done.
  read_member memmap_response_struct (p_memmap p) [mm_revision (an_map a); mm_entry_count (an_map a); ar_entries ar]
    "entries" 2%nat 8 (ar_entries ar); [|exact A1]. rewrite bind_Done.
  rewrite C3, Nat2Z.id, each_spec, bind_Done; [by destruct (an_map a); cbn in *; subst|].
  intros j e He. destruct (lookup_lt_is_Some_2 (ar_es ar) j) as [x Hx]; [rewrite C2; by eapply lookup_lt_Some|].
  destruct (lookup_lt_is_Some_2 (ar_es ar) 0) as [x0 Hx0]; [apply lookup_lt_Some in Hx; lia|].
  pose proof (pointer_at os m (ar_entries ar) (ar_es ar) 0 x0 answered_typed (wa_disjoint _ _ _ _ ok) ltac:(listed) Hx0)
    as Hp. rewrite Z.mul_0_r, Z.add_0_r in Hp. rewrite Hp by (rewrite Forall_lookup in A2; by eapply A2).
  rewrite Z.add_0_l, <- (Hc j x0 x Hx0 Hx). by eapply entry_read.
Qed.

Lemma hhdm_read : read_hhdm M (hhdm_request q) = Done (Some (an_offset a)).
Proof using ok.
  pose proof (wa_pointers _ _ _ _ ok) as Hp. pose proof (wa_values _ _ _ _ ok) as Hv.
  rewrite !Forall_cons in Hp, Hv. destruct Hp as (_ & _ & [P1 P2] & _), Hv as (_ & V1 & _). unfold read_hhdm, M.
  read_member limine_hhdm_request (hhdm_request q) (LIMINE_HHDM_REQUEST ++ [0; p_hhdm p])
    "response" 5%nat 8 (p_hhdm p); [|exact P2]. rewrite bind_Done. destruct (Z.eqb_spec (p_hhdm p) 0); [done|].
  read_member limine_hhdm_response (p_hhdm p) [an_revision a; an_offset a] "offset" 1%nat 8 (an_offset a); [done|exact V1].
Qed.

Lemma kaddr_read : read_kaddr M (kaddr_request q) = Done (Some (an_bases a)).
Proof using ok.
  pose proof (wa_pointers _ _ _ _ ok) as Hp. pose proof (wa_values _ _ _ _ ok) as Hv.
  rewrite !Forall_cons in Hp, Hv. destruct Hp as (_ & _ & _ & [P1 P2] & _), Hv as (_ & _ & V1 & V2 & _).
  unfold read_kaddr, M.
  read_member limine_kernel_address_request (kaddr_request q) (LIMINE_KERNEL_ADDRESS_REQUEST ++ [0; p_kaddr p])
    "response" 5%nat 8 (p_kaddr p); [|exact P2]. rewrite bind_Done. destruct (Z.eqb_spec (p_kaddr p) 0); [done|].
  read_member limine_kernel_address_response (p_kaddr p) [an_revision a; (an_bases a).1; (an_bases a).2]
    "physical_base" 1%nat 8 (an_bases a).1; [|exact V1]. rewrite bind_Done.
  read_member limine_kernel_address_response (p_kaddr p) [an_revision a; (an_bases a).1; (an_bases a).2]
    "virtual_base" 2%nat 8 (an_bases a).2; [|exact V2]. rewrite bind_Done. by destruct (an_bases a).
Qed.

Lemma rsdp_read : read_rsdp M (rsdp_request q) = Done (Some (an_address a)).
Proof using ok.
  pose proof (wa_pointers _ _ _ _ ok) as Hp. pose proof (wa_values _ _ _ _ ok) as Hv.
  rewrite !Forall_cons in Hp, Hv. destruct Hp as (_ & _ & _ & _ & [P1 P2] & _), Hv as (_ & _ & _ & _ & V1 & _).
  unfold read_rsdp, M.
  read_member limine_rsdp_request (rsdp_request q) (LIMINE_RSDP_REQUEST ++ [0; p_rsdp p])
    "response" 5%nat 8 (p_rsdp p); [|exact P2]. rewrite bind_Done. destruct (Z.eqb_spec (p_rsdp p) 0); [done|].
  read_member limine_rsdp_response (p_rsdp p) [an_revision a; an_address a] "address" 1%nat 8 (an_address a);
    [done|exact V1].
Qed.
End Correct.

(** C15: the kernel gets what the boot loader wrote.  However the loader places
    its responses, the arrays of pointers and the objects these point to in
    memory, as long as nothing overlaps and the entries of the memory map lie
    one behind the other: what the kernel reads, through the pointers in its
    requests and at the offsets of the header, are the framebuffers, the memory
    map and the addresses that were answered. *)
Theorem responses_read q p ar a m :
  well_answered q p ar a → contiguous (ar_es ar) →
  read_responses (write_objects (answered_objects q p ar a) m) q =
    Done (mkResponses (Some (an_framebuffers a).*1) (Some (an_map a)) (Some (an_offset a)) (Some (an_bases a))
      (Some (an_address a))).
Proof.
  intros Hok Hc. unfold read_responses.
  rewrite (framebuffers_read q p ar a m Hok), bind_Done, (memmap_read q p ar a m Hok Hc), bind_Done.
  rewrite (hhdm_read q p ar a m Hok), bind_Done, (kaddr_read q p ar a m Hok), bind_Done, (rsdp_read q p ar a m Hok).
  done.
Qed.

(** ** Without answers *)

(** The requests as they are in the image. *)
Definition no_pointers : pointers := mkPointers 0 0 0 0 0.

Lemma requests_typed q p : well_typed (request_objects q p).
Proof. by repeat constructor. Qed.

Lemma unanswered_read q m :
  disjoint (request_objects q no_pointers) →
  read_responses (write_objects (request_objects q no_pointers) m) q = Done (mkResponses None None None None None).
Proof.
  intros Hd. unfold read_responses, read_framebuffers, read_memmap, read_hhdm, read_kaddr, read_rsdp.
  assert (∀ o, o ∈ request_objects q no_pointers →
    member (ob_type o) "response" (write_objects (request_objects q no_pointers) m) (ob_addr o) = Done 0) as H.
  { intros o Ho. apply (member_written _ m o "response" 5 8 0 (requests_typed _ _) Hd Ho);
      unfold request_objects in Ho; rewrite !elem_of_cons, elem_of_nil in Ho;
      [| |lia]; destruct Ho as [->|[->|[->|[->|[->|[]]]]]]; vm_compute; reflexivity. }
  unfold request_objects in H at 1. rewrite <- Forall_forall, !Forall_cons in H. cbn [ob_type ob_addr] in H.
  destruct H as (-> & -> & -> & -> & -> & _). done.
Qed.

(** A kernel whose requests nobody has answered stops before it touches
    anything. *)
Theorem unanswered_halts device poll font tries n fuel im q m region k :
  disjoint (request_objects q no_pointers) →
  (r ← read_responses (write_objects (request_objects q no_pointers) m) q;
   _start device poll font tries n fuel r im m region k) = Done (Halted k).
Proof. intros Hd. by rewrite unanswered_read. Qed.

(** ** Entries that do not lie one behind the other *)

Definition gap_requests : requests := mkRequests 0x100 0x140 0x180 0x1c0 0x200.
Definition gap_pointers : pointers := mkPointers 0x300 0x320 0x340 0x360 0x380.
Definition gap_arrays : arrays := mkArrays 0x3a0 [0x400] 0x3c0 [0x500; 0x540].
Definition gap_answers : answers :=
  mkAnswers 0 [(mkFramebuffer 0x400000 64 48 256 32, [])]
    (mkMemmap 0 2 [mkEntry 0x1000 0x9f000 0; mkEntry 0x100000 0x700000 0]) 0xffff800000000000
    (0x200000, 0xffffffff80000000) 0xe0000.

Lemma gap_well_answered : well_answered gap_requests gap_pointers gap_arrays gap_answers.
Proof.
  split.
  - apply (bool_decide_unpack _). vm_compute. exact I.
  - repeat constructor; vm_compute; discriminate.
  - apply u64_list. vm_compute. reflexivity.
  - done.
  - split; vm_compute; split; [discriminate|reflexivity|discriminate|reflexivity].
  - repeat constructor; vm_compute; discriminate.
  - repeat constructor; vm_compute; discriminate.
  - apply u64_list. vm_compute. reflexivity.
Qed.

(** The entries of the memory map are not read through their pointers.
    The header declares an array of pointers to entries; the kernel follows the
    first pointer and takes the others from behind its target.  An answer that
    places its entries apart is correct by the header, and the kernel sees an
    entry of nothing in place of the second one. *)
Theorem memmap_gap_misread :
  well_answered gap_requests gap_pointers gap_arrays gap_answers ∧
  read_memmap (write_objects (answered_objects gap_requests gap_pointers gap_arrays gap_answers) ∅)
    (memmap_request gap_requests) =
  Done (Some (mkMemmap 0 2 [mkEntry 0x1000 0x9f000 0; mkEntry 0 0 0])).
Proof. split; [exact gap_well_answered|]. vm_compute. reflexivity. Qed.
