(* ===== verification/KernelSample.v ===== *)
(** * Example: a machine with 3 MiB that boots

    The memory map of BootPaging.v, the tables of ACPI.v in its reserved
    entry with an RSDP behind them, a screen of eight columns and two lines in
    the direct map of that entry, and the kernel's literals in its pages. *)

From S2P Require Import Prelude Memory Bitmap MemUtils PageFrameAllocator PfaInit.
From S2P Require Import PageEntry PageSource Paging PagingLive Paged PageMapper BootPaging.
From S2P Require Import Heap HeapSpec HeapRefine HeapMalloc HeapGrow HeapClient HeapRun HeapFrame BootMemory MemorySamples.
From S2P Require Import CString PortIO Descriptors Framebuffer Console Kprintf Screen Output Layout StringBuilder.
From S2P Require Import Logger HeapTest LogSeq Panic BootLog ACPI AcpiInit Boot BootRun BootAcpi Kernel.
From S2P Require Import Limine Objects Responses.

(** ** The kernel's image *)

Definition image_strings : list (Z * list Z) :=
  [(0xffffffff80001000, bytes_of_string "$c8["); (0xffffffff80001010, bytes_of_string "/");
   (0xffffffff80001020, bytes_of_string "] $c7[INF]$cF "); (0xffffffff80001040, bytes_of_string "] $cY[WRN]$cF ");
   (0xffffffff80001060, bytes_of_string "] $cR[ERR]$cF "); (0xffffffff80001080, [10]);
   (0xffffffff80001090, bytes_of_string "FastStringBuilder OutOfBounds");
   (0xffffffff800010c0, bytes_of_string "FastStringBuilder Unable to allocate memory");
   (0xffffffff80001100, ns); (0xffffffff80001110, tg); (0xffffffff80001120, hello);
   (0xffffffff80001200, bytes_of_string "Enabling ACPI..."); (0xffffffff80001240, bytes_of_string "RSDP: %x");
   (0xffffffff80001280, bytes_of_string "Detected ACPI 2.0+!"); (0xffffffff800012c0, bytes_of_string "Calling ACPI::init");
   (0xffffffff80001300, bytes_of_string "Looking for FACP"); (0xffffffff80001340, bytes_of_string "FACP: %x");
   (0xffffffff80001380, bytes_of_string "ACPI is (hopefully) enabled"); (0xffffffff800013c0, bytes_of_string "ACPI FACP was not found!");
   (0xffffffff80001400, bytes_of_string "No memory map!"); (0xffffffff80001440, bytes_of_string "RSDP Signature does not match!")].

Definition kernel_mem : mem := foldr (λ '(p, s) m, store p s m) ∅ image_strings.

Definition kernel_lits : literals := mkLiterals 0xffffffff80001000 0xffffffff80001010 0xffffffff80001020 0xffffffff80001040 0xffffffff80001060 0xffffffff80001080 0xffffffff80001090 0xffffffff800010c0.
Definition kernel_acpi : acpi_literals := mkAcpiLiterals 0xffffffff80001300 0xffffffff80001340 0xffffffff800013c0 0xffffffff80001380.

Definition kernel_image : image :=
  mkImage kernel_lits kernel_acpi 0xffffffff80001120 0xffffffff80001100 0xffffffff80001110 0xffffffff80001200 0xffffffff80001240 0xffffffff80001280 0xffffffff800012c0 0xffffffff80001400 0xffffffff80001440
    defaultGDT 0xffffffff80003000 0xffffffff80004340 0xffffffff80005800 (replicate 256 (mkGate 0 0 0 0 0 0 0)) sample_stubs
    (0xffffffff80001800, 0xffffffff80001800) (0xffffffff80001800, 0xffffffff80001800).

(** The screen, at the physical address 0xB0000. *)
Definition kernel_fb : limine_framebuffer := mkFramebuffer (boot_hhdm + 0xB0000) 64 32 256 32.

Definition kernel_fuel : nat := Z.to_nat 23400.

Definition kernel_console : Console := mkConsole kernel_mem terminal_boot [] false false.

Lemma kernel_mem_low x : x < boot_kernel → rd8 kernel_mem x = 0.
Proof.
  intros Hx. unfold kernel_mem, image_strings. cbn [foldr].
  rewrite !rd8_store by (vm_compute; repeat constructor; discriminate).
  rewrite !decide_False by (cbn; unfold boot_kernel in Hx; lia). done.
Qed.

Lemma image_stable a : boot_kernel <= a < boot_kernel + 0x10000 → stable kernel_fb a.
Proof. unfold boot_kernel. intros Ha. split; [right; cbn; unfold boot_hhdm; lia|split; lia]. Qed.

Lemma image_placed p s :
  cstrb kernel_mem p s && (boot_kernel <=? p) && (p + Z.of_nat (length s) <? boot_kernel + 0x10000) && (length s <? 200)%nat = true →
  placed kernel_fuel kernel_fb kernel_mem p s.
Proof.
  rewrite !andb_true_iff, cstrb_spec, Z.leb_le, Z.ltb_lt, Nat.ltb_lt. intros [[[H1 H2] H3] H4].
  split; [done| |unfold boot_kernel in *; znorm; lia|unfold kernel_fuel; lia]. intros i Hi. apply image_stable. lia.
Qed.

Lemma kernel_image_ok : image_ok kernel_fb kernel_fuel kernel_image kernel_mem.
Proof. split; try (apply image_placed; vm_compute; reflexivity). vm_compute. split; [discriminate|reflexivity]. Qed.

Lemma kernel_loaded : loaded text_font 1 200 kernel_fuel kernel_image kernel_fb kernel_console.
Proof.
  split; [|done|done| | | |exact kernel_image_ok|].
  - split; [done|done|done|]. vm_compute. discriminate.
  - split_and!; [done|znorm; cbn; lia|znorm; cbn; lia].
  - split_and!; [apply length_replicate|vm_compute; discriminate|vm_compute; discriminate].
  - split; [intros a Ha; left; cbn; unfold boot_hhdm; lia|]. intros a Ha. apply kernel_mem_low. unfold boot_kernel. lia.
  - split_and!; [lia|unfold kernel_fuel; lia|lia].
Qed.

Lemma kernel_panic msg s :
  cstrb kernel_mem msg s && (boot_kernel <=? msg) && (msg + Z.of_nat (length s) <? boot_kernel + 0x10000) && (length s <? 200)%nat = true →
  forallb (λ c, negb (c =? 36)) s = true →
  panic_placed kernel_fb kernel_fuel kernel_mem msg s (0xffffffff80001800, 0xffffffff80001800).
Proof.
  intros H1 H2.
  assert (stack_safe (stable kernel_fb) 16 kernel_mem 0xffffffff80001800) as Hst.
  { cbn [stack_safe]. right. split; [intros i Hi; apply image_stable; unfold boot_kernel; lia|]. left. vm_compute. reflexivity. }
  split; [by apply image_placed| |exact Hst|exact Hst]. apply Forall_forall. intros c Hc ->.
  rewrite forallb_forall in H2. apply list_elem_of_In in Hc. by specialize (H2 36 Hc).
Qed.

(** ** The boot loader and the firmware *)

Definition kernel_responses (mm : option limine_memmap_response) : responses :=
  mkResponses (Some [kernel_fb]) mm (Some boot_hhdm) (Some (752 * 4096, boot_kernel)) (Some (boot_hhdm + 0xA3000)).

(** An RSDP of ACPI 2.0 behind the tables. *)
Definition kernel_ram : mem := wr32 (wr8 (store 0xA3000 (bytes_of_string "RSD PTR ") acpi_ram) 0xA300F 2) 0xA3010 0xA0000.

Lemma kernel_answered :
  answered (kernel_responses (Some boot_memmap)) kernel_fb boot_memmap boot_hhdm (752 * 4096) boot_kernel (boot_hhdm + 0xA3000).
Proof. split; [by exists []|done|done|done|done|]. split_and!; by vm_compute. Qed.

Lemma kernel_mappable : mappable boot_memmap boot_hhdm boot_kernel [] boot_region.
Proof. split; [exact boot_memmap_boot_ok|exact boot_memmap_layout|exact boot_enough]. Qed.

Lemma boot_aside a : 0xA0000 <= a < 0xA4000 → set_aside boot_memmap a.
Proof.
  intros Ha. split; [lia|]. change (total_pages boot_memmap) with 768. split; [zlia|].
  assert (a / 4096 = 160 ∨ a / 4096 = 161 ∨ a / 4096 = 162 ∨ a / 4096 = 163) as [E|[E|[E|E]]] by zlia;
    rewrite E; vm_compute; reflexivity.
Qed.

Lemma kernel_rsdp_at : rsdp_at boot_hhdm boot_memmap (boot_hhdm + 0xA3000) 0xA3000.
Proof.
  split.
  - split_and!; [done|vm_compute; discriminate|vm_compute; discriminate].
  - exists (mkEntry (160 * 4096) (96 * 4096) 1). split; [by apply elem_of_cons; right; apply elem_of_cons; left|].
    split_and!; [done|done|cbn; lia|cbn; lia].
  - intros a Ha. apply boot_aside. lia.
Qed.

(** The two tables, and an RSDT without entries. *)
Definition bare_ram : mem := wr32 (wr32 ∅ 0xA0004 36) 0xA3010 0xA0000.

Lemma kernel_tables m len ptrs :
  rd32 m (0xA3000 + RSDP_RsdtAddress) = 0xA0000 → rd32 m (0xA0000 + HDR_Length) = len →
  sdt_pointers m 0xA0000 0 ((len - SIZEOF_SDT) / 4) = ptrs → the_facp m 0xA0000 ∈ [0; 0xA2000] →
  36 <= len <= 4096 → Forall (.∈ [0xA1000; 0xA2000]) ptrs →
  firmware boot_hhdm boot_kernel boot_memmap [] m 0xA3000.
Proof.
  intros E1 E2 E3 E4 Hlen Hp. rewrite Forall_forall in Hp.
  assert (∀ p, p ∈ ptrs → p = 0xA1000 ∨ p = 0xA2000) as Hp2.
  { intros p Hin. specialize (Hp p Hin). by rewrite !elem_of_cons, elem_of_nil in Hp; intuition. }
  rewrite !elem_of_cons, elem_of_nil in E4.
  assert (∀ n, 0 <= n < 4096 → Forall (.∈ plan_tables (boot_plan boot_hhdm boot_kernel (mm_entries boot_memmap) ++ []))
    (table_paths (n * 4096))) as Hpl by (intros; by apply low_pages_planned).
  split; rewrite E1.
  - intros a Ha. apply boot_aside. unfold init_bytes, acpi_bytes in Ha. cbn zeta in Ha. rewrite E2, E3 in Ha.
    destruct Ha as [[Ha|(p & Hin & Ha)]|[Hne Ha]]; [lia|specialize (Hp2 p Hin); lia|]. destruct E4 as [E|[E|[]]]; lia.
  - split; cbn zeta; rewrite ?E2, ?E3.
    + split_and!; [done|change (0xA0000 mod 4096) with 0; lia|lia].
    + unfold SIZEOF_SDT. lia.
    + exact (Hpl 160 ltac:(lia)).
    + intros p Hin. destruct (Hp2 p Hin) as [->| ->]; (split; [done|]); [exact (Hpl 161 ltac:(lia))|exact (Hpl 162 ltac:(lia))].
  - destruct E4 as [->|[->|[]]]; done.
  - intros v Hv [E|(p & Hin & E)]; [zlia|]. rewrite E2, E3 in Hin. specialize (Hp2 p Hin). zlia.
Qed.

Lemma kernel_firmware : firmware boot_hhdm boot_kernel boot_memmap [] kernel_ram 0xA3000.
Proof.
  apply (kernel_tables _ 44 [0xA1000; 0xA2000]); [by vm_compute|by vm_compute|by vm_compute| |lia|].
  - replace (the_facp kernel_ram 0xA0000) with 0xA2000 by (vm_compute; reflexivity). by apply elem_of_cons; right; left.
  - repeat constructor.
Qed.

Lemma bare_firmware : firmware boot_hhdm boot_kernel boot_memmap [] bare_ram 0xA3000.
Proof.
  apply (kernel_tables _ 36 []); [by vm_compute|by vm_compute|by vm_compute| |lia|constructor].
  replace (the_facp bare_ram 0xA0000) with 0 by (vm_compute; reflexivity). by left.
Qed.

(** ** The theorems on this machine *)

Definition kernel_start (mm : option limine_memmap_response) (m : mem) : outcome (phase kernel) :=
  _start ready_device 1 text_font 1 200 kernel_fuel (kernel_responses mm) kernel_image m boot_region kernel_console.



Lemma boot_without_memmap_witness : ∃ k, kernel_start None ∅ = Done (Halted k).
Proof.
  destruct (boot_without_memmap ready_device 1 text_font 1 200 kernel_fuel (kernel_responses None) kernel_image
    kernel_fb [] ∅ boot_region kernel_console ready_device_ok eq_refl eq_refl kernel_loaded)
    as (v & k1 & k' & E & _).
  - by apply kernel_panic; vm_compute.
  - by exists k'.
Defined.

(** The state behind the heap test. *)
Lemma kernel_set_up m :
  ∃ v seg p w pl h k,
    set_up text_font kernel_image kernel_fb boot_memmap boot_hhdm (752 * 4096) boot_kernel [] m boot_region
      kernel_console v seg p w pl h k.
Proof.
  destruct (boot_set_up ready_device 1 text_font 1 200 kernel_fuel (kernel_responses (Some boot_memmap)) kernel_image
    ready_device_ok kernel_fb boot_memmap boot_hhdm (752 * 4096) boot_kernel (boot_hhdm + 0xA3000) [] m boot_region
    kernel_console kernel_answered kernel_loaded kernel_mappable)
    as (gdt & idt & v & seg & p & w & pl & h & k & _ & H).
  by exists v, seg, p, w, pl, h, k.
Qed.

Lemma kernel_stable_kept (h : Heap Paged) a :
  heapStart h = 0x800000 ∧ heapEnd h = 0x900000 → stable kernel_fb a → kept h [heap_seg] a ∧ off_screen kernel_fb a.
Proof. intros [E1 E2] Ha. split; [by eapply stable_kept|apply Ha]. Qed.

Lemma log_sequence_witness :
  ∃ (h h' : Heap Paged) k k',
    log_all ready_device 1 kernel_fb text_font 1 200 kernel_fuel kernel_lits (acpiLogger kernel_image)
      (all_messages kernel_image 0xA3000 0xA2000) h k = Done (h', k') ∧
    logged kernel_fb text_font (acpiLogger kernel_image) h [heap_seg] k
      (concat (m_text ns tg <$> all_messages kernel_image 0xA3000 0xA2000)) h' k'.
Proof.
  destruct (kernel_set_up ∅) as (v & seg & p & w & pl & h & k & Hs).
  pose proof Hs as [_ _ _ _ [G1 G2 G3 G4 G5] [T2 T3 _ _ _]].
  destruct (set_up_calm text_font 1 200 kernel_fuel kernel_image _ _ _ _ _ 0xA3000 _ _ _ _ _ _ _ _ _ _ _ 0xA2000
    (all_messages kernel_image 0xA3000 0xA2000) Hs kernel_loaded ltac:(by vm_compute) ltac:(by vm_compute) ltac:(done))
    as [C1 C2 C3 C4 C5].
  destruct (log_sequence ready_device 1 kernel_fb text_font 1 200 kernel_fuel kernel_lits (acpiLogger kernel_image) ns tg
    (all_messages kernel_image 0xA3000 0xA2000) h 0x800000 (0x100000 - 29) k ready_device_ok ltac:(lia) G1)
    as (h' & k' & E & D).
  - destruct G2 as [_ ->]. lia.
  - destruct G2 as [_ ->]. exact G5.
  - exact G3.
  - exact T2.
  - exact T3.
  - apply Forall_forall. intros m Hm. split; [by apply C3|by apply C5].
  - exact C2.
  - by exists h, h', k, k'.
Defined.

Lemma ACPI_init_panics_witness :
  ∃ (h : Heap Paged) k k',
    ACPI_init ready_device 1 kernel_fb text_font 1 200 kernel_fuel kernel_lits kernel_acpi 0xA0000 0xffffffff80001800 0xffffffff80001800
      (acpiLogger kernel_image) acpi_boot h k = Done (Halted k').
Proof.
  destruct (kernel_set_up bare_ram) as (v & seg & p & w & pl & h & k & Hs).
  pose proof Hs as [_ [_ HI] _ _ [G1 G2 G3 (hm & h0 & Hup & Ew) G5] [_ _ _ _ T5]].
  pose proof (firmware_world _ _ _ _ _ _ _ _ _ _ _ HI Hup bare_firmware) as Hfw.
  pose proof (firmware_facp _ _ _ _ _ _ _ _ _ _ _ HI Hup bare_firmware) as Ef.
  cbn zeta in Hfw, Ef. rewrite <- Ew in Hfw, Ef.
  assert (rd32 bare_ram (0xA3000 + RSDP_RsdtAddress) = 0xA0000) as E0 by by vm_compute.
  assert (the_facp bare_ram 0xA0000 = 0) as E1 by by vm_compute.
  rewrite E0 in Hfw, Ef. rewrite E1 in Ef.
  assert (panic_placed kernel_fb kernel_fuel kernel_mem 0xffffffff800013c0 (bytes_of_string "ACPI FACP was not found!") (0xffffffff80001800, 0xffffffff80001800))
    as [P1 P5 P6 _] by (by apply kernel_panic; vm_compute).
  assert (∀ a, stable kernel_fb a → rd8 (h_mem h) a = rd8 kernel_mem a) as Hm by (intros a Ha; rewrite <- G3; by apply T5).
  destruct (stack_agree _ 16 _ _ _ Hm P6) as [_ W].
  apply (placed_agree kernel_fuel kernel_fb kernel_mem (h_mem h) _ _ Hm) in P1 as [P1 P2 P3 P4].
  destruct (ACPI_init_panics ready_device 1 kernel_fb text_font 1 200 kernel_fuel kernel_lits kernel_acpi
    (acpiLogger kernel_image) ns tg
    (plan_tables (boot_plan boot_hhdm boot_kernel (mm_entries boot_memmap) ++ [])) (all_messages kernel_image 0xA3000 0)
    h 0x800000 (0x100000 - 29) k 0xA0000 0xffffffff80001800 0xffffffff80001800 acpi_boot ready_device_ok ltac:(lia) G1)
    as (k' & E & _).
  - by destruct G2 as [-> ->].
  - eapply (set_up_calm text_font 1 200 kernel_fuel kernel_image); [exact Hs|exact kernel_loaded|by vm_compute|by vm_compute|].
    intros x Hx. unfold all_messages. apply elem_of_app. by right.
  - split.
    + split; [unfold kernel_fuel; lia|exact P4].
    + split; [exact P1|exact P5].
    + intros i Hi. apply kernel_stable_kept; [exact G2|]. by apply P2.
    + eapply stack_safe_mono; [|exact W]. intros a. by apply kernel_stable_kept.
    + eapply stack_safe_mono; [|exact W]. intros a. by apply kernel_stable_kept.
  - exact Ef.
  - by exists h, k, k'.
Defined.

(** The search on the tables of this machine. *)
Lemma findTable_correct_witness :
  ∃ k k', findTable k 0xA0000 (bytes_of_string "APIC") = Done (0xA2000, k').
Proof.
  destruct (kernel_set_up kernel_ram) as (v & seg & p & w & pl & h & k & Hs).
  pose proof Hs as [_ [_ HI] _ _ [G1 G2 G3 (hm & h0 & Hup & Ew) G5] _].
  pose proof (firmware_world _ _ _ _ _ _ _ _ _ _ _ HI Hup kernel_firmware) as [F1 F2 _ _].
  pose proof (firmware_facp _ _ _ _ _ _ _ _ _ _ _ HI Hup kernel_firmware) as Ef.
  assert (rd32 kernel_ram (0xA3000 + RSDP_RsdtAddress) = 0xA0000) as E0 by by vm_compute.
  assert (the_facp kernel_ram 0xA0000 = 0xA2000) as E1 by by vm_compute.
  rewrite E0 in F1, F2, Ef. rewrite E1 in Ef. exists (h_world h0).
  destruct (findTable_correct (plan_tables (boot_plan boot_hhdm boot_kernel (mm_entries boot_memmap) ++ []))
    (h_world h0) 0xA0000 (bytes_of_string "APIC") F1) as (k' & E & _).
  - destruct F2 as [V1 V2 V3]. split; [exact V1|exact V2|]. intros a Ha. apply V3. by left.
  - exists k'. rewrite <- Ef. exact E.
Defined.

(** The responses of this machine, in memory. *)
Definition kernel_answers : answers :=
  mkAnswers 0 [(kernel_fb, [])] boot_memmap boot_hhdm (752 * 4096, boot_kernel) (boot_hhdm + 0xA3000).
Definition kernel_arrays : arrays :=
  mkArrays 0x3a0 [0x400] 0x600 ((λ i, 0x700 + 24 * i) <$> seqZ 0 (Z.of_nat (length (mm_entries boot_memmap)))).

Lemma kernel_well_answered : well_answered gap_requests gap_pointers kernel_arrays kernel_answers.
Proof.
  split.
  - apply (bool_decide_unpack _). vm_compute. exact I.
  - repeat constructor; vm_compute; discriminate.
  - apply u64_list. vm_compute. reflexivity.
  - done.
  - split; vm_compute; split; [discriminate|reflexivity|discriminate|reflexivity].
  - repeat constructor; vm_compute; discriminate.
  - repeat constructor; vm_compute; discriminate.
  - apply u64_list. vm_compute. reflexivity.
Qed.

Lemma responses_read_witness :
  read_responses (write_objects (answered_objects gap_requests gap_pointers kernel_arrays kernel_answers) ∅) gap_requests =
  Done (kernel_responses (Some boot_memmap)).
Proof.
  rewrite (responses_read gap_requests gap_pointers kernel_arrays kernel_answers ∅ kernel_well_answered); [done|].
  intros i x y Hx Hy. unfold kernel_arrays in *. cbn [ar_es] in *.
  apply list_lookup_fmap_Some in Hx as (a & -> & Ha), Hy as (b & -> & Hb). apply lookup_seqZ in Ha as [-> _], Hb as [-> _].
  change (sizeof memmap_entry_struct) with 24. lia.
Defined.
